(* ===== verification/_CoqProject ===== *)
-Q . S2P
Prelude.v
GoStrings.v
PathMatch.v
Wire.v
AppError.v
Config.v
Connections.v
Reqctx.v
Auth.v
Effects.v
Ratelimit.v
Model.v
Database.v
Repository.v
Unique.v
Sql.v
Clock.v
Libraries.v
Service.v
ServiceSpec.v
ServiceAdmin.v
Outbound.v
Dispatcher.v
DispatcherSpec.v
Liveness.v
Cleanup.v
System.v
SystemSpec.v
Retries.v
Calls.v
Web.v
Health.v
Middleware.v
Handlers.v
HttpServer.v
ChainSpec.v
HttpSpec.v
Grpc.v
GrpcSpec.v
Failures.v
TransportSpec.v
GrpcClient.v
Locking.v
Metrics.v
Migration.v
Startup.v
Wiring.v
Container.v
ContainerSpec.v
Deployment.v
Commands.v
Loops.v
Concrete.v
ConcreteServer.v
Witnesses.v
ServerWitnesses.v
