(* ===== verification/Prelude.v ===== *)
(** * notification-service: a verification library

    The program is a notification service: clients register templates and
    providers and send notifications, which are stored as deliveries; dispatchers
    deliver them through HTTP providers with retries; providers report receipts;
    a cleaner removes old deliveries.

    ** Files

    - Prelude.v: machine integers, Go errors ([error], [error_is], [failed]), the
      state monad [M] and its notations, generic lemmas and tactics.
    - GoStrings.v, PathMatch.v: the parts of [strings] and [path.Match] the
      program uses, byte for byte, with their specifications.
    - AppError.v (internal/apperror), Config.v (internal/config), Reqctx.v
      (internal/requestid, environment, idempotency), Auth.v (internal/auth),
      Ratelimit.v (internal/ratelimit): one definition per function.  Connections.v:
      the gRPC client's configuration, its connection and the authorizer made on it,
      which the servers are given.
    - Effects.v: the outside world, an oracle that answers the n-th call of a run
      (clock, uuids, database faults, HTTP replies, verifier, limiter, breaker).
      Theorems quantify over it.
    - Model.v, Database.v, Repository.v: the rows (model.go), transactions
      (internal/database), and the [Repository] interface as a class with its
      laws over the abstract [Tables].  Sql.v implements it (repository.go) over
      tables with unique indexes, a collation and a driver that can fail before
      or after a statement took effect, and proves the laws
      ([SQLRepository_implements]).  Unique.v: the unique indexes.  Clock.v: the moments
      that claims and deletions compare with are the clock's, as a class of the
      repository ([RepositoryClock]) with the SQL repository as its instance.
    - Libraries.v: the libraries the code calls, as classes.
    - Service.v (service.go), with ServiceSpec.v and ServiceAdmin.v: the methods,
      and what they promise over any repository that keeps the laws.
    - Outbound.v (internal/outbound): the HTTP client with retries, backoff and
      circuit breaker, and the registry.
    - Dispatcher.v (dispatcher.go), with DispatcherSpec.v: senders, attempts, the
      claim, settlement and the worker's loop.  Liveness.v: without faults a round
      settles every delivery it claims.  Cleanup.v (cleanup.go): retention.
      Loops.v: the goroutines that repeat these rounds, as a state machine, in which
      a round is assumed to end.
    - System.v, SystemSpec.v: the life of a delivery when all of these share the
      tables.  A step is one transaction of one process, or a crash; the
      operations are sequences of steps ([executions_refine]), so the invariant
      of the reachable states holds of every execution.  Retries.v: undisturbed
      rounds of the dispatcher in a row, and what becomes of what [Send] accepted.
    - Wire.v: JSON and what is exchanged with the platform.  Web.v (response.go),
      Middleware.v (middleware.go), Handlers.v (handler.go, internal/buildinfo),
      HttpServer.v (server.go), Health.v (internal/health): the HTTP transport, over
      a record for the gin context.  A middleware is a function of the rest of its
      chain; ChainSpec.v says what each passes on, and HttpSpec.v what the whole
      chain promises.
    - Grpc.v (internal/transport/grpc), with GrpcSpec.v: methods and interceptors.
      Calls.v: the values of the service's answers, which both transports render.
      Failures.v: the contract of failures, each with its status on both transports.
      TransportSpec.v: executions of the system through both transports are
      executions of System.v ([served_executions_refine]).
    - GrpcClient.v (internal/grpcclient, registry.go), Locking.v (internal/cache,
      internal/scheduler), Migration.v (internal/migration), Metrics.v
      (observability/metrics.go): registration never panics, and each place that
      observes something names a registered vector with all its labels.
    - Startup.v (LoadWithProfile), Wiring.v (internal/app, internal/database's Open,
      logging, tracing): the constructors, and what each opens and closes.
      Container.v ([app.New], [fx.App.Run]): the parts with their constructors' parameters
      ([Params]), what is invoked, the hooks, and the run from the first constructor to the
      last stop hook.  The servers are given the authorizer, the health service and the
      notification service that were built; the event runtime's two loops are opened and
      closed in the log like the connections.
      The order in which the container builds is a parameter ([fx_schedule]) with fx's
      documented laws ([FxLaws]); a stop timeout ends the process at once.
      ContainerSpec.v: what the start and the shutdown promise.  Deployment.v: what a
      started process runs is an instance of TransportSpec.v.
      Commands.v (cmd/api, cmd/migrate): the programs, from their flags to their end.
    - Concrete.v, ConcreteServer.v: a concrete deployment on which the model runs;
      Witnesses.v, ServerWitnesses.v: each theorem with hypotheses applied there.

    ** Conventions

    A Go function that returns [(T, error)] returns the pair; one with effects is
    a function of the world in [M].  A method of the source keeps its name, in a
    Module named after its type.  [int], [int64] and [time.Duration] are [Z] with
    the wrap-around written where a result can leave the range.  A context is the
    record of the values the program stores in it.

    ** Bounds and fuel

    The only loop without an evident bound is the cleaner's: it takes fuel, and
    [clean_terminates] proves that one more round than there are deliveries is
    enough.  The worker and the cleaner run for a given number of ticks.  The
    retry loops of the clients take the configured number of attempts as fuel.
    Retries.v counts rounds: one due round for each attempt that is left is enough.

    ** What the theorems show

    The life of a delivery: an invariant of the reachable states, the status
    machine, exclusive claims, idempotent sending, final receipts, progress of a
    round, the end of the retries (sent, or a dead letter with all attempts used),
    and what is not recovered (a row left in processing).  The service:
    each method's outcome on every path, atomicity, isolation of the tenants.
    The transports: guards, one answer per request, replay by idempotency key,
    agreement of HTTP and gRPC, the contract of failures, and refinement of the system.
    The clients: bounded, uniform attempts.  The process: a valid configuration,
    migration first, one service behind both servers as the configuration has it, users
    and loops stopped before what they use, and no leak.

    ** What they leave open

    An error of a commit leaves the caller in doubt: [answer_lost] and [commit_lost] say
    that it is exactly the commit's answer that was lost, and only then may an operation
    that failed have changed the tables.  A configured skip pattern (auth.skip_http_paths,
    auth.skip_grpc_methods) exempts a path or a method from authentication: [exempt] and
    [gexempt] are a case of their own in what the guards promise.

    ** What is not modelled

    The libraries under the program are parameters: the SQL drivers, Redis and redsync,
    gin's routing and decoding, grpc-go's transport, the platform's authorization,
    idempotency and event packages, viper, slog, Prometheus, cron and the tracer.  The keys,
    the checks, the range of a provider's priority and those of the counters are written
    out in Repository.v and Sql.v; the lengths and formats of the text columns (VARCHAR(n)
    on MySQL, UUID) are the database's: a statement that breaks one is a statement that
    the driver refused.  Log texts, traces and the generated API documentation
    (docs/docs.go) are left out.

    ** Not modelled

    What the container fx does itself, the values of the metrics and the texts of the logs
    (what is observed is an event of the run), traces, the generated API
    documentation, the parsing of the command line, and the platform's libraries,
    which are classes with the laws the theorems use.  A context that is cancelled shows as a fault
    of the call that sees it, an HTTP handler's panic as a mark on its context. *)

From stdpp Require Export base gmap strings list sorting pretty.
From coqutil Require Export Datatypes.RecordSetters.
Export OCamlLikeNotations.

Open Scope Z_scope.

Declare Scope go_scope.
Delimit Scope go_scope with go.

(** ** Machine integers

    Go's [int], [int64] and [time.Duration] are 64-bit and [int32] is 32-bit
    two's complement; arithmetic on them wraps.  A value is a [Z]; the
    operations whose result can leave the range are wrapped explicitly. *)

Definition wrap (bits : Z) (z : Z) : Z :=
  (z + 2 ^ (bits - 1)) `mod` 2 ^ bits - 2 ^ (bits - 1).
Definition wrap32 : Z → Z := wrap 32.
Definition wrap64 : Z → Z := wrap 64.

Definition in_int (bits z : Z) : Prop := - 2 ^ (bits - 1) ≤ z < 2 ^ (bits - 1).
Definition max_int64 : Z := 2 ^ 63 - 1.

Lemma wrap_id bits z : 0 < bits → in_int bits z → wrap bits z = z.
Proof.
  intros Hb [Hlo Hhi]. unfold wrap.
  assert (2 ^ bits = 2 * 2 ^ (bits - 1)) as Hp.
  { rewrite <- Z.pow_succ_r by lia. f_equal. lia. }
  rewrite Z.mod_small; lia.
Qed.

Lemma wrap_range bits z : 0 < bits → in_int bits (wrap bits z).
Proof.
  intros Hb. unfold in_int, wrap.
  assert (2 ^ bits = 2 * 2 ^ (bits - 1)) as Hp.
  { rewrite <- Z.pow_succ_r by lia. f_equal. lia. }
  pose proof (Z.pow_pos_nonneg 2 (bits - 1)).
  pose proof (Z.mod_pos_bound (z + 2 ^ (bits - 1)) (2 ^ bits)). lia.
Qed.

Lemma wrap64_id z : in_int 64 z → wrap64 z = z.
Proof. by apply wrap_id. Qed.
Lemma wrap32_id z : in_int 32 z → wrap32 z = z.
Proof. by apply wrap_id. Qed.

(** ** Errors

    A Go [error] value.  [nil_err] is the absent error ([nil]).  [ErrSentinel] is a
    package-level variable compared by identity, [ErrMsg] an error made by
    [errors.New] or by [fmt.Errorf] without [%w] (never identical to another
    one), [ErrWrap m e] is [fmt.Errorf("m: %w", e)], [ErrJoin] is
    [errors.Join] of two arguments, and [ErrApp] is the program's
    [*apperror.Error] with its code, message, HTTP status and cause. *)

Inductive sentinel :=
  | ErrNotFound | ErrStaleVersion          (* internal/notification *)
  | ErrNoRows                              (* database/sql *)
  | ErrNotGranted                          (* appaccess *)
  | ErrDecisionUnavailable                 (* authz *)
  | ErrCanceled | ErrDeadlineExceeded      (* context *)
  | ErrBadPattern                          (* path *)
  | ErrNoChange                            (* migrate *)
  | ErrLockFailed                          (* redsync.ErrFailed *)
  | ErrLockTaken                           (* *redsync.ErrTaken *).
#[export] Instance sentinel_eq_dec : EqDecision sentinel.
Proof. solve_decision. Defined.

(** The application error codes of [apperror]: the constants are pairwise
    distinct symbols (their numeric values live in the platform library). *)
Inductive Code :=
  | CodeOK | CodeInvalidArgument | CodeNotFound | CodeRequestTimeout
  | CodeTooManyRequests | CodeUnauthorized | CodeForbidden | CodeConflict
  | CodeRequestInProgress | CodeStaleVersion | CodeInternal
  | CodeDependencyUnavailable.
#[export] Instance Code_eq_dec : EqDecision Code.
Proof. solve_decision. Defined.

Inductive error :=
  | nil_err
  | ErrSentinel (s : sentinel)
  | ErrMsg (m : string)
  | ErrWrap (m : string) (e : error)
  | ErrJoin (e1 e2 : error)
  | ErrApp (code : Code) (message : string) (status : Z) (cause : error).
#[export] Instance error_eq_dec : EqDecision error.
Proof. solve_decision. Defined.

Definition is_nil (e : error) : bool :=
  match e with nil_err => true | _ => false end.
(** [if err != nil] *)
Definition failed (e : error) : bool := negb (is_nil e).

(** [errors.Is(err, target)] for a sentinel target. *)
Fixpoint error_is (e : error) (s : sentinel) : bool :=
  match e with
  | nil_err | ErrMsg _ => false
  | ErrSentinel s' => bool_decide (s' = s)
  | ErrWrap _ e => error_is e s
  | ErrJoin e1 e2 => error_is e1 s || error_is e2 s
  | ErrApp _ _ _ c => error_is c s
  end.

Record AppError := mkAppError {
  app_Code : Code; app_Message : string; app_HTTPStatus : Z; app_Err : error }.

(** [errors.As(err, &appErr)] with [appErr *apperror.Error]: the first
    application error met when unwrapping. *)
Fixpoint error_as_app (e : error) : option AppError :=
  match e with
  | nil_err | ErrMsg _ | ErrSentinel _ => None
  | ErrWrap _ e => error_as_app e
  | ErrJoin e1 e2 =>
      match error_as_app e1 with Some a => Some a | None => error_as_app e2 end
  | ErrApp c m s e => Some (mkAppError c m s e)
  end.

(** [errors.Join(e1, e2)]: nil when both are nil. *)
Definition errors_Join (e1 e2 : error) : error :=
  match e1, e2 with nil_err, nil_err => nil_err | _, _ => ErrJoin e1 e2 end.

(** ** The state monad

    The program's functions read and change a world: the committed database
    tables, a counter of the external calls made so far and the log of the
    calls whose order or number matters.  A Go function returning
    [(T, error)] has type [M DB Ev (T * error)]: Go returns a value beside a
    non-nil error, and so does the model. *)

Record World (DB Ev : Type) := mkWorld {
  w_db : DB;
  w_tick : nat;
  w_log : list Ev }.
Arguments mkWorld {DB Ev}.
Arguments w_db {DB Ev}.
Arguments w_tick {DB Ev}.
Arguments w_log {DB Ev}.

Definition M (DB Ev A : Type) : Type := World DB Ev → A * World DB Ev.

Section Monad.
Context {DB Ev : Type}.

Definition ret {A} (a : A) : M DB Ev A := λ w, (a, w).
Definition bind {A B} (m : M DB Ev A) (f : A → M DB Ev B) : M DB Ev B :=
  λ w, let '(a, w') := m w in f a w'.

(** The index of the next external call. *)
Definition tick : M DB Ev nat :=
  λ w, (w_tick w, mkWorld (w_db w) (S (w_tick w)) (w_log w)).
Definition get_db : M DB Ev DB := λ w, (w_db w, w).
Definition put_db (d : DB) : M DB Ev unit :=
  λ w, (tt, mkWorld d (w_tick w) (w_log w)).
Definition emit (e : Ev) : M DB Ev unit :=
  λ w, (tt, mkWorld (w_db w) (w_tick w) (w_log w ++ [e])).
End Monad.

Notation "'let!' p ':=' m 'in' k" := (bind m (λ p, k))
  (at level 10, p strict pattern, m at level 200, k at level 200,
   format "'[v' 'let!'  p  ':='  m  'in' '//' k ']'") : go_scope.
Notation "m ';;' k" := (bind m (λ _, k))
  (at level 100, k at level 200, right associativity,
   format "'[v' m  ';;' '//' k ']'") : go_scope.
(** [if b { return r }] followed by the rest of the function. *)
Notation "'when!' b 'return!' r ';' k" := (if b then ret r else k)
  (at level 10, b at level 200, r at level 200, k at level 200,
   format "'[v' 'when!'  b  'return!'  r ';' '//' k ']'") : go_scope.
Open Scope go_scope.

(** String and integer comparison as Go's [==] writes it. *)
Notation "a == b" := (bool_decide (a = b)) (at level 70) : go_scope.
Notation "a != b" := (negb (bool_decide (a = b))) (at level 70) : go_scope.

Lemma bind_ret_l {DB Ev A B} (a : A) (f : A → M DB Ev B) w : bind (ret a) f w = f a w.
Proof. done. Qed.

Lemma bind_assoc {DB Ev A B C} (m : M DB Ev A) (f : A → M DB Ev B) (g : B → M DB Ev C) w :
  bind (bind m f) g w = bind m (λ a, bind (f a) g) w.
Proof. unfold bind. by destruct (m w). Qed.

Lemma bind_inv {DB Ev A B} (m : M DB Ev A) (f : A → M DB Ev B) w r :
  bind m f w = r → ∃ a w1, m w = (a, w1) ∧ f a w1 = r.
Proof. unfold bind. destruct (m w) as [a w1]. eauto. Qed.

Lemma failed_nil e : failed e = false ↔ e = nil_err.
Proof. by destruct e. Qed.
Lemma failed_not_nil e : failed e = true ↔ e ≠ nil_err.
Proof. by destruct e. Qed.

(** The outcome of a call that reports [e], split on whether it failed. *)
Lemma outcome_failed (e : error) (P Q : Prop) :
  failed e = true → P → if failed e then P else Q.
Proof. by intros ->. Qed.
(** The change of a failed call, without the reason why it was kept. *)
Lemma outcome_change (e : error) (P Q R why : Prop) :
  (if failed e then P ∨ (Q ∧ why) else R) → if failed e then P ∨ Q else R.
Proof. destruct (failed e); tauto. Qed.
(** ** Lists *)

Lemma existsb_false {A} (p : A → bool) rows : existsb p rows = false ↔ ∀ r, r ∈ rows → p r = false.
Proof.
  induction rows as [|r rows IH]; simpl; [split; [by intros _ ? ?%not_elem_of_nil|done]|].
  rewrite orb_false_iff, IH. split.
  - intros [H1 H2] x [->|Hx]%elem_of_cons; auto.
  - intros Hx. split; [apply Hx; left|]. intros x Hx'. apply Hx. by right.
Qed.

(** ** Proof automation *)

Create HintDb go discriminated.
Create Rewrite HintDb go.
Create Rewrite HintDb bools.
#[export] Hint Resolve wrap64_id wrap32_id : go.
#[export] Hint Rewrite @bind_ret_l : go.
#[export] Hint Rewrite bool_decide_eq_true bool_decide_eq_false
  negb_true_iff negb_false_iff orb_true_iff orb_false_iff
  andb_true_iff andb_false_iff failed_nil failed_not_nil : bools.

(** Turn the boolean hypotheses of the context into propositions. *)
Ltac bools :=
  repeat match goal with
  | H : _ = true |- _ => progress autorewrite with bools in H
  | H : _ = false |- _ => progress autorewrite with bools in H
  end.

(** Run one path of a monadic computation: unfold the monad and split on
    every scrutinee met, discharging the impossible paths. *)
Ltac run_step :=
  match goal with
  | H : ret _ _ = _ |- _ => progress unfold ret in H; cbn in H
  | H : context [bind _ _ _] |- _ => progress unfold bind, ret in H; cbn in H
  | H : context [if ?b then _ else _] |- _ =>
      lazymatch b with context [if _ then _ else _] => fail | _ => destruct b eqn:? end
  | H : context [match ?x with _ => _ end] |- _ =>
      lazymatch x with context [match _ with _ => _ end] => fail | _ => destruct x eqn:? end
  end.
Ltac run := repeat (run_step; simplify_eq/=; try discriminate).

(** [H] says that the computation ended here, with a result. *)
Ltac returned H := unfold ret in H; simplify_eq/=.

(** Take one statement of a computation apart: name its result, or split on
    the guard and keep the path that goes on. *)
Ltac step_in H :=
  lazymatch type of H with
  | bind _ _ _ = _ =>
      let a := fresh "r" in let w := fresh "w" in let E := fresh "E" in
      apply bind_inv in H as (a & w & E & H)
  | ret _ _ = _ => unfold ret in H; simplify_eq
  | (if ?b then _ else _) _ = _ => let E := fresh "Eb" in destruct b eqn:E
  | (let '(x, y) := ?p in _) _ = _ => destruct p as [? ?]
  | (match ?x with _ => _ end) _ = _ => let E := fresh "Em" in destruct x eqn:E
  end.

(** Computations that leave the database alone. *)
Definition keeps_db {DB Ev A} (m : M DB Ev A) : Prop := ∀ w, w_db (m w).2 = w_db w.

Section Keeps.
Context {DB Ev : Type}.
Lemma keeps_ret {A} (a : A) : keeps_db (DB := DB) (Ev := Ev) (ret a).
Proof. done. Qed.
Lemma keeps_bind {A B} (m : M DB Ev A) (f : A → M DB Ev B) :
  keeps_db m → (∀ a, keeps_db (f a)) → keeps_db (bind m f).
Proof.
  intros Hm Hf w. unfold bind. specialize (Hm w). destruct (m w) as [a w1].
  by rewrite Hf.
Qed.
Lemma keeps_tick : keeps_db (DB := DB) (Ev := Ev) tick.
Proof. done. Qed.
Lemma keeps_emit (e : Ev) : keeps_db (DB := DB) (emit e).
Proof. done. Qed.
Lemma keeps_if {A} (b : bool) (m1 m2 : M DB Ev A) :
  keeps_db m1 → keeps_db m2 → keeps_db (if b then m1 else m2).
Proof. by destruct b. Qed.
Lemma keeps_run {A} (m : M DB Ev A) w a w' : keeps_db m → m w = (a, w') → w_db w' = w_db w.
Proof. intros Hm E. specialize (Hm w). by rewrite E in Hm. Qed.
End Keeps.
#[export] Hint Resolve keeps_ret keeps_bind keeps_tick keeps_emit keeps_if : go.
