(* ===== verification/GoStrings.v ===== *)
(** * The part of Go's [strings] package the program uses

    A Go string is a sequence of bytes: a [string] here, one [ascii] per byte.
    [TrimSpace] is exact on every byte string (the multi-byte Unicode white
    space is recognised by its UTF-8 encoding); [ToLower] is exact on ASCII
    and takes the Unicode table it needs beyond that from [UnicodeTables]. *)

From S2P Require Import Prelude.
From Stdlib Require Import Ascii.
From Stdlib Require String.
Open Scope string_scope.
Open Scope list_scope.
Open Scope Z_scope.
Open Scope go_scope.

Definition byte (c : ascii) : Z := Z.of_N (N_of_ascii c).
Definition is_byte (n : Z) (c : ascii) : bool := byte c == n.
Definition byte_in (lo hi : Z) (c : ascii) : bool := (lo <=? byte c) && (byte c <=? hi).

(** ** [strings.TrimSpace] *)

(** [unicode.IsSpace], by the number of bytes of the encoding. *)
Definition space1 (a : ascii) : bool := byte_in 9 13 a || is_byte 32 a.
Definition space2 (a b : ascii) : bool :=
  is_byte 0xC2 a && (is_byte 0x85 b || is_byte 0xA0 b).
Definition space3 (a b c : ascii) : bool :=
  (is_byte 0xE1 a && is_byte 0x9A b && is_byte 0x80 c)
  || (is_byte 0xE2 a && is_byte 0x80 b
      && (byte_in 0x80 0x8A c || is_byte 0xA8 c || is_byte 0xA9 c || is_byte 0xAF c))
  || (is_byte 0xE2 a && is_byte 0x81 b && is_byte 0x9F c)
  || (is_byte 0xE3 a && is_byte 0x80 b && is_byte 0x80 c).

(** The length of the white space rune a byte list starts with, 0 for none. *)
Definition space_head (l : list ascii) : nat :=
  match l with
  | a :: l1 =>
      if space1 a then 1 else
      match l1 with
      | b :: l2 =>
          if space2 a b then 2 else
          match l2 with c :: _ => if space3 a b c then 3 else 0 | [] => 0 end
      | [] => 0
      end
  | [] => 0
  end.
(** The same at the end of the string, on the reversed bytes. *)
Definition space_last (l : list ascii) : nat :=
  match l with
  | a :: l1 =>
      if space1 a then 1 else
      match l1 with
      | b :: l2 =>
          if space2 b a then 2 else
          match l2 with c :: _ => if space3 c b a then 3 else 0 | [] => 0 end
      | [] => 0
      end
  | [] => 0
  end.

(** Drop what [f] recognises at the head, as long as it recognises something;
    [fuel] is the length of the list. *)
Fixpoint trim_while (f : list ascii → nat) (fuel : nat) (l : list ascii) : list ascii :=
  match fuel, f l with
  | S fuel, S n => trim_while f fuel (drop (S n) l)
  | _, _ => l
  end.
Definition trim_left (l : list ascii) : list ascii := trim_while space_head (length l) l.
Definition trim_right (l : list ascii) : list ascii :=
  reverse (trim_while space_last (length l) (reverse l)).
Definition TrimSpace (s : string) : string :=
  String.string_of_list_ascii (trim_right (trim_left (String.list_ascii_of_string s))).

(** ** [strings.ToLower] and [strings.EqualFold] *)

Class UnicodeTables := {
  (** [strings.Map(unicode.ToLower, s)], the path for non-ASCII strings. *)
  map_unicode_ToLower : string → string }.

Definition is_ascii (s : string) : bool :=
  forallb (λ c, byte c <? 128) (String.list_ascii_of_string s).
Definition lower_ascii (c : ascii) : ascii :=
  if byte_in 65 90 c then ascii_of_N (N_of_ascii c + 32) else c.
Fixpoint map_string (f : ascii → ascii) (s : string) : string :=
  match s with EmptyString => EmptyString | String c s => String (f c) (map_string f s) end.
Definition ToLower `{UnicodeTables} (s : string) : string :=
  if is_ascii s then map_string lower_ascii s else map_unicode_ToLower s.

(** [strings.EqualFold(s, t)] for an ASCII [t], the only use the program makes
    of it: besides the two cases of a letter, U+017F folds to [s] and the
    Kelvin sign U+212A to [k]. *)
Fixpoint EqualFold (s t : string) : bool :=
  match t, s with
  | EmptyString, EmptyString => true
  | String d t', String c s1 =>
      if lower_ascii c == lower_ascii d then EqualFold s1 t' else
      match s1 with
      | String c2 s2 =>
          if is_byte 0xC5 c && is_byte 0xBF c2 && (lower_ascii d == "s"%char)
          then EqualFold s2 t' else
          match s2 with
          | String c3 s3 =>
              if is_byte 0xE2 c && is_byte 0x84 c2 && is_byte 0xAA c3
                 && (lower_ascii d == "k"%char)
              then EqualFold s3 t' else false
          | EmptyString => false
          end
      | EmptyString => false
      end
  | _, _ => false
  end.

(** ** Prefixes, search, cutting *)

Definition HasPrefix (s p : string) : bool := String.prefix p s.
Fixpoint Contains (s sub : string) : bool :=
  String.prefix sub s ||
  match s with EmptyString => false | String _ s => Contains s sub end.
(** [strings.HasSuffix]: the last [len(p)] bytes are [p]. *)
Definition HasSuffix (s p : string) : bool :=
  (String.length p <=? String.length s)%nat
  && (String.substring (String.length s - String.length p) (String.length p) s == p).

(** [strings.Count(s, c)] for a one-byte [c]. *)
Fixpoint Count (s : string) (c : ascii) : Z :=
  match s with
  | EmptyString => 0
  | String d s => (if d == c then 1 else 0) + Count s c
  end.

(** [strings.Cut(s, c)] for a one-byte separator: before, after, found. *)
Fixpoint Cut (s : string) (c : ascii) : string * string * bool :=
  match s with
  | EmptyString => (EmptyString, EmptyString, false)
  | String d s' =>
      if d == c then (EmptyString, s', true) else
      let '(before, after, found) := Cut s' c in
      if found then (String d before, after, true) else (s, EmptyString, false)
  end.

(** [strings.Split(s, c)] for a one-byte separator. *)
Fixpoint Split (s : string) (c : ascii) : list string :=
  match s with
  | EmptyString => [EmptyString]
  | String d s' =>
      if d == c then EmptyString :: Split s' c else
      match Split s' c with
      | x :: xs => String d x :: xs
      | [] => [String d EmptyString]
      end
  end.

Fixpoint Join (l : list string) (sep : string) : string :=
  match l with
  | [] => EmptyString
  | [x] => x
  | x :: l => x +:+ sep +:+ Join l sep
  end.

(** [strings.Trim(s, cutset)]. *)
Fixpoint trim_set (p : ascii → bool) (l : list ascii) : list ascii :=
  match l with c :: l' => if p c then trim_set p l' else l | [] => [] end.
Definition Trim (s : string) (cutset : list ascii) : string :=
  let p := λ c, bool_decide (c ∈ cutset) in
  String.string_of_list_ascii
    (reverse (trim_set p (reverse (trim_set p (String.list_ascii_of_string s))))).

Definition len (s : string) : Z := Z.of_nat (String.length s).

(** ** Properties *)

Section trim_while.
Context (f : list ascii → nat).
Hypothesis f_length : ∀ l, (f l ≤ length l)%nat.
Hypothesis f_prefix : ∀ k l, f (k ++ l) = 0%nat → f k = 0%nat.

Lemma trim_while_suffix n l : ∃ k, l = k ++ trim_while f n l.
Proof.
  revert l. induction n as [|n IH]; intros l; simpl; [by exists []|].
  destruct (f l) as [|m]; [by exists []|].
  destruct (IH (drop (S m) l)) as [k Hk].
  exists (take (S m) l ++ k). by rewrite <- app_assoc, <- Hk, take_drop.
Qed.

Lemma trim_while_done n l : (length l ≤ n)%nat → f (trim_while f n l) = 0%nat.
Proof.
  revert l. induction n as [|n IH]; intros l Hn; simpl.
  - pose proof (f_length l). lia.
  - destruct (f l) as [|m] eqn:E; [done|].
    apply IH. pose proof (f_length l). rewrite length_drop. lia.
Qed.

Lemma trim_while_id n l : f l = 0%nat → trim_while f n l = l.
Proof. intros E. destruct n; simpl; by rewrite ?E. Qed.
End trim_while.

Lemma space_head_length l : (space_head l ≤ length l)%nat.
Proof. destruct l as [|a [|b [|c l]]]; simpl; repeat case_match; simpl; lia. Qed.
Lemma space_last_length l : (space_last l ≤ length l)%nat.
Proof. destruct l as [|a [|b [|c l]]]; simpl; repeat case_match; simpl; lia. Qed.
Lemma space_head_prefix k l : space_head (k ++ l) = 0%nat → space_head k = 0%nat.
Proof. destruct k as [|a [|b [|c k]]]; simpl; repeat case_match; done. Qed.

Lemma trim_left_right_id l :
  space_head l = 0%nat → trim_left (trim_right l) = trim_right l.
Proof.
  intros Hl. apply trim_while_id.
  unfold trim_right.
  destruct (trim_while_suffix space_last (length l) (reverse l)) as [k Hk].
  apply (space_head_prefix _ (reverse k)).
  rewrite <- reverse_app, <- Hk, reverse_involutive. done.
Qed.

Lemma trim_right_idem l : trim_right (trim_right l) = trim_right l.
Proof.
  unfold trim_right. rewrite reverse_involutive. f_equal.
  apply trim_while_id, trim_while_done; [apply space_last_length|].
  by rewrite length_reverse.
Qed.

(** Trimming twice is trimming once. *)
Lemma TrimSpace_idem s : TrimSpace (TrimSpace s) = TrimSpace s.
Proof.
  unfold TrimSpace. rewrite String.list_ascii_of_string_of_list_ascii. f_equal.
  rewrite trim_left_right_id, trim_right_idem; [done|].
  apply trim_while_done; [apply space_head_length|done].
Qed.
#[export] Hint Rewrite TrimSpace_idem : go.

Lemma lower_ascii_idem c : lower_ascii (lower_ascii c) = lower_ascii c.
Proof. destruct c as [[] [] [] [] [] [] [] []]; reflexivity. Qed.

Lemma map_string_lower_ascii s :
  is_ascii s = true → is_ascii (map_string lower_ascii s) = true.
Proof.
  unfold is_ascii. induction s as [|c s IH]; simpl; [done|].
  rewrite !andb_true_iff. intros [Hc Hs]. split; [|auto].
  clear -Hc. destruct c as [[] [] [] [] [] [] [] []]; done.
Qed.

Lemma ToLower_idem `{UnicodeTables} s :
  is_ascii s = true → ToLower (ToLower s) = ToLower s.
Proof.
  intros Hs. unfold ToLower. rewrite Hs, map_string_lower_ascii by done.
  clear Hs. induction s as [|c s IH]; simpl; [done|].
  by rewrite lower_ascii_idem, IH.
Qed.
