(* ===== verification/PathMatch.v ===== *)
(** * Go's [path.Match]

    The glob matcher that the authentication, idempotency and retry policies
    apply to routes and gRPC methods, with Go's algorithm: chunks between
    stars, backtracking that never crosses a slash, and the check that the
    whole pattern is well formed.  A string is its list of bytes; [None] is
    [path.ErrBadPattern].  Every loop takes the length of the string it
    consumes as fuel; the [_fuel] lemmas show that more fuel changes
    nothing. *)

From S2P Require Import Prelude GoStrings.
From Stdlib Require Import Ascii.
Open Scope string_scope.
Open Scope list_scope.
Open Scope Z_scope.
Open Scope go_scope.

Abbreviation bytes := (list ascii).

(** ** [utf8.DecodeRuneInString]: the rune and the bytes it takes *)

Definition RuneError : Z := 0xFFFD.
Definition cont (c : ascii) : bool := byte_in 0x80 0xBF c.
Definition decode_rune (s : bytes) : Z * nat :=
  match s with
  | [] => (RuneError, 0%nat)
  | a :: s1 =>
      let x := byte a in
      if x <? 0x80 then (x, 1%nat) else
      match s1 with
      | b :: s2 =>
          if byte_in 0xC2 0xDF a && cont b
          then ((x - 0xC0) * 64 + (byte b - 0x80), 2%nat) else
          match s2 with
          | c :: s3 =>
              if cont c && cont b
                 && ((is_byte 0xE0 a && byte_in 0xA0 0xBF b) || byte_in 0xE1 0xEC a
                     || (is_byte 0xED a && byte_in 0x80 0x9F b) || byte_in 0xEE 0xEF a)
              then ((x - 0xE0) * 4096 + (byte b - 0x80) * 64 + (byte c - 0x80), 3%nat) else
              match s3 with
              | d :: _ =>
                  if cont d && cont c && cont b
                     && ((is_byte 0xF0 a && byte_in 0x90 0xBF b) || byte_in 0xF1 0xF3 a
                         || (is_byte 0xF4 a && byte_in 0x80 0x8F b))
                  then ((x - 0xF0) * 262144 + (byte b - 0x80) * 4096
                        + (byte c - 0x80) * 64 + (byte d - 0x80), 4%nat)
                  else (RuneError, 1%nat)
              | [] => (RuneError, 1%nat)
              end
          | [] => (RuneError, 1%nat)
          end
      | [] => (RuneError, 1%nat)
      end
  end.

(** ** [scanChunk]: leading stars, the chunk up to the next star, the rest *)

Fixpoint drop_stars (p : bytes) : bool * bytes :=
  match p with
  | c :: p' => if c == "*"%char then (true, snd (drop_stars p')) else (false, p)
  | [] => (false, [])
  end.
Fixpoint scan (inrange : bool) (p : bytes) : bytes * bytes :=
  match p with
  | [] => ([], [])
  | c :: p1 =>
      if c == "\"%char then
        match p1 with
        | d :: p2 => let '(chunk, rest) := scan inrange p2 in (c :: d :: chunk, rest)
        | [] => ([c], [])
        end
      else if (c == "*"%char) && negb inrange then ([], p)
      else
        let inrange' :=
          if c == "["%char then true else if c == "]"%char then false else inrange in
        let '(chunk, rest) := scan inrange' p1 in (c :: chunk, rest)
  end.
Definition scanChunk (p : bytes) : bool * bytes * bytes :=
  let '(star, p) := drop_stars p in
  let '(chunk, rest) := scan false p in (star, chunk, rest).

(** ** [getEsc]: one possibly escaped rune of a character class *)

Definition getEsc (chunk : bytes) : option (Z * bytes) :=
  match chunk with
  | [] => None
  | c :: chunk1 =>
      if (c == "-"%char) || (c == "]"%char) then None else
      match (if c == "\"%char then chunk1 else chunk) with
      | [] => None
      | chunk2 =>
          let '(r, n) := decode_rune chunk2 in
          let nchunk := drop n chunk2 in
          if (r == RuneError) && (n =? 1)%nat then None
          else match nchunk with [] => None | _ => Some (r, nchunk) end
      end
  end.

(** The ranges of a class up to its closing bracket: whether [r] is in one of
    them, and the chunk after the bracket. *)
Fixpoint match_ranges (fuel : nat) (r : Z) (chunk : bytes) (some_range matched : bool)
    : option (bool * bytes) :=
  match fuel with
  | O => None
  | S fuel =>
      let close :=
        match chunk with
        | c :: rest => if (c == "]"%char) && some_range then Some rest else None
        | [] => None
        end in
      match close with
      | Some rest => Some (matched, rest)
      | None =>
          match getEsc chunk with
          | None => None
          | Some (lo, chunk1) =>
              match chunk1 with
              | d :: chunk2 =>
                  if d == "-"%char then
                    match getEsc chunk2 with
                    | None => None
                    | Some (hi, chunk3) =>
                        match_ranges fuel r chunk3 true
                          (matched || ((lo <=? r) && (r <=? hi)))
                    end
                  else match_ranges fuel r chunk1 true (matched || (lo =? r))
              | [] => None
              end
          end
      end
  end.

(** ** [matchChunk]: [None] for a bad pattern, [Some None] for no match,
    [Some (Some t)] for a match that leaves [t] *)

Fixpoint match_chunk (fuel : nat) (failed : bool) (chunk s : bytes)
    : option (option bytes) :=
  match fuel, chunk with
  | _, [] => Some (if failed then None else Some s)
  | O, _ => None
  | S fuel, c :: chunk1 =>
      let failed := failed || match s with [] => true | _ => false end in
      let literal c chunk1 :=
        match failed, s with
        | false, d :: s' => match_chunk fuel (negb (c == d)) chunk1 s'
        | _, _ => match_chunk fuel failed chunk1 s
        end in
      if c == "["%char then
        let '(r, s') :=
          if failed then (0, s)
          else let '(r, n) := decode_rune s in (r, drop n s) in
        let '(negated, chunk2) :=
          match chunk1 with
          | d :: rest => if d == "^"%char then (true, rest) else (false, chunk1)
          | [] => (false, chunk1)
          end in
        match match_ranges (S (length chunk2)) r chunk2 false false with
        | None => None
        | Some (matched, chunk3) =>
            match_chunk fuel (failed || (matched == negated)) chunk3 s'
        end
      else if c == "?"%char then
        match failed, s with
        | false, d :: _ =>
            let '(_, n) := decode_rune s in
            match_chunk fuel (d == "/"%char) chunk1 (drop n s)
        | _, _ => match_chunk fuel failed chunk1 s
        end
      else if c == "\"%char then
        match chunk1 with
        | [] => None
        | c' :: chunk2 => literal c' chunk2
        end
      else literal c chunk1
  end.
Definition matchChunk (chunk s : bytes) : option (option bytes) :=
  match_chunk (length chunk) false chunk s.

(** ** [Match] *)

(** The backtracking loop of a star: skip bytes that are not a slash. *)
Fixpoint star_skip (chunk : bytes) (last : bool) (name : bytes) : option (option bytes) :=
  match name with
  | [] => Some None
  | c :: name' =>
      if c == "/"%char then Some None else
      match matchChunk chunk name' with
      | None => None
      | Some (Some t) =>
          if last && match t with [] => false | _ => true end
          then star_skip chunk last name' else Some (Some t)
      | Some None => star_skip chunk last name'
      end
  end.

(** The check that the rest of a pattern that does not match is well formed. *)
Fixpoint rest_ok (fuel : nat) (pattern : bytes) : bool :=
  match fuel, pattern with
  | _, [] => true
  | O, _ => false
  | S fuel, _ =>
      let '(_, chunk, rest) := scanChunk pattern in
      match matchChunk chunk [] with None => false | Some _ => rest_ok fuel rest end
  end.

Definition is_empty (l : bytes) : bool := match l with [] => true | _ => false end.

Fixpoint match_loop (fuel : nat) (pattern name : bytes) : option bool :=
  match fuel, pattern with
  | _, [] => Some (is_empty name)
  | O, _ => None
  | S fuel, _ =>
      let '(star, chunk, rest) := scanChunk pattern in
      if star && is_empty chunk then Some (negb (bool_decide ("/"%char ∈ name))) else
      let no_match := if rest_ok fuel rest then Some false else None in
      let skip :=
        if star then
          match star_skip chunk (is_empty rest) name with
          | None => None
          | Some (Some t) => match_loop fuel rest t
          | Some None => no_match
          end
        else no_match in
      match matchChunk chunk name with
      | None => None
      | Some (Some t) =>
          if is_empty t || negb (is_empty rest) then match_loop fuel rest t else skip
      | Some None => skip
      end
  end.

(** [path.Match(pattern, name)] *)
Definition Match (pattern name : string) : option bool :=
  let p := String.list_ascii_of_string pattern in
  match_loop (length p) p (String.list_ascii_of_string name).

(** ** Well-formedness does not depend on the name *)

Lemma match_ranges_rest fuel r r' chunk sr m m' :
  option_map snd (match_ranges fuel r chunk sr m)
  = option_map snd (match_ranges fuel r' chunk sr m').
Proof.
  revert chunk sr m m'. induction fuel as [|fuel IH]; intros chunk sr m m'; simpl; [done|].
  destruct (match chunk with [] => None | c :: rest => _ end); [done|].
  destruct (getEsc chunk) as [[lo [|d chunk2]]|]; [done| |done].
  case_match; [|apply IH].
  destruct (getEsc chunk2) as [[hi chunk3]|]; [apply IH|done].
Qed.

(** Whether a chunk is malformed does not depend on the text or on whether
    the match has already failed. *)
Lemma match_chunk_bad fuel failed failed' chunk s s' :
  match_chunk fuel failed chunk s = None → match_chunk fuel failed' chunk s' = None.
Proof.
  revert failed failed' chunk s s'. induction fuel as [|fuel IH];
    intros failed failed' chunk s s'; destruct chunk as [|c chunk1]; try done.
  cbn [match_chunk]. destruct (c == "["%char).
  - destruct (if failed || _ then _ else _) as [r1 s1],
      (if failed' || _ then _ else _) as [r2 s2].
    destruct (match chunk1 with [] => _ | _ => _ end) as [negated chunk2].
    pose proof (match_ranges_rest (S (length chunk2)) r1 r2 chunk2 false false false) as Hr.
    destruct (match_ranges _ r1 _ _ _) as [[m1 c1]|], (match_ranges _ r2 _ _ _) as [[m2 c2]|];
      simplify_eq/=; eauto.
  - destruct (c == "?"%char); [repeat case_match; eauto|].
    destruct (c == "\"%char); [destruct chunk1; [done|]|]; repeat case_match; eauto.
Qed.

Lemma matchChunk_bad chunk s s' : matchChunk chunk s = None → matchChunk chunk s' = None.
Proof. apply match_chunk_bad. Qed.

Lemma star_skip_bad chunk last name s :
  star_skip chunk last name = None → matchChunk chunk s = None.
Proof.
  induction name as [|c name IH]; simpl; [done|].
  destruct (c == "/"%char); [done|].
  destruct (matchChunk chunk name) as [[t|]|] eqn:E; [|auto|].
  - destruct (last && _); [auto|done].
  - intros _. by apply matchChunk_bad with name.
Qed.

(** The pattern is malformed for one name exactly when it is for every name:
    both are the check of all its chunks. *)
Lemma match_loop_bad fuel p n : match_loop fuel p n = None ↔ rest_ok fuel p = false.
Proof.
  revert p n. induction fuel as [|fuel IH]; intros p n; destruct p as [|a p]; try done.
  cbn [match_loop rest_ok].
  destruct (scanChunk (a :: p)) as [[star chunk] rest] eqn:Hscan.
  destruct (star && is_empty chunk) eqn:Hstar.
  - apply andb_true_iff in Hstar as [-> Hchunk]. destruct chunk; [|done].
    assert (rest = []) as ->; [|by destruct fuel].
    revert Hscan. unfold scanChunk.
    assert (∀ q, (drop_stars q).2 = [] ∨ ∃ c q', (drop_stars q).2 = c :: q' ∧ c ≠ "*"%char) as Hd.
    { induction q as [|c q IHq]; simpl; [by left|].
      case_bool_decide; simpl; [done|]. right; eauto. }
    destruct (drop_stars (a :: p)) as [st q] eqn:Eq. pose proof (Hd (a :: p)) as Hq.
    rewrite Eq in Hq. simpl in Hq. destruct Hq as [->|(c & q' & -> & Hc)]; simpl; [congruence|].
    rewrite (bool_decide_eq_false_2 (c = "*"%char)) by done. simpl.
    repeat case_match; intros; simplify_eq.
  - destruct (matchChunk chunk []) as [o|] eqn:Enil.
    + destruct (matchChunk chunk n) as [[t|]|] eqn:En;
        [| |by apply (matchChunk_bad _ _ []) in En; congruence];
      [destruct (is_empty t || _); [by apply IH|]|];
      (destruct star; [destruct (star_skip chunk (is_empty rest) n) as [[t'|]|] eqn:Es;
        [by apply IH| |by apply (star_skip_bad _ _ _ []) in Es; congruence]|]);
      by destruct (rest_ok fuel rest).
    + by rewrite (matchChunk_bad _ _ n Enil).
Qed.

(** ** The fuel is enough *)

Lemma decode_rune_length s r n :
  decode_rune s = (r, n) → (n ≤ length s)%nat ∧ (s ≠ [] → (0 < n)%nat).
Proof.
  unfold decode_rune. intros H.
  repeat case_match; simplify_eq/=; split; intros; try done; lia.
Qed.

Lemma getEsc_length chunk r rest :
  getEsc chunk = Some (r, rest) → (length rest < length chunk)%nat.
Proof.
  unfold getEsc. destruct chunk as [|c chunk1]; [done|].
  destruct (_ || _); [done|].
  destruct (if c == "\"%char then chunk1 else c :: chunk1) as [|d l] eqn:E; [done|].
  destruct (decode_rune (d :: l)) as [r' n] eqn:Hd.
  apply decode_rune_length in Hd as [Hle Hpos]. specialize (Hpos ltac:(done)).
  destruct (_ && _); [done|].
  intros H. assert (rest = drop n (d :: l)) as -> by (destruct (drop n (d :: l)); naive_solver).
  rewrite length_drop. case_bool_decide; simplify_eq/=; lia.
Qed.

Lemma match_ranges_fuel f1 f2 r chunk sr m :
  (length chunk < f1)%nat → (length chunk < f2)%nat →
  match_ranges f1 r chunk sr m = match_ranges f2 r chunk sr m.
Proof.
  revert f2 chunk sr m. induction f1 as [|f1 IH]; intros [|f2] chunk sr m H1 H2; try lia.
  cbn [match_ranges].
  destruct (match chunk with [] => None | c :: rest => _ end); [done|].
  destruct (getEsc chunk) as [[lo [|d chunk2]]|] eqn:E1; [done| |done].
  apply getEsc_length in E1. simpl in E1.
  case_match; [|apply IH; simpl; lia].
  destruct (getEsc chunk2) as [[hi chunk3]|] eqn:E2; [|done].
  apply getEsc_length in E2. apply IH; lia.
Qed.

Lemma match_ranges_length f r chunk sr m b rest :
  match_ranges f r chunk sr m = Some (b, rest) → (length rest < length chunk)%nat.
Proof.
  revert chunk sr m. induction f as [|f IH]; intros chunk sr m; [done|].
  cbn [match_ranges].
  destruct (match chunk with [] => None | c :: rest => _ end) as [rest'|] eqn:Ec.
  { destruct chunk; [done|]. case_match; naive_solver (simpl; lia). }
  destruct (getEsc chunk) as [[lo [|d chunk2]]|] eqn:E1; [done| |done].
  apply getEsc_length in E1. simpl in E1.
  destruct (d == "-"%char); [|intros ?%IH; simpl in *; lia].
  destruct (getEsc chunk2) as [[hi chunk3]|] eqn:E2; [|done].
  apply getEsc_length in E2. intros ?%IH; lia.
Qed.

Lemma match_chunk_fuel f1 f2 fl chunk s :
  (length chunk ≤ f1)%nat → (length chunk ≤ f2)%nat →
  match_chunk f1 fl chunk s = match_chunk f2 fl chunk s.
Proof.
  revert f2 fl chunk s. induction f1 as [|f1 IH]; intros f2 fl chunk s H1 H2.
  { destruct chunk; [by destruct f2|simpl in H1; lia]. }
  destruct chunk as [|c chunk1]; [by destruct f2|]. destruct f2 as [|f2]; simpl in H1, H2; [lia|].
  cbn [match_chunk]. destruct (c == "["%char).
  - destruct (if fl || _ then _ else _) as [r1 s1].
    destruct (match chunk1 with [] => _ | _ => _ end) as [negated chunk2] eqn:E2.
    assert (length chunk2 ≤ length chunk1)%nat.
    { destruct chunk1; simplify_eq/=; repeat case_match; simplify_eq/=; lia. }
    destruct (match_ranges _ r1 _ _ _) as [[m1 c1]|] eqn:E; [|done].
    apply match_ranges_length in E. apply IH; lia.
  - destruct (c == "?"%char); [repeat case_match; apply IH; lia|].
    destruct (c == "\"%char);
      [destruct chunk1; [done|]; simpl in H1, H2|]; repeat case_match; apply IH; lia.
Qed.

Lemma drop_stars_length p : (length (drop_stars p).2 ≤ length p)%nat.
Proof. induction p as [|c p IH]; simpl; [done|]. case_match; simpl; lia. Qed.
Lemma scan_length b p chunk rest :
  scan b p = (chunk, rest) → (length chunk + length rest = length p)%nat.
Proof.
  remember (length p) as n eqn:En. revert b p chunk rest En.
  induction (lt_wf n) as [n _ IH]. intros b p chunk rest ->.
  destruct p as [|c p1]; simpl; [naive_solver|].
  destruct (c == "\"%char).
  - destruct p1 as [|d p2]; [naive_solver|].
    destruct (scan b p2) as [ch re] eqn:E. intros [= <- <-].
    apply IH with (y := length p2) in E; simpl; lia.
  - destruct ((c == "*"%char) && negb b); [intros [= <- <-]; done|].
    destruct (scan _ p1) as [ch re] eqn:E. intros [= <- <-].
    apply IH with (y := length p1) in E; simpl; lia.
Qed.

Lemma scan_progress c p chunk rest :
  c ≠ "*"%char → scan false (c :: p) = (chunk, rest) → chunk ≠ [].
Proof.
  intros Hc. simpl. rewrite (bool_decide_eq_false_2 (c = "*"%char)) by done.
  repeat case_match; naive_solver.
Qed.

Lemma drop_stars_head p c q : (drop_stars p).2 = c :: q → c ≠ "*"%char.
Proof.
  induction p as [|d p IH]; simpl; [done|].
  case_bool_decide; simpl; [done|congruence].
Qed.

Lemma scanChunk_length p star chunk rest :
  p ≠ [] → scanChunk p = (star, chunk, rest) → (length rest < length p)%nat.
Proof.
  intros Hp. unfold scanChunk. destruct (drop_stars p) as [st q] eqn:Eq.
  destruct (scan false q) as [ch re] eqn:Es. intros [= <- <- <-].
  pose proof (drop_stars_length p) as Hl. rewrite Eq in Hl. simpl in Hl.
  pose proof (scan_length _ _ _ _ Es).
  destruct q as [|c q].
  - simpl in *. destruct p; [done|simpl; lia].
  - assert (ch ≠ []) by (eapply scan_progress, Es; eapply drop_stars_head; by rewrite Eq).
    destruct ch; [done|]. simpl in *. lia.
Qed.

Lemma rest_ok_fuel f1 f2 p :
  (length p ≤ f1)%nat → (length p ≤ f2)%nat → rest_ok f1 p = rest_ok f2 p.
Proof.
  revert f2 p. induction f1 as [|f1 IH]; intros f2 p H1 H2.
  { destruct p; [by destruct f2|simpl in H1; lia]. }
  destruct p as [|c p]; [by destruct f2|]. destruct f2 as [|f2]; [simpl in H2; lia|].
  cbn [rest_ok]. destruct (scanChunk (c :: p)) as [[st ch] re] eqn:E.
  apply scanChunk_length in E; [|done]. simpl in *.
  destruct (matchChunk ch []); [|done]. apply IH; lia.
Qed.

Lemma match_loop_fuel f1 f2 p n :
  (length p ≤ f1)%nat → (length p ≤ f2)%nat → match_loop f1 p n = match_loop f2 p n.
Proof.
  revert f2 p n. induction f1 as [|f1 IH]; intros f2 p n H1 H2.
  { destruct p; [by destruct f2|simpl in H1; lia]. }
  destruct p as [|c p]; [by destruct f2|]. destruct f2 as [|f2]; [simpl in H2; lia|].
  cbn [match_loop]. destruct (scanChunk (c :: p)) as [[st ch] re] eqn:E.
  apply scanChunk_length in E; [|done]. simpl in *.
  rewrite (rest_ok_fuel f1 f2 re) by lia.
  assert (∀ t, match_loop f1 re t = match_loop f2 re t) as Hl by (intros; apply IH; lia).
  repeat case_match; auto.
Qed.

(** ** Literal patterns, and a literal followed by a star *)

Definition meta (c : ascii) : bool :=
  bool_decide (c = "*"%char) || bool_decide (c = "?"%char)
  || bool_decide (c = "["%char) || bool_decide (c = "\"%char).
Definition literal (s : string) : bool :=
  forallb (λ c, negb (meta c)) (String.list_ascii_of_string s).

Fixpoint strip_prefix (p s : bytes) : option bytes :=
  match p, s with
  | [], _ => Some s
  | c :: p, d :: s => if bool_decide (c = d) then strip_prefix p s else None
  | _ :: _, [] => None
  end.

Lemma strip_prefix_Some p s t : strip_prefix p s = Some t ↔ s = p ++ t.
Proof.
  revert s. induction p as [|c p IH]; intros [|d s]; simpl; try (split; congruence).
  case_bool_decide; [rewrite IH|]; split; congruence.
Qed.

Lemma meta_false c :
  meta c = false →
  c ≠ "*"%char ∧ c ≠ "?"%char ∧ c ≠ "["%char ∧ c ≠ "\"%char.
Proof. unfold meta. rewrite !orb_false_iff, !bool_decide_eq_false. tauto. Qed.

Lemma match_chunk_literal f fl p s :
  (length p ≤ f)%nat → forallb (λ c, negb (meta c)) p = true →
  match_chunk f fl p s = Some (if fl then None else strip_prefix p s).
Proof.
  revert fl p s. induction f as [|f IH]; intros fl p s Hf Hp;
    destruct p as [|c p]; simpl in Hf; try lia; try by destruct fl.
  simpl in Hp. rewrite andb_true_iff, negb_true_iff in Hp. destruct Hp as [Hc Hp].
  apply meta_false in Hc as (? & ? & ? & ?).
  cbn [match_chunk].
  rewrite !(bool_decide_eq_false_2 (c = _)) by done.
  destruct fl; simpl; [by rewrite IH by (auto; lia)|].
  destruct s as [|d s]; simpl; rewrite IH by (auto; lia); [done|].
  by case_bool_decide.
Qed.

Lemma scan_literal p r :
  forallb (λ c, negb (meta c)) p = true →
  scan false (p ++ r) = (p ++ (scan false r).1, (scan false r).2).
Proof.
  induction p as [|c p IH]; simpl; [by destruct (scan false r)|].
  rewrite andb_true_iff, negb_true_iff. intros [Hc Hp].
  apply meta_false in Hc as (? & ? & ? & ?).
  rewrite !(bool_decide_eq_false_2 (c = _)) by done. simpl.
  replace (if bool_decide (c = "]"%char) then false else false) with false by by case_match.
  by rewrite IH.
Qed.

Lemma scanChunk_literal p r :
  forallb (λ c, negb (meta c)) p = true → p ≠ [] →
  scanChunk (p ++ r) = (false, p ++ (scan false r).1, (scan false r).2).
Proof.
  intros Hp Hne. unfold scanChunk.
  destruct p as [|c p]; [done|].
  assert (meta c = false) as Hc.
  { simpl in Hp. rewrite andb_true_iff, negb_true_iff in Hp. tauto. }
  apply meta_false in Hc as (? & ? & ? & ?).
  change ((c :: p) ++ r) with (c :: (p ++ r)) at 1. cbn [drop_stars app].
  rewrite (bool_decide_eq_false_2 (c = "*"%char)) by done.
  change (c :: p ++ r) with ((c :: p) ++ r). by rewrite scan_literal.
Qed.

Lemma list_ascii_inj s t :
  String.list_ascii_of_string s = String.list_ascii_of_string t ↔ s = t.
Proof.
  split; [|by intros ->]. intros E.
  by rewrite <- (String.string_of_list_ascii_of_string s),
    <- (String.string_of_list_ascii_of_string t), E.
Qed.

Lemma Match_literal p n : literal p = true → Match p n = Some (bool_decide (p = n)).
Proof.
  unfold Match, literal. intros Hp.
  assert (bool_decide (p = n) = bool_decide (String.list_ascii_of_string n
    = String.list_ascii_of_string p)) as ->.
  { apply bool_decide_ext. rewrite list_ascii_inj. naive_solver. }
  destruct (String.list_ascii_of_string p) as [|c q] eqn:Ep.
  { destruct (String.list_ascii_of_string n); [done|].
    by rewrite bool_decide_eq_false_2. }
  cbn [length match_loop]. pose proof (scanChunk_literal (c :: q) [] Hp ltac:(done)) as E.
  rewrite app_nil_r in E. simpl in E. rewrite app_nil_r in E. rewrite E.
  cbn [andb is_empty]. unfold matchChunk. rewrite match_chunk_literal by done.
  destruct (strip_prefix _ _) as [t|] eqn:Et.
  - apply strip_prefix_Some in Et as ->. destruct t; simpl.
    + rewrite app_nil_r, bool_decide_eq_true_2 by done. by destruct q.
    + rewrite bool_decide_eq_false_2; [by destruct q|].
      intros [=H]. apply (f_equal length) in H. rewrite length_app in H. simpl in H. lia.
  - rewrite bool_decide_eq_false_2; [by destruct q|].
    intros H. assert (strip_prefix (c :: q) (String.list_ascii_of_string n) = Some []) as H'.
    { apply strip_prefix_Some. by rewrite app_nil_r. }
    congruence.
Qed.

(** The star of [prefix*] matches any text without a slash, and nothing else. *)
Lemma Match_star p n :
  literal p = true →
  Match (p +:+ "*") n = Some true
  ↔ ∃ t, String.list_ascii_of_string n = String.list_ascii_of_string p ++ t ∧ "/"%char ∉ t.
Proof.
  unfold Match, literal. intros Hp.
  assert (String.list_ascii_of_string (p +:+ "*")
    = String.list_ascii_of_string p ++ ["*"%char]) as ->.
  { clear. induction p as [|c p IH]; simpl; [done|]. by rewrite <- IH. }
  destruct (String.list_ascii_of_string p) as [|c q].
  { change (match_loop (length ([] ++ ["*"%char])) ([] ++ ["*"%char]) ?s)
      with (Some (negb (bool_decide ("/"%char ∈ s)))).
    split; [|intros (t & -> & ?); by rewrite bool_decide_eq_false_2].
    intros [= H]. eexists; split; [done|]. apply negb_true_iff, bool_decide_eq_false in H. done. }
  assert (length ((c :: q) ++ ["*"%char]) = S (S (length q))) as ->
    by (rewrite length_app; simpl; lia).
  change ((c :: q) ++ ["*"%char]) with (c :: q ++ ["*"%char]).
  cbn [match_loop]. change (c :: q ++ ["*"%char]) with ((c :: q) ++ ["*"%char]).
  rewrite scanChunk_literal by done.
  change (scan false ["*"%char]) with (@pair bytes bytes [] ["*"%char]).
  cbn [fst snd]. rewrite app_nil_r. cbn [andb].
  unfold matchChunk. rewrite match_chunk_literal by done.
  destruct (strip_prefix _ _) as [t|] eqn:Et.
  - apply strip_prefix_Some in Et. rewrite orb_true_r.
    change (match_loop (S (length q)) ["*"%char] t)
      with (Some (negb (bool_decide ("/"%char ∈ t)))).
    split.
    + intros [= H]. exists t. apply negb_true_iff, bool_decide_eq_false in H. done.
    + intros (t' & E & Ht). rewrite Et in E. apply app_inv_head in E as ->.
      by rewrite bool_decide_eq_false_2.
  - split; [by case_match|]. intros (t & E & _).
    apply strip_prefix_Some in E. congruence.
Qed.
