(* ===== verification/Wire.v ===== *)
(** * What goes over the wire

    JSON values, the unified response of the HTTP transport
    (internal/transport/http/response.go), and the values the program exchanges
    with the platform's idempotency manager and authorizer. *)

From S2P Require Import Prelude.
Open Scope string_scope.
Open Scope list_scope.
Open Scope Z_scope.
Open Scope go_scope.

(** A value handed to the JSON encoder; a [time.Time] is its instant. *)
Inductive JSON :=
  | JNull
  | JStr (s : string)
  | JNum (n : Z)
  | JTime (t : Z)
  | JArr (l : list JSON)
  | JObj (fields : list (string * JSON)).

(** The numbers behind the application error codes, which the platform library
    declares. *)
Class CodeValues := code_value : Code → Z.

Module Response.
Record t := mk { Code : Z; Message : string; Body : JSON; RequestID : string }.
(** The encoding by the struct's tags; [request_id] has [omitempty]. *)
Definition to_json (r : t) : JSON :=
  JObj ([("code", JNum r.(Code)); ("message", JStr r.(Message)); ("body", r.(Body))]
        ++ (if r.(RequestID) == "" then [] else [("request_id", JStr r.(RequestID))])).
End Response.

(** ** The idempotency manager *)

Inductive State :=
  | StateAcquired | StateProcessing | StateCompleted | StateFailed | StateConflict
  | StateOther (name : string).
Record Failure := mkFailure {
  Failure_Code : Z; Failure_Message : string; Failure_HTTPStatus : Z }.
Record Decision := mkDecision {
  Decision_State : State; Decision_Response : string; Decision_Failure : Failure;
  Decision_Owner : string }.

(** ** The authorizer *)

Inductive Scope := ScopePrincipal | ScopePlatform.
Record Requirement := mkRequirement {
  Requirement_Resource : string; Requirement_Action : string; Requirement_Scope : Scope }.
#[export] Instance Scope_eq_dec : EqDecision Scope.
Proof. solve_decision. Defined.
#[export] Instance Requirement_eq_dec : EqDecision Requirement.
Proof. solve_decision. Defined.
