(* ===== verification/AppError.v ===== *)
(** * internal/apperror: the application errors *)

From S2P Require Import Prelude.
From Stdlib Require Import Ascii.
Open Scope string_scope.
Open Scope Z_scope.
Open Scope go_scope.

Module AppErr.
Definition New (code : Code) (message : string) (status : Z) (err : error) : error :=
  ErrApp code message status err.
Definition Invalid (message : string) (err : error) : error :=
  New CodeInvalidArgument message 400 err.
Definition NotFound (message : string) : error := New CodeNotFound message 404 nil_err.
Definition Conflict (message : string) (err : error) : error :=
  New CodeConflict message 409 err.
Definition StaleVersion (err : error) : error :=
  New CodeStaleVersion "resource version is stale" 409 err.
Definition RequestInProgress : error :=
  New CodeRequestInProgress "request is already processing" 409 nil_err.
Definition Unauthorized (message : string) : error :=
  New CodeUnauthorized message 401 nil_err.
Definition Forbidden (message : string) : error := New CodeForbidden message 403 nil_err.
Definition TooManyRequests : error :=
  New CodeTooManyRequests "too many requests" 429 nil_err.
Definition RequestTimeout : error := New CodeRequestTimeout "request timeout" 504 nil_err.
Definition Unavailable (message : string) (err : error) : error :=
  New CodeDependencyUnavailable message 503 err.
Definition Internal (err : error) : error :=
  New CodeInternal "internal server error" 500 err.
End AppErr.

(** [e] is an application error of code [c]. *)
Definition has_code (e : error) (c : Code) : Prop :=
  ∃ a, error_as_app e = Some a ∧ a.(app_Code) = c.

Lemma has_code_app c m s e : has_code (ErrApp c m s e) c.
Proof. by eexists. Qed.
#[export] Hint Resolve has_code_app : go.

(** The texts of the sentinels that third-party packages declare. *)
Class LibraryText := library_text : sentinel → string.

Definition sentinel_text `{LibraryText} (s : sentinel) : string :=
  match s with
  | ErrNotFound => "notification resource not found"
  | ErrStaleVersion => "stale notification version"
  | ErrNoRows => "sql: no rows in result set"
  | ErrCanceled => "context canceled"
  | ErrDeadlineExceeded => "context deadline exceeded"
  | ErrBadPattern => "syntax error in pattern"
  | _ => library_text s
  end.

(** [err.Error()]: an application error shows its cause when it has one. *)
Fixpoint Error `{LibraryText} (e : error) : string :=
  match e with
  | nil_err => ""
  | ErrSentinel s => sentinel_text s
  | ErrMsg m => m
  | ErrWrap m e => m +:+ ": " +:+ Error e
  | ErrJoin nil_err e | ErrJoin e nil_err => Error e
  | ErrJoin e1 e2 => Error e1 +:+ String "010"%char (Error e2)
  | ErrApp _ message _ nil_err => message
  | ErrApp _ _ _ cause => Error cause
  end.
