(* ===== verification/Config.v ===== *)
(** * internal/config: the configuration and its validation

    The records are the structs of config.go, field by field (a
    [time.Duration] is its nanoseconds).  [Validate] is the whole of
    [Config.Validate], in the order of its checks, with its messages. *)

From S2P Require Import Prelude GoStrings PathMatch.
From Stdlib Require Import Ascii.
Open Scope string_scope.
Open Scope list_scope.
Open Scope Z_scope.
Open Scope go_scope.

(** A [float64] as the checks need it: not a number, an infinity (negative or
    not) or a finite value [num / den]. *)
Inductive Float64 := FNaN | FInf (negative : bool) | FFin (num : Z) (den : positive).
Definition float_lt0 (f : Float64) : bool :=
  match f with FNaN => false | FInf n => n | FFin n _ => n <? 0 end.
Definition float_gt1 (f : Float64) : bool :=
  match f with FNaN => false | FInf n => negb n | FFin n d => Z.pos d <? n end.

Record Runtime := mkRuntime {
  Runtime_ActiveProfile : string; Runtime_ConfigFiles : list string }.
Record App := mkApp {
  App_Name : string; App_Schema : string; App_Env : string; App_ShutdownTimeout : Z }.
Record CORS := mkCORS {
  CORS_Enabled : bool; CORS_AllowedOrigins : list string;
  CORS_AllowedHeaders : list string; CORS_ExposedHeaders : list string;
  CORS_MaxAge : Z }.
Record HTTP := mkHTTP {
  HTTP_Address : string; HTTP_ReadTimeout : Z; HTTP_WriteTimeout : Z;
  HTTP_IdleTimeout : Z; HTTP_RequestTimeout : Z; HTTP_MaxBodyBytes : Z;
  HTTP_TrustedProxies : list string; HTTP_CORS : CORS }.
Record GRPCTLS := mkGRPCTLS {
  GRPCTLS_Enabled : bool; GRPCTLS_CertFile : string; GRPCTLS_KeyFile : string;
  GRPCTLS_ClientCAFile : string }.
Record GRPC := mkGRPC {
  GRPC_Enabled : bool; GRPC_Address : string; GRPC_ReflectionEnabled : bool;
  GRPC_MaxReceiveBytes : Z; GRPC_TLS : GRPCTLS }.
Record Log := mkLog {
  Log_Level : string; Log_Format : string; Log_File : string; Log_MaxSizeMB : Z;
  Log_MaxBackups : Z; Log_MaxAgeDays : Z; Log_Compress : bool }.
Record Database := mkDatabase {
  Database_Enabled : bool; Database_Name : string; Database_Schema : string;
  Database_Type : string; Database_DSN : string; Database_MaxOpenConns : Z;
  Database_MaxIdleConns : Z; Database_ConnMaxLifetime : Z;
  Database_ConnMaxIdleTime : Z; Database_PingTimeout : Z }.
Record Redis := mkRedis {
  Redis_Enabled : bool; Redis_Address : string; Redis_Username : string;
  Redis_Password : string; Redis_DB : Z; Redis_DialTimeout : Z; Redis_ReadTimeout : Z;
  Redis_WriteTimeout : Z }.
Record Health := mkHealth {
  Health_DatabaseTimeout : Z; Health_RedisTimeout : Z }.
Record RateLimitRule := mkRateLimitRule {
  RateLimitRule_Rate : Z; RateLimitRule_Burst : Z; RateLimitRule_Period : Z }.
Record RateLimit := mkRateLimit {
  RateLimit_Enabled : bool; RateLimit_FailOpen : bool; RateLimit_IP : RateLimitRule;
  RateLimit_API : RateLimitRule; RateLimit_User : RateLimitRule;
  RateLimit_Login : RateLimitRule }.
Record Observability := mkObservability {
  Observability_MetricsEnabled : bool; Observability_TracingEnabled : bool;
  Observability_TracingEndpoint : string; Observability_TracingSampleRatio : Float64;
  Observability_PprofEnabled : bool; Observability_PprofToken : string }.
Record Swagger := mkSwagger {
  Swagger_Enabled : bool; Swagger_RequireAuth : bool }.
Record JWT := mkJWT {
  JWT_Issuer : string; JWT_Secret : string; JWT_TTL : Z }.
Record PSK := mkPSK {
  PSK_Enabled : bool; PSK_Key : string; PSK_HTTPPaths : list string;
  PSK_GRPCMethods : list string }.
Record Auth := mkAuth {
  Auth_JWKSURL : string; Auth_Issuer : string; Auth_Audience : string;
  Auth_ClientID : string; Auth_ClientSecret : string; Auth_SkipHTTPPaths : list string;
  Auth_SkipGRPCMethods : list string; Auth_PSK : PSK }.
Record Authorization := mkAuthorization {
  Authorization_Enabled : bool }.
Record Cron := mkCron {
  Cron_Enabled : bool; Cron_Timezone : string; Cron_SampleSpec : string }.
Record Migration := mkMigration {
  Migration_AutoUp : bool; Migration_CreateSchema : bool; Migration_Path : string;
  Migration_DatabaseURL : string; Migration_Table : string; Migration_Schema : string;
  Migration_DatabaseName : string }.
Record User := mkUser {
  User_CacheTTL : Z; User_LockTTL : Z; User_LockRetryDelay : Z }.
Record Idempotency := mkIdempotency {
  Idempotency_Enabled : bool; Idempotency_HTTPPaths : list string;
  Idempotency_GRPCMethods : list string; Idempotency_ProcessingTTL : Z;
  Idempotency_ResultTTL : Z; Idempotency_FailureTTL : Z }.
Record ClientAuth := mkClientAuth {
  ClientAuth_Type : string; ClientAuth_Token : string }.
Record Retry := mkRetry {
  Retry_MaxAttempts : Z; Retry_InitialBackoff : Z; Retry_MaxBackoff : Z;
  Retry_Methods : list string }.
Record Breaker := mkBreaker {
  Breaker_Enabled : bool; Breaker_FailureThreshold : Z; Breaker_OpenTimeout : Z }.
Record ClientTLS := mkClientTLS {
  ClientTLS_Enabled : bool; ClientTLS_ServerName : string; ClientTLS_CAFile : string;
  ClientTLS_CertFile : string; ClientTLS_KeyFile : string }.
Record HTTPUpstream := mkHTTPUpstream {
  HTTPUpstream_BaseURL : string; HTTPUpstream_Timeout : Z;
  HTTPUpstream_Auth : ClientAuth; HTTPUpstream_Retry : Retry;
  HTTPUpstream_Breaker : Breaker; HTTPUpstream_TLS : ClientTLS }.
Record GRPCUpstream := mkGRPCUpstream {
  GRPCUpstream_Target : string; GRPCUpstream_Timeout : Z;
  GRPCUpstream_Auth : ClientAuth; GRPCUpstream_Retry : Retry;
  GRPCUpstream_Breaker : Breaker; GRPCUpstream_TLS : ClientTLS }.
Record Outbound := mkOutbound {
  Outbound_HTTP : gmap string HTTPUpstream; Outbound_GRPC : gmap string GRPCUpstream }.
Record EventBus := mkEventBus {
  EventBus_Enabled : bool; EventBus_URLs : list string; EventBus_StreamName : string;
  EventBus_Subjects : list string; EventBus_Storage : string; EventBus_MaxAge : Z;
  EventBus_DuplicateWindow : Z; EventBus_ConnectTimeout : Z;
  EventBus_ReconnectWait : Z; EventBus_PublishTimeout : Z;
  EventBus_ConsumerAckWait : Z; EventBus_ConsumerMaxDeliver : Z;
  EventBus_DispatchInterval : Z; EventBus_DispatchBatchSize : Z;
  EventBus_DispatchLease : Z; EventBus_DispatchRetryDelay : Z;
  EventBus_PublishedRetention : Z; EventBus_CleanupInterval : Z;
  EventBus_CleanupBatchSize : Z }.
Record NotificationProvider := mkNotificationProvider {
  NotificationProvider_Upstream : string; NotificationProvider_Path : string }.
Record Notification := mkNotification {
  Notification_DispatchInterval : Z; Notification_BatchSize : Z;
  Notification_MaxAttempts : Z; Notification_RetryBase : Z; Notification_Retention : Z;
  Notification_CleanupInterval : Z; Notification_CleanupBatchSize : Z;
  Notification_TenantLimit : RateLimitRule; Notification_TemplateLimit : RateLimitRule;
  Notification_RecipientLimit : RateLimitRule;
  Notification_Providers : gmap string NotificationProvider;
  Notification_ProviderUpstreams : list string }.
Record Config := mkConfig {
  Config_Runtime : Runtime; Config_App : App; Config_HTTP : HTTP; Config_GRPC : GRPC;
  Config_Log : Log; Config_Database : Database; Config_Redis : Redis;
  Config_Health : Health; Config_RateLimit : RateLimit;
  Config_Observability : Observability; Config_Swagger : Swagger; Config_JWT : JWT;
  Config_Auth : Auth; Config_Authorization : Authorization; Config_Cron : Cron;
  Config_Migration : Migration; Config_User : User; Config_Idempotency : Idempotency;
  Config_Outbound : Outbound; Config_EventBus : EventBus;
  Config_Notification : Notification }.
(** ** What validation needs of Go

    [range m] is the order in which [for name, value := range m] visits a
    map, which the language leaves unspecified; [quote] is the [%q] verb. *)

Class GoRange := {
  range : ∀ {A}, gmap string A → list (string * A);
  range_perm : ∀ {A} (m : gmap string A), range m ≡ₚ map_to_list m }.
Class GoFmt := { quote : string → string }.

(** [if b { return e }], followed by the checks after it. *)
Definition fail_if (b : bool) (e : error) : error := if b then e else nil_err.
Definition or_else (e1 e2 : error) : error := if failed e1 then e1 else e2.
Notation "e1 ?? e2" := (or_else e1 e2) (at level 70, right associativity) : go_scope.
(** [for _, x := range l { if err := f x; err != nil { return err } }] *)
Fixpoint for_each {A} (l : list A) (f : A → error) : error :=
  match l with [] => nil_err | x :: l => f x ?? for_each l f end.

(** ** The regular expressions *)

Definition lower_alpha (c : ascii) : bool := byte_in 97 122 c.
Definition digit (c : ascii) : bool := byte_in 48 57 c.
(** [^[a-z0-9][a-z0-9_-]*$] *)
Definition validProfile (s : string) : bool :=
  match String.list_ascii_of_string s with
  | [] => false
  | c :: l =>
      (lower_alpha c || digit c)
      && forallb (λ c, lower_alpha c || digit c || (c == "_"%char) || (c == "-"%char)) l
  end.
(** [^[a-z][a-z0-9_]{0,62}$] *)
Definition validMigrationTable (s : string) : bool :=
  match String.list_ascii_of_string s with
  | [] => false
  | c :: l =>
      lower_alpha c && (length l <=? 62)%nat
      && forallb (λ c, lower_alpha c || digit c || (c == "_"%char)) l
  end.

(** ** Profiles and string lists *)

(** [filepath.Ext]: from the last dot of the last path element, on reversed
    bytes. *)
Fixpoint ext_rev (l acc : list ascii) : list ascii :=
  match l with
  | [] => []
  | c :: l =>
      if c == "/"%char then [] else
      if c == "."%char then c :: acc else ext_rev l (c :: acc)
  end.
Definition filepath_Ext (path : string) : string :=
  String.string_of_list_ascii (ext_rev (reverse (String.list_ascii_of_string path)) []).
Definition TrimSuffix (s suffix : string) : string :=
  if HasSuffix s suffix
  then String.substring 0 (String.length s - String.length suffix) s else s.

Definition profileConfigPath (path profile : string) : string :=
  let extension := filepath_Ext path in
  let base := TrimSuffix path extension in
  base +:+ "-" +:+ profile +:+ extension.

(** The profile that [LoadWithProfile] selects: the explicit one, or else the
    [app.env] value of the configuration; it must match [validProfile]. *)
Definition selectProfile `{UnicodeTables, GoFmt} (explicitProfile app_env : string)
    : string * error :=
  let profile := ToLower (TrimSpace explicitProfile) in
  let profile := if profile == "" then ToLower (TrimSpace app_env) else profile in
  if negb (validProfile profile)
  then ("", ErrMsg ("invalid environment profile " +:+ quote profile))
  else (profile, nil_err).

(** The conversion [stringToStringSliceHook] applies to a string given for a
    list of strings: optional brackets, commas, spaces and quotes. *)
Definition stringToStringSlice (data : string) : list string :=
  let raw := TrimSpace data in
  let raw :=
    if HasPrefix raw "[" && HasSuffix raw "]"
    then TrimSpace (String.substring 1 (String.length raw - 2) raw) else raw in
  if raw == "" then [] else
  map (λ v, Trim (TrimSpace v) [ascii_of_N 34; "'"%char]) (Split raw ",").

(** ** Validation *)

Definition isDBType (value : string) : bool :=
  (value == "mysql") || (value == "postgres") || (value == "kingbase").

Definition bad_pattern (pattern : string) : bool :=
  match Match pattern "/validation/target" with None => true | Some _ => false end.
Definition bad_method (method : string) : bool :=
  negb (HasPrefix method "/") || (Count method "/" != 2).

Section Validation.
Context `{GoRange, GoFmt}.

Definition err_pattern (m : string) : error := ErrWrap m (ErrSentinel ErrBadPattern).

Definition validateClientPolicy (name : string) (auth : ClientAuth) (retry : Retry)
    (breaker : Breaker) (tls : ClientTLS) : error :=
  fail_if ((auth.(ClientAuth_Type) != "") && (auth.(ClientAuth_Type) != "bearer")
           && (auth.(ClientAuth_Type) != "psk"))
    (ErrMsg ("outbound " +:+ name +:+ " auth.type must be bearer or psk")) ??
  fail_if ((auth.(ClientAuth_Type) != "") && (auth.(ClientAuth_Token) == ""))
    (ErrMsg ("outbound " +:+ name +:+ " auth.token is required")) ??
  fail_if ((auth.(ClientAuth_Type) != "") && negb tls.(ClientTLS_Enabled))
    (ErrMsg ("outbound " +:+ name +:+ " credentials require TLS")) ??
  fail_if ((retry.(Retry_MaxAttempts) <? 1) || (5 <? retry.(Retry_MaxAttempts))
           || (retry.(Retry_InitialBackoff) <=? 0)
           || (retry.(Retry_MaxBackoff) <? retry.(Retry_InitialBackoff)))
    (ErrMsg ("outbound " +:+ name +:+ " retry policy is invalid")) ??
  for_each retry.(Retry_Methods) (λ pattern,
    fail_if (bad_method pattern)
      (ErrMsg ("outbound " +:+ name +:+ " retry method pattern is invalid")) ??
    fail_if (bad_pattern pattern)
      (err_pattern ("outbound " +:+ name +:+ " retry method pattern is invalid"))) ??
  fail_if (breaker.(Breaker_Enabled)
           && ((breaker.(Breaker_FailureThreshold) == 0)
               || (breaker.(Breaker_OpenTimeout) <=? 0)))
    (ErrMsg ("outbound " +:+ name +:+ " breaker policy is invalid")) ??
  fail_if (tls.(ClientTLS_Enabled)
           && xorb (tls.(ClientTLS_CertFile) == "") (tls.(ClientTLS_KeyFile) == ""))
    (ErrMsg ("outbound " +:+ name
             +:+ " TLS certificate and key must be configured together")).

Definition rule_positive (rule : RateLimitRule) : bool :=
  negb ((rule.(RateLimitRule_Rate) <=? 0) || (rule.(RateLimitRule_Burst) <=? 0)
        || (rule.(RateLimitRule_Period) <=? 0)).
Definition validate_rules (prefix : string) (rules : gmap string RateLimitRule) : error :=
  for_each (range rules) (λ '(name, rule),
    fail_if (negb (rule_positive rule))
      (ErrMsg (prefix +:+ name +:+ " values must be positive"))).

(** The loops over a list of HTTP path patterns and of gRPC method patterns. *)
Definition validate_paths (field : string) (paths : list string) : error :=
  for_each paths (λ pattern,
    fail_if (negb (HasPrefix pattern "/api/"))
      (ErrMsg (field +:+ " contains path outside /api " +:+ quote pattern)) ??
    fail_if (bad_pattern pattern)
      (err_pattern (field +:+ " contains invalid pattern " +:+ quote pattern))).
Definition validate_methods (field : string) (methods : list string) : error :=
  for_each methods (λ method,
    fail_if (bad_method method)
      (ErrMsg (field +:+ " contains invalid method pattern " +:+ quote method)) ??
    fail_if (bad_pattern method)
      (err_pattern (field +:+ " contains invalid pattern " +:+ quote method))).

Definition validate_server (c : Config) : error :=
  let production := c.(Config_App).(App_Env) == "production" in
  let grpc := c.(Config_GRPC) in
  let db := c.(Config_Database) in
  let m := c.(Config_Migration) in
  fail_if (negb (validMigrationTable db.(Database_Name)))
    (ErrMsg "database.name must contain lowercase letters, digits, or underscores and be at most 63 characters") ??
  fail_if ((db.(Database_Schema) != "") && negb (validMigrationTable db.(Database_Schema)))
    (ErrMsg "database.schema must contain lowercase letters, digits, or underscores and be at most 63 characters") ??
  fail_if (c.(Config_HTTP).(HTTP_Address) == "")
    (ErrMsg "http.address is required") ??
  fail_if (grpc.(GRPC_Enabled)
           && ((grpc.(GRPC_Address) == "") || (grpc.(GRPC_MaxReceiveBytes) <=? 0)))
    (ErrMsg "enabled grpc requires address and positive max_receive_bytes") ??
  fail_if (grpc.(GRPC_TLS).(GRPCTLS_Enabled)
           && ((grpc.(GRPC_TLS).(GRPCTLS_CertFile) == "")
               || (grpc.(GRPC_TLS).(GRPCTLS_KeyFile) == "")))
    (ErrMsg "grpc tls requires cert_file and key_file") ??
  fail_if (production && grpc.(GRPC_Enabled) && negb grpc.(GRPC_TLS).(GRPCTLS_Enabled))
    (ErrMsg "grpc tls must be enabled in production") ??
  fail_if (production && grpc.(GRPC_ReflectionEnabled))
    (ErrMsg "grpc reflection must be disabled in production") ??
  fail_if (db.(Database_Enabled)
           && ((db.(Database_DSN) == "") || negb (isDBType db.(Database_Type))))
    (ErrMsg "enabled database requires dsn and type mysql, postgres, or kingbase") ??
  fail_if (db.(Database_Enabled)
           && bool_decide (c.(Config_Outbound).(Outbound_GRPC) !! "application" = None))
    (ErrMsg "enabled database requires outbound.grpc.application") ??
  fail_if (m.(Migration_AutoUp)
           && (negb db.(Database_Enabled) || (m.(Migration_Path) == "")
               || (m.(Migration_DatabaseURL) == "")
               || negb (validMigrationTable m.(Migration_Table))))
    (ErrMsg "migration.auto_up requires enabled database, path, database_url, and a valid service-specific table") ??
  fail_if (c.(Config_Redis).(Redis_Enabled) && (c.(Config_Redis).(Redis_Address) == ""))
    (ErrMsg "enabled redis requires address") ??
  fail_if ((c.(Config_HTTP).(HTTP_RequestTimeout) <=? 0)
           || (c.(Config_Health).(Health_DatabaseTimeout) <=? 0)
           || (c.(Config_Health).(Health_RedisTimeout) <=? 0))
    (ErrMsg "http and health timeouts must be positive").

Definition validate_limits (c : Config) : error :=
  let rl := c.(Config_RateLimit) in
  let n := c.(Config_Notification) in
  fail_if (rl.(RateLimit_Enabled) && negb c.(Config_Redis).(Redis_Enabled))
    (ErrMsg "rate_limit requires redis.enabled") ??
  (if rl.(RateLimit_Enabled) then
     validate_rules "rate_limit."
       (list_to_map [("ip", rl.(RateLimit_IP)); ("api", rl.(RateLimit_API));
                     ("user", rl.(RateLimit_User)); ("login", rl.(RateLimit_Login))]) ??
     validate_rules ""
       (list_to_map [("notification.tenant_limit", n.(Notification_TenantLimit));
                     ("notification.template_limit", n.(Notification_TemplateLimit));
                     ("notification.recipient_limit", n.(Notification_RecipientLimit))])
   else nil_err).

Definition validate_observability (c : Config) : error :=
  let production := c.(Config_App).(App_Env) == "production" in
  let o := c.(Config_Observability) in
  fail_if (c.(Config_HTTP).(HTTP_CORS).(CORS_Enabled)
           && (length c.(Config_HTTP).(HTTP_CORS).(CORS_AllowedOrigins) =? 0)%nat)
    (ErrMsg "cors.allowed_origins is required when cors is enabled") ??
  fail_if (float_lt0 o.(Observability_TracingSampleRatio)
           || float_gt1 o.(Observability_TracingSampleRatio))
    (ErrMsg "observability.tracing_sample_ratio must be between 0 and 1") ??
  fail_if (o.(Observability_TracingEnabled) && (o.(Observability_TracingEndpoint) == ""))
    (ErrMsg "observability.tracing_endpoint is required") ??
  fail_if (o.(Observability_PprofEnabled) && (len o.(Observability_PprofToken) <? 32))
    (ErrMsg "observability.pprof_token must contain at least 32 bytes") ??
  fail_if (production && c.(Config_Swagger).(Swagger_Enabled)
           && negb c.(Config_Swagger).(Swagger_RequireAuth))
    (ErrMsg "swagger.require_auth must be enabled in production").

Definition validate_auth (c : Config) : error :=
  let production := c.(Config_App).(App_Env) == "production" in
  let a := c.(Config_Auth) in
  let psk := a.(Auth_PSK) in
  fail_if (production && ((a.(Auth_JWKSURL) == "") || (a.(Auth_Issuer) == "")
                          || (a.(Auth_Audience) == "")))
    (ErrMsg "production auth requires jwks_url, issuer, and audience") ??
  fail_if (production && negb c.(Config_Authorization).(Authorization_Enabled))
    (ErrMsg "authorization must be enabled in production") ??
  fail_if (c.(Config_Authorization).(Authorization_Enabled)
           && bool_decide (c.(Config_Outbound).(Outbound_GRPC) !! "authorization" = None))
    (ErrMsg "enabled authorization requires outbound.grpc.authorization") ??
  fail_if (((a.(Auth_ClientID) != "") || (a.(Auth_ClientSecret) != ""))
           && (len c.(Config_JWT).(JWT_Secret) <? 32))
    (ErrMsg "jwt.secret must contain at least 32 bytes when auth is enabled") ??
  validate_paths "auth.skip_http_paths" a.(Auth_SkipHTTPPaths) ??
  validate_methods "auth.skip_grpc_methods" a.(Auth_SkipGRPCMethods) ??
  fail_if (psk.(PSK_Enabled)
           && ((len psk.(PSK_Key) <? 32)
               || (length psk.(PSK_HTTPPaths) + length psk.(PSK_GRPCMethods) =? 0)%nat))
    (ErrMsg "enabled auth.psk requires a key of at least 32 bytes and at least one route pattern") ??
  validate_paths "auth.psk.http_paths" psk.(PSK_HTTPPaths) ??
  validate_methods "auth.psk.grpc_methods" psk.(PSK_GRPCMethods).

Definition validate_idempotency (c : Config) : error :=
  let u := c.(Config_User) in
  let i := c.(Config_Idempotency) in
  fail_if ((u.(User_CacheTTL) <=? 0) || (u.(User_LockTTL) <=? 0)
           || (u.(User_LockRetryDelay) <=? 0))
    (ErrMsg "user cache and lock durations must be positive") ??
  fail_if (i.(Idempotency_Enabled)
           && (negb c.(Config_Redis).(Redis_Enabled)
               || (length i.(Idempotency_HTTPPaths)
                   + length i.(Idempotency_GRPCMethods) =? 0)%nat
               || (i.(Idempotency_ProcessingTTL) <=? 0)
               || (i.(Idempotency_ResultTTL) <=? 0)
               || (i.(Idempotency_FailureTTL) <=? 0)))
    (ErrMsg "enabled idempotency requires redis, at least one route pattern, and positive TTL values") ??
  validate_paths "idempotency.http_paths" i.(Idempotency_HTTPPaths) ??
  validate_methods "idempotency.grpc_methods" i.(Idempotency_GRPCMethods).

Definition validate_workers (c : Config) : error :=
  let e := c.(Config_EventBus) in
  let n := c.(Config_Notification) in
  fail_if (e.(EventBus_Enabled)
           && ((length e.(EventBus_URLs) =? 0)%nat || (e.(EventBus_StreamName) == "")
               || (length e.(EventBus_Subjects) =? 0)%nat
               || ((e.(EventBus_Storage) != "file") && (e.(EventBus_Storage) != "memory"))
               || (e.(EventBus_MaxAge) <=? 0) || (e.(EventBus_DuplicateWindow) <=? 0)
               || (e.(EventBus_ConnectTimeout) <=? 0) || (e.(EventBus_ReconnectWait) <=? 0)
               || (e.(EventBus_PublishTimeout) <=? 0) || (e.(EventBus_ConsumerAckWait) <=? 0)
               || (e.(EventBus_ConsumerMaxDeliver) <=? 0)
               || (e.(EventBus_DispatchInterval) <=? 0)
               || (e.(EventBus_DispatchBatchSize) <=? 0)
               || (e.(EventBus_DispatchLease) <=? 0)
               || (e.(EventBus_DispatchRetryDelay) <=? 0)
               || (e.(EventBus_PublishedRetention) <? e.(EventBus_MaxAge))
               || (e.(EventBus_CleanupInterval) <=? 0)
               || (e.(EventBus_CleanupBatchSize) <=? 0)))
    (ErrMsg "enabled event_bus requires stream settings, positive delivery/dispatch/cleanup settings, and published retention at least max_age") ??
  fail_if ((n.(Notification_DispatchInterval) <=? 0) || (n.(Notification_BatchSize) <=? 0)
           || (n.(Notification_MaxAttempts) <=? 0) || (n.(Notification_RetryBase) <=? 0))
    (ErrMsg "notification worker values must be positive") ??
  fail_if ((n.(Notification_Retention) <=? 0) || (n.(Notification_CleanupInterval) <=? 0)
           || (n.(Notification_CleanupBatchSize) <=? 0))
    (ErrMsg "notification retention values must be positive").

Definition validate_outbound (o : Outbound) : error :=
  for_each (range o.(Outbound_HTTP)) (λ '(name, upstream),
    fail_if ((upstream.(HTTPUpstream_BaseURL) == "")
             || (upstream.(HTTPUpstream_Timeout) <=? 0))
      (ErrMsg ("outbound.http." +:+ name +:+ " requires base_url and positive timeout")) ??
    validateClientPolicy name upstream.(HTTPUpstream_Auth) upstream.(HTTPUpstream_Retry)
      upstream.(HTTPUpstream_Breaker) upstream.(HTTPUpstream_TLS)) ??
  for_each (range o.(Outbound_GRPC)) (λ '(name, upstream),
    fail_if ((upstream.(GRPCUpstream_Target) == "")
             || (upstream.(GRPCUpstream_Timeout) <=? 0))
      (ErrMsg ("outbound.grpc." +:+ name +:+ " requires target and positive timeout")) ??
    validateClientPolicy name upstream.(GRPCUpstream_Auth) upstream.(GRPCUpstream_Retry)
      upstream.(GRPCUpstream_Breaker) upstream.(GRPCUpstream_TLS)).

(** [Config.Validate]; the blocks follow one another as in the source. *)
Definition Validate (c : Config) : error :=
  validate_server c ??
  validate_limits c ??
  validate_observability c ??
  validate_auth c ??
  validate_idempotency c ??
  validate_workers c ??
  validate_outbound c.(Config_Outbound).
End Validation.

(** ** Defaults *)

Definition millisecond : Z := 1000000.
Definition second : Z := 1000 * millisecond.
Definition minute : Z := 60 * second.
Definition hour : Z := 60 * minute.

Definition setRateLimitDefaults (rate burst : Z) : RateLimitRule :=
  mkRateLimitRule rate burst minute.

(** The configuration that results from [setDefaults] alone: an empty file and
    no environment variable (a key without a default is its zero value). *)
Definition setDefaults : Config := {|
  Config_Runtime := mkRuntime "" [];
  Config_App := {| App_Name := "notification-service"; App_Schema := "";
    App_Env := "development"; App_ShutdownTimeout := 10 * second |};
  Config_HTTP := {| HTTP_Address := "127.0.0.1:8080"; HTTP_ReadTimeout := 10 * second;
    HTTP_WriteTimeout := 15 * second; HTTP_IdleTimeout := 60 * second;
    HTTP_RequestTimeout := 10 * second; HTTP_MaxBodyBytes := 2 ^ 20;
    HTTP_TrustedProxies := [];
    HTTP_CORS := {| CORS_Enabled := false; CORS_AllowedOrigins := [];
      CORS_AllowedHeaders := ["Authorization"; "Content-Type"; "X-Request-ID"];
      CORS_ExposedHeaders := ["X-Request-ID"; "X-RateLimit-Limit";
        "X-RateLimit-Remaining"; "Retry-After"];
      CORS_MaxAge := 12 * hour |} |};
  Config_GRPC := {| GRPC_Enabled := true; GRPC_Address := "127.0.0.1:9090";
    GRPC_ReflectionEnabled := true; GRPC_MaxReceiveBytes := 16 * 2 ^ 20;
    GRPC_TLS := mkGRPCTLS false "" "" "" |};
  Config_Log := {| Log_Level := "info"; Log_Format := "json"; Log_File := "logs/app.log";
    Log_MaxSizeMB := 100; Log_MaxBackups := 10; Log_MaxAgeDays := 30;
    Log_Compress := true |};
  Config_Database := {| Database_Enabled := false; Database_Name := "platform";
    Database_Schema := "notification"; Database_Type := "postgres"; Database_DSN := "";
    Database_MaxOpenConns := 25; Database_MaxIdleConns := 10;
    Database_ConnMaxLifetime := 5 * minute; Database_ConnMaxIdleTime := minute;
    Database_PingTimeout := 5 * second |};
  Config_Redis := {| Redis_Enabled := false; Redis_Address := "127.0.0.1:6379";
    Redis_Username := ""; Redis_Password := ""; Redis_DB := 0;
    Redis_DialTimeout := 5 * second; Redis_ReadTimeout := 3 * second;
    Redis_WriteTimeout := 3 * second |};
  Config_Health := mkHealth (2 * second) (2 * second);
  Config_RateLimit := {| RateLimit_Enabled := false; RateLimit_FailOpen := false;
    RateLimit_IP := setRateLimitDefaults 120 30;
    RateLimit_API := setRateLimitDefaults 10000 1000;
    RateLimit_User := setRateLimitDefaults 600 100;
    RateLimit_Login := setRateLimitDefaults 10 3 |};
  Config_Observability := {| Observability_MetricsEnabled := true;
    Observability_TracingEnabled := false;
    Observability_TracingEndpoint := "http://127.0.0.1:4318";
    Observability_TracingSampleRatio := FFin 1 10; Observability_PprofEnabled := false;
    Observability_PprofToken := "" |};
  Config_Swagger := mkSwagger true false;
  Config_JWT := mkJWT "notification-service" "" (2 * hour);
  Config_Auth := {| Auth_JWKSURL := ""; Auth_Issuer := "identity-service";
    Auth_Audience := "notification-service"; Auth_ClientID := "";
    Auth_ClientSecret := ""; Auth_SkipHTTPPaths := ["/api/v1/version"];
    Auth_SkipGRPCMethods := ["/grpc.health.v1.Health/*"];
    Auth_PSK := mkPSK false "" [] [] |};
  Config_Authorization := mkAuthorization false;
  Config_Cron := mkCron true "Asia/Shanghai" "0 */5 * * * *";
  Config_Migration := {| Migration_AutoUp := false; Migration_CreateSchema := false;
    Migration_Path := "migrations/postgres"; Migration_DatabaseURL := "";
    Migration_Table := "notification_schema_migrations";
    Migration_Schema := "notification"; Migration_DatabaseName := "platform" |};
  Config_User := mkUser (5 * minute) (10 * second) (100 * millisecond);
  Config_Idempotency := {| Idempotency_Enabled := false; Idempotency_HTTPPaths := [];
    Idempotency_GRPCMethods := []; Idempotency_ProcessingTTL := 30 * second;
    Idempotency_ResultTTL := 24 * hour; Idempotency_FailureTTL := 5 * minute |};
  Config_Outbound := mkOutbound ∅ ∅;
  Config_EventBus := {| EventBus_Enabled := false; EventBus_URLs := ["nats://127.0.0.1:4222"];
    EventBus_StreamName := "PLATFORM_EVENTS"; EventBus_Subjects := ["platform.>"];
    EventBus_Storage := "file"; EventBus_MaxAge := 168 * hour;
    EventBus_DuplicateWindow := 10 * minute; EventBus_ConnectTimeout := 5 * second;
    EventBus_ReconnectWait := second; EventBus_PublishTimeout := 5 * second;
    EventBus_ConsumerAckWait := 30 * second; EventBus_ConsumerMaxDeliver := 10;
    EventBus_DispatchInterval := second; EventBus_DispatchBatchSize := 100;
    EventBus_DispatchLease := 30 * second; EventBus_DispatchRetryDelay := 5 * second;
    EventBus_PublishedRetention := 168 * hour; EventBus_CleanupInterval := hour;
    EventBus_CleanupBatchSize := 1000 |};
  Config_Notification := {| Notification_DispatchInterval := second;
    Notification_BatchSize := 100; Notification_MaxAttempts := 8;
    Notification_RetryBase := 5 * second; Notification_Retention := 720 * hour;
    Notification_CleanupInterval := hour; Notification_CleanupBatchSize := 500;
    Notification_TenantLimit := setRateLimitDefaults 1000 100;
    Notification_TemplateLimit := setRateLimitDefaults 300 50;
    Notification_RecipientLimit := setRateLimitDefaults 10 3;
    Notification_Providers := ∅; Notification_ProviderUpstreams := [] |} |}.

(** ** Reading a successful validation *)

Lemma fail_if_nil b e : e ≠ nil_err → fail_if b e = nil_err ↔ b = false.
Proof. by destruct b; simpl. Qed.
Lemma fail_if_msg b m : fail_if b (ErrMsg m) = nil_err ↔ b = false.
Proof. by apply fail_if_nil. Qed.
Lemma fail_if_pattern b m : fail_if b (err_pattern m) = nil_err ↔ b = false.
Proof. by apply fail_if_nil. Qed.
Lemma or_else_nil e1 e2 : (e1 ?? e2) = nil_err ↔ e1 = nil_err ∧ e2 = nil_err.
Proof. unfold or_else. destruct e1; simpl; intuition congruence. Qed.
Lemma for_each_nil {A} (l : list A) f :
  for_each l f = nil_err ↔ ∀ x, x ∈ l → f x = nil_err.
Proof.
  induction l as [|x l IH]; simpl; [set_solver|].
  rewrite or_else_nil, IH. setoid_rewrite elem_of_cons.
  split; [intros [? ?] y [->|?]; auto|auto].
Qed.
Lemma elem_of_range `{GoRange} {A} (m : gmap string A) name x :
  (name, x) ∈ range m ↔ m !! name = Some x.
Proof. rewrite range_perm. apply elem_of_map_to_list. Qed.

Create Rewrite HintDb validate.
#[export] Hint Rewrite fail_if_msg fail_if_pattern or_else_nil @for_each_nil : validate.

Lemma bad_pattern_false p : bad_pattern p = false ↔ ∀ name, Match p name ≠ None.
Proof.
  unfold bad_pattern, Match. split.
  - intros Hp name Hn. apply match_loop_bad in Hn.
    by rewrite (proj2 (match_loop_bad _ _ _) Hn) in Hp.
  - intros Hp. specialize (Hp "/validation/target"). by case_match.
Qed.

(** A pattern that can never yield [path.ErrBadPattern] when it is matched. *)
Definition well_formed (p : string) : Prop := ∀ name, Match p name ≠ None.
Definition api_pattern (p : string) : Prop := HasPrefix p "/api/" = true ∧ well_formed p.
Definition method_pattern (p : string) : Prop :=
  HasPrefix p "/" = true ∧ Count p "/" = 2 ∧ well_formed p.

Section Validated.
Context `{GoRange, GoFmt}.

Lemma validate_paths_nil field l :
  validate_paths field l = nil_err ↔ Forall api_pattern l.
Proof.
  unfold validate_paths. rewrite for_each_nil, Forall_forall.
  apply forall_proper; intros p. apply imp_iff_compat_l.
  autorewrite with validate. rewrite negb_false_iff, bad_pattern_false. done.
Qed.

Lemma validate_methods_nil field l :
  validate_methods field l = nil_err ↔ Forall method_pattern l.
Proof.
  unfold validate_methods. rewrite for_each_nil, Forall_forall.
  apply forall_proper; intros p. apply imp_iff_compat_l.
  autorewrite with validate. unfold bad_method, method_pattern.
  rewrite orb_false_iff, !negb_false_iff, bool_decide_eq_true, bad_pattern_false. tauto.
Qed.

(** What a valid client policy guarantees. *)
Definition policy_ok (auth : ClientAuth) (retry : Retry) (breaker : Breaker)
    (tls : ClientTLS) : Prop :=
  (auth.(ClientAuth_Type) ∈ [""; "bearer"; "psk"]) ∧
  (auth.(ClientAuth_Type) ≠ "" →
     auth.(ClientAuth_Token) ≠ "" ∧ tls.(ClientTLS_Enabled) = true) ∧
  1 ≤ retry.(Retry_MaxAttempts) ≤ 5 ∧
  0 < retry.(Retry_InitialBackoff) ≤ retry.(Retry_MaxBackoff) ∧
  Forall method_pattern retry.(Retry_Methods) ∧
  (breaker.(Breaker_Enabled) = true →
     breaker.(Breaker_FailureThreshold) ≠ 0 ∧ 0 < breaker.(Breaker_OpenTimeout)) ∧
  (tls.(ClientTLS_Enabled) = true →
     tls.(ClientTLS_CertFile) = "" ↔ tls.(ClientTLS_KeyFile) = "").

Lemma retry_methods_nil m l :
  for_each l (λ p, fail_if (bad_method p) (ErrMsg m) ?? fail_if (bad_pattern p) (err_pattern m))
    = nil_err ↔ Forall method_pattern l.
Proof.
  rewrite for_each_nil, Forall_forall.
  apply forall_proper; intros p. apply imp_iff_compat_l.
  autorewrite with validate. unfold bad_method, method_pattern.
  rewrite orb_false_iff, !negb_false_iff, bool_decide_eq_true, bad_pattern_false. tauto.
Qed.

Lemma validateClientPolicy_nil name auth retry breaker tls :
  validateClientPolicy name auth retry breaker tls = nil_err
  ↔ policy_ok auth retry breaker tls.
Proof.
  unfold validateClientPolicy, policy_ok.
  rewrite !or_else_nil, !fail_if_msg, retry_methods_nil.
  assert (∀ ty : string, (ty != "") && (ty != "bearer") && (ty != "psk") = false
    ↔ ty ∈ [""; "bearer"; "psk"]) as ->.
  { intros ty. rewrite !elem_of_cons, elem_of_nil, !andb_false_iff, !negb_false_iff,
      !bool_decide_eq_true. tauto. }
  assert (∀ a b : string, ∀ t, ((a != "") && (b == "") = false ∧ (a != "") && negb t = false)
    ↔ (a ≠ "" → b ≠ "" ∧ t = true)) as Hauth.
  { intros a b t. rewrite !andb_false_iff, !negb_false_iff, bool_decide_eq_true,
      bool_decide_eq_false. destruct (decide (a = "")); tauto. }
  assert (∀ b x y, b && ((x == 0) || (y <=? 0)) = false ↔ (b = true → x ≠ 0 ∧ 0 < y)) as ->.
  { intros b x y. rewrite andb_false_iff, orb_false_iff, bool_decide_eq_false, Z.leb_gt.
    destruct b; intuition congruence. }
  assert (∀ b (x y : string), b && xorb (x == "") (y == "") = false
    ↔ (b = true → x = "" ↔ y = "")) as ->.
  { intros b x y. destruct b; simpl; [|intuition congruence].
    repeat case_bool_decide; simpl; intuition congruence. }
  rewrite !orb_false_iff, !Z.ltb_ge, Z.leb_gt, <- Hauth. intuition lia.
Qed.

Lemma validate_outbound_nil o :
  validate_outbound o = nil_err ↔
  (∀ name u, o.(Outbound_HTTP) !! name = Some u →
     u.(HTTPUpstream_BaseURL) ≠ "" ∧ 0 < u.(HTTPUpstream_Timeout) ∧
     policy_ok u.(HTTPUpstream_Auth) u.(HTTPUpstream_Retry) u.(HTTPUpstream_Breaker)
       u.(HTTPUpstream_TLS)) ∧
  (∀ name u, o.(Outbound_GRPC) !! name = Some u →
     u.(GRPCUpstream_Target) ≠ "" ∧ 0 < u.(GRPCUpstream_Timeout) ∧
     policy_ok u.(GRPCUpstream_Auth) u.(GRPCUpstream_Retry) u.(GRPCUpstream_Breaker)
       u.(GRPCUpstream_TLS)).
Proof.
  unfold validate_outbound. rewrite or_else_nil, !for_each_nil.
  assert (∀ b (x : string) y p q, (p ↔ q) →
    (fail_if ((x == "") || (y <=? 0)) (ErrMsg b) = nil_err ∧ p)
    ↔ (x ≠ "" ∧ 0 < y ∧ q)) as He.
  { intros b x y p q ->. rewrite fail_if_msg, orb_false_iff, bool_decide_eq_false,
      Z.leb_gt. tauto. }
  split; intros [H1 H2]; split.
  - intros name u Hu%elem_of_range. apply H1 in Hu. rewrite or_else_nil in Hu.
    eapply He, Hu. apply validateClientPolicy_nil.
  - intros name u Hu%elem_of_range. apply H2 in Hu. rewrite or_else_nil in Hu.
    eapply He, Hu. apply validateClientPolicy_nil.
  - intros [name u] Hu%elem_of_range. apply H1 in Hu. rewrite or_else_nil.
    eapply He, Hu. apply validateClientPolicy_nil.
  - intros [name u] Hu%elem_of_range. apply H2 in Hu. rewrite or_else_nil.
    eapply He, Hu. apply validateClientPolicy_nil.
Qed.

Lemma validate_rules_nil prefix rules :
  validate_rules prefix rules = nil_err
  ↔ ∀ name rule, rules !! name = Some rule → rule_positive rule = true.
Proof.
  unfold validate_rules. rewrite for_each_nil. split.
  - intros Hr name rule Hl%elem_of_range. apply Hr in Hl.
    by rewrite fail_if_msg, negb_false_iff in Hl.
  - intros Hr [name rule] Hl%elem_of_range. rewrite fail_if_msg, negb_false_iff. eauto.
Qed.

Lemma Validate_nil c :
  Validate c = nil_err ↔
  validate_server c = nil_err ∧ validate_limits c = nil_err ∧
  validate_observability c = nil_err ∧ validate_auth c = nil_err ∧
  validate_idempotency c = nil_err ∧ validate_workers c = nil_err ∧
  validate_outbound c.(Config_Outbound) = nil_err.
Proof. unfold Validate. by rewrite !or_else_nil. Qed.

(** C36 A configuration that validates for the production profile has no
    plaintext gRPC listener and no reflection, protects the Swagger pages,
    verifies tokens against a JWKS, and enforces authorization through a
    configured authorization upstream. *)
Theorem production_hardened c :
  Validate c = nil_err → c.(Config_App).(App_Env) = "production" →
  (c.(Config_GRPC).(GRPC_Enabled) = true →
     c.(Config_GRPC).(GRPC_TLS).(GRPCTLS_Enabled) = true ∧
     c.(Config_GRPC).(GRPC_TLS).(GRPCTLS_CertFile) ≠ "" ∧
     c.(Config_GRPC).(GRPC_TLS).(GRPCTLS_KeyFile) ≠ "") ∧
  c.(Config_GRPC).(GRPC_ReflectionEnabled) = false ∧
  (c.(Config_Swagger).(Swagger_Enabled) = true →
     c.(Config_Swagger).(Swagger_RequireAuth) = true) ∧
  c.(Config_Auth).(Auth_JWKSURL) ≠ "" ∧ c.(Config_Auth).(Auth_Issuer) ≠ "" ∧
  c.(Config_Auth).(Auth_Audience) ≠ "" ∧
  c.(Config_Authorization).(Authorization_Enabled) = true ∧
  is_Some (c.(Config_Outbound).(Outbound_GRPC) !! "authorization").
Proof.
  rewrite Validate_nil. intros (Hs & _ & Ho & Ha & _) Hp.
  unfold validate_server in Hs. unfold validate_observability in Ho.
  unfold validate_auth in Ha. rewrite !or_else_nil, !fail_if_msg, Hp in *.
  rewrite (bool_decide_eq_true_2 ("production" = "production")) in * by done.
  destruct Hs as (_ & _ & _ & _ & Htls & Hgrpc & Hrefl & _).
  destruct Ho as (_ & _ & _ & _ & Hsw). destruct Ha as (Hjwks & Haz & Hup & _).
  simpl in *. apply negb_false_iff in Haz. rewrite Haz in Hup. simpl in Hup.
  apply bool_decide_eq_false, not_eq_None_Some in Hup.
  rewrite !orb_false_iff, !bool_decide_eq_false in Hjwks.
  rewrite andb_false_iff, negb_false_iff in Hsw, Hgrpc.
  rewrite andb_false_iff, orb_false_iff, !bool_decide_eq_false in Htls.
  intuition congruence.
Qed.

(** Every route and method pattern of a validated configuration is well
    formed, so [path.Match] can never report [path.ErrBadPattern] for it
    while serving, whatever the request: the probe [Validate] matches it
    against decides that for all names.  The HTTP patterns stay under
    [/api/] and a method pattern has exactly the two slashes of a gRPC
    method name. *)
Theorem validated_patterns c :
  Validate c = nil_err →
  Forall api_pattern (c.(Config_Auth).(Auth_SkipHTTPPaths)
    ++ c.(Config_Auth).(Auth_PSK).(PSK_HTTPPaths)
    ++ c.(Config_Idempotency).(Idempotency_HTTPPaths)) ∧
  Forall method_pattern (c.(Config_Auth).(Auth_SkipGRPCMethods)
    ++ c.(Config_Auth).(Auth_PSK).(PSK_GRPCMethods)
    ++ c.(Config_Idempotency).(Idempotency_GRPCMethods)).
Proof.
  rewrite Validate_nil. intros (_ & _ & _ & Ha & Hi & _).
  unfold validate_auth in Ha. unfold validate_idempotency in Hi.
  rewrite !or_else_nil, !validate_paths_nil, !validate_methods_nil in *.
  rewrite !Forall_app. tauto.
Qed.

(** Every outbound client of a validated configuration has a base URL or
    target, a positive timeout, between one and five attempts with positive,
    ordered back-off bounds, well-formed retry methods, a usable breaker,
    and sends credentials only over TLS. *)
Theorem validated_outbound c :
  Validate c = nil_err →
  (∀ name u, c.(Config_Outbound).(Outbound_HTTP) !! name = Some u →
     u.(HTTPUpstream_BaseURL) ≠ "" ∧ 0 < u.(HTTPUpstream_Timeout) ∧
     policy_ok u.(HTTPUpstream_Auth) u.(HTTPUpstream_Retry) u.(HTTPUpstream_Breaker)
       u.(HTTPUpstream_TLS)) ∧
  (∀ name u, c.(Config_Outbound).(Outbound_GRPC) !! name = Some u →
     u.(GRPCUpstream_Target) ≠ "" ∧ 0 < u.(GRPCUpstream_Timeout) ∧
     policy_ok u.(GRPCUpstream_Auth) u.(GRPCUpstream_Retry) u.(GRPCUpstream_Breaker)
       u.(GRPCUpstream_TLS)).
Proof. rewrite Validate_nil, validate_outbound_nil. tauto. Qed.

(** The workers' settings a validated configuration has. *)
Lemma Validate_workers c :
  Validate c = nil_err →
  let n := c.(Config_Notification) in
  0 < n.(Notification_DispatchInterval) ∧ 0 < n.(Notification_BatchSize) ∧
  0 < n.(Notification_MaxAttempts) ∧ 0 < n.(Notification_RetryBase) ∧
  0 < n.(Notification_Retention) ∧ 0 < n.(Notification_CleanupInterval) ∧
  0 < n.(Notification_CleanupBatchSize).
Proof.
  rewrite Validate_nil. intros (_ & _ & _ & _ & _ & Hw & _).
  unfold validate_workers in Hw. rewrite !or_else_nil, !fail_if_msg in Hw.
  destruct Hw as (_ & Hn & Hr). rewrite !orb_false_iff, !Z.leb_gt in Hn.
  rewrite !orb_false_iff, !Z.leb_gt in Hr. simpl. tauto.
Qed.
End Validated.

(** The verdict of [Validate] does not depend on the order in which Go
    happens to visit its maps (only the message of a failure can). *)
Theorem Validate_order_independent (r1 r2 : GoRange) (f : GoFmt) c :
  @Validate r1 f c = nil_err ↔ @Validate r2 f c = nil_err.
Proof.
  rewrite !Validate_nil, !validate_outbound_nil.
  assert (@validate_limits r1 c = nil_err ↔ @validate_limits r2 c = nil_err) as ->; [|done].
  unfold validate_limits. destruct (RateLimit_Enabled _); simpl; [|done].
  by rewrite !or_else_nil, !validate_rules_nil.
Qed.

(** The built-in defaults are a valid configuration, for a profile that
    [LoadWithProfile] accepts. *)
Theorem setDefaults_valid `{GoRange, GoFmt, UnicodeTables} :
  Validate setDefaults = nil_err ∧
  selectProfile "" setDefaults.(Config_App).(App_Env) = ("development", nil_err).
Proof.
  split; [|reflexivity]. apply Validate_nil.
  rewrite validate_outbound_nil.
  do 6 (split; [vm_compute; reflexivity|]).
  split; intros name u Hu; exact (match lookup_empty_Some name u Hu with end).
Qed.
