(* ===== verification/Connections.v ===== *)
(** * internal/grpcclient and internal/authorization: the clients as values

    What a gRPC connection of the service is made of, and the authorizer, which is
    the platform's client of the authorization service over such a connection. *)

From S2P Require Import Prelude Config.
Open Scope string_scope.
Open Scope list_scope.
Open Scope Z_scope.
Open Scope go_scope.

(** [metrics] tells whether the client was given metrics, and whether they are on. *)
Record TLSConfig := mkTLSConfig {
  TLS_Enabled : bool; TLS_ServerName : string; TLS_CAFile : string; TLS_CertFile : string;
  TLS_KeyFile : string; TLS_AllowInsecureToken : bool }.
Record ClientConfig := mkClientConfig {
  Client_Target : string; Client_Timeout : Z; Client_Token : string; Client_PSK : string;
  Client_TLS : TLSConfig; Client_Name : string; Client_Retry : Retry; Client_Breaker : Breaker;
  Client_Metrics : option bool }.
Record ClientCredentials := mkClientCredentials {
  Creds_ServerName : string; Creds_RootCAs : option string;
  Creds_Certificate : option (string * string) }.
(** A connection: what it was made of.  [None] are the insecure credentials. *)
Record ClientConn := mkClientConn {
  Conn_config : ClientConfig; Conn_credentials : option ClientCredentials }.

(** [platformauthz.Authorizer] over a connection, or over none. *)
Record Authorizer := mkAuthorizer { Authorizer_conn : option ClientConn; Authorizer_timeout : Z }.
