(* ===== verification/Reqctx.v ===== *)
(** * Request contexts: internal/requestid, internal/environment,
      internal/idempotency/context.go and the caller

    A [context.Context] is the record of the values the program stores in it:
    the caller ([platformprincipal]), the request id, the environment profile,
    the idempotency key, the caller's credential and the outgoing gRPC
    metadata, and whether it has a deadline.  What can happen to a context
    while it is used (cancellation, expiry) is an answer of the outside world,
    in Effects. *)

From S2P Require Import Prelude GoStrings.
From Stdlib Require Import Ascii.
Open Scope string_scope.
Open Scope list_scope.
Open Scope Z_scope.
Open Scope go_scope.

Inductive PrincipalType := TypeUser | TypeServiceAccount | TypeSystem.
#[export] Instance PrincipalType_eq_dec : EqDecision PrincipalType.
Proof. solve_decision. Defined.
Record Principal := mkPrincipal {
  Principal_ID : string; Principal_Type : PrincipalType; Principal_TenantID : string }.

Record Context := mkContext {
  ctx_principal : option Principal;
  ctx_request_id : option string;
  ctx_environment : option string;
  ctx_idempotency : option string;
  ctx_credential : option string;
  ctx_outgoing : list (string * string);
  ctx_has_deadline : bool }.
Definition Background : Context := mkContext None None None None None [] false.

(** ** internal/requestid *)
Module Requestid.
Definition WithContext (ctx : Context) (id : string) : Context :=
  { ctx with ctx_request_id := Some id }.
Definition FromContext (ctx : Context) : string * bool :=
  let id := default "" ctx.(ctx_request_id) in
  (id, bool_decide (is_Some ctx.(ctx_request_id)) && (id != "")).

(** The range loop visits runes; every allowed one is ASCII, and every byte
    of another rune is above 127, so visiting bytes gives the same answer. *)
Definition allowedCharacter (c : ascii) : bool :=
  byte_in 97 122 c || byte_in 65 90 c || byte_in 48 57 c
  || (c == "-"%char) || (c == "_"%char) || (c == "."%char).
Definition Valid (value : string) : bool :=
  if (value == "") || (128 <? len value) then false
  else forallb allowedCharacter (String.list_ascii_of_string value).

Definition hex_digit (n : N) : ascii :=
  ascii_of_N (if (n <? 10)%N then 48 + n else 87 + n)%N.
Fixpoint hex_encode (l : list ascii) : string :=
  match l with
  | [] => EmptyString
  | c :: l =>
      String (hex_digit (N_of_ascii c / 16)%N)
        (String (hex_digit (N_of_ascii c mod 16)%N) (hex_encode l))
  end.
(** [random] is what [rand.Read] filled the 16 bytes with, [None] when it
    failed; [unix_nano] the clock the fallback reads. *)
Definition Generate (random : option (list ascii)) (unix_nano : Z) : string :=
  match random with
  | None => "fallback-" +:+ pretty unix_nano
  | Some value => hex_encode value
  end.
End Requestid.

(** ** internal/environment and internal/idempotency *)
Module Environment.
Definition WithContext (ctx : Context) (profile : string) : Context :=
  { ctx with ctx_environment := Some profile }.
Definition FromContext (ctx : Context) : string * bool :=
  (default "" ctx.(ctx_environment), bool_decide (is_Some ctx.(ctx_environment))).
End Environment.

Module Idempotency.
Definition WithContext (ctx : Context) (key : string) : Context :=
  { ctx with ctx_idempotency := Some key }.
Definition FromContext (ctx : Context) : string * bool :=
  (default "" ctx.(ctx_idempotency), bool_decide (is_Some ctx.(ctx_idempotency))).
End Idempotency.

(** [platformprincipal.WithContext] and [FromContext]. *)
Module Caller.
Definition WithContext (ctx : Context) (p : Principal) : Context :=
  { ctx with ctx_principal := Some p }.
Definition FromContext (ctx : Context) : option Principal := ctx.(ctx_principal).
End Caller.

(** ** Generated request ids are valid *)

Lemma hex_digits_allowed c :
  Requestid.allowedCharacter (Requestid.hex_digit (N_of_ascii c / 16)%N) = true ∧
  Requestid.allowedCharacter (Requestid.hex_digit (N_of_ascii c mod 16)%N) = true.
Proof. destruct c as [[] [] [] [] [] [] [] []]; vm_compute; done. Qed.

Definition all_allowed (s : string) : bool :=
  forallb Requestid.allowedCharacter (String.list_ascii_of_string s).

Lemma hex_encode_allowed l :
  all_allowed (Requestid.hex_encode l) = true ∧
  String.length (Requestid.hex_encode l) = (2 * length l)%nat.
Proof.
  unfold all_allowed. induction l as [|c l [IH1 IH2]]; [done|].
  destruct (hex_digits_allowed c) as [H1 H2].
  cbn [Requestid.hex_encode String.list_ascii_of_string forallb String.length].
  rewrite H1, H2, IH1, IH2. simpl length. split; [done|lia].
Qed.

Lemma pretty_N_char_allowed n : Requestid.allowedCharacter (pretty_N_char n) = true.
Proof. by destruct n as [|[[[[]|[]|]|[[]|[]|]|]|[[[]|[]|]|[[]|[]|]|]|]]. Qed.

Lemma pretty_N_go_allowed k x s :
  (Z.of_N x < 10 ^ Z.of_nat k)%Z → all_allowed s = true →
  all_allowed (pretty_N_go x s) = true ∧
  (String.length (pretty_N_go x s) ≤ k + String.length s)%nat.
Proof.
  revert x s. induction k as [|k IH]; intros x s Hx Hs.
  { assert (x = 0%N) as -> by (simpl in Hx; lia). rewrite pretty_N_go_0. split; [done|lia]. }
  destruct (decide (x = 0%N)) as [->|Hne].
  { rewrite pretty_N_go_0. split; [done|lia]. }
  rewrite pretty_N_go_step by lia.
  destruct (IH (x `div` 10)%N (String (pretty_N_char (x `mod` 10)) s)) as [H1 H2].
  - rewrite Nat2Z.inj_succ, Z.pow_succ_r in Hx by lia.
    rewrite N2Z.inj_div. apply Z.div_lt_upper_bound; lia.
  - unfold all_allowed in *. cbn [String.list_ascii_of_string forallb].
    by rewrite pretty_N_char_allowed, Hs.
  - simpl in H2. split; [done|lia].
Qed.

Lemma pretty_Z_allowed z :
  in_int 64 z → all_allowed (pretty z) = true ∧ (String.length (pretty z) ≤ 21)%nat.
Proof.
  intros Hz. unfold in_int in Hz.
  assert (∀ p, (Z.pos p ≤ 2 ^ 63)%Z → all_allowed (pretty (N.pos p)) = true ∧
    (String.length (pretty (N.pos p)) ≤ 20)%nat) as Hp.
  { intros p Hp. unfold pretty, pretty_N. rewrite decide_False by done.
    destruct (pretty_N_go_allowed 20 (N.pos p) "") as [H1 H2]; [|done|].
    - eapply Z.le_lt_trans; [exact Hp|]. vm_compute. done.
    - simpl in H2. split; [done|lia]. }
  destruct z as [|p|p]; [split; [done|by apply Nat.leb_le]| |].
  - change (pretty (Z.pos p)) with (pretty (N.pos p)).
    destruct (Hp p) as [H1 H2]; [lia|]. split; [done|].
    eapply Nat.le_trans; [exact H2|]. by apply Nat.leb_le.
  - change (pretty (Z.neg p)) with ("-" +:+ pretty (N.pos p)).
    destruct (Hp p) as [H1 H2]; [lia|]. split; [exact H1|].
    apply le_n_S. exact H2.
Qed.

(** Whatever randomness or clock it gets, [Generate] returns an id that
    [Valid] accepts, so a request always carries a well-formed id: the one
    from 16 random bytes has 32 hexadecimal digits. *)
Theorem Generate_valid random unix_nano :
  (∀ l, random = Some l → length l = 16%nat) → in_int 64 unix_nano →
  Requestid.Valid (Requestid.Generate random unix_nano) = true.
Proof.
  intros Hr Hn. unfold Requestid.Valid, len.
  assert (∀ s, all_allowed s = true → s ≠ "" → (String.length s ≤ 128)%nat →
    (if (s == "") || (128 <? Z.of_nat (String.length s)) then false
     else forallb Requestid.allowedCharacter (String.list_ascii_of_string s)) = true) as Hv.
  { intros s Hs Hne Hl. rewrite bool_decide_eq_false_2 by done.
    destruct (128 <? _) eqn:E; [apply Z.ltb_lt in E; lia|]. exact Hs. }
  destruct random as [l|]; cbn [Requestid.Generate].
  - destruct (hex_encode_allowed l) as [H1 H2]. rewrite (Hr l eq_refl) in H2.
    apply Hv; [done| |lia]. intros E. by rewrite E in H2.
  - destruct (pretty_Z_allowed unix_nano Hn) as [H1 H2].
    apply Hv; [exact H1|done|].
    change (String.length ("fallback-" +:+ pretty unix_nano))
      with (9 + String.length (pretty unix_nano))%nat.
    eapply Nat.le_trans; [apply Nat.add_le_mono_l, H2|]. by apply Nat.leb_le.
Qed.
