(* ===== verification/Auth.v ===== *)
(** * internal/auth: route patterns, pre-shared keys and tokens *)

From S2P Require Import Prelude GoStrings PathMatch Config Reqctx.
From Stdlib Require Import Ascii.
Open Scope string_scope.
Open Scope list_scope.
Open Scope Z_scope.
Open Scope go_scope.

(** ** pattern.go *)

(** A pattern that [path.Match] rejects is skipped. *)
Fixpoint MatchesAny (value : string) (patterns : list string) : bool :=
  match patterns with
  | [] => false
  | pattern :: patterns =>
      match Match pattern value with
      | Some true => true
      | _ => MatchesAny value patterns
      end
  end.

(** ** psk.go *)

Definition ConstantTimeCompare (x y : string) : bool := x == y.

Definition VerifyPSK (authorization expected : string) : bool :=
  let '(scheme, supplied, ok) := Cut authorization " " in
  if negb ok || negb (EqualFold scheme "PSK") || (supplied == "")
     || (len supplied != len expected) then false
  else ConstantTimeCompare supplied expected.

(** ** jwt.go *)

Record RegisteredClaims := mkClaims {
  Claims_Issuer : string; Claims_Subject : string; Claims_ID : string;
  Claims_IssuedAt : Z; Claims_NotBefore : Z; Claims_ExpiresAt : Z }.

(** The token libraries: [jwt_ParseWithClaims raw keyfunc issuer] calls the key
    function with the signing method of the token's header and returns the
    claims and whether the token is valid, or an error; [jwks_VerifyBearer] is
    the JWKS verifier; [jwt_Sign] signs claims with HS256. *)
Class TokenLibrary := {
  jwt_ParseWithClaims :
    string → (string → string * error) → string → RegisteredClaims * bool * error;
  jwks_VerifyBearer : string → Principal * error;
  jwt_Sign : RegisteredClaims → string → string * error }.

Record AuthService := mkAuthService {
  AuthService_issuer : string; AuthService_secret : string; AuthService_ttl : Z;
  AuthService_clientID : string; AuthService_clientSecret : string;
  AuthService_verifier : bool }.

Module AuthService.
Definition New (cfg : Config) : AuthService := {|
  AuthService_issuer := cfg.(Config_JWT).(JWT_Issuer);
  AuthService_secret := cfg.(Config_JWT).(JWT_Secret);
  AuthService_ttl := cfg.(Config_JWT).(JWT_TTL);
  AuthService_clientID := cfg.(Config_Auth).(Auth_ClientID);
  AuthService_clientSecret := cfg.(Config_Auth).(Auth_ClientSecret);
  AuthService_verifier := false |}.

(** [jwks] is the error of [authn.NewJWKSVerifier]. *)
Definition NewRuntime (cfg : Config) (jwks : error) : option AuthService * error :=
  let s := New cfg in
  if cfg.(Config_Auth).(Auth_JWKSURL) == "" then (Some s, nil_err) else
  if failed jwks then (None, ErrWrap "configure identity token verifier" jwks) else
  (Some { s with AuthService_verifier := true }, nil_err).

Definition Enabled (s : AuthService) : bool :=
  (32 <=? len s.(AuthService_secret)) && (s.(AuthService_clientID) != "")
  && (s.(AuthService_clientSecret) != "").

Definition Authenticate (s : AuthService) (clientID clientSecret : string) : bool :=
  if negb (Enabled s) then false else
  ConstantTimeCompare clientID s.(AuthService_clientID)
  && ConstantTimeCompare clientSecret s.(AuthService_clientSecret).

Section Tokens.
Context `{TokenLibrary}.

(** [jti] is the outcome of [randomID], [now] the clock (seconds). *)
Definition Issue (s : AuthService) (now : Z) (jti : string * error) (subject : string)
    : string * error :=
  if negb (Enabled s) then ("", ErrMsg "authentication is not configured") else
  let '(id, err) := jti in
  if failed err then ("", ErrWrap "create token id" err) else
  jwt_Sign {| Claims_Issuer := s.(AuthService_issuer); Claims_Subject := subject;
              Claims_ID := id; Claims_IssuedAt := now; Claims_NotBefore := now;
              Claims_ExpiresAt := now + s.(AuthService_ttl) |} s.(AuthService_secret).

Definition keyfunc (s : AuthService) (method : string) : string * error :=
  if method != "HS256" then ("", ErrMsg ("unexpected signing method " +:+ method))
  else (s.(AuthService_secret), nil_err).

Definition Parse (s : AuthService) (raw : string) : option RegisteredClaims * error :=
  if negb (Enabled s) then (None, ErrMsg "authentication is not configured") else
  let '(claims, valid, err) :=
    jwt_ParseWithClaims raw (keyfunc s) s.(AuthService_issuer) in
  if failed err then (None, ErrWrap "parse jwt" err) else
  if negb valid then (None, ErrMsg "invalid jwt claims") else
  (Some claims, nil_err).

Definition NoPrincipal : Principal := mkPrincipal "" TypeSystem "".
Definition Verify (s : AuthService) (raw : string) : Principal * error :=
  if s.(AuthService_verifier) then jwks_VerifyBearer raw else
  match Parse s raw with
  | (Some claims, nil_err) => (mkPrincipal claims.(Claims_Subject) TypeUser "", nil_err)
  | (_, err) => (NoPrincipal, err)
  end.
End Tokens.
End AuthService.

(** ** Properties *)

Lemma MatchesAny_true value patterns :
  MatchesAny value patterns = true ↔ ∃ p, p ∈ patterns ∧ Match p value = Some true.
Proof.
  induction patterns as [|p ps IH]; simpl.
  { split; [done|]. intros (p & Hp & _). by apply not_elem_of_nil in Hp. }
  setoid_rewrite elem_of_cons.
  destruct (Match p value) as [[|]|] eqn:E; [split; [eauto|done]| |];
    rewrite IH; split; intros (q & Hq & ?); eauto;
    destruct Hq as [->|]; (congruence || eauto).
Qed.

Lemma Cut_spec s c before after :
  Cut s c = (before, after, true)
  ↔ s = before +:+ String c after ∧ c ∉ String.list_ascii_of_string before.
Proof.
  revert before after. induction s as [|d s IH]; intros before after; simpl.
  { split; [done|]. intros [H _]. destruct before; discriminate H. }
  case_bool_decide as Hd.
  - subst d. split.
    + intros [= <- <-]. split; [done|apply not_elem_of_nil].
    + intros [H Hc]. destruct before as [|e b]; injection H as ->; [done|].
      apply not_elem_of_cons in Hc as [? _]. done.
  - assert (∀ b' after', String d s = String d b' +:+ String c after' ∧
      c ∉ String.list_ascii_of_string (String d b')
      ↔ Cut s c = (b', after', true)) as Hcut.
    { intros b' after'. rewrite IH. simpl. rewrite not_elem_of_cons.
      split; [intros [H [_ ?]]; by injection H as ->|intros [-> ?]; auto]. }
    destruct (Cut s c) as [[b a] f] eqn:E. split.
    + destruct f; [|congruence]. intros [= <- <-]. by apply Hcut.
    + intros [H Hc]. destruct before as [|e b']; [by injection H|].
      assert (e = d) as -> by (by injection H).
      assert ((b, a, f) = (b', after, true)) as Heq by (apply Hcut; auto).
      by simplify_eq.
Qed.

(** A request authenticates with the pre-shared key exactly when its
    [Authorization] header is the scheme [PSK], in any case, one space and the
    configured key, which is not empty. *)
Theorem VerifyPSK_spec authorization expected :
  VerifyPSK authorization expected = true ↔
  expected ≠ "" ∧ ∃ scheme, authorization = scheme +:+ String " " expected ∧
    EqualFold scheme "PSK" = true ∧ " "%char ∉ String.list_ascii_of_string scheme.
Proof.
  unfold VerifyPSK, ConstantTimeCompare. split.
  - destruct (Cut authorization " ") as [[scheme supplied] ok] eqn:E.
    destruct ok; [|done]. destruct (EqualFold scheme "PSK") eqn:Hf; [|done].
    simpl. destruct (_ || _) eqn:Hg; [done|].
    intros Heq%bool_decide_eq_true. subst supplied.
    apply orb_false_iff in Hg as [Hne%bool_decide_eq_false _].
    apply Cut_spec in E as [-> Hs]. split; [done|]. by exists scheme.
  - intros (Hne & scheme & -> & Hf & Hs).
    rewrite (proj2 (Cut_spec _ _ scheme expected) (conj eq_refl Hs)), Hf. simpl.
    rewrite (bool_decide_eq_false_2 (expected = "")) by done.
    by rewrite !bool_decide_eq_true_2.
Qed.

(** The local HS256 verifier yields a user principal with the token's
    subject and no tenant, only when local authentication is configured and
    the library has accepted the token against an HS256 key function. *)
Theorem Verify_local `{TokenLibrary} s raw p :
  s.(AuthService_verifier) = false →
  AuthService.Verify s raw = (p, nil_err) →
  AuthService.Enabled s = true ∧ p.(Principal_Type) = TypeUser ∧
  p.(Principal_TenantID) = "" ∧
  ∃ claims, jwt_ParseWithClaims raw (AuthService.keyfunc s) s.(AuthService_issuer)
    = (claims, true, nil_err) ∧ p.(Principal_ID) = claims.(Claims_Subject).
Proof.
  unfold AuthService.Verify, AuthService.Parse. intros ->.
  destruct (AuthService.Enabled s); simpl; [|done].
  destruct (jwt_ParseWithClaims _ _ _) as [[claims valid] err].
  destruct err, valid; simpl; try done. intros [= <-]. eauto 6.
Qed.
