(* ===== verification/Effects.v ===== *)
(** * The outside world

    What the program gets from outside is an oracle, [Externals]: the answer
    to the [n]-th external call of a run.  Theorems quantify over it, so they
    hold for every clock, every database or network fault and every reply.
    The calls whose number or order a property speaks about are logged. *)

From S2P Require Import Prelude Config Connections Reqctx Wire.
From Stdlib Require Import Ascii.
Open Scope string_scope.
Open Scope list_scope.
Open Scope Z_scope.
Open Scope go_scope.

Record HTTPRequest := mkHTTPRequest {
  Request_Method : string; Request_URL : string;
  Request_Header : gmap string string; Request_Body : string }.
Record HTTPResponse := mkHTTPResponse {
  Response_StatusCode : Z; Response_Body : string }.

(** The outcome of a database statement that the server could run: it ran and
    was answered, it was lost before it took effect, or it took effect and the
    answer was lost. *)
Inductive Fault := NoFault | Lost (e : error) | Late (e : error).

(** The reply of the Redis rate limiter. *)
Record LimitReply := mkLimitReply {
  Limit_Allowed : Z; Limit_Remaining : Z; Limit_RetryAfter : Z }.

Inductive Event :=
  | EvNow (t : Z)
  | EvLimit (key : string) (rule : RateLimitRule)
  | EvVerify (tenant application : string)
  | EvHTTP (request : HTTPRequest)
  | EvWait (delay : Z)
  | EvInvoke (method : string) (ctx : Context)
  | EvBegin (key fingerprint : string)
  | EvComplete (key owner : string) (response : Response.t)
  | EvFail (key owner : string) (failure : Failure)
  | EvEnforce (caller : option Principal) (requirement : Requirement)
  | EvMetric (name : string) (labels : list string)
  | EvAccess (request_id method route : string) (status : Z)
  | EvHeader (name value : string)
  | EvPing (dependency : string)
  | EvLock (key : string)
  | EvUnlock (key : string)
  | EvJob (name : string)
  | EvMigrate (statement : string)
  | EvOpen (resource : string)
  | EvClose (resource : string)
  | EvOnStop (resource : string).

Class Externals := {
  ext_now : nat → Z;                                    (* time.Now, in ns *)
  ext_uuid : nat → string;                              (* uuid.NewString *)
  ext_driver : nat → Fault;                             (* database driver *)
  ext_row : nat → nat;                (* the row an unordered query gives first *)
  ext_locked : nat → string → bool;   (* row ids locked by other transactions *)
  ext_limit : nat → string → RateLimitRule → LimitReply * error;
  ext_verify : nat → string → string → error;           (* appaccess.Verifier *)
  ext_http : nat → HTTPRequest → HTTPResponse + error;  (* http.Client.Do *)
  ext_wait : nat → Z → error;                           (* timer or ctx.Done *)
  ext_breaker : nat → error;                            (* gobreaker admission *)
  ext_invoke : nat → string → Context → error;          (* a gRPC invoker *)
  ext_random : nat → option (list ascii);               (* 16 bytes of rand.Read *)
  ext_deadline : nat → bool;             (* whether a deadline has passed by now *)
  ext_begin : nat → string → string → Decision * error; (* idempotency.Manager *)
  ext_complete : nat → string → Response.t → error;
  ext_fail : nat → string → Failure → error;
  ext_enforce : nat → Authorizer → Context → Requirement → error; (* platformauthz.Enforce *)
  ext_set_header : nat → error;                         (* grpc.ServerStream.SetHeader *)
  ext_ping : nat → string → error;                      (* database and Redis pings *)
  ext_first : nat → bool;             (* of two goroutines, whether the first is faster *)
  ext_mutex : nat → string → error;                     (* redsync TryLock and Lock *)
  ext_owned : nat → string → bool * error;              (* redsync Extend and Unlock *)
  ext_migrate : nat → string → error }.    (* the migration library and its database *)

Abbreviation IO DB A := (M DB Event A).

Section Calls.
Context `{Externals} {DB : Type}.

Definition now : IO DB Z := let! n := tick in ret (ext_now n).
Definition uuid : IO DB string := let! n := tick in ret (ext_uuid n).
Definition wait (delay : Z) : IO DB error :=
  emit (EvWait delay) ;; let! n := tick in ret (ext_wait n delay).
End Calls.
