(* ===== verification/Ratelimit.v ===== *)
(** * internal/ratelimit: the Redis-backed limiter *)

From S2P Require Import Prelude Config Effects.
Open Scope string_scope.
Open Scope list_scope.
Open Scope Z_scope.
Open Scope go_scope.

Record LimitResult := mkLimitResult {
  Result_Allowed : bool; Result_Limit : Z; Result_Remaining : Z; Result_RetryAfter : Z }.
Definition NoResult : LimitResult := mkLimitResult false 0 0 0.

(** [backend] tells whether the limiter was given a Redis client. *)
Record Limiter := mkLimiter {
  Limiter_enabled : bool; Limiter_failOpen : bool; Limiter_backend : bool }.

Module Limiter.
Definition New (client : bool) (cfg : Config) : Limiter := {|
  Limiter_enabled := cfg.(Config_RateLimit).(RateLimit_Enabled);
  Limiter_failOpen := cfg.(Config_RateLimit).(RateLimit_FailOpen);
  Limiter_backend := client |}.
Definition Enabled (l : Limiter) : bool := l.(Limiter_enabled).
Definition FailOpen (l : Limiter) : bool := l.(Limiter_failOpen).

Definition Allow `{Externals} {DB} (l : Limiter) (key : string) (rule : RateLimitRule)
    : IO DB (LimitResult * error) :=
  when! negb l.(Limiter_enabled) return! ({| Result_Allowed := true; Result_Limit := 0;
    Result_Remaining := 0; Result_RetryAfter := 0 |}, nil_err);
  when! negb l.(Limiter_backend) return!
    (NoResult, ErrMsg "redis rate limiter is unavailable");
  emit (EvLimit key rule) ;;
  let! n := tick in
  let '(reply, err) := ext_limit n key rule in
  when! failed err return! (NoResult, ErrWrap "check redis rate limit" err);
  ret ({| Result_Allowed := 0 <? reply.(Limit_Allowed);
          Result_Limit := rule.(RateLimitRule_Burst);
          Result_Remaining := reply.(Limit_Remaining);
          Result_RetryAfter := reply.(Limit_RetryAfter) |}, nil_err).
End Limiter.

(** Asking the limiter leaves the database as it is. *)
Lemma keeps_Allow `{Externals} {DB} l key rule : keeps_db (Limiter.Allow (DB := DB) l key rule).
Proof.
  unfold Limiter.Allow. do 2 (apply keeps_if; [auto with go|]).
  apply keeps_bind; [auto with go|]. intros _. apply keeps_bind; [auto with go|]. intros n.
  destruct (ext_limit n key rule) as [reply err]. apply keeps_if; auto with go.
Qed.
