(* ===== verification/Model.v ===== *)
(** * internal/notification/model.go: the persisted records

    A [time.Time] is its instant in nanoseconds; [Variables] is the JSON text
    of the template variables. *)

From S2P Require Import Prelude.
Open Scope string_scope.
Open Scope list_scope.
Open Scope Z_scope.
Open Scope go_scope.

Module Template.
Record t := mk {
  ID : string; TenantID : string; ApplicationID : string; Code : string;
  Channel : string; Locale : string; Subject : string; Content : string;
  Status : string; Version : Z; CreatedAt : Z; UpdatedAt : Z;
  CreatedBy : string; UpdatedBy : string }.
Definition zero : t := mk "" "" "" "" "" "" "" "" "" 0 0 0 "" "".
#[global] Instance eq_dec : EqDecision t.
Proof. solve_decision. Defined.
End Template.

Module Provider.
Record t := mk {
  ID : string; TenantID : string; ApplicationID : string; Code : string;
  Channel : string; Upstream : string; Path : string; Priority : Z;
  Status : string; Version : Z; CreatedAt : Z; UpdatedAt : Z;
  CreatedBy : string; UpdatedBy : string }.
Definition zero : t := mk "" "" "" "" "" "" "" 0 "" 0 0 0 "" "".
#[global] Instance eq_dec : EqDecision t.
Proof. solve_decision. Defined.
End Provider.

Module Delivery.
Record t := mk {
  ID : string; TenantID : string; ApplicationID : string; TemplateCode : string;
  Channel : string; Locale : string; Recipient : string; Variables : string;
  IdempotencyKey : string; Status : string; Provider : string;
  ProviderMessageID : string; FailureReason : string; Attempts : Z;
  NextAttemptAt : Z; Version : Z; CreatedAt : Z; UpdatedAt : Z;
  CreatedBy : string; UpdatedBy : string }.
Definition zero : t := mk "" "" "" "" "" "" "" "" "" "" "" "" "" 0 0 0 0 0 "" "".
#[global] Instance eq_dec : EqDecision t.
Proof. solve_decision. Defined.
End Delivery.

Record Page := mkPage {
  Page_Deliveries : list Delivery.t; Page_Total : Z; Page_Page : Z; Page_PageSize : Z }.
Record TemplatePage := mkTemplatePage {
  TemplatePage_Templates : list Template.t; TemplatePage_Total : Z;
  TemplatePage_Page : Z; TemplatePage_PageSize : Z }.
Record ProviderPage := mkProviderPage {
  ProviderPage_Providers : list Provider.t; ProviderPage_Total : Z;
  ProviderPage_Page : Z; ProviderPage_PageSize : Z }.

Module OutboxEvent.
Record t := mk {
  ID : string; Subject : string; Envelope : string; AvailableAt : Z;
  CreatedAt : Z; UpdatedAt : Z; CreatedBy : string; UpdatedBy : string }.
#[global] Instance eq_dec : EqDecision t.
Proof. solve_decision. Defined.
End OutboxEvent.
