(* ===== verification/Database.v ===== *)
(** * internal/database: statements, transactions and the driver name

    A database is a value of some type [DB].  A statement that the server
    receives runs on it and is answered, is lost before it takes effect, or
    takes effect while its answer is lost ([Fault]).  A transaction runs on the
    committed state and is taken back by restoring the state it began from:
    transactions are atomic steps, as the row locks and the version checks of
    the statements they run make them. *)

From S2P Require Import Prelude AppError Effects Config.
Open Scope string_scope.
Open Scope list_scope.
Open Scope Z_scope.
Open Scope go_scope.

(** What the program relies on about the driver: an injected fault is an
    error, and none of the sentinels that the code gives a meaning to. *)
Class DriverLaws `{Externals} : Prop := {
  driver_fault : ∀ n e, ext_driver n = Lost e ∨ ext_driver n = Late e →
    e ≠ nil_err ∧ error_is e ErrNoRows = false ∧
    error_is e ErrNotFound = false ∧ error_is e ErrStaleVersion = false }.

Section Statements.
Context `{Externals} {DB : Type}.

Definition fault : IO DB Fault := let! n := tick in ret (ext_driver n).

(** A statement that only reads. *)
Definition query {A} (zero : A) (stmt : DB → A * error) : IO DB (A * error) :=
  let! f := fault in
  match f with
  | NoFault => let! db := get_db in ret (stmt db)
  | Lost e | Late e => ret (zero, e)
  end.

(** A statement that writes: the number of the rows it changed. *)
Definition exec (stmt : DB → (DB * Z) + error) : IO DB (Z * error) :=
  let! f := fault in
  let! db := get_db in
  match f, stmt db with
  | NoFault, inl (db', n) => put_db db' ;; ret (n, nil_err)
  | NoFault, inr e => ret (0, e)
  | Lost e, _ => ret (0, e)
  | Late e, inl (db', _) => put_db db' ;; ret (0, e)
  | Late e, inr _ => ret (0, e)
  end.

(** [result.RowsAffected()] *)
Definition RowsAffected (n : Z) : IO DB (Z * error) :=
  let! f := fault in
  match f with
  | NoFault => ret (n, nil_err)
  | Lost e | Late e => ret (0, e)
  end.
End Statements.

(** ** transaction.go *)

Record Transactor := mkTransactor { Transactor_db : bool }.

Module Transactor.
Definition New (db : bool) : Transactor := mkTransactor db.
Definition Available (t : Transactor) : bool := t.(Transactor_db).

(** The closure may assign variables of the function around it: [captured] is
    their value, which it returns beside its error. *)
Definition WithinVar `{Externals} `{LibraryText} {DB A} (t : Transactor) (captured : A)
    (fn : IO DB (A * error)) : IO DB (A * error) :=
  when! negb t.(Transactor_db) return!
    (captured, ErrMsg "begin transaction: database is disabled");
  let! begin := fault in
  match begin with
  | Lost e | Late e => ret (captured, ErrWrap "begin transaction" e)
  | NoFault =>
      let! snapshot := get_db in
      let! (value, err) := fn in
      if failed err then
        put_db snapshot ;;
        let! rollback := fault in
        match rollback with
        | NoFault => ret (value, err)
        | Lost e | Late e =>
            ret (value, ErrWrap ("rollback transaction after " +:+ Error err) e)
        end
      else
        let! commit := fault in
        match commit with
        | NoFault => ret (value, nil_err)
        | Lost e => put_db snapshot ;; ret (value, ErrWrap "commit transaction" e)
        | Late e => ret (value, ErrWrap "commit transaction" e)
        end
  end.

(** A closure that assigns nothing. *)
Definition Within `{Externals} `{LibraryText} {DB} (t : Transactor) (fn : IO DB error)
    : IO DB error :=
  let! (_, err) := WithinVar t tt (let! err := fn in ret (tt, err)) in ret err.
End Transactor.

(** ** database.go *)

Definition driverName `{GoFmt} (dbType : string) : string * error :=
  if dbType == "mysql" then ("mysql", nil_err)
  else if (dbType == "postgres") || (dbType == "kingbase") then ("pgx", nil_err)
  else ("", ErrMsg ("unsupported database type " +:+ quote dbType)).

(** Every database type that the configuration accepts has a driver. *)
Lemma driverName_accepted `{GoFmt} dbType :
  isDBType dbType = true → (driverName dbType).2 = nil_err.
Proof.
  unfold isDBType, driverName. intros Ht.
  repeat (case_bool_decide; simplify_eq/=; try done).
Qed.

(** ** Lemmas *)

Section Lemmas.
Context `{Externals} `{LibraryText} {DB : Type}.
Implicit Types w : World DB Event.

(** What a statement does, as an equation. *)
Definition next w : World DB Event := mkWorld (w_db w) (S (w_tick w)) (w_log w).
Definition next_with (db : DB) w : World DB Event := mkWorld db (S (w_tick w)) (w_log w).

Lemma query_run {A} (zero : A) stmt w :
  query zero stmt w =
    (match ext_driver (w_tick w) with
     | NoFault => stmt (w_db w) | Lost e | Late e => (zero, e) end, next w).
Proof. unfold query, fault, bind, tick, get_db, ret. cbn. by destruct (ext_driver _). Qed.

Lemma exec_run stmt w :
  exec stmt w =
    match ext_driver (w_tick w), stmt (w_db w) with
    | NoFault, inl (db, n) => ((n, nil_err), next_with db w)
    | NoFault, inr e => ((0, e), next w)
    | Lost e, _ => ((0, e), next w)
    | Late e, inl (db, _) => ((0, e), next_with db w)
    | Late e, inr _ => ((0, e), next w)
    end.
Proof.
  unfold exec, fault, bind, tick, get_db, put_db, ret. cbn.
  by destruct (ext_driver _), (stmt (w_db w)) as [[]|].
Qed.

(** The state after a write: changed by the statement, or untouched. *)
Lemma exec_db stmt w :
  w_db (exec stmt w).2 = w_db w ∨
  ∃ db n, stmt (w_db w) = inl (db, n) ∧ w_db (exec stmt w).2 = db.
Proof.
  rewrite exec_run. destruct (ext_driver _), (stmt (w_db w)) as [[db n]|]; cbn; eauto 10.
Qed.

Lemma RowsAffected_run n w :
  RowsAffected n w =
    (match ext_driver (w_tick w) with
     | NoFault => (n, nil_err) | Lost e | Late e => (0, e) end, next w).
Proof. unfold RowsAffected, fault, bind, tick, ret. cbn. by destruct (ext_driver _). Qed.

(** [fn], run from the state of [w], succeeded with [value] and left [db']. *)
Definition committed {A} (fn : IO DB (A * error)) w (value : A) (db' : DB) : Prop :=
  ∃ w1 w2, fn w1 = ((value, nil_err), w2) ∧ w_db w1 = w_db w ∧ w_log w1 = w_log w
    ∧ w_db w2 = db'.

Lemma WithinVar_ok {A} t (captured : A) (fn : IO DB (A * error)) w value w' :
  Transactor.WithinVar t captured fn w = ((value, nil_err), w') →
  committed fn w value (w_db w').
Proof.
  unfold Transactor.WithinVar, fault, committed. intros Hw. run; bools; simplify_eq/=.
  eexists (mkWorld _ _ _), _. by split; [eassumption|].
Qed.

(** The last thing that happened on the way to [w'] is the commit: the database
    made it, its answer was lost, and the error says so. *)
Definition commit_lost (err : error) (w' : World DB Event) : Prop :=
  ∃ n e, w_tick w' = S n ∧ ext_driver n = Late e ∧ err = ErrWrap "commit transaction" e.

Lemma WithinVar_failed {A} t (captured : A) (fn : IO DB (A * error)) w value err w' :
  Transactor.WithinVar t captured fn w = ((value, err), w') → failed err = true →
  w_db w' = w_db w ∨ (committed fn w value (w_db w') ∧ commit_lost err w').
Proof.
  unfold Transactor.WithinVar, fault, committed, commit_lost. intros Hw Hf.
  run; bools; simplify_eq/=; try (by left).
  right. split; [|eauto]. eexists (mkWorld _ _ _), _. by split; [eassumption|].
Qed.

(** The same for a closure that assigns nothing. *)
Definition done_by (fn : IO DB error) w (db' : DB) : Prop :=
  ∃ w1 w2, fn w1 = (nil_err, w2) ∧ w_db w1 = w_db w ∧ w_log w1 = w_log w ∧ w_db w2 = db'.

Lemma committed_done_by fn w value db' :
  committed (let! err := fn in ret (tt, err)) w value db' → done_by fn w db'.
Proof.
  intros (w1 & w2 & E & Hdb & Hlog & <-). unfold bind, ret in E.
  destruct (fn w1) as [err w2'] eqn:Ef. simplify_eq/=. by exists w1, w2.
Qed.
End Lemmas.

(** What [Within] leaves, by its outcome. *)
Lemma Within_spec `{Externals} `{LibraryText} {DB} t (fn : IO DB error)
    (w w' : World DB Event) err :
  Transactor.Within t fn w = (err, w') →
  if failed err then w_db w' = w_db w ∨ (done_by fn w (w_db w') ∧ commit_lost err w')
  else done_by fn w (w_db w').
Proof.
  unfold Transactor.Within, bind at 1. intros Hw.
  destruct (Transactor.WithinVar _ _ _ w) as [[[] e] w1] eqn:E. unfold ret in Hw. simplify_eq.
  destruct (failed err) eqn:Hf.
  - destruct (WithinVar_failed _ _ _ _ _ _ _ E Hf) as [?|[Hc ?]]; [by left|right].
    split; [by eapply committed_done_by|done].
  - apply failed_nil in Hf as ->. eapply committed_done_by, WithinVar_ok, E.
Qed.

(** The same from the tables [db] a method began with, for what a success means to it. *)
Lemma Within_leaves `{Externals} `{LibraryText} {DB} t (fn : IO DB error)
    (w w' : World DB Event) err db (P : Prop) :
  Transactor.Within t fn w = (err, w') → w_db w = db → (done_by fn w (w_db w') → P) →
  if failed err then w_db w' = db ∨ (P ∧ commit_lost err w') else P.
Proof. intros E%Within_spec <- Hp. destruct (failed err); [destruct E as [|[]]; auto|auto]. Qed.

(** C21 A transaction is all or nothing.  When [Within] reports success its
    function succeeded, the new state is what that function left and the
    variables are as it assigned them.  When it reports an error the state is
    the one it began from, except when the function succeeded and only the
    answer to the commit was lost; then the error says so.  An error of the
    function itself never leaves anything behind, even when the rollback is
    refused. *)
Theorem Within_atomic `{Externals} `{LibraryText} {DB A} t (captured : A)
    (fn : IO DB (A * error)) (w w' : World DB Event) value err :
  Transactor.WithinVar t captured fn w = ((value, err), w') →
  if failed err
  then w_db w' = w_db w ∨ (committed fn w value (w_db w') ∧ commit_lost err w')
  else committed fn w value (w_db w').
Proof.
  intros E. destruct (failed err) eqn:Hf.
  - by eapply WithinVar_failed.
  - apply failed_nil in Hf as ->. by eapply WithinVar_ok.
Qed.
