(* ===== verification/Repository.v ===== *)
(** * internal/notification/repository.go: the [Repository] interface

    [Tables] is the abstract state of a repository: the rows of the four
    tables.  [Repository DB] is the Go interface as a class of operations over
    a database state [DB]; [RepositoryLaws] is what it promises to the service,
    the dispatcher and the cleaner, in terms of [view : DB → Tables].  Sql.v
    gives the implementation and proves the laws.

    A [*sqlx.Tx] argument has no counterpart: an operation that takes one runs
    inside [Transactor.Within].  A context argument can only make a statement
    fail, which the driver faults do. *)

From S2P Require Import Prelude AppError Effects Database Model.
Open Scope string_scope.
Open Scope list_scope.
Open Scope Z_scope.
Open Scope go_scope.

(** ** What depends on the database server

    Text columns are compared and ordered by the server's collation (MySQL's
    default one ignores case, PostgreSQL's does not); time stamps keep
    microseconds and JSON columns are stored normalised. *)
Class Dialect := {
  sql_eq : string → string → bool;       (* a = b *)
  sql_le : string → string → bool;       (* the order of a text column *)
  sql_id_le : string → string → bool;    (* the order of an id column *)
  sql_like : string → string → bool;     (* value LIKE pattern *)
  stored_time : Z → Z;
  stored_json : string → string;
  constraint_error : string;
  page_error : string;
  range_error : string }.

Class DialectLaws `{Dialect} : Prop := {
  sql_eq_refl : ∀ a, sql_eq a a = true;
  sql_eq_sym : ∀ a b, sql_eq a b = true → sql_eq b a = true;
  sql_eq_trans : ∀ a b c, sql_eq a b = true → sql_eq b c = true → sql_eq a c = true;
  sql_le_total : ∀ a b, sql_le a b = true ∨ sql_le b a = true;
  sql_id_le_total : ∀ a b, sql_id_le a b = true ∨ sql_id_le b a = true;
  sql_le_trans : ∀ a b c, sql_le a b = true → sql_le b c = true → sql_le a c = true;
  sql_id_le_trans : ∀ a b c,
    sql_id_le a b = true → sql_id_le b c = true → sql_id_le a c = true }.

(** A collation under which only identical strings are equal. *)
Class Binary `{Dialect} : Prop := sql_eq_binary : ∀ a b, sql_eq a b = true → a = b.

Record Tables := mkTables {
  tbl_providers : list Provider.t;
  tbl_templates : list Template.t;
  tbl_deliveries : list Delivery.t;
  tbl_outbox : list OutboxEvent.t }.
#[export] Instance Tables_eq_dec : EqDecision Tables.
Proof. solve_decision. Defined.
Definition no_rows : Tables := mkTables [] [] [] [].

(** ** Rows as the server stores them *)
Section Rows.
Context `{Dialect}.

Definition stored_provider (v : Provider.t) : Provider.t :=
  { v with Provider.CreatedAt := stored_time v.(Provider.CreatedAt);
           Provider.UpdatedAt := stored_time v.(Provider.UpdatedAt) }.
Definition stored_template (v : Template.t) : Template.t :=
  { v with Template.CreatedAt := stored_time v.(Template.CreatedAt);
           Template.UpdatedAt := stored_time v.(Template.UpdatedAt) }.
Definition stored_delivery (v : Delivery.t) : Delivery.t :=
  { v with Delivery.Variables := stored_json v.(Delivery.Variables);
           Delivery.NextAttemptAt := stored_time v.(Delivery.NextAttemptAt);
           Delivery.CreatedAt := stored_time v.(Delivery.CreatedAt);
           Delivery.UpdatedAt := stored_time v.(Delivery.UpdatedAt) }.
Definition stored_event (v : OutboxEvent.t) : OutboxEvent.t :=
  { v with OutboxEvent.AvailableAt := stored_time v.(OutboxEvent.AvailableAt);
           OutboxEvent.CreatedAt := stored_time v.(OutboxEvent.CreatedAt);
           OutboxEvent.UpdatedAt := stored_time v.(OutboxEvent.UpdatedAt) }.

(** The keys of the tables' unique indexes. *)
Definition provider_key (tenant application code : string) (r : Provider.t) : bool :=
  sql_eq r.(Provider.TenantID) tenant && sql_eq r.(Provider.ApplicationID) application
  && sql_eq r.(Provider.Code) code.
Definition template_key (tenant application code channel locale : string)
    (r : Template.t) : bool :=
  sql_eq r.(Template.TenantID) tenant && sql_eq r.(Template.ApplicationID) application
  && sql_eq r.(Template.Code) code && sql_eq r.(Template.Channel) channel
  && sql_eq r.(Template.Locale) locale.
Definition delivery_key (tenant application key : string) (r : Delivery.t) : bool :=
  sql_eq r.(Delivery.TenantID) tenant && sql_eq r.(Delivery.ApplicationID) application
  && sql_eq r.(Delivery.IdempotencyKey) key.

Definition provider_clash (v r : Provider.t) : bool :=
  sql_eq r.(Provider.ID) v.(Provider.ID)
  || provider_key v.(Provider.TenantID) v.(Provider.ApplicationID) v.(Provider.Code) r.
Definition template_clash (v r : Template.t) : bool :=
  sql_eq r.(Template.ID) v.(Template.ID)
  || template_key v.(Template.TenantID) v.(Template.ApplicationID) v.(Template.Code)
       v.(Template.Channel) v.(Template.Locale) r.
Definition delivery_clash (v r : Delivery.t) : bool :=
  sql_eq r.(Delivery.ID) v.(Delivery.ID)
  || delivery_key v.(Delivery.TenantID) v.(Delivery.ApplicationID)
       v.(Delivery.IdempotencyKey) r.
Definition event_clash (v r : OutboxEvent.t) : bool :=
  sql_eq r.(OutboxEvent.ID) v.(OutboxEvent.ID).

(** What the writes leave of a row. *)
Definition updated_provider (v r : Provider.t) : Provider.t :=
  { r with Provider.Channel := v.(Provider.Channel);
           Provider.Upstream := v.(Provider.Upstream);
           Provider.Path := v.(Provider.Path);
           Provider.Priority := v.(Provider.Priority);
           Provider.Status := v.(Provider.Status);
           Provider.Version := r.(Provider.Version) + 1;
           Provider.UpdatedAt := stored_time v.(Provider.UpdatedAt);
           Provider.UpdatedBy := v.(Provider.UpdatedBy) }.
Definition updated_template (v r : Template.t) : Template.t :=
  { r with Template.Subject := v.(Template.Subject);
           Template.Content := v.(Template.Content);
           Template.Status := v.(Template.Status);
           Template.Version := r.(Template.Version) + 1;
           Template.UpdatedAt := stored_time v.(Template.UpdatedAt);
           Template.UpdatedBy := v.(Template.UpdatedBy) }.
Definition finished_delivery (v r : Delivery.t) : Delivery.t :=
  { r with Delivery.Status := v.(Delivery.Status);
           Delivery.Provider := v.(Delivery.Provider);
           Delivery.ProviderMessageID := v.(Delivery.ProviderMessageID);
           Delivery.FailureReason := v.(Delivery.FailureReason);
           Delivery.NextAttemptAt := stored_time v.(Delivery.NextAttemptAt);
           Delivery.Version := r.(Delivery.Version) + 1;
           Delivery.UpdatedAt := stored_time v.(Delivery.UpdatedAt);
           Delivery.UpdatedBy := v.(Delivery.UpdatedBy) }.
Definition claimed_delivery (now : Z) (r : Delivery.t) : Delivery.t :=
  { r with Delivery.Status := "processing";
           Delivery.Attempts := r.(Delivery.Attempts) + 1;
           Delivery.Version := r.(Delivery.Version) + 1;
           Delivery.UpdatedAt := stored_time now }.

(** [status IN ('pending','retrying') AND next_attempt_at<=?] *)
Definition due (now : Z) (r : Delivery.t) : bool :=
  (sql_eq r.(Delivery.Status) "pending" || sql_eq r.(Delivery.Status) "retrying")
  && (r.(Delivery.NextAttemptAt) <=? stored_time now).
(** [status IN ('sent','dead_letter') AND updated_at<?] *)
Definition expired (before : Z) (r : Delivery.t) : bool :=
  (sql_eq r.(Delivery.Status) "sent" || sql_eq r.(Delivery.Status) "dead_letter")
  && (r.(Delivery.UpdatedAt) <? stored_time before).

(** *** The conditions of the queries *)
Definition message_key (tenant application provider messageID : string)
    (r : Delivery.t) : bool :=
  sql_eq r.(Delivery.TenantID) tenant && sql_eq r.(Delivery.ApplicationID) application
  && sql_eq r.(Delivery.Provider) provider && sql_eq r.(Delivery.ProviderMessageID) messageID.

(** [(?='' OR col LIKE ? OR col2 LIKE ?)] and [(?='' OR col=?)] *)
Definition matches_keyword (keyword a b : string) : bool :=
  let like := "%" +:+ keyword +:+ "%" in
  sql_eq keyword "" || sql_like a like || sql_like b like.
Definition matches_option (value col : string) : bool := sql_eq value "" || sql_eq col value.

Definition provider_where (tenant application keyword channel status : string)
    (r : Provider.t) : bool :=
  sql_eq r.(Provider.TenantID) tenant && sql_eq r.(Provider.ApplicationID) application
  && matches_keyword keyword r.(Provider.Code) r.(Provider.Upstream)
  && matches_option channel r.(Provider.Channel)
  && matches_option status r.(Provider.Status).
Definition template_where (tenant application keyword channel status : string)
    (r : Template.t) : bool :=
  sql_eq r.(Template.TenantID) tenant && sql_eq r.(Template.ApplicationID) application
  && matches_keyword keyword r.(Template.Code) r.(Template.Subject)
  && matches_option channel r.(Template.Channel)
  && matches_option status r.(Template.Status).
Definition delivery_where (tenant application status : string) (r : Delivery.t) : bool :=
  sql_eq r.(Delivery.TenantID) tenant && sql_eq r.(Delivery.ApplicationID) application
  && matches_option status r.(Delivery.Status).
(** The table's CHECK constraints and the range of its INTEGER column. *)
Definition provider_check (v : Provider.t) : bool :=
  (0 <=? v.(Provider.Priority)) && (v.(Provider.Priority) <? 2 ^ 31)
  && (sql_eq v.(Provider.Status) "active" || sql_eq v.(Provider.Status) "disabled").

(** [z] and [z+1] are values of a [bits]-bit column. *)
Definition can_incr (bits z : Z) : bool :=
  (- 2 ^ (bits - 1) <=? z) && (z + 1 <? 2 ^ (bits - 1)).

(** The counters of [r] can be incremented by a claim. *)
Definition claim_fits (r : Delivery.t) : bool :=
  can_incr 32 r.(Delivery.Attempts) && can_incr 64 r.(Delivery.Version).

(** No two rows of a table clash: the primary key and the unique index. *)
Definition pairwise_free {A} (clash : A → A → bool) (rows : list A) : Prop :=
  ∀ i j a b, rows !! i = Some a → rows !! j = Some b → clash a b = true → i = j.
Record unique_tables (t : Tables) : Prop := {
  unique_providers : pairwise_free provider_clash t.(tbl_providers);
  unique_templates : pairwise_free template_clash t.(tbl_templates);
  unique_deliveries : pairwise_free delivery_clash t.(tbl_deliveries);
  unique_outbox : pairwise_free event_clash t.(tbl_outbox) }.
End Rows.

(** ** The interface *)
Class Repository `{Externals} (DB : Type) := {
  Repository_GetProvider : string → string → string → IO DB (Provider.t * error);
  Repository_ListProviders : string → string → string → string → string → Z → Z →
    IO DB (list Provider.t * Z * error);
  Repository_InsertProvider : Provider.t → IO DB error;
  Repository_UpdateProvider : Provider.t → Z → IO DB error;
  Repository_GetTemplate : string → string → string → string → string →
    IO DB (Template.t * error);
  Repository_ListTemplates : string → string → string → string → string → Z → Z →
    IO DB (list Template.t * Z * error);
  Repository_InsertTemplate : Template.t → IO DB error;
  Repository_UpdateTemplate : Template.t → Z → IO DB error;
  Repository_GetDelivery : string → string → string → IO DB (Delivery.t * error);
  Repository_GetDeliveryByKey : string → string → string → IO DB (Delivery.t * error);
  Repository_GetDeliveryByProviderMessage : string → string → string → string →
    IO DB (Delivery.t * error);
  Repository_InsertDelivery : Delivery.t → IO DB error;
  Repository_ListDeliveries : string → string → string → Z → Z →
    IO DB (list Delivery.t * Z * error);
  Repository_ClaimDue : Z → Z → IO DB (list Delivery.t * error);
  Repository_Finish : Delivery.t → Z → IO DB error;
  Repository_DeleteTerminalDeliveriesBefore : Z → Z → IO DB (Z * error);
  Repository_AddOutbox : OutboxEvent.t → IO DB error }.

(** An operation that reads: it leaves the state and the log alone. *)
Definition reads {DB A} (m : IO DB A) : Prop :=
  ∀ w, w_db (m w).2 = w_db w ∧ w_log (m w).2 = w_log w.
(** An operation that logs nothing. *)
Definition silent {DB A} (m : IO DB A) : Prop := ∀ w, w_log (m w).2 = w_log w.

(** [db'] is [db] with the one row that satisfies [p] rewritten by [f]. *)
Definition one_updated {A} (p : A → bool) (f : A → A) (rows rows' : list A) : Prop :=
  ∃ l1 r l2, rows = l1 ++ r :: l2 ∧ rows' = l1 ++ f r :: l2 ∧ p r = true
    ∧ forallb (λ x, negb (p x)) (l1 ++ l2) = true.

Definition versioned_delivery `{Dialect} (id : string) (expected : Z) (r : Delivery.t) : bool :=
  sql_eq r.(Delivery.ID) id && (r.(Delivery.Version) =? expected).
Definition versioned_provider `{Dialect} (id : string) (expected : Z) (r : Provider.t) : bool :=
  sql_eq r.(Provider.ID) id && (r.(Provider.Version) =? expected).
Definition versioned_template `{Dialect} (id : string) (expected : Z) (r : Template.t) : bool :=
  sql_eq r.(Template.ID) id && (r.(Template.Version) =? expected).

(** ** The laws *)
Class RepositoryView (DB : Type) := view : DB → Tables.

Section Contracts.
Context `{Externals} `{Dialect} {DB : Type} `{RepositoryView DB}.

Definition fault_free : Prop := ∀ n, ext_driver n = NoFault.

(** A lookup by key: it answers with a row of the key, or with [ErrNotFound]
    only when there is none, and without faults with one of the two. *)
Record looks_up {A} (m : IO DB (A * error)) (rows : Tables → list A) (p : A → bool) : Prop := {
  looks_up_reads : reads m;
  looks_up_found w v : (m w).1 = (v, nil_err) → v ∈ rows (view (w_db w)) ∧ p v = true;
  looks_up_missing w v err : (m w).1 = (v, err) → error_is err ErrNotFound = true →
    ∀ r, r ∈ rows (view (w_db w)) → p r = false;
  looks_up_answers w : fault_free →
    failed (m w).1.2 = false ∨ (m w).1.2 = ErrSentinel ErrNotFound }.

(** A page of the rows that satisfy [p]: [limit] rows at most, all of them
    rows of the table, with the number of all the rows that satisfy [p]. *)
Record lists {A} (m : IO DB (list A * Z * error)) (rows : Tables → list A)
    (p : A → bool) (limit : Z) : Prop := {
  lists_reads : reads m;
  lists_page w vs total : (m w).1 = (vs, total, nil_err) →
    (∀ v, v ∈ vs → v ∈ rows (view (w_db w)) ∧ p v = true) ∧
    Z.of_nat (length vs) ≤ limit ∧
    total = Z.of_nat (length (filter (λ r, p r = true) (rows (view (w_db w))))) }.

(** An insertion of [v], kept as [row]: without faults it is refused only by
    its checks and its unique indexes. *)
Record inserts {A} (m : IO DB error) (rows : Tables → list A)
    (set : list A → Tables → Tables) (check : bool) (clash : A → bool) (row : A) : Prop := {
  inserts_silent : silent m;
  inserts_ok w : (m w).1 = nil_err →
    existsb clash (rows (view (w_db w))) = false ∧
    view (w_db (m w).2) = set (rows (view (w_db w)) ++ [row]) (view (w_db w));
  inserts_progress w : fault_free → check = true →
    existsb clash (rows (view (w_db w))) = false → (m w).1 = nil_err }.

(** An update of the row that satisfies [p]: it reports [ErrStaleVersion] when
    there is none, and otherwise rewrites that row alone; without faults it
    rewrites it whenever the new values are in range ([fits]). *)
Record updates {A} (m : IO DB error) (rows : Tables → list A)
    (set : list A → Tables → Tables) (p : A → bool) (f : A → A) (fits : A → bool) : Prop := {
  updates_silent : silent m;
  updates_ok w : unique_tables (view (w_db w)) → (m w).1 = nil_err →
    ∃ rows', one_updated p f (rows (view (w_db w))) rows' ∧
      view (w_db (m w).2) = set rows' (view (w_db w));
  updates_stale w : fault_free → existsb p (rows (view (w_db w))) = false →
    (m w).1 = ErrSentinel ErrStaleVersion;
  updates_progress w : fault_free → unique_tables (view (w_db w)) →
    existsb p (rows (view (w_db w))) = true →
    (∀ r, r ∈ rows (view (w_db w)) → p r = true → fits r = true) → (m w).1 = nil_err }.

(** One run of a lookup, of an insertion in a transaction and of an update in one. *)
Lemma looks_up_run {A} m rows p w (v : A) err w' :
  looks_up m rows p → m w = ((v, err), w') →
  w_db w' = w_db w ∧ (err = nil_err → v ∈ rows (view (w_db w)) ∧ p v = true) ∧
  (error_is err ErrNotFound = true → ∀ r, r ∈ rows (view (w_db w)) → p r = false).
Proof.
  intros Hm E. destruct (looks_up_reads _ _ _ Hm w) as [Hd _]. rewrite E in Hd. split; [done|]. split.
  - intros ->. apply (looks_up_found _ _ _ Hm). by rewrite E.
  - apply (looks_up_missing _ _ _ Hm w v). by rewrite E.
Qed.
Lemma done_inserts {A} m rows set check clash (row : A) w db' :
  inserts m rows set check clash row → done_by m w db' →
  existsb clash (rows (view (w_db w))) = false ∧
  view db' = set (rows (view (w_db w)) ++ [row]) (view (w_db w)).
Proof.
  intros Hm (w1 & w2 & E & <- & _ & <-). pose proof (inserts_ok _ _ _ _ _ _ Hm w1) as Hi.
  rewrite E in Hi. by apply Hi.
Qed.
Lemma done_updates {A} m rows set p (f : A → A) fits w db' :
  updates m rows set p f fits → unique_tables (view (w_db w)) → done_by m w db' →
  ∃ rows', one_updated p f (rows (view (w_db w))) rows' ∧ view db' = set rows' (view (w_db w)).
Proof.
  intros Hm Hu (w1 & w2 & E & Hd & _ & <-). rewrite <- Hd in *.
  pose proof (updates_ok _ _ _ _ _ _ Hm w1 Hu) as Hi. rewrite E in Hi. by apply Hi.
Qed.

(** A claim: a batch of due rows, each of them marked and handed out once. *)
Definition handed_out (now : Z) (r : Delivery.t) : Delivery.t :=
  { claimed_delivery now r with Delivery.UpdatedAt := now }.
Record claim_spec (now limit : Z) (t : Tables) (rows vs : list Delivery.t) (t' : Tables)
    : Prop := {
  claim_due : ∀ r, r ∈ rows → r ∈ t.(tbl_deliveries) ∧ due now r = true;
  claim_nodup : NoDup rows;
  claim_oldest_first :
    StronglySorted (λ a b, a.(Delivery.NextAttemptAt) ≤ b.(Delivery.NextAttemptAt)) rows;
  claim_limit : Z.of_nat (length rows) ≤ limit;
  claim_complete : (∀ n id, ext_locked n id = false) → Z.of_nat (length rows) < limit →
    ∀ r, r ∈ t.(tbl_deliveries) → due now r = true → r ∈ rows;
  claim_handed : vs = map (handed_out now) rows;
  claim_after : t' = { t with tbl_deliveries :=
    map (λ r, if bool_decide (r ∈ rows) then claimed_delivery now r else r)
      t.(tbl_deliveries) } }.

(** A deletion of [n] expired rows and of nothing else. *)
Record delete_spec (before limit : Z) (t : Tables) (n : Z) (t' : Tables) : Prop := {
  delete_kept : ∃ gone : Delivery.t → bool,
    t' = { t with tbl_deliveries := filter (λ r, gone r = false) t.(tbl_deliveries) } ∧
    n = Z.of_nat (length (filter (λ r, gone r = true) t.(tbl_deliveries))) ∧
    (∀ r, r ∈ t.(tbl_deliveries) → gone r = true → expired before r = true);
  delete_limit : n ≤ limit;
  delete_all : n < limit → ∀ r, r ∈ t'.(tbl_deliveries) → expired before r = false }.
End Contracts.

Definition set_providers (l : list Provider.t) (t : Tables) : Tables :=
  { t with tbl_providers := l }.
Definition set_templates (l : list Template.t) (t : Tables) : Tables :=
  { t with tbl_templates := l }.
Definition set_deliveries (l : list Delivery.t) (t : Tables) : Tables :=
  { t with tbl_deliveries := l }.
Definition set_outbox (l : list OutboxEvent.t) (t : Tables) : Tables :=
  { t with tbl_outbox := l }.

Class RepositoryLaws `{Externals} `{Dialect} (DB : Type) `{!Repository DB}
    `{!RepositoryView DB} : Prop := {
  law_GetProvider tenant application code :
    looks_up (Repository_GetProvider tenant application code) tbl_providers
      (provider_key tenant application code);
  law_GetTemplate tenant application code channel locale :
    looks_up (Repository_GetTemplate tenant application code channel locale) tbl_templates
      (template_key tenant application code channel locale);
  law_GetDelivery id tenant application :
    looks_up (Repository_GetDelivery id tenant application) tbl_deliveries
      (λ r, sql_eq r.(Delivery.ID) id && sql_eq r.(Delivery.TenantID) tenant
            && sql_eq r.(Delivery.ApplicationID) application);
  law_GetDeliveryByKey tenant application key :
    looks_up (Repository_GetDeliveryByKey tenant application key) tbl_deliveries
      (delivery_key tenant application key);
  law_GetDeliveryByProviderMessage tenant application provider messageID :
    looks_up (Repository_GetDeliveryByProviderMessage tenant application provider messageID)
      tbl_deliveries (message_key tenant application provider messageID);
  law_ListProviders tenant application keyword channel status limit offset :
    lists (Repository_ListProviders tenant application keyword channel status limit offset)
      tbl_providers (provider_where tenant application keyword channel status) limit;
  law_ListTemplates tenant application keyword channel status limit offset :
    lists (Repository_ListTemplates tenant application keyword channel status limit offset)
      tbl_templates (template_where tenant application keyword channel status) limit;
  law_ListDeliveries tenant application status limit offset :
    lists (Repository_ListDeliveries tenant application status limit offset)
      tbl_deliveries (delivery_where tenant application status) limit;
  law_InsertProvider v :
    inserts (Repository_InsertProvider v) tbl_providers set_providers (provider_check v)
      (provider_clash v) (stored_provider v);
  law_InsertTemplate v :
    inserts (Repository_InsertTemplate v) tbl_templates set_templates
      (negb (sql_eq v.(Template.ApplicationID) "")) (template_clash v) (stored_template v);
  law_InsertDelivery v :
    inserts (Repository_InsertDelivery v) tbl_deliveries set_deliveries
      (negb (sql_eq v.(Delivery.ApplicationID) "")) (delivery_clash v) (stored_delivery v);
  law_AddOutbox v :
    inserts (Repository_AddOutbox v) tbl_outbox set_outbox true (event_clash v)
      (stored_event v);
  law_UpdateProvider v expected :
    updates (Repository_UpdateProvider v expected) tbl_providers set_providers
      (versioned_provider v.(Provider.ID) expected) (updated_provider v)
      (λ r, provider_check v && can_incr 64 r.(Provider.Version));
  law_UpdateTemplate v expected :
    updates (Repository_UpdateTemplate v expected) tbl_templates set_templates
      (versioned_template v.(Template.ID) expected) (updated_template v)
      (λ r, can_incr 64 r.(Template.Version));
  law_Finish v expected :
    updates (Repository_Finish v expected) tbl_deliveries set_deliveries
      (versioned_delivery v.(Delivery.ID) expected) (finished_delivery v)
      (λ r, can_incr 64 r.(Delivery.Version));
  law_ClaimDue_silent now limit : silent (Repository_ClaimDue now limit);
  law_ClaimDue now limit w vs w' :
    unique_tables (view (w_db w)) → Repository_ClaimDue now limit w = ((vs, nil_err), w') →
    ∃ rows, claim_spec now limit (view (w_db w)) rows vs (view (w_db w'));
  law_ClaimDue_progress now limit w :
    fault_free → unique_tables (view (w_db w)) → 0 ≤ limit →
    (∀ r, r ∈ tbl_deliveries (view (w_db w)) → due now r = true → claim_fits r = true) →
    (Repository_ClaimDue now limit w).1.2 = nil_err;
  law_Delete_silent before limit :
    silent (Repository_DeleteTerminalDeliveriesBefore before limit);
  law_Delete_safe before limit w :
    ∃ gone : Delivery.t → bool,
      view (w_db (Repository_DeleteTerminalDeliveriesBefore before limit w).2) =
        set_deliveries (filter (λ r, gone r = false) (tbl_deliveries (view (w_db w))))
          (view (w_db w)) ∧
      ∀ r, gone r = true → expired before r = true;
  law_Delete before limit w n w' :
    unique_tables (view (w_db w)) →
    Repository_DeleteTerminalDeliveriesBefore before limit w = ((n, nil_err), w') →
    delete_spec before limit (view (w_db w)) n (view (w_db w')) }.

(** The writes, as data. *)
Inductive Write :=
  | WInsertProvider (v : Provider.t) | WUpdateProvider (v : Provider.t) (expected : Z)
  | WInsertTemplate (v : Template.t) | WUpdateTemplate (v : Template.t) (expected : Z)
  | WInsertDelivery (v : Delivery.t) | WFinish (v : Delivery.t) (expected : Z)
  | WAddOutbox (v : OutboxEvent.t) | WClaimDue (now limit : Z)
  | WDelete (before limit : Z).
Definition run_write `{Repository DB} (op : Write) : IO DB error :=
  match op with
  | WInsertProvider v => Repository_InsertProvider v
  | WUpdateProvider v expected => Repository_UpdateProvider v expected
  | WInsertTemplate v => Repository_InsertTemplate v
  | WUpdateTemplate v expected => Repository_UpdateTemplate v expected
  | WInsertDelivery v => Repository_InsertDelivery v
  | WFinish v expected => Repository_Finish v expected
  | WAddOutbox v => Repository_AddOutbox v
  | WClaimDue now limit =>
      let! (_, err) := Repository_ClaimDue now limit in ret err
  | WDelete before limit =>
      let! (_, err) := Repository_DeleteTerminalDeliveriesBefore before limit in ret err
  end.
