(* ===== verification/Unique.v ===== *)
(** * The unique indexes of the tables

    Facts about rows that no two clash, and the invariant [unique_tables]: every
    write of a repository keeps the primary keys and the unique indexes of the
    four tables. *)

From S2P Require Import Prelude AppError Effects Database Model Repository.
Open Scope string_scope.
Open Scope list_scope.
Open Scope Z_scope.
Open Scope go_scope.

(** *** Unique indexes *)
Section Unique.
Context {A : Type} (clash : A → A → bool).

Definition apart (a b : A) : Prop := clash a b = false ∧ clash b a = false.

Lemma pairwise_free_sorted rows :
  pairwise_free clash rows ↔ StronglySorted apart rows.
Proof.
  split.
  - induction rows as [|r rows IH]; intros Hf; constructor.
    + apply IH. intros i j a b Hi Hj Hc. by pose proof (Hf (S i) (S j) a b Hi Hj Hc) as [= ->].
    + apply Forall_lookup. intros i x Hi. unfold apart.
      split; apply not_true_iff_false; intros Hc.
      * by pose proof (Hf 0%nat (S i) r x eq_refl Hi Hc).
      * by pose proof (Hf (S i) 0%nat x r Hi eq_refl Hc).
  - induction 1 as [|r rows Hs IH Hr]; intros i j a b Hi Hj Hc; [done|].
    rewrite Forall_lookup in Hr.
    destruct i as [|i], j as [|j]; simplify_eq/=; [done| | |by rewrite (IH i j a b)].
    + destruct (Hr _ _ Hj). congruence.
    + destruct (Hr _ _ Hi). congruence.
Qed.

Lemma pairwise_free_app rows v :
  (∀ a b, clash a b = true → clash b a = true) →
  pairwise_free clash rows → existsb (clash v) rows = false →
  pairwise_free clash (rows ++ [v]).
Proof.
  intros Hsym. rewrite !pairwise_free_sorted, existsb_false. intros Hs Hv.
  induction Hs as [|r rows Hs IH Hr]; simpl; [by repeat constructor|]. constructor.
  - apply IH. intros x Hx. apply Hv. by right.
  - apply Forall_app. split; [done|]. constructor; [|done].
    assert (clash v r = false) as Hvr by (apply Hv; left).
    split; [|done]. apply not_true_iff_false. intros Hc%Hsym. congruence.
Qed.

Lemma pairwise_free_map (f : A → A) rows :
  (∀ a b, clash (f a) (f b) = clash a b) →
  pairwise_free clash rows → pairwise_free clash (map f rows).
Proof.
  intros Hf. rewrite !pairwise_free_sorted. intros Hs. apply StronglySorted_fmap with apart; [|done].
  intros a b. unfold apart. by rewrite !Hf.
Qed.

Lemma pairwise_free_filter (p : A → bool) rows :
  pairwise_free clash rows → pairwise_free clash (filter (λ r, p r = true) rows).
Proof.
  rewrite !pairwise_free_sorted.
  induction 1 as [|r rows Hs IH Hr]; [constructor|]. destruct (p r) eqn:Ep.
  - rewrite filter_cons_True by done. constructor; [done|].
    apply Forall_forall. intros x [_ Hx]%list_elem_of_filter. by eapply Forall_forall.
  - by rewrite filter_cons_False by (by rewrite Ep).
Qed.

(** Two rows of the table that clash are one row. *)
Lemma pairwise_free_eq rows a b :
  pairwise_free clash rows → a ∈ rows → b ∈ rows → clash a b = true → a = b.
Proof.
  intros Hf [i Hi]%list_elem_of_lookup [j Hj]%list_elem_of_lookup Hc.
  pose proof (Hf _ _ _ _ Hi Hj Hc) as ->. congruence.
Qed.

Lemma pairwise_free_nodup rows :
  (∀ a, clash a a = true) → pairwise_free clash rows → NoDup rows.
Proof.
  intros Hr Hf. apply NoDup_alt. intros i j a Hi Hj. by apply (Hf i j a a).
Qed.
End Unique.

(** *** The clash relations are equivalences on the keys *)
Section Clash.
Context `{DialectLaws}.

Lemma sql_eq_comm a b : sql_eq a b = sql_eq b a.
Proof.
  destruct (sql_eq a b) eqn:E1, (sql_eq b a) eqn:E2; [done| | |done];
    apply sql_eq_sym in E1 || apply sql_eq_sym in E2; congruence.
Qed.

Lemma provider_clash_sym a b : provider_clash a b = true → provider_clash b a = true.
Proof. unfold provider_clash, provider_key. rewrite ?orb_true_iff, ?andb_true_iff. intuition auto using sql_eq_sym. Qed.
Lemma template_clash_sym a b : template_clash a b = true → template_clash b a = true.
Proof. unfold template_clash, template_key. rewrite ?orb_true_iff, ?andb_true_iff. intuition auto using sql_eq_sym. Qed.
Lemma delivery_clash_sym a b : delivery_clash a b = true → delivery_clash b a = true.
Proof. unfold delivery_clash, delivery_key. rewrite ?orb_true_iff, ?andb_true_iff. intuition auto using sql_eq_sym. Qed.
Lemma delivery_clash_refl a : delivery_clash a a = true.
Proof. unfold delivery_clash. by rewrite sql_eq_refl. Qed.
Lemma event_clash_sym a b : event_clash a b = true → event_clash b a = true.
Proof. unfold event_clash. rewrite ?orb_true_iff, ?andb_true_iff. intuition auto using sql_eq_sym. Qed.

Lemma same_id_clash a b id expected :
  versioned_delivery id expected a = true → versioned_delivery id expected b = true →
  delivery_clash a b = true.
Proof.
  unfold versioned_delivery, delivery_clash. intros Ha Hb. bools.
  destruct Ha as [Ha _], Hb as [Hb _]. apply orb_true_iff. left. eauto using sql_eq_trans, sql_eq_sym.
Qed.
Lemma same_id_clash_provider a b id expected :
  versioned_provider id expected a = true → versioned_provider id expected b = true →
  provider_clash a b = true.
Proof.
  unfold versioned_provider, provider_clash. intros Ha Hb. bools.
  destruct Ha as [Ha _], Hb as [Hb _]. apply orb_true_iff. left. eauto using sql_eq_trans, sql_eq_sym.
Qed.
Lemma same_id_clash_template a b id expected :
  versioned_template id expected a = true → versioned_template id expected b = true →
  template_clash a b = true.
Proof.
  unfold versioned_template, template_clash. intros Ha Hb. bools.
  destruct Ha as [Ha _], Hb as [Hb _]. apply orb_true_iff. left. eauto using sql_eq_trans, sql_eq_sym.
Qed.

(** Two deliveries of a table with one id are one row. *)
Lemma same_id (rows : list Delivery.t) a b :
  pairwise_free delivery_clash rows → a ∈ rows → b ∈ rows →
  sql_eq a.(Delivery.ID) b.(Delivery.ID) = true → a = b.
Proof.
  intros Hf Ha Hb He. apply (pairwise_free_eq _ _ _ _ Hf Ha Hb).
  unfold delivery_clash. rewrite orb_true_iff. left. by apply sql_eq_sym.
Qed.
End Clash.

(** *** Writes keep the indexes *)
Lemma pairwise_free_insert {A} (clash : A → A → bool) rows v row :
  (∀ a b, clash a b = true → clash b a = true) →
  (∀ a, clash row a = clash v a) →
  pairwise_free clash rows → existsb (clash v) rows = false →
  pairwise_free clash (rows ++ [row]).
Proof.
  intros Hsym Hrow Hf Hx. apply pairwise_free_app; [done..|].
  rewrite <- Hx. clear -Hrow. induction rows as [|r rows IH]; simpl; [done|].
  by rewrite Hrow, IH.
Qed.

(** The row that an update rewrites, as a map over the table. *)
Lemma one_updated_as_map {A} (p : A → bool) f rows rows' :
  one_updated p f rows rows' → rows' = map (λ r, if p r then f r else r) rows.
Proof.
  intros (l1 & r & l2 & -> & -> & Hp & Hn). rewrite forallb_forall in Hn.
  assert (∀ l, (∀ x, In x l → In x (l1 ++ l2)) → map (λ r, if p r then f r else r) l = l) as Hid.
  { intros l Hl. rewrite <- (map_id l) at 2. apply map_ext_in. intros x Hx%Hl%Hn.
    apply negb_true_iff in Hx. by rewrite Hx. }
  rewrite map_app. simpl. rewrite Hp, !Hid; [done| |]; intros x Hx; apply in_or_app; auto.
Qed.

Lemma pairwise_free_update {A} (clash : A → A → bool) p f rows rows' :
  (∀ r a, clash (f r) a = clash r a ∧ clash a (f r) = clash a r) →
  one_updated p f rows rows' → pairwise_free clash rows → pairwise_free clash rows'.
Proof.
  intros Hf ->%one_updated_as_map. apply pairwise_free_map. intros a b.
  destruct (p a), (p b); rewrite ?(proj1 (Hf _ _)), ?(proj2 (Hf _ _)); done.
Qed.

(** Rows other than the one that an update rewrites stay. *)
Lemma one_updated_kept {A} (p : A → bool) f rows rows' r :
  one_updated p f rows rows' → r ∈ rows → p r = false → r ∈ rows'.
Proof.
  intros (l1 & x & l2 & -> & -> & Hp & _) Hr Hn.
  apply elem_of_app in Hr as [Hr|[->|Hr]%elem_of_cons]; [| congruence|];
    apply elem_of_app; [by left|right; by right].
Qed.

Lemma versioned_clash `{DialectLaws} d r :
  versioned_delivery d.(Delivery.ID) d.(Delivery.Version) r = true →
  delivery_clash d r = true.
Proof.
  unfold versioned_delivery, delivery_clash. intros [Hv _]%andb_true_iff. by rewrite Hv.
Qed.

(** A claim gives only new statuses and attempts to its rows. *)
Lemma claim_unique `{Externals} `{DialectLaws} now limit t rows vs t' :
  claim_spec now limit t rows vs t' → unique_tables t → unique_tables t'.
Proof.
  intros Hc [Hp Ht Hd Ho]. rewrite (claim_after _ _ _ _ _ _ Hc). split; [done..| |done].
  apply pairwise_free_map; [|done]. intros a b. by repeat case_bool_decide.
Qed.

Section Preservation.
Context `{Externals} `{DialectLaws} {DB : Type} `{!Repository DB} `{!RepositoryView DB}
  `{!RepositoryLaws DB}.

(** C24 Every write that a repository reports as done keeps the four tables free
    of two rows with one primary key or one unique key: providers per (tenant,
    application, code), templates per (tenant, application, code, channel,
    locale), deliveries per (tenant, application, idempotency key). *)
Theorem writes_keep_unique op w :
  unique_tables (view (w_db w)) → (run_write op w).1 = nil_err →
  unique_tables (view (w_db (run_write op w).2)).
Proof.
  intros Hu Hok. pose proof Hu as [Hp Ht Hd Ho].
  destruct op as [v|v expected|v|v expected|v|v expected|v|now limit|before limit]; simpl in *.
  - destruct (inserts_ok _ _ _ _ _ _ (law_InsertProvider v) w Hok) as [Hx ->].
    split; [|done..]. by apply (pairwise_free_insert _ _ v); [apply provider_clash_sym|..].
  - destruct (updates_ok _ _ _ _ _ _ (law_UpdateProvider v expected) w Hu Hok) as (l & Hl & ->).
    split; [|done..]. by apply (λ H, pairwise_free_update _ _ _ _ _ H Hl Hp).
  - destruct (inserts_ok _ _ _ _ _ _ (law_InsertTemplate v) w Hok) as [Hx ->].
    split; [done| |done..]. by apply (pairwise_free_insert _ _ v); [apply template_clash_sym|..].
  - destruct (updates_ok _ _ _ _ _ _ (law_UpdateTemplate v expected) w Hu Hok) as (l & Hl & ->).
    split; [done| |done..]. by apply (λ H, pairwise_free_update _ _ _ _ _ H Hl Ht).
  - destruct (inserts_ok _ _ _ _ _ _ (law_InsertDelivery v) w Hok) as [Hx ->].
    split; [done..| |done]. by apply (pairwise_free_insert _ _ v); [apply delivery_clash_sym|..].
  - destruct (updates_ok _ _ _ _ _ _ (law_Finish v expected) w Hu Hok) as (l & Hl & ->).
    split; [done..| |done]. by apply (λ H, pairwise_free_update _ _ _ _ _ H Hl Hd).
  - destruct (inserts_ok _ _ _ _ _ _ (law_AddOutbox v) w Hok) as [Hx ->].
    split; [done..|]. by apply (pairwise_free_insert _ _ v); [apply event_clash_sym|..].
  - unfold bind in *. destruct (Repository_ClaimDue now limit w) as [[vs err] w'] eqn:E.
    simpl in *. subst err. destruct (law_ClaimDue _ _ _ _ _ Hu E) as [rows Hc].
    by eapply claim_unique.
  - unfold bind in *. destruct (law_Delete_safe before limit w) as (gone & E & _).
    destruct (Repository_DeleteTerminalDeliveriesBefore before limit w) as [[n err] w'].
    simpl in *. rewrite E. split; [done..| |done].
    cbn. erewrite list_filter_iff; [by apply (pairwise_free_filter _ (λ r, negb (gone r)))|].
    intros r. by rewrite negb_true_iff.
Qed.
End Preservation.
