(* ===== verification/Sql.v ===== *)
(** * internal/notification/repository.go: [SQLRepository]

    The methods, statement by statement, over the rows of the tables.  First
    the generic statements (insert, update, select) on a list of rows. *)

From S2P Require Import Prelude AppError Effects Database Model Repository Unique.
Open Scope string_scope.
Open Scope list_scope.
Open Scope Z_scope.
Open Scope go_scope.

(** ** Statements on a table *)
Section Rows.
Context {A : Type}.

(** [INSERT]: refused when a check fails or a unique index already has the key. *)
Definition insert_row `{Dialect} (check : bool) (clash : A → bool) (v : A) (rows : list A)
    : list A + error :=
  if negb check || existsb clash rows then inr (ErrMsg constraint_error)
  else inl (rows ++ [v]).

(** [UPDATE ... WHERE p]: [f] is [None] when a column leaves its range. *)
Fixpoint update_rows (p : A → bool) (f : A → option A) (rows : list A)
    : option (list A * Z) :=
  match rows with
  | [] => Some ([], 0)
  | r :: rows =>
      '(rows', n) ← update_rows p f rows;
      if p r then (r' ← f r; Some (r' :: rows', n + 1)) else Some (r :: rows', n)
  end.

Definition select_rows (p : A → bool) (rows : list A) : list A :=
  filter (λ r, p r = true) rows.

(** A query for one row without an order: any of the matching rows. *)
Definition select_one (zero : A) (k : nat) (p : A → bool) (rows : list A) : A * error :=
  let found := select_rows p rows in
  match found !! (k `mod` length found)%nat with
  | Some r => (r, nil_err)
  | None => (zero, ErrSentinel ErrNoRows)
  end.

#[local] Instance bool_rel_dec (le : A → A → bool) : RelDecision (λ a b, le a b = true).
Proof. intros a b. apply _. Defined.
Definition sort_rows (le : A → A → bool) (rows : list A) : list A :=
  merge_sort (λ a b, le a b = true) rows.

Definition select_page `{Dialect} (le : A → A → bool) (p : A → bool) (limit offset : Z)
    (rows : list A) : list A * error :=
  if (limit <? 0) || (offset <? 0) then ([], ErrMsg page_error)
  else (take (Z.to_nat limit) (drop (Z.to_nat offset) (sort_rows le (select_rows p rows))),
        nil_err).
End Rows.

(** An integer column plus one, refused when that leaves the column's range. *)
Definition incr (bits z : Z) : option Z :=
  if can_incr bits z then Some (z + 1) else None.

Definition no_rows_to_not_found (err : error) : error :=
  if error_is err ErrNoRows then ErrSentinel ErrNotFound else err.

Module SQLRepository.
Section Methods.
Context `{Externals} `{Dialect}.

Definition SQL A : Type := IO Tables A.

(** Statements on one of the tables. *)
Definition get {A} (zero : A) (rows : Tables → list A) (p : A → bool) : SQL (A * error) :=
  let! n := tick in
  let! (value, err) := query zero (λ db, select_one zero (ext_row n) p (rows db)) in
  ret (value, no_rows_to_not_found err).
Definition list_page {A} (rows : Tables → list A) (le : A → A → bool) (where_ : A → bool)
    (limit offset : Z) : SQL (list A * Z * error) :=
  let! (total, err) :=
    query 0 (λ db, (Z.of_nat (length (select_rows where_ (rows db))), nil_err)) in
  when! failed err return! ([], 0, err);
  let! (values, err) := query [] (λ db, select_page le where_ limit offset (rows db)) in
  ret (values, total, err).
Definition insert {A} (rows : Tables → list A) (set : list A → Tables → Tables)
    (check : bool) (clash : A → bool) (v : A) : SQL error :=
  let! (_, err) := exec (λ db,
    match insert_row check clash v (rows db) with
    | inl l => inl (set l db, 1)
    | inr e => inr e
    end) in
  ret err.
Definition update {A} (rows : Tables → list A) (set : list A → Tables → Tables)
    (p : A → bool) (f : A → option A) : SQL (Z * error) :=
  exec (λ db,
    match update_rows p f (rows db) with
    | Some (l, n) => inl (set l db, n)
    | None => inr (ErrMsg range_error)
    end).
(** The row count check that [UpdateProvider] and [Finish] share. *)
Definition changed_one (result : Z * error) : SQL error :=
  let '(n, err) := result in
  when! failed err return! err;
  let! (changed, err) := RowsAffected n in
  when! is_nil err && (changed != 1) return! ErrSentinel ErrStaleVersion;
  ret err.

Definition AddOutbox (event : OutboxEvent.t) : SQL error :=
  insert tbl_outbox set_outbox true (event_clash event) (stored_event event).

(** *** Providers *)
Definition GetProvider (tenant application code : string) : SQL (Provider.t * error) :=
  get Provider.zero tbl_providers (provider_key tenant application code).

(** [ORDER BY priority,code] *)
Definition provider_le (a b : Provider.t) : bool :=
  (a.(Provider.Priority) <? b.(Provider.Priority))
  || ((a.(Provider.Priority) =? b.(Provider.Priority))
      && sql_le a.(Provider.Code) b.(Provider.Code)).
Definition ListProviders (tenant application keyword channel status : string)
    (limit offset : Z) : SQL (list Provider.t * Z * error) :=
  list_page tbl_providers provider_le
    (provider_where tenant application keyword channel status) limit offset.

Definition InsertProvider (value : Provider.t) : SQL error :=
  insert tbl_providers set_providers (provider_check value) (provider_clash value)
    (stored_provider value).
Definition UpdateProvider (value : Provider.t) (expected : Z) : SQL error :=
  let! result := update tbl_providers set_providers
    (versioned_provider value.(Provider.ID) expected)
    (λ r, if provider_check value then
            _ ← incr 64 r.(Provider.Version); Some (updated_provider value r)
          else None) in
  changed_one result.

(** *** Templates *)
Definition GetTemplate (tenant application code channel locale : string)
    : SQL (Template.t * error) :=
  get Template.zero tbl_templates (template_key tenant application code channel locale).

(** [ORDER BY updated_at DESC,id DESC] *)
Definition template_le (a b : Template.t) : bool :=
  (b.(Template.UpdatedAt) <? a.(Template.UpdatedAt))
  || ((b.(Template.UpdatedAt) =? a.(Template.UpdatedAt))
      && sql_id_le b.(Template.ID) a.(Template.ID)).
Definition ListTemplates (tenant application keyword channel status : string)
    (limit offset : Z) : SQL (list Template.t * Z * error) :=
  list_page tbl_templates template_le
    (template_where tenant application keyword channel status) limit offset.

Definition InsertTemplate (v : Template.t) : SQL error :=
  insert tbl_templates set_templates (negb (sql_eq v.(Template.ApplicationID) ""))
    (template_clash v) (stored_template v).
Definition UpdateTemplate (v : Template.t) (expected : Z) : SQL error :=
  let! (n, err) := update tbl_templates set_templates
    (versioned_template v.(Template.ID) expected)
    (λ r, _ ← incr 64 r.(Template.Version); Some (updated_template v r)) in
  when! failed err return! err;
  let! (n, err) := RowsAffected n in
  when! is_nil err && (n =? 0) return! ErrSentinel ErrStaleVersion;
  ret err.

(** *** Deliveries *)
Definition GetDelivery (id tenant application : string) : SQL (Delivery.t * error) :=
  get Delivery.zero tbl_deliveries (λ r, sql_eq r.(Delivery.ID) id
    && sql_eq r.(Delivery.TenantID) tenant && sql_eq r.(Delivery.ApplicationID) application).
Definition GetDeliveryByKey (tenant application key : string) : SQL (Delivery.t * error) :=
  get Delivery.zero tbl_deliveries (delivery_key tenant application key).
Definition GetDeliveryByProviderMessage (tenant application provider messageID : string)
    : SQL (Delivery.t * error) :=
  get Delivery.zero tbl_deliveries (message_key tenant application provider messageID).
Definition InsertDelivery (v : Delivery.t) : SQL error :=
  insert tbl_deliveries set_deliveries (negb (sql_eq v.(Delivery.ApplicationID) ""))
    (delivery_clash v) (stored_delivery v).

(** [ORDER BY created_at DESC,id DESC] *)
Definition delivery_le (a b : Delivery.t) : bool :=
  (b.(Delivery.CreatedAt) <? a.(Delivery.CreatedAt))
  || ((b.(Delivery.CreatedAt) =? a.(Delivery.CreatedAt))
      && sql_id_le b.(Delivery.ID) a.(Delivery.ID)).
Definition ListDeliveries (tenant application status : string) (limit offset : Z)
    : SQL (list Delivery.t * Z * error) :=
  list_page tbl_deliveries delivery_le (delivery_where tenant application status) limit offset.

(** [ORDER BY next_attempt_at,id] *)
Definition due_le (a b : Delivery.t) : bool :=
  (a.(Delivery.NextAttemptAt) <? b.(Delivery.NextAttemptAt))
  || ((a.(Delivery.NextAttemptAt) =? b.(Delivery.NextAttemptAt))
      && sql_id_le a.(Delivery.ID) b.(Delivery.ID)).

(** [attempts=attempts+1,version=version+1] *)
Definition claim_row (now : Z) (r : Delivery.t) : option Delivery.t :=
  _ ← incr 32 r.(Delivery.Attempts); _ ← incr 64 r.(Delivery.Version);
  Some (claimed_delivery now r).
(** [Attempts++], [Version++] on Go's copy *)
Definition claim_copy (now : Z) (v : Delivery.t) : Delivery.t :=
  { v with Delivery.Status := "processing";
           Delivery.Attempts := wrap32 (v.(Delivery.Attempts) + 1);
           Delivery.Version := wrap64 (v.(Delivery.Version) + 1);
           Delivery.UpdatedAt := now }.
(** The loop over the selected rows; the result holds Go's own copies. *)
Fixpoint claim_each (now : Z) (values : list Delivery.t) : SQL (list Delivery.t * error) :=
  match values with
  | [] => ret ([], nil_err)
  | v :: values =>
      let! (n, err) := update tbl_deliveries set_deliveries
        (versioned_delivery v.(Delivery.ID) v.(Delivery.Version)) (claim_row now) in
      when! failed err return! ([], err);
      let! (changed, err) := RowsAffected n in
      when! failed err || (changed != 1) return! ([], ErrSentinel ErrStaleVersion);
      let! (rest, err) := claim_each now values in
      when! failed err return! ([], err);
      ret (claim_copy now v :: rest, nil_err)
  end.

(** [FOR UPDATE SKIP LOCKED]: rows that another transaction holds are passed over. *)
Definition ClaimDue (now limit : Z) : SQL (list Delivery.t * error) :=
  let! n := tick in
  let! (values, err) := query [] (λ db,
    select_page due_le (λ r, due now r && negb (ext_locked n r.(Delivery.ID)))
      limit 0 (tbl_deliveries db)) in
  when! failed err return! ([], err);
  claim_each now values.

Definition Finish (v : Delivery.t) (expected : Z) : SQL error :=
  let! result := update tbl_deliveries set_deliveries
    (versioned_delivery v.(Delivery.ID) expected)
    (λ r, _ ← incr 64 r.(Delivery.Version); Some (finished_delivery v r)) in
  changed_one result.

(** [ORDER BY updated_at,id] *)
Definition expired_le (a b : Delivery.t) : bool :=
  (a.(Delivery.UpdatedAt) <? b.(Delivery.UpdatedAt))
  || ((a.(Delivery.UpdatedAt) =? b.(Delivery.UpdatedAt))
      && sql_id_le a.(Delivery.ID) b.(Delivery.ID)).
Definition select_expired (before limit : Z) : SQL (list string * error) :=
  query [] (λ db,
    let '(rows, err) := select_page expired_le (expired before) limit 0 (tbl_deliveries db) in
    (map Delivery.ID rows, err)).
(** [id IN (...) AND status IN (...) AND updated_at<?] *)
Definition gone (before : Z) (ids : list string) (r : Delivery.t) : bool :=
  existsb (sql_eq r.(Delivery.ID)) ids && expired before r.
Definition delete_expired (before : Z) (ids : list string) : SQL (Z * error) :=
  let! (n, err) := exec (λ db,
    inl (set_deliveries (select_rows (λ r, negb (gone before ids r)) (tbl_deliveries db)) db,
         Z.of_nat (length (select_rows (gone before ids) (tbl_deliveries db))))) in
  when! failed err return! (0, err);
  RowsAffected n.
Definition DeleteTerminalDeliveriesBefore (before limit : Z) : SQL (Z * error) :=
  let! (ids, err) := select_expired before limit in
  when! failed err || (length ids == 0%nat) return! (0, err);
  delete_expired before ids.
End Methods.
End SQLRepository.

#[export] Instance SQLRepository_Repository `{Externals} `{Dialect} : Repository Tables := {
  Repository_GetProvider := SQLRepository.GetProvider;
  Repository_ListProviders := SQLRepository.ListProviders;
  Repository_InsertProvider := SQLRepository.InsertProvider;
  Repository_UpdateProvider := SQLRepository.UpdateProvider;
  Repository_GetTemplate := SQLRepository.GetTemplate;
  Repository_ListTemplates := SQLRepository.ListTemplates;
  Repository_InsertTemplate := SQLRepository.InsertTemplate;
  Repository_UpdateTemplate := SQLRepository.UpdateTemplate;
  Repository_GetDelivery := SQLRepository.GetDelivery;
  Repository_GetDeliveryByKey := SQLRepository.GetDeliveryByKey;
  Repository_GetDeliveryByProviderMessage := SQLRepository.GetDeliveryByProviderMessage;
  Repository_InsertDelivery := SQLRepository.InsertDelivery;
  Repository_ListDeliveries := SQLRepository.ListDeliveries;
  Repository_ClaimDue := SQLRepository.ClaimDue;
  Repository_Finish := SQLRepository.Finish;
  Repository_DeleteTerminalDeliveriesBefore := SQLRepository.DeleteTerminalDeliveriesBefore;
  Repository_AddOutbox := SQLRepository.AddOutbox }.

(** ** Statements on rows *)
Section RowLemmas.
Context {A : Type}.
Implicit Types (p : A → bool) (rows : list A).

Lemma elem_of_select p rows r : r ∈ select_rows p rows ↔ r ∈ rows ∧ p r = true.
Proof. unfold select_rows. rewrite list_elem_of_filter. tauto. Qed.

Lemma select_rows_nil p rows : existsb p rows = false → select_rows p rows = [].
Proof.
  unfold select_rows. induction rows as [|r rows IH]; [done|]. simpl. intros E. bools.
  destruct E as [E1 E2]. rewrite filter_cons_False by (by rewrite E1). auto.
Qed.

Lemma select_all_true p rows : (∀ r, p r = true) → select_rows p rows = rows.
Proof.
  intros Hp. unfold select_rows. induction rows as [|r rows IH]; [done|].
  by rewrite filter_cons_True, IH by done.
Qed.

Lemma update_rows_spec p f rows rows' n :
  update_rows p f rows = Some (rows', n) →
  n = Z.of_nat (length (select_rows p rows)) ∧
  rows' = map (λ r, if p r then default r (f r) else r) rows ∧
  ∀ r, r ∈ rows → p r = true → is_Some (f r).
Proof.
  unfold select_rows. revert rows' n. induction rows as [|r rows IH]; intros rows' n E; simpl in E.
  { simplify_eq. split_and!; [done..|]. by intros ? ?%not_elem_of_nil. }
  destruct (update_rows p f rows) as [[l m]|]; [|done]. simpl in E.
  destruct (IH _ _ eq_refl) as (-> & -> & IHs). clear IH.
  destruct (p r) eqn:Ep.
  - destruct (f r) eqn:Ef; simplify_eq/=. rewrite filter_cons_True, Ep, Ef by done.
    split_and!; [simpl; lia|done|].
    intros x [->|Hx]%elem_of_cons; [by eexists|auto].
  - simplify_eq/=. rewrite filter_cons_False, Ep by (by rewrite Ep). split_and!; [done..|].
    intros x [->|Hx]%elem_of_cons Hp; [congruence|auto].
Qed.

Lemma update_rows_some p f rows :
  (∀ r, r ∈ rows → p r = true → is_Some (f r)) → is_Some (update_rows p f rows).
Proof.
  induction rows as [|r rows IH]; intros Hs; simpl; [done|].
  destruct IH as [[l n] ->]; [intros x Hx; apply Hs; by right|]. simpl.
  destruct (p r) eqn:Ep; [|done]. by destruct (Hs r ltac:(left) Ep) as [r' ->].
Qed.

Lemma update_rows_none p f rows :
  existsb p rows = false → update_rows p f rows = Some (rows, 0).
Proof.
  induction rows as [|r rows IH]; [done|]. simpl. intros E. bools. destruct E as [E1 E2].
  by rewrite (IH E2), E1.
Qed.

Lemma select_unique (clash : A → A → bool) p rows :
  pairwise_free clash rows → (∀ a b, p a = true → p b = true → clash a b = true) →
  (length (select_rows p rows) ≤ 1)%nat.
Proof.
  intros Hf Hp. induction rows as [|r rows IH]; [simpl; lia|].
  assert (pairwise_free clash rows) as Hf'.
  { intros i j a b Hi Hj Hc. by pose proof (Hf (S i) (S j) a b Hi Hj Hc) as [= ->]. }
  unfold select_rows in *. destruct (p r) eqn:Ep.
  - rewrite filter_cons_True by done. simpl.
    destruct (filter (λ r, p r = true) rows) as [|x l] eqn:E; [simpl; lia|].
    assert (x ∈ filter (λ r, p r = true) rows) as Hx by (rewrite E; left).
    apply list_elem_of_filter in Hx as [Hpx Hx]. apply list_elem_of_lookup in Hx as [i Hi].
    by pose proof (Hf 0%nat (S i) r x eq_refl Hi (Hp _ _ Ep Hpx)).
  - rewrite filter_cons_False by (by rewrite Ep). auto.
Qed.

Lemma select_one_count p rows :
  (length (select_rows p rows) ≤ 1)%nat → existsb p rows = true →
  length (select_rows p rows) = 1%nat.
Proof.
  intros Hle (r & Hr%list_elem_of_In & Hp)%existsb_exists.
  assert (r ∈ select_rows p rows) as Hin by (by apply elem_of_select).
  destruct (select_rows p rows); [by apply not_elem_of_nil in Hin|]. simpl in *. lia.
Qed.

(** One matching row: rewriting the matching rows rewrites that one. *)
Lemma one_updated_map p (g : A → A) rows :
  length (select_rows p rows) = 1%nat →
  one_updated p g rows (map (λ r, if p r then g r else r) rows).
Proof.
  unfold one_updated, select_rows. induction rows as [|r rows IH]; [done|].
  destruct (p r) eqn:Ep.
  - rewrite filter_cons_True by done. simpl. intros [= Hn%nil_length_inv].
    assert (existsb p rows = false) as Hf.
    { apply existsb_false. intros x Hx. destruct (p x) eqn:E; [exfalso|done].
      apply (not_elem_of_nil x). rewrite <- Hn. by apply list_elem_of_filter. }
    rewrite existsb_false in Hf.
    exists [], r, rows. rewrite Ep. split_and!; [done| |done|].
    + simpl. f_equal. rewrite <- (map_id rows) at 2. apply map_ext_in.
      intros x Hx%list_elem_of_In. by rewrite Hf.
    + simpl. apply forallb_forall. intros x Hx%list_elem_of_In. by rewrite Hf.
  - rewrite filter_cons_False by (by rewrite Ep). intros Hn.
    destruct (IH Hn) as (l1 & x & l2 & E1 & E2 & E3 & E4).
    exists (r :: l1), x, l2. simpl. rewrite E1 at 1. rewrite E2, Ep. by split_and!.
Qed.

Lemma select_one_spec zero k p rows v err :
  select_one zero k p rows = (v, err) →
  (err = nil_err ∧ v ∈ rows ∧ p v = true) ∨
  (err = ErrSentinel ErrNoRows ∧ v = zero ∧ existsb p rows = false).
Proof.
  unfold select_one. intros E. destruct (select_rows p rows !! _) as [r|] eqn:El; simplify_eq/=.
  - left. apply list_elem_of_lookup_2 in El. by apply elem_of_select in El.
  - right. split_and!; [done..|]. apply existsb_false. intros r Hr.
    destruct (p r) eqn:Ep; [exfalso|done].
    assert (r ∈ select_rows p rows) as Hs by by apply elem_of_select.
    destruct (select_rows p rows) as [|x l]; [by apply not_elem_of_nil in Hs|].
    apply lookup_ge_None in El. simpl in El.
    pose proof (Nat.mod_upper_bound k (S (length l))). simpl in *. lia.
Qed.

Lemma elem_of_slice n m rows r : r ∈ take n (drop m rows) → r ∈ rows.
Proof.
  intros Hr. rewrite <- (take_drop m rows), <- (take_drop n (drop m rows)).
  apply elem_of_app. right. apply elem_of_app. by left.
Qed.

Lemma sort_rows_perm (le : A → A → bool) rows : sort_rows le rows ≡ₚ rows.
Proof. apply merge_sort_Permutation. Qed.

Lemma sort_rows_sorted (le : A → A → bool) rows :
  (∀ a b, le a b = true ∨ le b a = true) →
  (∀ a b c, le a b = true → le b c = true → le a c = true) →
  StronglySorted (λ a b, le a b = true) (sort_rows le rows).
Proof.
  intros Htot Htr. unfold sort_rows. apply StronglySorted_merge_sort; [|exact Htot].
  intros a b c. apply Htr.
Qed.

Lemma select_page_spec `{Dialect} (le : A → A → bool) p limit offset rows vs :
  select_page le p limit offset rows = (vs, nil_err) →
  0 ≤ limit ∧ 0 ≤ offset ∧
  vs = take (Z.to_nat limit) (drop (Z.to_nat offset) (sort_rows le (select_rows p rows))).
Proof.
  unfold select_page. destruct (_ || _) eqn:E; intros; simplify_eq/=. bools.
  destruct E as [?%Z.ltb_ge ?%Z.ltb_ge]. done.
Qed.

Lemma select_page_elem `{Dialect} (le : A → A → bool) p limit offset rows vs :
  select_page le p limit offset rows = (vs, nil_err) →
  (∀ v, v ∈ vs → v ∈ rows ∧ p v = true) ∧ Z.of_nat (length vs) ≤ limit.
Proof.
  intros (Hl & Ho & ->)%select_page_spec. split.
  - intros v Hv. apply elem_of_select. rewrite <- sort_rows_perm.
    by eapply elem_of_slice.
  - rewrite length_take. lia.
Qed.
End RowLemmas.

(** ** The laws of the interface *)
#[export] Instance SQLRepository_view : RepositoryView Tables := λ t, t.

Section Laws.
Context `{DriverLaws} `{DialectLaws}.
Import SQLRepository.


(** A fault carries none of the sentinels. *)
Definition plain (e : error) : Prop :=
  e ≠ nil_err ∧ error_is e ErrNoRows = false ∧ error_is e ErrNotFound = false
  ∧ error_is e ErrStaleVersion = false.

(** The answer of a query: the statement's, or a plain error. *)
Lemma query_cases {A} (zero : A) stmt (w : World Tables Event) :
  ∃ r, query zero stmt w = (r, next w) ∧
    (r = stmt (w_db w) ∨ (r.1 = zero ∧ plain r.2 ∧ ¬ fault_free)).
Proof.
  rewrite query_run. eexists; split; [done|]. unfold fault_free.
  destruct (ext_driver (w_tick w)) as [|e|e] eqn:E; [by left|right|right];
    (split_and!; [done|eapply driver_fault; eauto|]; intros Hff; by rewrite Hff in E).
Qed.

Lemma RowsAffected_cases n (w : World Tables Event) :
  ∃ r, RowsAffected n w = (r, next w) ∧ (r = (n, nil_err) ∨ (plain r.2 ∧ ¬ fault_free)).
Proof.
  rewrite RowsAffected_run. eexists; split; [done|]. unfold fault_free.
  destruct (ext_driver (w_tick w)) as [|e|e] eqn:E; [by left|right|right];
    (split; [eapply driver_fault; eauto|]; intros Hff; by rewrite Hff in E).
Qed.

(** The answer of a write: it ran and was acknowledged, or it reports an error. *)
Lemma exec_cases stmt (w : World Tables Event) :
  ∃ r w', exec stmt w = (r, w') ∧ w_log w' = w_log w ∧
    ((∃ db n, stmt (w_db w) = inl (db, n) ∧ r = (n, nil_err) ∧ w_db w' = db) ∨
     (∃ e, stmt (w_db w) = inr e ∧ r.2 = e) ∨
     (plain r.2 ∧ ¬ fault_free)).
Proof.
  rewrite exec_run. unfold fault_free.
  destruct (ext_driver (w_tick w)) as [|e|e] eqn:E, (stmt (w_db w)) as [[db n]|e'] eqn:Es;
    (do 2 eexists; split; [reflexivity|]; split; [done|]).
  { left. by exists db, n. }
  { right; left. by exists e'. }
  all: right; right; (split; [eapply driver_fault; eauto|]; intros Hff; by rewrite Hff in E).
Qed.

(** Take the answer of the first statement of the goal. *)
Tactic Notation "answer" simple_intropattern(p) :=
  match goal with
  | |- context [query ?z ?s ?w] => destruct (query_cases z s w) as p
  | |- context [exec ?s ?w] => destruct (exec_cases s w) as p
  | |- context [RowsAffected ?n ?w] => destruct (RowsAffected_cases n w) as p
  end.

Lemma no_rows_plain e : plain e → no_rows_to_not_found e = e.
Proof. intros (_ & Hn & _). unfold no_rows_to_not_found. by rewrite Hn. Qed.

Lemma get_cases {A} (zero : A) rows p (w : World Tables Event) :
  ∃ v err w', get zero rows p w = ((v, err), w') ∧ w_db w' = w_db w ∧ w_log w' = w_log w ∧
    ((err = nil_err ∧ v ∈ rows (w_db w) ∧ p v = true) ∨
     (err = ErrSentinel ErrNotFound ∧ existsb p (rows (w_db w)) = false) ∨
     (plain err ∧ ¬ fault_free)).
Proof.
  unfold get, bind, tick. cbn -[query].
  answer ([v err] & -> & Hr).
  do 3 eexists. split; [reflexivity|]. do 2 (split; [done|]).
  destruct Hr as [Hr|(_ & Hp & Hff)].
  - symmetry in Hr. apply select_one_spec in Hr as [(-> & ? & ?)|(-> & _ & Hn)]; auto.
  - right; right. by rewrite no_rows_plain.
Qed.

Lemma get_law {A} (zero : A) rows p : looks_up (get zero rows p) rows p.
Proof.
  split; intros w; destruct (get_cases zero rows p w)
    as (v & err & w' & E & Hdb & Hlog & Hcase); rewrite E; simpl; unfold view, SQLRepository_view.
  - done.
  - intros v' [= <- ->]. destruct Hcase as [(_ & ? & ?)|[(? & _)|((? & _) & _)]]; done.
  - intros v' err' [= <- <-] He r Hr. destruct Hcase as [(-> & _)|[(-> & Hn)|((_ & _ & ? & _) & _)]].
    + done.
    + rewrite existsb_false in Hn. auto.
    + congruence.
  - intros Hff. destruct Hcase as [(-> & _)|[(-> & _)|(_ & Hn)]]; auto. done.
Qed.

Lemma list_page_law {A} (rows : Tables → list A) le p limit offset :
  lists (list_page rows le p limit offset) rows p limit.
Proof.
  split; unfold list_page, bind, view, SQLRepository_view, reads.
  - intros w. answer ([n err] & -> & _). destruct (failed err); [done|].
    by answer ([vs e] & -> & _).
  - intros w vs total. answer ([n err] & -> & Hr).
    destruct Hr as [Hr|(_ & Hp & _)]; simplify_eq/=.
    + answer ([vs' err] & -> & Hr). intros E. simpl in E. simplify_eq.
      destruct Hr as [Hr|(_ & Hp & _)]; [|by destruct Hp].
      symmetry in Hr. apply select_page_elem in Hr as [Hv Hl]. done.
    + assert (failed err = true) as Hf by (apply failed_not_nil; apply Hp).
      rewrite Hf. intros E. by simplify_eq/=.
Qed.

Lemma insert_law {A} rows (set : list A → Tables → Tables) check clash v :
  inserts (insert rows set check clash v) rows set check clash v.
Proof.
  split; unfold insert, bind, view, SQLRepository_view, silent; intros w;
    (answer ([n err] & w' & -> & Hlog & Hcase); simpl).
  - done.
  - intros ->. destruct Hcase as [(db & m & Hs & Hr & Hdb)|[(e & Hs & He)|(Hp & _)]].
    + unfold insert_row in Hs. destruct (negb check || existsb clash (rows (w_db w))) eqn:E; [done|].
      bools. destruct E as [_ E]. by simplify_eq.
    + unfold insert_row in Hs. simpl in He. subst e.
      by destruct (negb check || existsb clash (rows (w_db w))); simplify_eq.
    + by destruct Hp.
  - intros Hff -> Hc. destruct Hcase as [(db & m & Hs & Hr & Hdb)|[(e & Hs & He)|(_ & Hp)]].
    + by simplify_eq.
    + unfold insert_row in Hs. by rewrite Hc in Hs.
    + done.
Qed.

Section Updates.
Context {A : Type} (rows : Tables → list A) (set : list A → Tables → Tables).
Context (p : A → bool) (f : A → option A) (g : A → A) (fits : A → bool).
Hypothesis rows_unique : ∀ t, unique_tables t → (length (select_rows p (rows t)) ≤ 1)%nat.
Hypothesis f_g : ∀ r r', f r = Some r' → r' = g r.
Hypothesis f_fits : ∀ r, fits r = true → is_Some (f r).

(** An acknowledged update rewrote the matching rows and counted them. *)
Lemma update_cases (w : World Tables Event) :
  ∃ n err w', update rows set p f w = ((n, err), w') ∧ w_log w' = w_log w ∧
    ((err = nil_err ∧ n = Z.of_nat (length (select_rows p (rows (w_db w)))) ∧
      w_db w' = set (map (λ r, if p r then g r else r) (rows (w_db w))) (w_db w) ∧
      ∀ r, r ∈ rows (w_db w) → p r = true → is_Some (f r)) ∨
     (err ≠ nil_err ∧ (fault_free → existsb p (rows (w_db w)) = true ∧
        ¬ ∀ r, r ∈ rows (w_db w) → p r = true → fits r = true))).
Proof.
  unfold update. answer ([n err] & w' & -> & Hlog & Hcase).
  do 3 eexists. split; [reflexivity|]. split; [done|].
  destruct (update_rows p f (rows (w_db w))) as [[l m]|] eqn:Eu.
  - destruct Hcase as [(db & k & Hs & Hr & Hdb)|[(e & Hs & He)|([Hp _] & Hn)]]; [left|done|by right].
    simplify_eq/=. apply update_rows_spec in Eu as (-> & -> & Hsome).
    split_and!; [done..| |done].
    match goal with E : _ = w_db w' |- _ => rewrite <- E end. f_equal. apply map_ext_in. intros r Hr%list_elem_of_In.
    destruct (p r) eqn:Ep; [|done]. destruct (Hsome r Hr Ep) as [r' Er]. rewrite Er. simpl. eauto.
  - right. assert (existsb p (rows (w_db w)) = true) as Hx.
    { destruct (existsb _ _) eqn:E; [done|]. by rewrite (update_rows_none _ _ _ E) in Eu. }
    assert (¬ ∀ r, r ∈ rows (w_db w) → p r = true → fits r = true) as Hfit.
    { intros Hall. destruct (update_rows_some p f (rows (w_db w))) as [[l m] E]; [|congruence].
      intros r Hr Hp. apply f_fits; auto. }
    destruct Hcase as [(db & k & Hs & _)|[(e & Hs & He)|([Hp _] & Hn)]]; [done| |done].
    by simplify_eq/=.
Qed.

(** The row count check of [UpdateProvider] and [Finish]. *)
Lemma changed_one_law : updates (bind (update rows set p f) changed_one) rows set p g fits.
Proof.
  split; intros w; unfold bind, view, SQLRepository_view;
    destruct (update_cases w) as (n & err & w' & -> & Hlog & Hcase); unfold changed_one, bind.
  - destruct (failed err); [done|]. answer ([m e] & -> & _). simpl. by destruct (is_nil e && _).
  - intros Hu. destruct Hcase as [(-> & -> & Hdb & _)|[Hne _]].
    + simpl. answer ([m e] & -> & Hr). destruct Hr as [[= -> ->]|[[Hp _] _]]; simpl in *.
      * destruct (_ != 1) eqn:E; simpl; [done|]. intros _. bools.
        exists (map (λ r, if p r then g r else r) (rows (w_db w))). split; [|done].
        apply one_updated_map. lia.
      * destruct e; simpl; [done|..]; done.
    + rewrite (proj2 (failed_not_nil err) Hne). done.
  - intros Hff Hx. destruct Hcase as [(-> & -> & Hdb & _)|[_ Hp]].
    + simpl. answer ([m e] & -> & Hr). destruct Hr as [[= -> ->]|[_ Hp]]; [|done].
      by rewrite (select_rows_nil _ _ Hx).
    + by destruct (Hp Hff) as [E _]; rewrite E in Hx.
  - intros Hff Hu Hx Hfit. destruct Hcase as [(-> & -> & Hdb & _)|[_ Hp]].
    + simpl. answer ([m e] & -> & Hr). destruct Hr as [[= -> ->]|[_ Hp]]; [|done].
      simpl. rewrite (select_one_count _ _ (rows_unique _ Hu) Hx). done.
    + by destruct (Hp Hff) as [_ E].
Qed.

(** The one of [UpdateTemplate], which only asks for some row. *)
Lemma changed_some_law :
  updates (let! (n, err) := update rows set p f in
    when! failed err return! err;
    let! (n, err) := RowsAffected n in
    when! is_nil err && (n =? 0) return! ErrSentinel ErrStaleVersion;
    ret err) rows set p g fits.
Proof.
  split; intros w; unfold bind, view, SQLRepository_view;
    destruct (update_cases w) as (n & err & w' & -> & Hlog & Hcase).
  - destruct (failed err); [done|]. answer ([m e] & -> & _). simpl. by destruct (is_nil e && _).
  - intros Hu. destruct Hcase as [(-> & -> & Hdb & _)|[Hne _]].
    + simpl. answer ([m e] & -> & Hr). destruct Hr as [[= -> ->]|[[Hp _] _]]; simpl in *.
      * destruct (_ =? 0) eqn:E; simpl; [done|]. intros _. apply Z.eqb_neq in E.
        exists (map (λ r, if p r then g r else r) (rows (w_db w))). split; [|done].
        apply one_updated_map. pose proof (rows_unique _ Hu). lia.
      * destruct e; simpl; [done|..]; done.
    + rewrite (proj2 (failed_not_nil err) Hne). done.
  - intros Hff Hx. destruct Hcase as [(-> & -> & Hdb & _)|[_ Hp]].
    + simpl. answer ([m e] & -> & Hr). destruct Hr as [[= -> ->]|[_ Hp]]; [|done].
      by rewrite (select_rows_nil _ _ Hx).
    + by destruct (Hp Hff) as [E _]; rewrite E in Hx.
  - intros Hff Hu Hx Hfit. destruct Hcase as [(-> & -> & Hdb & _)|[_ Hp]].
    + simpl. answer ([m e] & -> & Hr). destruct Hr as [[= -> ->]|[_ Hp]]; [|done].
      simpl. rewrite (select_one_count _ _ (rows_unique _ Hu) Hx). done.
    + by destruct (Hp Hff) as [_ E].
Qed.
End Updates.

Lemma incr_spec bits z z' : incr bits z = Some z' → z' = z + 1 ∧ in_int bits (z + 1).
Proof.
  unfold incr, can_incr, in_int. destruct (_ && _) eqn:E; [|done]. bools.
  destruct E as [?%Z.leb_le ?%Z.ltb_lt]. intros [= <-]. lia.
Qed.

(** ** Claiming *)

Lemma claimed_clash now a b :
  delivery_clash (claimed_delivery now a) b = delivery_clash a b ∧
  delivery_clash b (claimed_delivery now a) = delivery_clash b a.
Proof. done. Qed.

Definition claim_map (now : Z) (claimed rows : list Delivery.t) : list Delivery.t :=
  map (λ r, if bool_decide (r ∈ claimed) then claimed_delivery now r else r) rows.

Lemma claim_map_free now claimed rows :
  pairwise_free delivery_clash rows → pairwise_free delivery_clash (claim_map now claimed rows).
Proof.
  rewrite !pairwise_free_sorted. intros Hs. eapply StronglySorted_fmap; [|done].
  intros a b. unfold apart. by repeat case_bool_decide.
Qed.

(** Claiming a row and then others is claiming them all. *)
Lemma claim_map_cons now v claimed rows :
  pairwise_free delivery_clash rows → v ∈ rows → v ∉ claimed →
  (∀ r, r ∈ claimed → r ∈ rows) →
  claim_map now claimed (claim_map now [v] rows) = claim_map now (v :: claimed) rows.
Proof.
  intros Hf Hv Hn Hc. unfold claim_map. rewrite map_map. apply map_ext_in.
  intros r Hr%list_elem_of_In. destruct (decide (r = v)) as [->|Hne].
  - rewrite (bool_decide_eq_true_2 (v ∈ [v])) by (by left).
    rewrite (bool_decide_eq_true_2 (v ∈ v :: claimed)) by left.
    rewrite bool_decide_eq_false_2; [done|]. intros Hin.
    pose proof (pairwise_free_eq _ _ _ _ Hf (Hc _ Hin) Hv) as E.
    rewrite (proj1 (claimed_clash now v v)), delivery_clash_refl in E.
    specialize (E eq_refl). apply (f_equal Delivery.Version) in E.
    change (v.(Delivery.Version) + 1 = v.(Delivery.Version)) in E. lia.
  - rewrite (bool_decide_eq_false_2 (r ∈ [v])) by (by intros ?%list_elem_of_singleton).
    rewrite (bool_decide_ext (r ∈ v :: claimed) (r ∈ claimed)); [done|].
    rewrite elem_of_cons. tauto.
Qed.

(** The version of a selected row singles it out. *)
Lemma versioned_only rows v r :
  pairwise_free delivery_clash rows → v ∈ rows → r ∈ rows →
  versioned_delivery v.(Delivery.ID) v.(Delivery.Version) r = bool_decide (r ∈ [v]).
Proof.
  intros Hf Hv Hr. destruct (versioned_delivery _ _ r) eqn:E; symmetry.
  - apply bool_decide_eq_true. apply list_elem_of_singleton.
    apply (pairwise_free_eq _ _ _ _ Hf Hr Hv).
    unfold versioned_delivery in E. bools. unfold delivery_clash. apply orb_true_iff.
    left. apply sql_eq_sym, E.
  - apply bool_decide_eq_false. intros ->%list_elem_of_singleton.
    unfold versioned_delivery in E. by rewrite sql_eq_refl, Z.eqb_refl in E.
Qed.

Lemma versioned_self v : versioned_delivery v.(Delivery.ID) v.(Delivery.Version) v = true.
Proof. unfold versioned_delivery. by rewrite sql_eq_refl, Z.eqb_refl. Qed.

Lemma claim_map_one now rows v :
  pairwise_free delivery_clash rows → v ∈ rows →
  map (λ r, if versioned_delivery v.(Delivery.ID) v.(Delivery.Version) r
            then claimed_delivery now r else r) rows = claim_map now [v] rows.
Proof.
  intros Hf Hv. apply map_ext_in. intros r Hr%list_elem_of_In.
  by rewrite (versioned_only rows v r).
Qed.

Lemma claim_map_nil now rows : claim_map now [] rows = rows.
Proof.
  unfold claim_map. rewrite <- (map_id rows) at 2. apply map_ext. intros r.
  by rewrite bool_decide_eq_false_2 by apply not_elem_of_nil.
Qed.

(** A row that is not claimed stays. *)
Lemma claim_map_kept now claimed rows r :
  r ∈ rows → r ∉ claimed → r ∈ claim_map now claimed rows.
Proof.
  intros Hr Hn. unfold claim_map. apply list_elem_of_fmap. exists r.
  by rewrite bool_decide_eq_false_2.
Qed.

Lemma claim_row_some now r r' : claim_row now r = Some r' → r' = claimed_delivery now r.
Proof.
  unfold claim_row. destruct (incr 32 _); [|done]. simpl. destruct (incr 64 _); [|done].
  by intros [= <-].
Qed.

Lemma claim_row_fits now r : claim_fits r = true → is_Some (claim_row now r).
Proof.
  unfold claim_fits, claim_row, incr. intros [-> ->]%andb_true_iff. by eexists.
Qed.

Lemma claimed_tables_unique now claimed t :
  unique_tables t → unique_tables (set_deliveries (claim_map now claimed (tbl_deliveries t)) t).
Proof. intros []. split; [done|done|by apply claim_map_free|done]. Qed.

Lemma claim_each_silent now values : silent (claim_each now values).
Proof.
  induction values as [|v values IH]; intros w; [done|]. cbn [claim_each]. unfold bind, update.
  answer ([n err] & w1 & -> & Hlog & _). destruct (failed err); [done|].
  answer ([m e] & -> & _). destruct (failed e || _); [done|].
  specialize (IH (next w1)). destruct (claim_each now values (next w1)) as [[rest e2] w2].
  cbn in IH. destruct (failed e2); cbn; by rewrite IH.
Qed.

Lemma claim_copy_handed now v : is_Some (claim_row now v) → claim_copy now v = handed_out now v.
Proof.
  unfold claim_row. intros [v' E].
  destruct (incr 32 _) eqn:E1; [|done]. simpl in E. destruct (incr 64 _) eqn:E2; [|done].
  apply incr_spec in E1 as [-> H32], E2 as [-> H64].
  unfold claim_copy. by rewrite (wrap32_id _ H32), (wrap64_id _ H64).
Qed.

Lemma claim_each_spec now values :
  ∀ w vs w', unique_tables (w_db w) → NoDup values →
    (∀ r, r ∈ values → r ∈ tbl_deliveries (w_db w)) →
    claim_each now values w = ((vs, nil_err), w') →
    vs = map (handed_out now) values ∧
    w_db w' = set_deliveries (claim_map now values (tbl_deliveries (w_db w))) (w_db w).
Proof.
  induction values as [|v values IH]; intros w vs w' Hu Hnd Hin; cbn [claim_each].
  { intros [= <- <-]. split; [done|]. rewrite claim_map_nil. by destruct (w_db w). }
  apply NoDup_cons in Hnd as [Hv Hnd].
  assert (v ∈ tbl_deliveries (w_db w)) as Hvt by (apply Hin; left).
  pose proof (unique_deliveries _ Hu) as Hf. unfold bind.
  destruct (update_cases tbl_deliveries set_deliveries
    (versioned_delivery v.(Delivery.ID) v.(Delivery.Version)) (claim_row now)
    (claimed_delivery now) claim_fits (claim_row_some now) (claim_row_fits now) w) as (n & err & w1 & -> & Hlog & Hcase).
  destruct (failed err) eqn:Ef1; [intros [= <- ->]; done|]. apply failed_nil in Ef1 as ->.
  destruct Hcase as [(_ & -> & Hdb & Hsome)|[Hne _]]; [|done].
  answer ([m e] & -> & _). destruct (failed e || _) eqn:Ee; [done|].
  rewrite (claim_map_one now _ v Hf Hvt) in Hdb.
  destruct (claim_each now values (next w1)) as [[rest e2] w2] eqn:E2.
  destruct (failed e2) eqn:Ef; [intros [= <- ->]; done|]. apply failed_nil in Ef as ->.
  intros [= <- <-].
  apply IH in E2 as [-> Hdb2]; [| |done|].
  - rewrite claim_copy_handed by (apply (Hsome v Hvt), versioned_self). split; [done|].
    rewrite Hdb2. cbn [next w_db]. rewrite Hdb. cbn [tbl_deliveries set_deliveries].
    rewrite <- (claim_map_cons now v values); [done..|]. intros r Hr. apply Hin. by right.
  - cbn [next w_db]. rewrite Hdb. by apply claimed_tables_unique.
  - intros r Hr. cbn [next w_db]. rewrite Hdb. apply claim_map_kept.
    + apply Hin. by right.
    + by intros ->%list_elem_of_singleton.
Qed.

Lemma claim_each_progress now values :
  fault_free → ∀ w, unique_tables (w_db w) → NoDup values →
    (∀ r, r ∈ values → r ∈ tbl_deliveries (w_db w) ∧ claim_fits r = true) →
    (claim_each now values w).1.2 = nil_err.
Proof.
  intros Hff. induction values as [|v values IH]; intros w Hu Hnd Hin; [done|].
  cbn [claim_each]. apply NoDup_cons in Hnd as [Hv Hnd].
  destruct (Hin v) as [Hvt Hfit]; [left|].
  pose proof (unique_deliveries _ Hu) as Hf. unfold bind.
  destruct (update_cases tbl_deliveries set_deliveries
    (versioned_delivery v.(Delivery.ID) v.(Delivery.Version)) (claim_row now)
    (claimed_delivery now) claim_fits (claim_row_some now) (claim_row_fits now) w)
    as (n & err & w1 & -> & Hlog & Hcase).
  destruct Hcase as [(-> & -> & Hdb & Hsome)|[_ Hp]].
  2: { exfalso. destruct (Hp Hff) as [_ Hn]. apply Hn. intros r Hr Hvr.
       rewrite (versioned_only _ v r Hf Hvt Hr) in Hvr.
       apply bool_decide_eq_true, list_elem_of_singleton in Hvr as ->. done. }
  cbn [failed is_nil negb]. answer ([m e] & -> & Hr).
  destruct Hr as [[= -> ->]|[_ Hr]]; [|done]. cbn [failed is_nil negb orb].
  rewrite (select_one_count _ _).
  2: { eapply select_unique; [exact Hf|intros a b; apply same_id_clash]. }
  2: { apply existsb_exists. exists v. split; [by apply list_elem_of_In|apply versioned_self]. }
  rewrite (claim_map_one now _ v Hf Hvt) in Hdb.
  change (Z.of_nat 1 != 1) with false. cbn -[claim_copy claim_each next].
  specialize (IH (next w1)). destruct (claim_each now values (next w1)) as [[rest e2] w2].
  cbn in IH. assert (e2 = nil_err) as ->; [|done]. apply IH; [|done|].
  - rewrite Hdb. by apply claimed_tables_unique.
  - intros r Hr. destruct (Hin r) as [Hrt Hrf]; [by right|]. split; [|done].
    rewrite Hdb. apply claim_map_kept; [done|]. by intros ->%list_elem_of_singleton.
Qed.

Lemma time_le_total (time : Delivery.t → Z) a b :
  let le a b := (time a <? time b) || ((time a =? time b)
                 && sql_id_le a.(Delivery.ID) b.(Delivery.ID)) in
  le a b = true ∨ le b a = true.
Proof.
  cbn. rewrite !orb_true_iff, !andb_true_iff, !Z.ltb_lt, !Z.eqb_eq.
  destruct (Z.lt_trichotomy (time a) (time b)) as [?|[?|?]]; [auto| |auto].
  destruct (sql_id_le_total a.(Delivery.ID) b.(Delivery.ID)); auto.
Qed.
Lemma time_le_trans (time : Delivery.t → Z) a b c :
  let le a b := (time a <? time b) || ((time a =? time b)
                 && sql_id_le a.(Delivery.ID) b.(Delivery.ID)) in
  le a b = true → le b c = true → le a c = true.
Proof.
  cbn. rewrite !orb_true_iff, !andb_true_iff, !Z.ltb_lt, !Z.eqb_eq.
  intros [?|[? Hab]] [?|[? Hbc]]; try lia. right. split; [lia|]. eauto using sql_id_le_trans.
Qed.

Lemma page_sorted le p limit offset (rows vs : list Delivery.t) :
  (∀ a b, le a b = true ∨ le b a = true) →
  (∀ a b c, le a b = true → le b c = true → le a c = true) →
  select_page le p limit offset rows = (vs, nil_err) →
  StronglySorted (λ a b, le a b = true) vs.
Proof.
  intros Htot Htr (_ & _ & ->)%select_page_spec.
  pose proof (sort_rows_sorted le (select_rows p rows) Htot Htr) as Hs.
  rewrite <- (take_drop (Z.to_nat offset)) in Hs. apply StronglySorted_app_1_r in Hs.
  rewrite <- (take_drop (Z.to_nat limit)) in Hs. by apply StronglySorted_app_1_l in Hs.
Qed.

Lemma page_nodup le p limit offset (rows vs : list Delivery.t) :
  NoDup rows → select_page le p limit offset rows = (vs, nil_err) → NoDup vs.
Proof.
  intros Hnd (_ & _ & ->)%select_page_spec.
  assert (NoDup (sort_rows le (select_rows p rows))) as Hs.
  { rewrite sort_rows_perm. by apply NoDup_filter. }
  rewrite <- (take_drop (Z.to_nat offset)) in Hs. apply NoDup_app in Hs as (_ & _ & Hs).
  rewrite <- (take_drop (Z.to_nat limit)) in Hs. by apply NoDup_app in Hs as (Hs & _).
Qed.

(** A page that is not full from the start has every row of the query. *)
Lemma page_all le p limit (rows vs : list Delivery.t) r :
  select_page le p limit 0 rows = (vs, nil_err) → Z.of_nat (length vs) < limit →
  r ∈ rows → p r = true → r ∈ vs.
Proof.
  intros (Hl & _ & ->)%select_page_spec. rewrite length_take, drop_0. intros Hlen Hr Hp.
  rewrite take_ge by lia. rewrite sort_rows_perm. by apply elem_of_select.
Qed.

Lemma deliveries_nodup t : unique_tables t → NoDup (tbl_deliveries t).
Proof.
  intros Hu. eapply pairwise_free_nodup; [apply delivery_clash_refl|apply unique_deliveries, Hu].
Qed.

Lemma ClaimDue_law now limit w vs w' :
  unique_tables (w_db w) → ClaimDue now limit w = ((vs, nil_err), w') →
  ∃ rows, claim_spec now limit (w_db w) rows vs (w_db w').
Proof.
  intros Hu. unfold ClaimDue, bind, tick. cbn -[query claim_each].
  answer ([rows err] & -> & Hr). destruct (failed err) eqn:Ef; [intros [= <- ->]; done|].
  apply failed_nil in Ef as ->. destruct Hr as [Hr|(_ & [Hn _] & _)]; [|done].
  symmetry in Hr. cbn [w_db] in Hr.
  destruct (select_page_elem _ _ _ _ _ _ Hr) as [Hin Hlen].
  pose proof (page_nodup _ _ _ _ _ _ (deliveries_nodup _ Hu) Hr) as Hnd.
  pose proof (page_sorted _ _ _ _ _ _ (time_le_total Delivery.NextAttemptAt)
    (time_le_trans Delivery.NextAttemptAt) Hr) as Hs.
  intros E. apply claim_each_spec in E as [-> Hdb]; [|done|done|by intros r Hr'; apply Hin].
  exists rows. split; [|done| |done| |done|exact Hdb].
  - intros r Hr'. destruct (Hin r Hr') as [? Hd]. by apply andb_true_iff in Hd as [Hd _].
  - eapply StronglySorted_fmap with (f := id) in Hs; [by rewrite list_fmap_id in Hs|].
    intros a b. cbn. rewrite orb_true_iff, andb_true_iff, Z.ltb_lt, Z.eqb_eq. lia.
  - intros Hl Hlt r Hr' Hd. eapply page_all; [exact Hr|done|done|]. cbn beta. by rewrite Hd, Hl.
Qed.

Lemma ClaimDue_progress now limit w :
  fault_free → unique_tables (w_db w) → 0 ≤ limit →
  (∀ r, r ∈ tbl_deliveries (w_db w) → due now r = true → claim_fits r = true) →
  (ClaimDue now limit w).1.2 = nil_err.
Proof.
  intros Hff Hu Hl Hfit. unfold ClaimDue, bind, tick. cbn -[query claim_each].
  answer ([rows err] & -> & Hr). destruct Hr as [Hr|(_ & _ & Hn)]; [|done].
  unfold select_page in Hr. replace (limit <? 0) with false in Hr by (symmetry; apply Z.ltb_ge; lia).
  destruct (select_page due_le (λ r, due now r && negb (ext_locked (w_tick w) (Delivery.ID r)))
    limit 0 (tbl_deliveries (w_db w))) as [vs err'] eqn:Hs.
  assert (err' = nil_err ∧ (rows, err) = (vs, err')) as [-> [= -> ->]].
  { unfold select_page in Hs. replace (limit <? 0) with false in Hs by (symmetry; apply Z.ltb_ge; lia).
    cbn in Hr, Hs. by simplify_eq. }
  cbn [failed is_nil negb]. apply claim_each_progress; [done|done| |].
  - eapply page_nodup; [by apply deliveries_nodup|exact Hs].
  - intros r Hin. destruct (select_page_elem _ _ _ _ _ _ Hs) as [Hel _].
    destruct (Hel r Hin) as [? Hd]. apply andb_true_iff in Hd as [Hd _]. auto.
Qed.

Lemma ClaimDue_silent now limit : silent (ClaimDue now limit).
Proof.
  intros w. unfold ClaimDue, bind, tick. cbn -[query claim_each].
  answer ([rows err] & -> & _). destruct (failed err); [done|].
  by rewrite claim_each_silent.
Qed.

(** ** Deleting *)

Lemma gone_selected (rows vs : list Delivery.t) before r :
  pairwise_free delivery_clash rows → (∀ v, v ∈ vs → v ∈ rows) → r ∈ rows →
  gone before (map Delivery.ID vs) r = true → r ∈ vs.
Proof.
  intros Hf Hvs Hr Hg. unfold gone in Hg. bools. destruct Hg as [Hg _].
  apply existsb_exists in Hg as (id & Hid & He). apply in_map_iff in Hid as (v & <- & Hv).
  apply list_elem_of_In in Hv. rewrite (pairwise_free_eq _ _ _ _ Hf Hr (Hvs _ Hv)); [done|].
  unfold delivery_clash. rewrite orb_true_iff. left. by apply sql_eq_sym.
Qed.

Lemma selected_gone (vs : list Delivery.t) before v :
  v ∈ vs → expired before v = true → gone before (map Delivery.ID vs) v = true.
Proof.
  intros Hv He. unfold gone. rewrite He, andb_true_r. apply existsb_exists.
  exists v.(Delivery.ID). split; [|apply sql_eq_refl].
  apply in_map. by apply list_elem_of_In.
Qed.

Lemma select_all_false {A} (p : A → bool) rows :
  (∀ r, p r = false) → select_rows p rows = [].
Proof. intros Hp. apply select_rows_nil, existsb_false. auto. Qed.

(** The rows that a deletion by these ids leaves, and how many it takes. *)
Lemma delete_rows_spec before limit t vs :
  unique_tables t →
  select_page expired_le (expired before) limit 0 (tbl_deliveries t) = (vs, nil_err) →
  delete_spec before limit t
    (Z.of_nat (length (select_rows (gone before (map Delivery.ID vs)) (tbl_deliveries t))))
    (set_deliveries
       (select_rows (λ r, negb (gone before (map Delivery.ID vs) r)) (tbl_deliveries t)) t).
Proof.
  intros Hu Hs. destruct (select_page_elem _ _ _ _ _ _ Hs) as [Hin Hlen].
  pose proof (unique_deliveries _ Hu) as Hf.
  pose proof (deliveries_nodup _ Hu) as Hnd.
  split.
  - exists (gone before (map Delivery.ID vs)). split_and!; [|done|].
    + unfold set_deliveries, select_rows. do 3 f_equal. apply list_filter_iff.
      intros r. apply negb_true_iff.
    + intros r _ Hg. unfold gone in Hg. by apply andb_true_iff in Hg as [_ Hg].
  - etrans; [|exact Hlen]. apply Nat2Z.inj_le, submseteq_length, NoDup_submseteq.
    + by apply NoDup_filter.
    + intros r [Hr Hg]%elem_of_select. eapply gone_selected; eauto. intros v Hv. by apply Hin.
  - intros Hlt r Hr. apply elem_of_select in Hr as [Hr Hng%negb_true_iff].
    destruct (expired before r) eqn:He; [|done]. exfalso.
    assert (r ∈ vs) as Hrv.
    { eapply page_all; [exact Hs| |done|done]. eapply Z.le_lt_trans; [|exact Hlt].
      apply Nat2Z.inj_le, submseteq_length, NoDup_submseteq; [by eapply page_nodup|].
      intros v Hv. apply elem_of_select. split; [by apply Hin|].
      apply selected_gone; [done|by apply Hin]. }
    rewrite (selected_gone _ _ _ Hrv He) in Hng. done.
Qed.

Lemma Delete_law before limit w n w' :
  unique_tables (w_db w) →
  DeleteTerminalDeliveriesBefore before limit w = ((n, nil_err), w') →
  delete_spec before limit (w_db w) n (w_db w').
Proof.
  intros Hu. unfold DeleteTerminalDeliveriesBefore, select_expired, delete_expired, bind.
  answer ([ids err] & -> & Hr). destruct (failed err) eqn:Ef; [intros [= <- ->]; done|].
  apply failed_nil in Ef as ->. destruct Hr as [Hr|(_ & [Hn _] & _)]; [|done].
  destruct (select_page expired_le (expired before) limit 0 (tbl_deliveries (w_db w)))
    as [vs err] eqn:Hs. injection Hr as -> <-.
  pose proof (delete_rows_spec _ _ _ _ Hu Hs) as Hspec. cbn [orb].
  case_bool_decide as Hz.
  { intros [= <- <-]. apply nil_length_inv in Hz. rewrite Hz in Hspec.
    rewrite select_all_false in Hspec by done. cbn [next w_db].
    rewrite select_all_true in Hspec by done. by destruct (w_db w). }
  answer ([m e] & w1 & -> & Hlog & Hcase).
  destruct Hcase as [(db & k & Hst & Hr & Hdb)|[(e' & Hst & He)|([Hp _] & _)]];
    [|done|simpl in Hp; rewrite (proj2 (failed_not_nil e) Hp); intros [= <- ->]; done].
  injection Hst as <- <-. injection Hr as -> ->. cbn [failed is_nil negb].
  answer ([k e] & -> & Hr). destruct Hr as [[= -> ->]|[[Hp _] _]]; [|by intros [= <- -> <-]].
  intros [= <- <-]. cbn [next w_db]. by rewrite Hdb.
Qed.

Lemma Delete_safe before limit w :
  ∃ gone : Delivery.t → bool,
    w_db (DeleteTerminalDeliveriesBefore before limit w).2 =
      Repository.set_deliveries (filter (λ r, gone r = false) (tbl_deliveries (w_db w))) (w_db w) ∧
    ∀ r, gone r = true → expired before r = true.
Proof.
  assert (∀ db, db = Repository.set_deliveries
    (filter (λ r, false = false) (tbl_deliveries db)) db) as Hid.
  { intros db. assert (∀ l : list Delivery.t, filter (λ r, false = false) l = l) as ->; [|by destruct db].
    induction l as [|x l IH]; [done|]. by rewrite filter_cons_True, IH by done. }
  unfold DeleteTerminalDeliveriesBefore, select_expired, delete_expired, bind.
  answer ([ids err] & -> & _). destruct (failed err || _); [by exists (λ _, false)|].
  match goal with |- context [exec ?stmt ?w0] =>
    destruct (exec_db stmt w0) as [E|(db & k & Hs & E)]; destruct (exec stmt w0) as [[m e] w1]
  end; cbn in E.
  - exists (λ _, false). split; [|done]. rewrite <- Hid, <- E.
    destruct (failed e); [done|]. by answer ([? ?] & -> & _).
  - exists (gone before ids). split; [|intros r Hg; by apply andb_true_iff in Hg as [_ Hg]].
    assert (w_db w1 = Repository.set_deliveries (filter (λ r, gone before ids r = false)
      (tbl_deliveries (w_db w))) (w_db w)) as E'.
    { rewrite E. injection Hs as <- _. unfold set_deliveries, select_rows. do 3 f_equal.
      apply list_filter_iff. intros r. apply negb_true_iff. }
    rewrite <- E'. destruct (failed e); [done|]. by answer ([? ?] & -> & _).
Qed.

Lemma Delete_silent before limit : silent (DeleteTerminalDeliveriesBefore before limit).
Proof.
  intros w. unfold DeleteTerminalDeliveriesBefore, select_expired, delete_expired, bind.
  answer ([ids err] & -> & _). destruct (failed err || _); [done|].
  answer ([m e] & w1 & -> & Hlog & _). destruct (failed e); [done|].
  by answer ([k e'] & -> & _).
Qed.

(** The SQL repository keeps every promise of the interface. *)
#[export] Instance SQLRepository_laws : RepositoryLaws Tables.
Proof.
  split; intros.
  - exact (get_law Provider.zero tbl_providers _).
  - exact (get_law Template.zero tbl_templates _).
  - exact (get_law Delivery.zero tbl_deliveries _).
  - exact (get_law Delivery.zero tbl_deliveries _).
  - exact (get_law Delivery.zero tbl_deliveries _).
  - exact (list_page_law tbl_providers provider_le _ _ _).
  - exact (list_page_law tbl_templates template_le _ _ _).
  - exact (list_page_law tbl_deliveries delivery_le _ _ _).
  - exact (insert_law tbl_providers set_providers _ _ _).
  - exact (insert_law tbl_templates set_templates _ _ _).
  - exact (insert_law tbl_deliveries set_deliveries _ _ _).
  - exact (insert_law tbl_outbox set_outbox _ _ _).
  - apply changed_one_law.
    + intros t Hu. eapply select_unique; [apply unique_providers, Hu|intros a b; apply same_id_clash_provider].
    + intros r r'. destruct (provider_check v); [|done]. unfold incr.
      destruct (can_incr 64 _); [|done]. by intros [= <-].
    + intros r [-> Hc]%andb_true_iff. unfold incr. rewrite Hc. by eexists.
  - apply changed_some_law.
    + intros t Hu. eapply select_unique; [apply unique_templates, Hu|intros a b; apply same_id_clash_template].
    + intros r r'. unfold incr. destruct (can_incr 64 _); [|done]. by intros [= <-].
    + intros r Hc. unfold incr. rewrite Hc. by eexists.
  - apply changed_one_law.
    + intros t Hu. eapply select_unique; [apply unique_deliveries, Hu|intros a b; apply same_id_clash].
    + intros r r'. unfold incr. destruct (can_incr 64 _); [|done]. by intros [= <-].
    + intros r Hc. unfold incr. rewrite Hc. by eexists.
  - apply ClaimDue_silent.
  - by apply ClaimDue_law.
  - by apply ClaimDue_progress.
  - apply Delete_silent.
  - apply Delete_safe.
  - by apply Delete_law.
Qed.

(** C10 The SQL repository implements the interface.  Every lookup answers with a
    row of the key or with "not found" only when there is none; every page with
    rows that match, no more than asked, and their number; an insertion that
    clashes with nothing succeeds and adds its row alone; an update rewrites
    the one row of the expected version, or reports that it is stale; a claim
    marks and hands out due rows, oldest first, each once; a deletion removes
    expired rows alone, within its limit. *)
Theorem SQLRepository_implements :
  RepositoryLaws Tables (Repository0 := SQLRepository_Repository)
    (RepositoryView0 := SQLRepository_view).
Proof. exact SQLRepository_laws. Qed.
End Laws.
