(* ===== verification/Clock.v ===== *)
(** * The answers of a run come one after the other

    A computation never goes back to an earlier answer of the world around it: the
    count of the answers only grows.  The repository promises this of its calls. *)

From S2P Require Import Prelude AppError Effects Model Database Repository Sql.
Open Scope string_scope.
Open Scope list_scope.
Open Scope Z_scope.
Open Scope go_scope.

Create HintDb clock discriminated.
Definition advances {DB A} (m : IO DB A) : Prop := ∀ w, (w_tick w ≤ w_tick (m w).2)%nat.

Section Advances.
Context {DB : Type}.
Lemma advances_ret {A} (a : A) : advances (DB := DB) (ret a).
Proof. intros w. done. Qed.
Lemma advances_emit e : advances (DB := DB) (emit e).
Proof. intros w. done. Qed.
Lemma advances_tick : advances (DB := DB) tick.
Proof. intros w. cbn. lia. Qed.
Lemma advances_get_db : advances (DB := DB) get_db.
Proof. intros w. done. Qed.
Lemma advances_put_db d : advances (DB := DB) (put_db d).
Proof. intros w. done. Qed.
Lemma advances_bind {A B} (m : IO DB A) (f : A → IO DB B) :
  advances m → (∀ a, advances (f a)) → advances (bind m f).
Proof.
  intros Hm Hf w. unfold bind. specialize (Hm w). destruct (m w) as [a w1]. cbn in Hm.
  specialize (Hf a w1). lia.
Qed.
Lemma advances_if {A} (b : bool) (m1 m2 : IO DB A) :
  advances m1 → advances m2 → advances (if b then m1 else m2).
Proof. by destruct b. Qed.
End Advances.
#[export] Hint Resolve advances_ret advances_emit advances_tick advances_get_db advances_put_db : clock.

(** Walk through a computation: every part of it advances. *)
Ltac clocked :=
  repeat first
    [ solve [auto with clock nocore] | apply advances_if | apply advances_bind; [|intros ?]
    | match goal with
      | |- advances (let '(_, _) := ?x in _) => destruct x
      | |- advances (match ?x with _ => _ end) => destruct x
      end ].

Section Statements.
Context `{Externals} `{LibraryText} {DB : Type}.
Lemma advances_query {A} (zero : A) stmt : advances (DB := DB) (query zero stmt).
Proof. intros w. rewrite query_run. cbn. lia. Qed.
Lemma advances_exec stmt : advances (DB := DB) (exec stmt).
Proof.
  intros w. rewrite exec_run. destruct (ext_driver _), (stmt (w_db w)) as [[db n]|?]; cbn; lia.
Qed.
Lemma advances_RowsAffected n : advances (DB := DB) (RowsAffected n).
Proof. intros w. rewrite RowsAffected_run. cbn. lia. Qed.
Hint Resolve advances_query advances_exec advances_RowsAffected : clock.
Lemma advances_fault : advances (DB := DB) fault.
Proof. unfold fault. clocked. Qed.
Lemma advances_now : advances (DB := DB) now.
Proof. unfold now. clocked. Qed.
Lemma advances_uuid : advances (DB := DB) uuid.
Proof. unfold uuid. clocked. Qed.
Hint Resolve advances_fault : clock.
Lemma advances_WithinVar {A} t (captured : A) (fn : IO DB (A * error)) :
  advances fn → advances (Transactor.WithinVar t captured fn).
Proof. intros Hf. unfold Transactor.WithinVar. clocked. Qed.
End Statements.
#[export] Hint Resolve advances_query advances_exec advances_RowsAffected advances_fault
  advances_now advances_uuid advances_WithinVar : clock.

(** What a repository promises about the clock. *)
Class RepositoryClock `{Externals} (DB : Type) `{!Repository DB} : Prop := {
  clock_ListProviders tenant application keyword channel status limit offset :
    advances (Repository_ListProviders tenant application keyword channel status limit offset);
  clock_GetTemplate tenant application code channel locale :
    advances (Repository_GetTemplate tenant application code channel locale);
  clock_ClaimDue now limit : advances (Repository_ClaimDue now limit);
  clock_Finish v expected : advances (Repository_Finish v expected);
  clock_AddOutbox v : advances (Repository_AddOutbox v);
  clock_Delete before limit :
    advances (Repository_DeleteTerminalDeliveriesBefore before limit) }.
#[export] Hint Resolve clock_ListProviders clock_GetTemplate clock_ClaimDue clock_Finish
  clock_AddOutbox clock_Delete : clock.

#[export] Instance SQLRepository_clock `{Externals} `{Dialect} : RepositoryClock Tables.
Proof.
  split; intros; cbn [Repository_ListProviders Repository_GetTemplate Repository_ClaimDue
    Repository_Finish Repository_AddOutbox Repository_DeleteTerminalDeliveriesBefore
    SQLRepository_Repository].
  - unfold SQLRepository.ListProviders, SQLRepository.list_page. clocked.
  - unfold SQLRepository.GetTemplate, SQLRepository.get. clocked.
  - unfold SQLRepository.ClaimDue. apply advances_bind; [clocked|intros n].
    apply advances_bind; [clocked|intros [values err]]. apply advances_if; [clocked|].
    induction values as [|v values IH]; cbn [SQLRepository.claim_each]; [clocked|].
    unfold SQLRepository.update. clocked.
  - unfold SQLRepository.Finish, SQLRepository.update, SQLRepository.changed_one. clocked.
  - unfold SQLRepository.AddOutbox, SQLRepository.insert. clocked.
  - unfold SQLRepository.DeleteTerminalDeliveriesBefore. clocked.
Qed.
