(* ===== verification/Libraries.v ===== *)
(** * What the notification core takes from libraries

    [net/url], [text/template] and [encoding/json] on string maps, and the
    platform's event envelopes.  Each is a class: the theorems hold for every
    instance, and the witnesses supply concrete ones. *)

From S2P Require Import Prelude Model.
Open Scope string_scope.
Open Scope list_scope.
Open Scope Z_scope.
Open Scope go_scope.

(** [map[string]string], where [None] is the nil map. *)
Abbreviation StringMap := (option (gmap string string)).

Record URL := mkURL {
  URL_Scheme : string; URL_Host : string; URL_User : bool; URL_Path : string;
  URL_Fragment : string }.
Class URLLibrary := {
  url_Parse : string → URL * error;
  (* the text of [base.ResolveReference(reference)] *)
  url_Resolve : string → string → string;
  (* the error of [http.NewRequestWithContext(ctx, method, target, body)] *)
  http_NewRequest : string → string → error }.

(** [template.New(name).Parse(source)], and [Execute] with or without the
    [missingkey=error] option. *)
Class TemplateLibrary := {
  ParsedTemplate : Type;
  template_Parse : string → string → ParsedTemplate * error;
  template_Execute : bool → ParsedTemplate → StringMap → string * error }.

(** [json.Marshal], [json.Unmarshal] into a map that holds the given entries,
    and [Decode] of the [message_id] of a provider's answer. *)
Class JSONLibrary := {
  json_Marshal : StringMap → string * error;
  json_Unmarshal : string → StringMap → StringMap * error;
  json_DecodeMessageID : string → string * error }.

(** The files that a TLS client configuration names: [os.ReadFile],
    [pool.AppendCertsFromPEM] and the error of [tls.LoadX509KeyPair]. *)
Class TLSFiles := {
  os_ReadFile : string → string * error;
  AppendCertsFromPEM : string → bool;
  LoadX509KeyPair : string → string → error }.

(** What Go leaves to the machine: [int64(f)] of a [float64] out of range. *)
Class GoArch := { float_overflow : Z }.

(** ** Event envelopes *)

Record ProtoDelivery := mkProtoDelivery {
  Proto_Id : string; Proto_TenantId : string; Proto_ApplicationId : string;
  Proto_TemplateCode : string; Proto_Channel : string; Proto_Recipient : string;
  Proto_Variables : StringMap; Proto_Status : string; Proto_Provider : string;
  Proto_ProviderMessageId : string; Proto_FailureReason : string; Proto_Attempts : Z;
  Proto_NextAttemptAt : Z; Proto_Version : Z; Proto_CreatedAt : Z; Proto_UpdatedAt : Z;
  Proto_CreatedBy : string; Proto_UpdatedBy : string }.
Inductive ProtoMessage :=
  | NotificationRequestedEvent (d : ProtoDelivery)
  | NotificationStatusChangedEvent (d : ProtoDelivery).
Record Metadata := mkMetadata {
  Metadata_EventID : string; Metadata_EventType : string; Metadata_AggregateID : string;
  Metadata_AggregateType : string; Metadata_TenantID : string;
  Metadata_ApplicationID : string; Metadata_SchemaVersion : Z; Metadata_ActorID : string;
  Metadata_OccurredAt : Z }.
Class EventLibrary := {
  Envelope : Type;
  eventbus_NewEnvelope : Metadata → ProtoMessage → Envelope * error;
  Envelope_EventId : Envelope → string;
  proto_Marshal : Envelope → string * error }.
