(* ===== verification/Service.v ===== *)
(** * internal/notification/service.go

    The service, method by method, over any [Repository].  The transaction of
    [RecordReceipt] is a definition of its own ([write_receipt]): another
    process can run between what the method reads and what it writes. *)

From S2P Require Import Prelude GoStrings AppError Config Reqctx Effects Ratelimit Model.
From S2P Require Import Libraries Database Repository.
Open Scope string_scope.
Open Scope list_scope.
Open Scope Z_scope.
Open Scope go_scope.

(** [appaccess.Verifier] *)
Inductive Verifier := allowAllApplications | RemoteVerifier.

Record NotificationService := mkNotificationService {
  Service_transactor : Transactor;
  Service_limiter : option Limiter;
  Service_config : Notification;
  Service_outboundHTTP : gmap string HTTPUpstream;
  Service_applications : Verifier }.

(** ** The pure checks *)
Definition validChannel (v : string) : bool :=
  (v == "email") || (v == "sms") || (v == "webhook") || (v == "in_app").
Definition validReceiptStatus (value : string) : bool :=
  (value == "delivered") || (value == "bounced") || (value == "failed").
Definition terminalDeliveryStatus (value : string) : bool :=
  (value == "delivered") || (value == "bounced") || (value == "failed")
  || (value == "dead_letter").

Definition translate (err : error) : error :=
  if is_nil err then nil_err
  else if error_is err ErrNotFound then AppErr.NotFound "notification resource not found"
  else if error_is err ErrStaleVersion then AppErr.StaleVersion err
  else AppErr.Internal err.

Definition enforceTenant `{UnicodeTables} (caller : Principal) (requestedTenantID : string)
    : error :=
  if (caller.(Principal_Type) == TypeUser)
     && ((TrimSpace caller.(Principal_TenantID) == "")
         || (caller.(Principal_TenantID) != TrimSpace requestedTenantID))
  then AppErr.Forbidden "tenant access denied" else nil_err.

Definition validProviderPath `{URLLibrary} (value : string) : bool :=
  let '(parsed, err) := url_Parse value in
  is_nil err
  && HasPrefix parsed.(URL_Path) "/" && negb (HasPrefix parsed.(URL_Path) "//")
  && (parsed.(URL_Scheme) == "") && (parsed.(URL_Host) == "")
  && negb parsed.(URL_User) && (parsed.(URL_Fragment) == "").

Fixpoint providerUpstreamAllowed (allowed : list string) (upstream : string) : bool :=
  match allowed with
  | [] => false
  | value :: allowed =>
      if TrimSpace value == upstream then true else providerUpstreamAllowed allowed upstream
  end.

Definition toProtoDelivery `{JSONLibrary} (value : Delivery.t) : ProtoDelivery :=
  let '(variables, _) := json_Unmarshal value.(Delivery.Variables) (Some ∅) in
  {| Proto_Id := value.(Delivery.ID); Proto_TenantId := value.(Delivery.TenantID);
     Proto_ApplicationId := value.(Delivery.ApplicationID);
     Proto_TemplateCode := value.(Delivery.TemplateCode);
     Proto_Channel := value.(Delivery.Channel); Proto_Recipient := value.(Delivery.Recipient);
     Proto_Variables := variables; Proto_Status := value.(Delivery.Status);
     Proto_Provider := value.(Delivery.Provider);
     Proto_ProviderMessageId := value.(Delivery.ProviderMessageID);
     Proto_FailureReason := value.(Delivery.FailureReason);
     Proto_Attempts := value.(Delivery.Attempts);
     Proto_NextAttemptAt := value.(Delivery.NextAttemptAt);
     Proto_Version := value.(Delivery.Version); Proto_CreatedAt := value.(Delivery.CreatedAt);
     Proto_UpdatedAt := value.(Delivery.UpdatedAt); Proto_CreatedBy := value.(Delivery.CreatedBy);
     Proto_UpdatedBy := value.(Delivery.UpdatedBy) |}.

(** The trimming and the checks at the head of [PutProvider] and [PutTemplate]. *)
Section Forms.
Context `{UnicodeTables} `{URLLibrary}.

Definition normal_provider (value : Provider.t) : Provider.t :=
  let status := ToLower (TrimSpace value.(Provider.Status)) in
  { value with
    Provider.TenantID := TrimSpace value.(Provider.TenantID);
    Provider.ApplicationID := TrimSpace value.(Provider.ApplicationID);
    Provider.Code := ToLower (TrimSpace value.(Provider.Code));
    Provider.Channel := ToLower (TrimSpace value.(Provider.Channel));
    Provider.Upstream := TrimSpace value.(Provider.Upstream);
    Provider.Path := TrimSpace value.(Provider.Path);
    Provider.Status := if status == "" then "active" else status }.
Definition valid_provider (value : Provider.t) : bool :=
  negb ((value.(Provider.TenantID) == "") || (value.(Provider.ApplicationID) == "")
        || (value.(Provider.Code) == "") || negb (validChannel value.(Provider.Channel))
        || (value.(Provider.Upstream) == "") || negb (validProviderPath value.(Provider.Path))
        || (value.(Provider.Priority) <? 0)
        || ((value.(Provider.Status) != "active") && (value.(Provider.Status) != "disabled"))).

(** The assignments of [PutProvider]: to a new value, to the current one. *)
Definition new_provider (value : Provider.t) (id : string) (now : Z) (actor : string)
    : Provider.t :=
  { value with
    Provider.ID := id; Provider.Version := 1;
    Provider.CreatedAt := now; Provider.UpdatedAt := now;
    Provider.CreatedBy := actor; Provider.UpdatedBy := actor }.
Definition reroute (current value : Provider.t) (now : Z) (actor : string) : Provider.t :=
  { current with
    Provider.Channel := value.(Provider.Channel);
    Provider.Upstream := value.(Provider.Upstream);
    Provider.Path := value.(Provider.Path);
    Provider.Priority := value.(Provider.Priority);
    Provider.Status := value.(Provider.Status);
    Provider.UpdatedAt := now; Provider.UpdatedBy := actor }.
Definition set_provider_version (version : Z) (current : Provider.t) : Provider.t :=
  { current with Provider.Version := version }.

Definition normal_template (v : Template.t) : Template.t :=
  { v with
    Template.TenantID := TrimSpace v.(Template.TenantID);
    Template.ApplicationID := TrimSpace v.(Template.ApplicationID);
    Template.Code := ToLower (TrimSpace v.(Template.Code));
    Template.Channel := ToLower (TrimSpace v.(Template.Channel));
    Template.Locale := ToLower (TrimSpace v.(Template.Locale)) }.
Definition valid_template (v : Template.t) : bool :=
  negb ((v.(Template.TenantID) == "") || (v.(Template.ApplicationID) == "")
        || (v.(Template.Code) == "") || negb (validChannel v.(Template.Channel))
        || (v.(Template.Locale) == "") || (v.(Template.Content) == "")).
(** The assignments of [PutTemplate]. *)
Definition new_template (v : Template.t) (id : string) (now : Z) (actor : string) : Template.t :=
  { v with
    Template.ID := id; Template.Status := "active"; Template.Version := 1;
    Template.CreatedAt := now; Template.UpdatedAt := now;
    Template.CreatedBy := actor; Template.UpdatedBy := actor }.
Definition rewrite_template (current v : Template.t) (now : Z) (actor : string) : Template.t :=
  { current with
    Template.Subject := v.(Template.Subject); Template.Content := v.(Template.Content);
    Template.Status := v.(Template.Status);
    Template.UpdatedAt := now; Template.UpdatedBy := actor }.
Definition set_template_version (version : Z) (current : Template.t) : Template.t :=
  { current with Template.Version := version }.
End Forms.

(** [page] and [pageSize] as the list methods normalise them. *)
Definition normal_page (page : Z) : Z := if page <=? 0 then 1 else page.
Definition normal_size (pageSize : Z) : Z := if pageSize <=? 0 then 20 else pageSize.
Definition page_offset (page pageSize : Z) : Z := wrap64 (wrap64 (page - 1) * pageSize).

Definition unauthorized : error := AppErr.Unauthorized "authenticated actor is required".

Module Service.
Definition NewRuntimeService (t : Transactor) (limiter : option Limiter) (cfg : Config)
    (applications : option Verifier) : option NotificationService * error :=
  match applications with
  | None => (None, ErrMsg "application verifier is required")
  | Some applications =>
      (Some {| Service_transactor := t; Service_limiter := limiter;
               Service_config := cfg.(Config_Notification);
               Service_outboundHTTP := cfg.(Config_Outbound).(Outbound_HTTP);
               Service_applications := applications |}, nil_err)
  end.
Definition NewService (t : Transactor) (limiter : option Limiter) (cfg : Config)
    : option NotificationService :=
  (NewRuntimeService t limiter cfg (Some allowAllApplications)).1.

Section Methods.
Context `{Externals} `{UnicodeTables} `{LibraryText} `{URLLibrary} `{TemplateLibrary}
  `{JSONLibrary} `{EventLibrary} {DB : Type} `{!Repository DB}.
Implicit Types (s : NotificationService) (ctx : Context).

(** *** Application access, frequency, events *)
Definition Verify (v : Verifier) (tenantID applicationID : string) : IO DB error :=
  match v with
  | allowAllApplications => ret nil_err
  | RemoteVerifier =>
      emit (EvVerify tenantID applicationID) ;;
      let! n := tick in ret (ext_verify n tenantID applicationID)
  end.

Definition verifyApplication s (tenantID applicationID : string) : IO DB error :=
  let tenantID := TrimSpace tenantID in
  let applicationID := TrimSpace applicationID in
  when! (tenantID == "") || (applicationID == "") return!
    AppErr.Invalid "tenant_id and application_id are required" nil_err;
  let! err := Verify s.(Service_applications) tenantID applicationID in
  if failed err then
    if error_is err ErrNotGranted then ret (AppErr.Forbidden "application access denied")
    else ret (AppErr.Unavailable "application access verification unavailable" err)
  else ret nil_err.

Fixpoint run_checks (limiter : Limiter) (checks : list (string * RateLimitRule))
    : IO DB error :=
  match checks with
  | [] => ret nil_err
  | (key, rule) :: checks =>
      let! (result, err) := Limiter.Allow limiter key rule in
      if failed err then
        if Limiter.FailOpen limiter then run_checks limiter checks
        else ret (AppErr.Unavailable "notification frequency limiter unavailable" err)
      else if negb result.(Result_Allowed) then ret AppErr.TooManyRequests
      else run_checks limiter checks
  end.

Definition frequency_checks s (tenant application code channel recipient : string)
    : list (string * RateLimitRule) :=
  [("notification:tenant:" +:+ tenant +:+ ":application:" +:+ application,
    s.(Service_config).(Notification_TenantLimit));
   ("notification:template:" +:+ tenant +:+ ":" +:+ application +:+ ":" +:+ channel
      +:+ ":" +:+ code, s.(Service_config).(Notification_TemplateLimit));
   ("notification:recipient:" +:+ tenant +:+ ":" +:+ application +:+ ":" +:+ channel
      +:+ ":" +:+ recipient, s.(Service_config).(Notification_RecipientLimit))].

Definition checkFrequency s (tenant application code channel recipient : string)
    : IO DB error :=
  match s.(Service_limiter) with
  | None => ret nil_err
  | Some limiter =>
      when! negb (Limiter.Enabled limiter) return! nil_err;
      run_checks limiter (frequency_checks s tenant application code channel recipient)
  end.

Definition event_message (eventType : string) (delivery : Delivery.t) : ProtoMessage :=
  if Contains eventType "StatusChanged"
  then NotificationStatusChangedEvent (toProtoDelivery delivery)
  else NotificationRequestedEvent (toProtoDelivery delivery).
Definition event_metadata (eventID eventType : string) (delivery : Delivery.t) : Metadata := {|
  Metadata_EventID := eventID; Metadata_EventType := eventType;
  Metadata_AggregateID := delivery.(Delivery.ID);
  Metadata_AggregateType := "notification_delivery";
  Metadata_TenantID := delivery.(Delivery.TenantID);
  Metadata_ApplicationID := delivery.(Delivery.ApplicationID);
  Metadata_SchemaVersion := 1; Metadata_ActorID := delivery.(Delivery.UpdatedBy);
  Metadata_OccurredAt := delivery.(Delivery.UpdatedAt) |}.
Definition outbox_event (envelope : Envelope) (subject encoded : string)
    (delivery : Delivery.t) : OutboxEvent.t :=
  OutboxEvent.mk (Envelope_EventId envelope) subject encoded
    delivery.(Delivery.UpdatedAt) delivery.(Delivery.UpdatedAt) delivery.(Delivery.UpdatedAt)
    delivery.(Delivery.UpdatedBy) delivery.(Delivery.UpdatedBy).

Definition addDeliveryEvent (delivery : Delivery.t) (eventType subject : string)
    : IO DB error :=
  let! eventID := uuid in
  let '(envelope, err) := eventbus_NewEnvelope (event_metadata eventID eventType delivery)
    (event_message eventType delivery) in
  when! failed err return! err;
  let '(encoded, err) := proto_Marshal envelope in
  when! failed err return! err;
  Repository_AddOutbox (outbox_event envelope subject encoded delivery).

(** *** Providers *)
Definition PutProvider s ctx (value : Provider.t) (expected : Z)
    : IO DB (Provider.t * error) :=
  let value := normal_provider value in
  when! negb (valid_provider value)
  return! (Provider.zero, AppErr.Invalid "invalid notification provider" nil_err);
  when! negb (bool_decide (is_Some (s.(Service_outboundHTTP) !! value.(Provider.Upstream))))
        || negb (providerUpstreamAllowed s.(Service_config).(Notification_ProviderUpstreams)
                   value.(Provider.Upstream))
  return! (Provider.zero,
           AppErr.Invalid "notification provider upstream is not configured" nil_err);
  match Caller.FromContext ctx with
  | None => ret (Provider.zero, unauthorized)
  | Some caller =>
      let err := enforceTenant caller value.(Provider.TenantID) in
      when! failed err return! (Provider.zero, err);
      let! err := verifyApplication s value.(Provider.TenantID) value.(Provider.ApplicationID) in
      when! failed err return! (Provider.zero, err);
      let! now := now in
      let! (current, err) := Repository_GetProvider value.(Provider.TenantID)
        value.(Provider.ApplicationID) value.(Provider.Code) in
      if error_is err ErrNotFound then
        when! expected != 0 return! (Provider.zero,
          AppErr.Conflict "notification provider version conflict" (ErrSentinel ErrStaleVersion));
        let! id := uuid in
        let value := new_provider value id now caller.(Principal_ID) in
        let! err := Transactor.Within s.(Service_transactor) (Repository_InsertProvider value) in
        ret (value, translate err)
      else
      when! failed err return! (Provider.zero, translate err);
      when! (expected <=? 0) || (expected != current.(Provider.Version)) return! (Provider.zero,
        AppErr.Conflict "notification provider version conflict" (ErrSentinel ErrStaleVersion));
      let current := reroute current value now caller.(Principal_ID) in
      let! err := Transactor.Within s.(Service_transactor)
        (Repository_UpdateProvider current expected) in
      ret (set_provider_version (wrap64 (expected + 1)) current, translate err)
  end.

Definition GetProvider s ctx (tenant application code : string) : IO DB (Provider.t * error) :=
  let tenant := TrimSpace tenant in
  let application := TrimSpace application in
  let code := ToLower (TrimSpace code) in
  when! (tenant == "") || (application == "") || (code == "") return! (Provider.zero,
    AppErr.Invalid "tenant_id, application_id and code are required" nil_err);
  match Caller.FromContext ctx with
  | None => ret (Provider.zero, unauthorized)
  | Some caller =>
      let err := enforceTenant caller tenant in
      when! failed err return! (Provider.zero, err);
      let! err := verifyApplication s tenant application in
      when! failed err return! (Provider.zero, err);
      let! (value, err) := Repository_GetProvider tenant application code in
      when! failed err return! (Provider.zero, translate err);
      when! (value.(Provider.TenantID) != tenant) || (value.(Provider.ApplicationID) != application)
        return! (Provider.zero, AppErr.Forbidden "notification provider access denied");
      ret (value, nil_err)
  end.

Definition NoProviderPage : ProviderPage := mkProviderPage [] 0 0 0.
Definition ListProviders s ctx (tenant application keyword channel status : string)
    (page pageSize : Z) : IO DB (ProviderPage * error) :=
  match Caller.FromContext ctx with
  | None => ret (NoProviderPage, unauthorized)
  | Some caller =>
      let tenant := TrimSpace tenant in
      let application := TrimSpace application in
      let keyword := TrimSpace keyword in
      let channel := ToLower (TrimSpace channel) in
      let status := ToLower (TrimSpace status) in
      let err := enforceTenant caller tenant in
      when! failed err return! (NoProviderPage, err);
      let! err := verifyApplication s tenant application in
      when! failed err return! (NoProviderPage, err);
      when! (channel != "") && negb (validChannel channel) return!
        (NoProviderPage, AppErr.Invalid "invalid notification channel" nil_err);
      when! (status != "") && (status != "active") && (status != "disabled") return!
        (NoProviderPage, AppErr.Invalid "invalid notification provider status" nil_err);
      let page := normal_page page in
      let pageSize := normal_size pageSize in
      when! 100 <? pageSize return!
        (NoProviderPage, AppErr.Invalid "page_size must not exceed 100" nil_err);
      let! (values, total, err) := Repository_ListProviders tenant application keyword channel
        status pageSize (page_offset page pageSize) in
      ret (mkProviderPage values total page pageSize, translate err)
  end.

(** *** Templates *)
Definition PutTemplate s ctx (v : Template.t) (expected : Z) : IO DB (Template.t * error) :=
  let v := normal_template v in
  when! negb (valid_template v)
  return! (Template.zero, AppErr.Invalid "invalid notification template" nil_err);
  let '(_, err) :=
    template_Parse v.(Template.Code) (v.(Template.Subject) +:+ v.(Template.Content)) in
  when! failed err return! (Template.zero, AppErr.Invalid "invalid template syntax" err);
  match Caller.FromContext ctx with
  | None => ret (Template.zero, unauthorized)
  | Some caller =>
      let err := enforceTenant caller v.(Template.TenantID) in
      when! failed err return! (Template.zero, err);
      let! err := verifyApplication s v.(Template.TenantID) v.(Template.ApplicationID) in
      when! failed err return! (Template.zero, err);
      let! now := now in
      let! (current, err) := Repository_GetTemplate v.(Template.TenantID)
        v.(Template.ApplicationID) v.(Template.Code) v.(Template.Channel) v.(Template.Locale) in
      if error_is err ErrNotFound then
        let! id := uuid in
        let v := new_template v id now caller.(Principal_ID) in
        let! err := Transactor.Within s.(Service_transactor) (Repository_InsertTemplate v) in
        ret (v, translate err)
      else
      when! failed err return! (Template.zero, translate err);
      let current := rewrite_template current v now caller.(Principal_ID) in
      let! err := Transactor.Within s.(Service_transactor)
        (Repository_UpdateTemplate current expected) in
      ret (set_template_version (wrap64 (expected + 1)) current, translate err)
  end.

Definition GetTemplate s ctx (tenant application code channel locale : string)
    : IO DB (Template.t * error) :=
  let tenant := TrimSpace tenant in
  let application := TrimSpace application in
  let code := ToLower (TrimSpace code) in
  let channel := ToLower (TrimSpace channel) in
  let locale := ToLower (TrimSpace locale) in
  when! (tenant == "") || (application == "") || (code == "") || negb (validChannel channel)
        || (locale == "")
  return! (Template.zero, AppErr.Invalid "invalid notification template identity" nil_err);
  match Caller.FromContext ctx with
  | None => ret (Template.zero, unauthorized)
  | Some caller =>
      let err := enforceTenant caller tenant in
      when! failed err return! (Template.zero, err);
      let! err := verifyApplication s tenant application in
      when! failed err return! (Template.zero, err);
      let! (value, err) := Repository_GetTemplate tenant application code channel locale in
      when! failed err return! (Template.zero, translate err);
      when! (value.(Template.TenantID) != tenant) || (value.(Template.ApplicationID) != application)
        return! (Template.zero, AppErr.Forbidden "notification template access denied");
      ret (value, nil_err)
  end.

Definition NoTemplatePage : TemplatePage := mkTemplatePage [] 0 0 0.
Definition ListTemplates s ctx (tenant application keyword channel status : string)
    (page pageSize : Z) : IO DB (TemplatePage * error) :=
  match Caller.FromContext ctx with
  | None => ret (NoTemplatePage, unauthorized)
  | Some caller =>
      let tenant := TrimSpace tenant in
      let keyword := TrimSpace keyword in
      let application := TrimSpace application in
      let channel := ToLower (TrimSpace channel) in
      let status := ToLower (TrimSpace status) in
      let err := enforceTenant caller tenant in
      when! failed err return! (NoTemplatePage, err);
      let! err := verifyApplication s tenant application in
      when! failed err return! (NoTemplatePage, err);
      when! (channel != "") && negb (validChannel channel) return!
        (NoTemplatePage, AppErr.Invalid "invalid notification channel" nil_err);
      let page := normal_page page in
      let pageSize := normal_size pageSize in
      when! 100 <? pageSize return!
        (NoTemplatePage, AppErr.Invalid "page_size must not exceed 100" nil_err);
      let! (values, total, err) := Repository_ListTemplates tenant application keyword channel
        status pageSize (page_offset page pageSize) in
      ret (mkTemplatePage values total page pageSize, translate err)
  end.

(** *** Deliveries *)
(** The row that [Send] makes. *)
Definition pending_delivery (id tenant application code channel locale recipient key encoded
    : string) (now : Z) (actor : string) : Delivery.t := {|
  Delivery.ID := id; Delivery.TenantID := tenant; Delivery.ApplicationID := application;
  Delivery.TemplateCode := code; Delivery.Channel := channel; Delivery.Locale := locale;
  Delivery.Recipient := recipient; Delivery.Variables := encoded;
  Delivery.IdempotencyKey := key; Delivery.Status := "pending"; Delivery.Provider := "";
  Delivery.ProviderMessageID := ""; Delivery.FailureReason := "";
  Delivery.Attempts := 0; Delivery.NextAttemptAt := now; Delivery.Version := 1;
  Delivery.CreatedAt := now; Delivery.UpdatedAt := now;
  Delivery.CreatedBy := actor; Delivery.UpdatedBy := actor |}.
(** The transaction of [Send]. *)
Definition insert_requested (v : Delivery.t) : IO DB error :=
  let! err := Repository_InsertDelivery v in
  when! failed err return! err;
  addDeliveryEvent v "platform.notification.v1.NotificationRequested"
    "platform.notification.requested.v1".

Definition Send s ctx (tenant application code channel locale recipient key : string)
    (variables : StringMap) : IO DB (Delivery.t * error) :=
  let tenant := TrimSpace tenant in
  let application := TrimSpace application in
  let code := ToLower (TrimSpace code) in
  let channel := ToLower (TrimSpace channel) in
  let locale := ToLower (TrimSpace locale) in
  let recipient := TrimSpace recipient in
  let key := TrimSpace key in
  when! (tenant == "") || (application == "") || (code == "") || negb (validChannel channel)
        || (locale == "") || (recipient == "") || (key == "")
  return! (Delivery.zero, AppErr.Invalid "invalid notification request" nil_err);
  match Caller.FromContext ctx with
  | None => ret (Delivery.zero, unauthorized)
  | Some caller =>
      let err := enforceTenant caller tenant in
      when! failed err return! (Delivery.zero, err);
      let! err := verifyApplication s tenant application in
      when! failed err return! (Delivery.zero, err);
      let! (existing, err) := Repository_GetDeliveryByKey tenant application key in
      when! is_nil err return! (existing, nil_err);
      when! negb (error_is err ErrNotFound) return! (Delivery.zero, translate err);
      let! err := checkFrequency s tenant application code channel recipient in
      when! failed err return! (Delivery.zero, err);
      let! (tpl, err) := Repository_GetTemplate tenant application code channel locale in
      when! failed err return! (Delivery.zero, translate err);
      when! tpl.(Template.Status) != "active" return!
        (Delivery.zero, AppErr.Conflict "notification template is disabled" nil_err);
      let '(encoded, err) := json_Marshal variables in
      when! failed err return! (Delivery.zero, AppErr.Invalid "invalid variables" err);
      let! now := now in
      let! id := uuid in
      let v := pending_delivery id tenant application code channel locale recipient key
                 encoded now caller.(Principal_ID) in
      let! err := Transactor.Within s.(Service_transactor) (insert_requested v) in
      ret (v, translate err)
  end.

Definition GetDelivery s ctx (id tenant application : string) : IO DB (Delivery.t * error) :=
  match Caller.FromContext ctx with
  | None => ret (Delivery.zero, unauthorized)
  | Some caller =>
      let err := enforceTenant caller tenant in
      when! failed err return! (Delivery.zero, err);
      let! err := verifyApplication s tenant application in
      when! failed err return! (Delivery.zero, err);
      let! (v, err) := Repository_GetDelivery id tenant application in
      ret (v, translate err)
  end.

(** The closure of [RecordReceipt]'s transaction.  It assigns
    [delivery.Version] when [Finish] succeeded. *)
Definition finish_changed (delivery : Delivery.t) (expected : Z)
    : IO DB (Delivery.t * error) :=
  let! err := Repository_Finish delivery expected in
  when! failed err return! (delivery, err);
  let delivery := { delivery with Delivery.Version := wrap64 (expected + 1) } in
  let! err := addDeliveryEvent delivery "platform.notification.v1.NotificationStatusChanged"
    "platform.notification.status.changed.v1" in
  ret (delivery, err).

(** The delivery with the receipt's outcome. *)
Definition received (delivery : Delivery.t) (statusValue reason : string) (now : Z)
    (actor : string) : Delivery.t :=
  { delivery with
    Delivery.Status := statusValue; Delivery.FailureReason := reason;
    Delivery.UpdatedAt := now; Delivery.UpdatedBy := actor }.

(** [write_receipt] is the transaction that follows the decision. *)
Definition write_receipt s (delivery : Delivery.t) : IO DB (Delivery.t * error) :=
  let! (delivery, err) := Transactor.WithinVar s.(Service_transactor) delivery
    (finish_changed delivery delivery.(Delivery.Version)) in
  ret (delivery, translate err).

Definition RecordReceipt s ctx (tenant application provider messageID statusValue reason : string)
    : IO DB (Delivery.t * error) :=
  let tenant := TrimSpace tenant in
  let provider := ToLower (TrimSpace provider) in
  let messageID := TrimSpace messageID in
  let application := TrimSpace application in
  let statusValue := ToLower (TrimSpace statusValue) in
  let reason := TrimSpace reason in
  when! (tenant == "") || (application == "") || (provider == "") || (messageID == "")
        || negb (validReceiptStatus statusValue)
  return! (Delivery.zero, AppErr.Invalid "invalid provider receipt" nil_err);
  match Caller.FromContext ctx with
  | None => ret (Delivery.zero, unauthorized)
  | Some caller =>
      let err := enforceTenant caller tenant in
      when! failed err return! (Delivery.zero, err);
      let! err := verifyApplication s tenant application in
      when! failed err return! (Delivery.zero, err);
      let! (delivery, err) :=
        Repository_GetDeliveryByProviderMessage tenant application provider messageID in
      when! failed err return! (Delivery.zero, translate err);
      when! delivery.(Delivery.Status) == statusValue return! (delivery, nil_err);
      when! terminalDeliveryStatus delivery.(Delivery.Status) return!
        (Delivery.zero, AppErr.Conflict "delivery already has a terminal status" nil_err);
      let! now := now in
      write_receipt s (received delivery statusValue reason now caller.(Principal_ID))
  end.

Definition NoPage : Page := mkPage [] 0 0 0.
Definition ListDeliveries s ctx (tenant application status : string) (page pageSize : Z)
    : IO DB (Page * error) :=
  match Caller.FromContext ctx with
  | None => ret (NoPage, unauthorized)
  | Some caller =>
      let err := enforceTenant caller tenant in
      when! failed err return! (NoPage, err);
      let! err := verifyApplication s tenant application in
      when! failed err return! (NoPage, err);
      let page := normal_page page in
      let pageSize := normal_size pageSize in
      when! 100 <? pageSize return!
        (NoPage, AppErr.Invalid "page_size must not exceed 100" nil_err);
      let! (v, total, err) :=
        Repository_ListDeliveries tenant application status pageSize (page_offset page pageSize) in
      ret (mkPage v total page pageSize, translate err)
  end.
End Methods.
End Service.
