(* ===== verification/ServiceSpec.v ===== *)
(** * What the notification service promises

    Theorems about Service.v, over any repository that keeps the laws of its
    interface: who may call, what each method writes and when. *)

From S2P Require Import Prelude GoStrings AppError Config Reqctx Effects Ratelimit Model.
From S2P Require Import Libraries Database Repository Unique Service.
Open Scope string_scope.
Open Scope list_scope.
Open Scope Z_scope.
Open Scope go_scope.

(** The methods of the service, as requests. *)
Inductive Request :=
  | RPutProvider (v : Provider.t) (expected : Z)
  | RGetProvider (tenant application code : string)
  | RListProviders (tenant application keyword channel status : string) (page size : Z)
  | RPutTemplate (v : Template.t) (expected : Z)
  | RGetTemplate (tenant application code channel locale : string)
  | RListTemplates (tenant application keyword channel status : string) (page size : Z)
  | RSend (tenant application code channel locale recipient key : string)
      (variables : StringMap)
  | RGetDelivery (id tenant application : string)
  | RRecordReceipt (tenant application provider messageID statusValue reason : string)
  | RListDeliveries (tenant application status : string) (page size : Z).

Definition request_scope (r : Request) : string * string :=
  match r with
  | RPutProvider v _ => (v.(Provider.TenantID), v.(Provider.ApplicationID))
  | RPutTemplate v _ => (v.(Template.TenantID), v.(Template.ApplicationID))
  | RGetProvider t a _ | RListProviders t a _ _ _ _ _ | RGetTemplate t a _ _ _
  | RListTemplates t a _ _ _ _ _ | RSend t a _ _ _ _ _ _ | RGetDelivery _ t a
  | RRecordReceipt t a _ _ _ _ | RListDeliveries t a _ _ _ => (t, a)
  end.

Section Requests.
Context `{Externals} `{UnicodeTables} `{LibraryText} `{URLLibrary} `{TemplateLibrary}
  `{JSONLibrary} `{EventLibrary} {DB : Type} `{!Repository DB}.
Implicit Types (s : NotificationService) (ctx : Context) (w : World DB Event).

(** The error a request ends with. *)
Definition run_request s ctx (r : Request) : IO DB error :=
  let only {A} (m : IO DB (A * error)) := let! (_, err) := m in ret err in
  match r with
  | RPutProvider v expected => only (Service.PutProvider s ctx v expected)
  | RGetProvider t a code => only (Service.GetProvider s ctx t a code)
  | RListProviders t a k c st p n => only (Service.ListProviders s ctx t a k c st p n)
  | RPutTemplate v expected => only (Service.PutTemplate s ctx v expected)
  | RGetTemplate t a code c l => only (Service.GetTemplate s ctx t a code c l)
  | RListTemplates t a k c st p n => only (Service.ListTemplates s ctx t a k c st p n)
  | RSend t a code c l rcp key vars => only (Service.Send s ctx t a code c l rcp key vars)
  | RGetDelivery id t a => only (Service.GetDelivery s ctx id t a)
  | RRecordReceipt t a p m st re => only (Service.RecordReceipt s ctx t a p m st re)
  | RListDeliveries t a st p n => only (Service.ListDeliveries s ctx t a st p n)
  end.

(** Who may ask for [tenant]: no user of another tenant, or of none. *)
Definition allowed ctx (tenant : string) : bool :=
  match Caller.FromContext ctx with
  | None => false
  | Some caller =>
      (caller.(Principal_Type) != TypeUser)
      || ((TrimSpace caller.(Principal_TenantID) != "")
          && (caller.(Principal_TenantID) == TrimSpace tenant))
  end.

(** A refusal before anything happened: some error, the world as it was. *)
Definition refused (m : IO DB error) : Prop := ∀ w, ∃ err, failed err = true ∧ m w = (err, w).


Lemma refused_result {A} (m : IO DB (A * error)) :
  (∀ w, ∃ a err, failed err = true ∧ m w = ((a, err), w)) →
  refused (let! (_, err) := m in ret err).
Proof. intros Hm w. destruct (Hm w) as (a & err & Hf & E). exists err. unfold bind. by rewrite E. Qed.

End Requests.

(** Decide the guards of a method in turn, refusing at each. *)
Ltac refuse :=
  intros w; cbv zeta;
  repeat match goal with
  | |- context [(if ?b then ret ?r else _) ?w] =>
      destruct b eqn:?; [by (do 2 eexists; split; [|reflexivity]; done)|]
  | |- context [(let '(_, _) := ?x in _) ?w] => destruct x
  end.

Section Isolation.
Context `{Externals} `{UnicodeTables} `{LibraryText} `{URLLibrary} `{TemplateLibrary}
  `{JSONLibrary} `{EventLibrary} {DB : Type} `{!Repository DB}.

Lemma enforceTenant_trim caller tenant :
  enforceTenant caller (TrimSpace tenant) = enforceTenant caller tenant.
Proof. unfold enforceTenant. by rewrite TrimSpace_idem. Qed.

Lemma enforceTenant_allowed ctx caller tenant :
  Caller.FromContext ctx = Some caller →
  is_nil (enforceTenant caller tenant) = allowed ctx tenant.
Proof.
  intros Hc. unfold allowed, enforceTenant. rewrite Hc. by repeat case_bool_decide.
Qed.

(** C13 Tenant isolation.  A request without a caller, or by a user of another
    tenant than the one it names, is refused before anything else happens: no
    statement runs, the application verifier and the rate limiter are not
    asked, nothing is logged. *)
Theorem request_isolated s ctx r :
  allowed ctx (request_scope r).1 = false → refused (DB := DB) (run_request s ctx r).
Proof.
  intros Ha.
  assert (∀ caller, Caller.FromContext ctx = Some caller →
    failed (enforceTenant caller (request_scope r).1) = true) as Hf
    by (intros caller Hc; unfold failed; by rewrite (enforceTenant_allowed _ _ _ Hc), Ha).
  clear Ha. destruct r; apply refused_result; cbn [request_scope fst] in Hf;
    unfold Service.PutProvider, Service.GetProvider, Service.ListProviders, Service.PutTemplate,
      Service.GetTemplate, Service.ListTemplates, Service.Send, Service.GetDelivery,
      Service.RecordReceipt, Service.ListDeliveries;
    destruct (Caller.FromContext ctx) as [caller|]; refuse;
    try (do 2 eexists; split; [|reflexivity]; done);
    exfalso; specialize (Hf caller eq_refl);
    match goal with
    | Hn : failed (enforceTenant _ _) = false |- _ =>
        first [exact (eq_true_false_abs _ Hf Hn)
              |rewrite <- enforceTenant_trim in Hf; exact (eq_true_false_abs _ Hf Hn)]
    end.
Qed.
End Isolation.

(** ** Errors *)

Lemma translate_failed err : failed (translate err) = failed err.
Proof.
  unfold translate, failed. destruct (is_nil err) eqn:E; [done|].
  by destruct (error_is err ErrNotFound), (error_is err ErrStaleVersion).
Qed.
Lemma translate_nil err : translate err = nil_err ↔ err = nil_err.
Proof. rewrite <- !failed_nil. by rewrite translate_failed. Qed.

(** A method that returned an error did not succeed. *)
Ltac refuted E :=
  exfalso; unfold ret in E; apply (f_equal (λ r, failed r.1.2)) in E;
  cbn [fst snd] in E; rewrite ?translate_failed in E;
  repeat match goal with Hf : failed _ = true |- _ => rewrite Hf in E; clear Hf end; discriminate E.

(** ** What the steps of the methods do *)
Section Steps.
Context `{Externals} `{UnicodeTables} `{LibraryText} `{URLLibrary} `{TemplateLibrary}
  `{JSONLibrary} `{EventLibrary} `{DialectLaws} {DB : Type} `{!Repository DB}
  `{!RepositoryView DB} `{!RepositoryLaws DB}.
Implicit Types (s : NotificationService) (ctx : Context) (w : World DB Event).

Lemma keeps_now : keeps_db (now (DB := DB)).
Proof. done. Qed.
Lemma keeps_uuid : keeps_db (uuid (DB := DB)).
Proof. done. Qed.

Lemma keeps_verifyApplication s t a : keeps_db (Service.verifyApplication (DB := DB) s t a).
Proof.
  unfold Service.verifyApplication, Service.Verify. apply keeps_if; [auto with go|].
  apply keeps_bind; [destruct (Service_applications s); eauto 6 with go|].
  intros err. repeat apply keeps_if; auto with go.
Qed.

(** The verifier is asked at most once, about the trimmed names. *)
Lemma verifyApplication_log s t a w err w' :
  Service.verifyApplication s t a w = (err, w') →
  ∃ l, w_log w' = w_log w ++ l ∧ ∀ e, e ∈ l → e = EvVerify (TrimSpace t) (TrimSpace a).
Proof.
  unfold Service.verifyApplication, Service.Verify. intros E.
  destruct (_ || _) in E; [returned E; exists []; split; [by rewrite app_nil_r|by intros ? ?%not_elem_of_nil]|].
  apply bind_inv in E as (err1 & w1 & E1 & E). destruct (Service_applications s).
  - returned E1. exists []. split; [|by intros ? ?%not_elem_of_nil].
    rewrite app_nil_r. by returned E.
  - exists [EvVerify (TrimSpace t) (TrimSpace a)].
    split; [|by intros e ->%list_elem_of_singleton].
    unfold bind, emit, tick, ret in E1. simplify_eq/=.
    destruct (failed _); [destruct (error_is _ _)|]; by returned E.
Qed.

Lemma keeps_run_checks l checks : keeps_db (Service.run_checks (DB := DB) l checks).
Proof.
  induction checks as [|[key rule] checks IH]; [done|]. cbn [Service.run_checks].
  apply keeps_bind; [apply keeps_Allow|]. intros [result err].
  repeat apply keeps_if; auto with go.
Qed.

Lemma keeps_checkFrequency s t a code channel recipient :
  keeps_db (Service.checkFrequency (DB := DB) s t a code channel recipient).
Proof.
  unfold Service.checkFrequency. destruct (Service_limiter s) as [l|]; [|auto with go].
  apply keeps_if; [auto with go|apply keeps_run_checks].
Qed.

(** An event of a delivery, as the outbox gets it. *)
Definition event_of (d : Delivery.t) (eventType subject : string) (e : OutboxEvent.t) : Prop :=
  ∃ id envelope encoded,
    eventbus_NewEnvelope (Service.event_metadata id eventType d)
      (Service.event_message eventType d) = (envelope, nil_err) ∧
    proto_Marshal envelope = (encoded, nil_err) ∧
    e = Service.outbox_event envelope subject encoded d.

Lemma addDeliveryEvent_ok d eventType subject w w' :
  Service.addDeliveryEvent d eventType subject w = (nil_err, w') →
  ∃ e, event_of d eventType subject e ∧
    existsb (event_clash e) (tbl_outbox (view (w_db w))) = false ∧
    view (w_db w') =
      set_outbox (tbl_outbox (view (w_db w)) ++ [stored_event e]) (view (w_db w)).
Proof.
  unfold Service.addDeliveryEvent. intros E.
  apply bind_inv in E as (id & w1 & E1 & E). apply (keeps_run _ _ _ _ keeps_uuid) in E1.
  destruct (eventbus_NewEnvelope _ _) as [envelope err] eqn:Ee.
  destruct (failed err) eqn:Ef; [by returned E|]. apply failed_nil in Ef as ->.
  destruct (proto_Marshal envelope) as [encoded err] eqn:Em.
  destruct (failed err) eqn:Ef; [by returned E|]. apply failed_nil in Ef as ->.
  eexists. split; [by exists id, envelope, encoded|].
  pose proof (inserts_ok _ _ _ _ _ _ (law_AddOutbox
    (Service.outbox_event envelope subject encoded d)) w1) as Hi.
  rewrite E, E1 in Hi. exact (Hi eq_refl).
Qed.

(** *** Sending *)

(** The one change that [Send] makes: the delivery and the event of the request. *)
(** The head that the methods share: without a caller of the tenant whose application is
    verified nothing is changed; else the method goes on. *)
Lemma guarded_inv {A} s ctx tenant application (z : A) (k : Principal → IO DB (A * error))
    w v err w' :
  match Caller.FromContext ctx with
  | None => ret (z, unauthorized)
  | Some caller =>
      if failed (enforceTenant caller tenant) then ret (z, enforceTenant caller tenant) else
      let! err := Service.verifyApplication s tenant application in
      if failed err then ret (z, err) else k caller
  end w = ((v, err), w') →
  (failed err = true ∧ w_db w' = w_db w) ∨
  ∃ caller w1, Caller.FromContext ctx = Some caller ∧ w_db w1 = w_db w ∧ k caller w1 = ((v, err), w').
Proof.
  destruct (Caller.FromContext ctx) as [caller|]; [|intros E; returned E; by left].
  destruct (failed (enforceTenant _ _)) eqn:Ef; intros E; [returned E; by left|].
  apply bind_inv in E as (err1 & w1 & E1 & E).
  apply (keeps_run _ _ _ _ (keeps_verifyApplication _ _ _)) in E1.
  destruct (failed err1) eqn:Ef1; [returned E; by left|right]. by exists caller, w1.
Qed.

(** A failed call of a method that made its change all the same: the database
    committed the transaction, only the answer to the commit was lost, and the
    error is that loss as [translate] reports it. *)
Definition answer_lost (err : error) (w' : World DB Event) : Prop :=
  ∃ cause, commit_lost cause w' ∧ err = translate cause.

(** What a method leaves that ends with a transaction. *)
Lemma Within_translated t (fn : IO DB error) (w w' : World DB Event) err db (P : Prop) :
  Transactor.Within t fn w = (err, w') → w_db w = db → (done_by fn w (w_db w') → P) →
  if failed (translate err) then w_db w' = db ∨ (P ∧ answer_lost (translate err) w') else P.
Proof.
  intros E Hdb Hp. pose proof (Within_leaves _ _ _ _ _ _ _ E Hdb Hp) as Hl.
  rewrite translate_failed. destruct (failed err); [|done].
  destruct Hl as [?|[? ?]]; [by left|right]. split; [done|by exists err].
Qed.

Definition requested (v : Delivery.t) (t t' : Tables) : Prop :=
  ∃ e, event_of v "platform.notification.v1.NotificationRequested"
         "platform.notification.requested.v1" e ∧
    existsb (delivery_clash v) t.(tbl_deliveries) = false ∧
    existsb (event_clash e) t.(tbl_outbox) = false ∧
    t' = { t with tbl_deliveries := t.(tbl_deliveries) ++ [stored_delivery v];
                  tbl_outbox := t.(tbl_outbox) ++ [stored_event e] }.

Lemma insert_requested_ok v w w' :
  Service.insert_requested v w = (nil_err, w') → requested v (view (w_db w)) (view (w_db w')).
Proof.
  unfold Service.insert_requested. intros E. apply bind_inv in E as (err & w1 & E1 & E).
  destruct (failed err) eqn:Ef; [by returned E|]. apply failed_nil in Ef as ->.
  pose proof (inserts_ok _ _ _ _ _ _ (law_InsertDelivery v) w) as Hi.
  rewrite E1 in Hi. destruct (Hi eq_refl) as [Hc Hv]. cbn in Hv.
  apply addDeliveryEvent_ok in E as (e & He & Hx & Hw). exists e.
  rewrite Hv in Hx. split_and!; [done..|]. rewrite Hw, Hv. by destruct (view (w_db w)).
Qed.

(** A new delivery of [Send], as the request asked for it. *)
Record new_delivery (tenant application code channel locale recipient key : string)
    (variables : StringMap) (actor : string) (v : Delivery.t) : Prop := {
  new_scope : v.(Delivery.TenantID) = TrimSpace tenant ∧
    v.(Delivery.ApplicationID) = TrimSpace application ∧
    v.(Delivery.IdempotencyKey) = TrimSpace key;
  new_content : v.(Delivery.TemplateCode) = ToLower (TrimSpace code) ∧
    v.(Delivery.Channel) = ToLower (TrimSpace channel) ∧
    v.(Delivery.Locale) = ToLower (TrimSpace locale) ∧
    v.(Delivery.Recipient) = TrimSpace recipient ∧
    json_Marshal variables = (v.(Delivery.Variables), nil_err);
  new_state : v.(Delivery.Status) = "pending" ∧ v.(Delivery.Version) = 1 ∧
    v.(Delivery.Attempts) = 0 ∧ v.(Delivery.ProviderMessageID) = "";
  new_due : v.(Delivery.NextAttemptAt) = v.(Delivery.CreatedAt) ∧
    v.(Delivery.UpdatedAt) = v.(Delivery.CreatedAt);
  new_actor : v.(Delivery.CreatedBy) = actor ∧ v.(Delivery.UpdatedBy) = actor;
  new_id : ∃ n, v.(Delivery.ID) = ext_uuid n }.

(** The change of a [Send] with a free key: what it adds, for whom, and the
    active template it found. *)
Definition send_adds ctx (tenant application code channel locale recipient key : string)
    (variables : StringMap) (v : Delivery.t) (t t' : Tables) : Prop :=
  requested v t t' ∧
  existsb (delivery_key (TrimSpace tenant) (TrimSpace application) (TrimSpace key))
    t.(tbl_deliveries) = false ∧
  (∃ caller, Caller.FromContext ctx = Some caller ∧ new_delivery tenant application code
     channel locale recipient key variables caller.(Principal_ID) v) ∧
  ∃ tpl, tpl ∈ t.(tbl_templates) ∧ tpl.(Template.Status) = "active" ∧
    template_key (TrimSpace tenant) (TrimSpace application) (ToLower (TrimSpace code))
      (ToLower (TrimSpace channel)) (ToLower (TrimSpace locale)) tpl = true.

Lemma Send_spec s ctx tenant application code channel locale recipient key variables
    w v err w' :
  Service.Send s ctx tenant application code channel locale recipient key variables w
    = ((v, err), w') →
  let t := view (w_db w) in let t' := view (w_db w') in
  let same_key := delivery_key (TrimSpace tenant) (TrimSpace application) (TrimSpace key) in
  let added :=
    send_adds ctx tenant application code channel locale recipient key variables v t t' in
  if failed err then w_db w' = w_db w ∨ (added ∧ answer_lost err w')
  else (t' = t ∧ v ∈ t.(tbl_deliveries) ∧ same_key v = true) ∨ added.
Proof.
  intros E t t' same_key added. unfold Service.Send in E. cbv zeta in E.
  destruct (_ || _) in E; [returned E; by left|].
  apply guarded_inv in E as [[Hf Hw]|(caller & w1 & Ec & E1 & E)]; [by apply outcome_failed; [|left]|].
  apply bind_inv in E as ([existing err2] & w2 & E2 & E).
  apply (looks_up_run _ _ _ _ _ _ _ (law_GetDeliveryByKey _ _ _)) in E2 as (Hw2 & Hfound & Hmiss).
  rewrite E1 in Hw2, Hfound, Hmiss.
  destruct (is_nil err2) eqn:En.
  { returned E. left. destruct err2; try done. unfold t'. rewrite Hw2. split; [done|by apply Hfound]. }
  destruct (error_is err2 ErrNotFound) eqn:Enf; cbn [negb] in E.
  2: { returned E. apply outcome_failed; [by rewrite translate_failed; unfold failed; rewrite En|by left]. }
  apply bind_inv in E as (err3 & w3 & E3 & E).
  apply (keeps_run _ _ _ _ (keeps_checkFrequency _ _ _ _ _ _)) in E3. rewrite Hw2 in E3.
  destruct (failed err3) eqn:Ef3; [returned E; by apply outcome_failed; [|left]|].
  apply bind_inv in E as ([tpl err4] & w4 & E4 & E).
  apply (looks_up_run _ _ _ _ _ _ _ (law_GetTemplate _ _ _ _ _)) in E4 as (Hw4 & Htpl & _).
  rewrite E3 in Hw4, Htpl.
  destruct (failed err4) eqn:Ef4.
  { returned E. apply outcome_failed; [by rewrite translate_failed|by left]. }
  apply failed_nil in Ef4 as ->. destruct (Htpl eq_refl) as [Htin Htkey].
  destruct (Template.Status tpl != "active") eqn:Est; [returned E; by left|].
  destruct (json_Marshal variables) as [encoded err5] eqn:Ej.
  destruct (failed err5) eqn:Ef5; [returned E; by left|]. apply failed_nil in Ef5 as ->.
  apply bind_inv in E as (time & w6 & E6 & E). apply (keeps_run _ _ _ _ keeps_now) in E6.
  apply bind_inv in E as (id & w7 & E7 & E).
  pose proof (keeps_run _ _ _ _ keeps_uuid E7) as Hw7. rewrite E6, Hw4 in Hw7.
  apply bind_inv in E as (err8 & w8 & E8 & E).
  unfold ret in E. injection E as Ev <- <-. rewrite Ev in E8.
  assert (if failed (translate err8) then w_db w8 = w_db w ∨ (added ∧ answer_lost (translate err8) w8)
    else added) as Hout; [|destruct (failed (translate err8)); auto].
  apply (Within_translated _ _ _ _ _ _ _ E8 Hw7).
  intros (wa & wb & Eb & Ha & _ & Hb). apply insert_requested_ok in Eb.
  rewrite Ha, Hw7, Hb in Eb. split; [done|]. split; [by apply existsb_false, Hmiss|].
  split; [|exists tpl; split_and!; [done|by apply negb_false_iff, bool_decide_eq_true in Est|done]].
  exists caller. split; [done|]. apply (f_equal fst) in E7. cbn in E7. subst id v. split; try done.
  by exists (w_tick w6).
Qed.

(** C4 What [Send] does.  It succeeds by returning the delivery that already has
    the idempotency key, changing nothing, or, when there is none and the
    template is active, by adding the new pending delivery together with its
    outbox event.  A failed call changes nothing, except in one case, where it
    has made that same whole change: the database committed the transaction, the
    answer to the commit was lost, nothing happened after it, and the error is
    that loss. *)
Theorem Send_outcome s ctx tenant application code channel locale recipient key variables
    w v err w' :
  Service.Send s ctx tenant application code channel locale recipient key variables w
    = ((v, err), w') →
  let t := view (w_db w) in let t' := view (w_db w') in
  let same_key := delivery_key (TrimSpace tenant) (TrimSpace application) (TrimSpace key) in
  let added :=
    send_adds ctx tenant application code channel locale recipient key variables v t t' in
  if failed err then w_db w' = w_db w ∨ (added ∧ answer_lost err w')
  else (t' = t ∧ v ∈ t.(tbl_deliveries) ∧ same_key v = true) ∨ added.
Proof. apply Send_spec. Qed.

(** C12 [Send] is idempotent.  Once a delivery has the idempotency key, a call
    with that key changes no table and takes nothing from the rate limits,
    whatever its other arguments; when it succeeds it returns a delivery that
    has the key. *)
Theorem Send_idempotent s ctx tenant application code channel locale recipient key variables
    w v err w' :
  let same_key := delivery_key (TrimSpace tenant) (TrimSpace application) (TrimSpace key) in
  existsb same_key (tbl_deliveries (view (w_db w))) = true →
  Service.Send s ctx tenant application code channel locale recipient key variables w
    = ((v, err), w') →
  w_db w' = w_db w ∧
  (∃ l, w_log w' = w_log w ++ l ∧ ∀ k rule, EvLimit k rule ∉ l) ∧
  (err = nil_err → v ∈ tbl_deliveries (view (w_db w)) ∧ same_key v = true).
Proof.
  intros same_key Hkey E. unfold Service.Send in E. cbv zeta in E.
  assert (failed err = true → w' = w →
    w_db w' = w_db w ∧ (∃ l, w_log w' = w_log w ++ l ∧ ∀ k rule, EvLimit k rule ∉ l) ∧
    (err = nil_err → v ∈ tbl_deliveries (view (w_db w)) ∧ same_key v = true)) as Hstop.
  { intros He ->. split_and!; [done| |by intros ->].
    exists []. split; [by rewrite app_nil_r|by intros ? ? ?%not_elem_of_nil]. }
  destruct (_ || _) in E; [returned E; by apply Hstop|].
  destruct (Caller.FromContext ctx) as [caller|]; [|returned E; by apply Hstop].
  destruct (failed (enforceTenant _ _)) eqn:Ef in E; [returned E; by apply Hstop|].
  clear Hstop. apply bind_inv in E as (err1 & w1 & E1 & E).
  destruct (verifyApplication_log _ _ _ _ _ _ E1) as (l & Hl & Hev).
  apply (keeps_run _ _ _ _ (keeps_verifyApplication _ _ _)) in E1.
  assert (∀ k rule, EvLimit k rule ∉ l) as Hlim by (intros k rule Hin; by apply Hev in Hin).
  destruct (failed err1) eqn:Ef1; [returned E; split_and!; [done|by exists l|by intros ->]|].
  apply bind_inv in E as ([existing err2] & w2 & E2 & E).
  pose proof (law_GetDeliveryByKey (TrimSpace tenant) (TrimSpace application) (TrimSpace key)) as Hk.
  destruct (looks_up_reads _ _ _ Hk w1) as [Hdb2 Hlog2]. rewrite E2 in Hdb2, Hlog2. cbn in *.
  assert (∃ l, w_log w2 = w_log w ++ l ∧ ∀ k rule, EvLimit k rule ∉ l) as Hlog
    by (exists l; by rewrite Hlog2).
  destruct (is_nil err2) eqn:En.
  { returned E. split_and!; [congruence|done|]. intros _. destruct err2; try done.
    rewrite <- E1. apply (looks_up_found _ _ _ Hk w1). by rewrite E2. }
  destruct (error_is err2 ErrNotFound) eqn:Enf.
  { exfalso. apply existsb_exists in Hkey as (r & Hr%list_elem_of_In & Hk').
    rewrite (looks_up_missing _ _ _ Hk w1 existing err2) in Hk'; rewrite ?E2, ?E1; done. }
  returned E. split_and!; [congruence|done|].
  intros ->%translate_nil. done.
Qed.

(** *** Receipts *)

(** A delivery settled in a transaction: the row of that version rewritten with
    the outcome, and the event of the change. *)
Definition settled (d : Delivery.t) (t t' : Tables) : Prop :=
  ∃ rows' e,
    one_updated (versioned_delivery d.(Delivery.ID) d.(Delivery.Version))
      (finished_delivery d) t.(tbl_deliveries) rows' ∧
    event_of { d with Delivery.Version := wrap64 (d.(Delivery.Version) + 1) }
      "platform.notification.v1.NotificationStatusChanged"
      "platform.notification.status.changed.v1" e ∧
    existsb (event_clash e) t.(tbl_outbox) = false ∧
    t' = { t with tbl_deliveries := rows'; tbl_outbox := t.(tbl_outbox) ++ [stored_event e] }.

Lemma finish_changed_ok d w v w' :
  unique_tables (view (w_db w)) →
  Service.finish_changed d d.(Delivery.Version) w = ((v, nil_err), w') →
  settled d (view (w_db w)) (view (w_db w')).
Proof.
  unfold Service.finish_changed. intros Hu E. apply bind_inv in E as (err & w1 & E1 & E).
  destruct (failed err) eqn:Ef; [by returned E|]. apply failed_nil in Ef as ->.
  destruct (updates_ok _ _ _ _ _ _ (law_Finish d d.(Delivery.Version)) w Hu) as (rows' & Hrows & Hv);
    [by rewrite E1|]. rewrite E1 in Hv. cbn in Hv.
  apply bind_inv in E as (err2 & w2 & E2 & E). returned E.
  apply addDeliveryEvent_ok in E2 as (e & He & Hx & Hw). rewrite Hv in Hx.
  exists rows', e. split_and!; [done..|].
  rewrite Hw, Hv. by destruct (view (w_db w)).
Qed.

Lemma RecordReceipt_spec s ctx tenant application provider messageID statusValue reason
    w v err w' :
  unique_tables (view (w_db w)) →
  Service.RecordReceipt s ctx tenant application provider messageID statusValue reason w
    = ((v, err), w') →
  let t := view (w_db w) in let t' := view (w_db w') in
  let found d := d ∈ t.(tbl_deliveries) ∧
    message_key (TrimSpace tenant) (TrimSpace application) (ToLower (TrimSpace provider))
      (TrimSpace messageID) d = true in
  let status := ToLower (TrimSpace statusValue) in
  let changed := ∃ d now caller, found d ∧ terminalDeliveryStatus d.(Delivery.Status) = false ∧
    validReceiptStatus status = true ∧ TrimSpace messageID ≠ "" ∧ Caller.FromContext ctx = Some caller ∧
    settled (Service.received d status (TrimSpace reason) now caller.(Principal_ID)) t t' in
  if failed err then w_db w' = w_db w ∨ (changed ∧ answer_lost err w')
  else (t' = t ∧ found v ∧ v.(Delivery.Status) = status) ∨ changed.
Proof.
  intros Hu E t t' found status changed. unfold Service.RecordReceipt in E. cbv zeta in E.
  fold status in E.
  destruct (_ || _) eqn:Eform in E; [returned E; by left|].
  apply orb_false_iff in Eform as [Hform Hvalid%negb_false_iff].
  apply orb_false_iff in Hform as [_ Hmsg%bool_decide_eq_false].
  apply guarded_inv in E as [[Hf Hw]|(caller & w1 & Ec & E1 & E)]; [by apply outcome_failed; [|left]|].
  apply bind_inv in E as ([d err2] & w2 & E2 & E).
  apply (looks_up_run _ _ _ _ _ _ _ (law_GetDeliveryByProviderMessage _ _ _ _)) in E2 as (Hw2 & Hd & _).
  rewrite E1 in Hw2, Hd. destruct (failed err2) eqn:Ef2.
  { returned E. apply outcome_failed; [by rewrite translate_failed|by left]. }
  apply failed_nil in Ef2 as ->. specialize (Hd eq_refl). change (found d) in Hd.
  destruct (_ == status) eqn:Es.
  { returned E. left. apply bool_decide_eq_true in Es. unfold t'. by rewrite Hw2. }
  destruct (terminalDeliveryStatus _) eqn:Eterm; [returned E; by left|].
  apply bind_inv in E as (time & w3 & E3 & E).
  apply (keeps_run _ _ _ _ keeps_now) in E3 as Hw3. rewrite Hw2 in Hw3.
  unfold Service.write_receipt in E. apply bind_inv in E as ([v' err4] & w4 & E4 & E).
  returned E.
  assert (∀ v', committed (Service.finish_changed
    (Service.received d status (TrimSpace reason) time caller.(Principal_ID))
    d.(Delivery.Version)) w3 v' (w_db w') → changed) as Hch.
  { intros x (wa & wb & Eb & Ha & _ & Hb).
    exists d, time, caller. split_and!; [by apply Hd..| | | | |]; [done..|].
    unfold t, t'. rewrite <- Hb, <- Hw3, <- Ha. eapply finish_changed_ok; [|exact Eb].
    by rewrite Ha, Hw3. }
  rewrite translate_failed. destruct (failed err4) eqn:Ef4.
  - destruct (WithinVar_failed _ _ _ _ _ _ _ E4 Ef4) as [?|[Hc Hlost]]; [left; congruence|].
    right. split; [by eapply Hch|by exists err4].
  - apply failed_nil in Ef4 as ->. right. eapply Hch, WithinVar_ok, E4.
Qed.

(** The two changes keep the unique indexes. *)
Lemma requested_unique v t t' : requested v t t' → unique_tables t → unique_tables t'.
Proof.
  intros (e & _ & Hc & Hx & ->) []. split; [done..| |].
  - by apply (pairwise_free_insert _ _ v); [apply delivery_clash_sym|..].
  - by apply (pairwise_free_insert _ _ e); [apply event_clash_sym|..].
Qed.
Lemma settled_unique d t t' : settled d t t' → unique_tables t → unique_tables t'.
Proof.
  intros (rows' & e & Hr & _ & Hx & ->) [Hp Ht Hd Ho]. split; [done..| |].
  - by apply (λ H, pairwise_free_update _ _ _ _ _ H Hr Hd).
  - by apply (pairwise_free_insert _ _ e); [apply event_clash_sym|..].
Qed.

(** C16 What [RecordReceipt] does.  It succeeds by returning the delivery that
    already has the reported status, changing nothing, or by settling the
    delivery that the provider's message names: its status was not terminal,
    its row of that version gets the reported outcome, and the event of the
    change enters the outbox in the same transaction.  A failed call changes
    nothing, or has made that whole change and reports that the answer to its
    commit was lost. *)
Theorem RecordReceipt_outcome s ctx tenant application provider messageID statusValue reason
    w v err w' :
  unique_tables (view (w_db w)) →
  Service.RecordReceipt s ctx tenant application provider messageID statusValue reason w
    = ((v, err), w') →
  let t := view (w_db w) in let t' := view (w_db w') in
  let found d := d ∈ t.(tbl_deliveries) ∧
    message_key (TrimSpace tenant) (TrimSpace application) (ToLower (TrimSpace provider))
      (TrimSpace messageID) d = true in
  let status := ToLower (TrimSpace statusValue) in
  let changed := ∃ d now caller, found d ∧ terminalDeliveryStatus d.(Delivery.Status) = false ∧
    validReceiptStatus status = true ∧ TrimSpace messageID ≠ "" ∧ Caller.FromContext ctx = Some caller ∧
    settled (Service.received d status (TrimSpace reason) now caller.(Principal_ID)) t t' in
  if failed err then w_db w' = w_db w ∨ (changed ∧ answer_lost err w')
  else (t' = t ∧ found v ∧ v.(Delivery.Status) = status) ∨ changed.
Proof. apply RecordReceipt_spec. Qed.

(** A terminal status is final for receipts: whatever a receipt says and
    however its call ends, a delivery that was delivered, bounced, failed or
    dead-lettered stays exactly as it was. *)
Theorem terminal_status_final s ctx tenant application provider messageID statusValue reason
    w res w' r :
  unique_tables (view (w_db w)) →
  Service.RecordReceipt s ctx tenant application provider messageID statusValue reason w
    = (res, w') →
  r ∈ tbl_deliveries (view (w_db w)) → terminalDeliveryStatus r.(Delivery.Status) = true →
  r ∈ tbl_deliveries (view (w_db w')).
Proof.
  destruct res as [v err]. intros Hu E Hr Hterm. apply RecordReceipt_spec in E; [|done].
  assert (∀ d now caller status reason', d ∈ tbl_deliveries (view (w_db w)) →
    terminalDeliveryStatus d.(Delivery.Status) = false →
    settled (Service.received d status reason' now caller) (view (w_db w)) (view (w_db w')) →
    r ∈ tbl_deliveries (view (w_db w'))) as Hset.
  { intros d now caller status reason' Hd Hn (rows' & e & Hrows & _ & _ & ->). cbn.
    eapply one_updated_kept; [exact Hrows|done|]. apply not_true_iff_false. intros Hv.
    rewrite (pairwise_free_eq _ _ _ _ (unique_deliveries _ Hu) Hd Hr) in Hn; [congruence|].
    by eapply versioned_clash. }
  apply outcome_change in E.
  destruct (failed err); destruct E as [E|(d & now & caller & [Hd _] & Hn & _ & _ & _ & Hs)].
  - by rewrite E.
  - exact (Hset _ _ _ _ _ Hd Hn Hs).
  - by destruct E as [-> _].
  - exact (Hset _ _ _ _ _ Hd Hn Hs).
Qed.
End Steps.
