(* ===== verification/ServiceAdmin.v ===== *)
(** * Providers, templates, pages and access checks of the service

    The rest of what ServiceSpec.v begins: the two [Put] methods, the lookups,
    the pages, the frequency limits and the application check. *)

From S2P Require Import Prelude GoStrings AppError Config Reqctx Effects Ratelimit Model.
From S2P Require Import Libraries Database Repository Unique Service ServiceSpec.
Open Scope string_scope.
Open Scope list_scope.
Open Scope Z_scope.
Open Scope go_scope.

Section Admin.
Context `{Externals} `{UnicodeTables} `{LibraryText} `{URLLibrary} `{TemplateLibrary}
  `{JSONLibrary} `{EventLibrary} `{DialectLaws} {DB : Type} `{!Repository DB}
  `{!RepositoryView DB} `{!RepositoryLaws DB}.
Implicit Types (s : NotificationService) (ctx : Context) (w : World DB Event).

(** ** Providers *)

(** The routing part of a provider. *)
Definition same_route (a b : Provider.t) : Prop :=
  a.(Provider.Channel) = b.(Provider.Channel) ∧ a.(Provider.Upstream) = b.(Provider.Upstream) ∧
  a.(Provider.Path) = b.(Provider.Path) ∧ a.(Provider.Priority) = b.(Provider.Priority) ∧
  a.(Provider.Status) = b.(Provider.Status).

(** [p] may be stored: well formed, and its upstream configured and allowed. *)
Definition acceptable s (p : Provider.t) : Prop :=
  valid_provider p = true ∧ is_Some (s.(Service_outboundHTTP) !! p.(Provider.Upstream)) ∧
  providerUpstreamAllowed s.(Service_config).(Notification_ProviderUpstreams)
    p.(Provider.Upstream) = true.

Definition provider_created (p v : Provider.t) (expected : Z) (t t' : Tables) : Prop :=
  expected = 0 ∧ v.(Provider.Version) = 1 ∧ same_route v p ∧
  v.(Provider.TenantID) = p.(Provider.TenantID) ∧
  v.(Provider.ApplicationID) = p.(Provider.ApplicationID) ∧
  v.(Provider.Code) = p.(Provider.Code) ∧
  existsb (provider_clash v) t.(tbl_providers) = false ∧
  t' = set_providers (t.(tbl_providers) ++ [stored_provider v]) t.

Definition provider_updated (p v : Provider.t) (expected : Z) (t t' : Tables) : Prop :=
  0 < expected ∧ v.(Provider.Version) = wrap64 (expected + 1) ∧ same_route v p ∧
  (∃ old, old ∈ t.(tbl_providers) ∧ old.(Provider.Version) = expected ∧
     old.(Provider.ID) = v.(Provider.ID) ∧
     provider_key p.(Provider.TenantID) p.(Provider.ApplicationID) p.(Provider.Code) old = true) ∧
  ∃ rows', one_updated (versioned_provider v.(Provider.ID) expected) (updated_provider v)
      t.(tbl_providers) rows' ∧ t' = set_providers rows' t.

Definition provider_changed s (p v : Provider.t) (expected : Z) (t t' : Tables) : Prop :=
  acceptable s p ∧
  (provider_created p v expected t t' ∨ provider_updated p v expected t t').

Lemma PutProvider_spec s ctx value expected w v err w' :
  unique_tables (view (w_db w)) →
  Service.PutProvider s ctx value expected w = ((v, err), w') →
  let t := view (w_db w) in let t' := view (w_db w') in let p := normal_provider value in
  let changed := provider_changed s p v expected t t' in
  if failed err then w_db w' = w_db w ∨ (changed ∧ answer_lost err w') else changed.
Proof.
  intros Hu E t t' p changed. unfold Service.PutProvider in E. cbv zeta in E. fold p in E.
  destruct (negb (valid_provider p)) eqn:Ev; [returned E; by left|].
  destruct (_ || _) eqn:Eup in E; [returned E; by left|].
  apply orb_false_iff in Eup as [Eup1%negb_false_iff%bool_decide_eq_true Eup2%negb_false_iff].
  assert (acceptable s p) as Hacc by (split_and!; [by apply negb_false_iff in Ev|done..]).
  apply guarded_inv in E as [[Hf Hw]|(caller & w1 & _ & E1 & E)]; [by apply outcome_failed; [|left]|].
  apply bind_inv in E as (time & w2 & E2 & E). apply (keeps_run _ _ _ _ keeps_now) in E2.
  apply bind_inv in E as ([current err3] & w3 & E3 & E).
  apply (looks_up_run _ _ _ _ _ _ _ (law_GetProvider _ _ _)) in E3 as (Hw3 & Hold & _).
  rewrite E2, E1 in Hw3, Hold. destruct (error_is err3 ErrNotFound) eqn:Enf.
  - destruct (expected != 0) eqn:Ex; [returned E; by left|].
    apply negb_false_iff, bool_decide_eq_true in Ex as ->.
    apply bind_inv in E as (id & w4 & E4 & E). apply (keeps_run _ _ _ _ keeps_uuid) in E4.
    rewrite Hw3 in E4. apply bind_inv in E as (err5 & w5 & E5 & E). unfold ret in E.
    injection E as Ev' <- <-. rewrite Ev' in E5.
    apply (Within_translated _ _ _ _ _ _ _ E5 E4). intros Hd. split; [done|left].
    apply (done_inserts _ _ _ _ _ _ _ _ (law_InsertProvider v)) in Hd as [Hc Hv].
    rewrite E4 in Hc, Hv. cbn in Hc, Hv. subst v. by split_and!.
  - destruct (failed err3) eqn:Ef3.
    { returned E. apply outcome_failed; [by rewrite translate_failed|by left]. }
    apply failed_nil in Ef3 as ->. destruct (Hold eq_refl) as [Hin Hkey].
    destruct (_ || _) eqn:Ex in E; [returned E; by left|].
    apply orb_false_iff in Ex as [Ex1%Z.leb_gt Ex2%negb_false_iff%bool_decide_eq_true].
    apply bind_inv in E as (err5 & w5 & E5 & E). unfold ret in E. injection E as Ev' <- <-.
    apply (Within_translated _ _ _ _ _ _ _ E5 Hw3). intros Hd. split; [done|right].
    apply (done_updates _ _ _ _ _ _ _ _ (law_UpdateProvider _ _)) in Hd as (rows' & Hr & Hv);
      [|by rewrite Hw3]. rewrite Hw3 in Hr, Hv.
    subst v. split_and!; [done..|by exists current|by exists rows'].
Qed.

(** C31 Optimistic locking of providers.  [PutProvider] stores nothing that is
    not acceptable (known channel, relative path, configured and allowed
    upstream, priority and status in range).  It creates a provider, at version
    1, only for an expected version of 0 and a code that is free; it replaces
    one only when the expected version is positive and is the stored one, and
    moves it to the next.  A failed call changes nothing, unless only the
    commit's answer was lost. *)
Theorem PutProvider_outcome s ctx value expected w v err w' :
  unique_tables (view (w_db w)) →
  Service.PutProvider s ctx value expected w = ((v, err), w') →
  let t := view (w_db w) in let t' := view (w_db w') in let p := normal_provider value in
  let changed := provider_changed s p v expected t t' in
  if failed err then w_db w' = w_db w ∨ (changed ∧ answer_lost err w') else changed.
Proof. apply PutProvider_spec. Qed.

(** ** Templates *)

Definition template_created (p v : Template.t) (t t' : Tables) : Prop :=
  v.(Template.Status) = "active" ∧ v.(Template.Version) = 1 ∧
  v.(Template.Subject) = p.(Template.Subject) ∧ v.(Template.Content) = p.(Template.Content) ∧
  template_key p.(Template.TenantID) p.(Template.ApplicationID) p.(Template.Code)
    p.(Template.Channel) p.(Template.Locale) v = true ∧
  existsb (template_clash v) t.(tbl_templates) = false ∧
  t' = set_templates (t.(tbl_templates) ++ [stored_template v]) t.

Definition template_updated (p v : Template.t) (expected : Z) (t t' : Tables) : Prop :=
  v.(Template.Version) = wrap64 (expected + 1) ∧
  v.(Template.Subject) = p.(Template.Subject) ∧ v.(Template.Content) = p.(Template.Content) ∧
  v.(Template.Status) = p.(Template.Status) ∧
  (∃ old, old ∈ t.(tbl_templates) ∧ old.(Template.ID) = v.(Template.ID) ∧
     template_key p.(Template.TenantID) p.(Template.ApplicationID) p.(Template.Code)
       p.(Template.Channel) p.(Template.Locale) old = true) ∧
  ∃ rows', one_updated (versioned_template v.(Template.ID) expected) (updated_template v)
      t.(tbl_templates) rows' ∧ t' = set_templates rows' t.

Definition template_changed (p v : Template.t) (expected : Z) (t t' : Tables) : Prop :=
  valid_template p = true ∧
  (template_Parse p.(Template.Code) (p.(Template.Subject) +:+ p.(Template.Content))).2 = nil_err ∧
  (template_created p v t t' ∨ template_updated p v expected t t').

Lemma PutTemplate_spec s ctx value expected w v err w' :
  unique_tables (view (w_db w)) →
  Service.PutTemplate s ctx value expected w = ((v, err), w') →
  let t := view (w_db w) in let t' := view (w_db w') in let p := normal_template value in
  let changed := template_changed p v expected t t' in
  if failed err then w_db w' = w_db w ∨ (changed ∧ answer_lost err w') else changed.
Proof.
  intros Hu E t t' p changed. unfold Service.PutTemplate in E. cbv zeta in E. fold p in E.
  destruct (negb (valid_template p)) eqn:Ev; [returned E; by left|].
  apply negb_false_iff in Ev. unfold changed, template_changed. clear changed.
  destruct (template_Parse _ _) as [parsed err0] eqn:Ep.
  destruct (failed err0) eqn:Ef0; [returned E; by left|]. apply failed_nil in Ef0 as ->.
  apply guarded_inv in E as [[Hf Hw]|(caller & w1 & _ & E1 & E)]; [by apply outcome_failed; [|left]|].
  apply bind_inv in E as (time & w2 & E2 & E). apply (keeps_run _ _ _ _ keeps_now) in E2.
  apply bind_inv in E as ([current err3] & w3 & E3 & E).
  apply (looks_up_run _ _ _ _ _ _ _ (law_GetTemplate _ _ _ _ _)) in E3 as (Hw3 & Hold & _).
  rewrite E2, E1 in Hw3, Hold. destruct (error_is err3 ErrNotFound) eqn:Enf.
  - apply bind_inv in E as (id & w4 & E4 & E). apply (keeps_run _ _ _ _ keeps_uuid) in E4.
    rewrite Hw3 in E4. apply bind_inv in E as (err5 & w5 & E5 & E). unfold ret in E.
    injection E as Ev' <- <-. rewrite Ev' in E5.
    apply (Within_translated _ _ _ _ _ _ _ E5 E4). intros Hd. do 2 (split; [done|]). left.
    apply (done_inserts _ _ _ _ _ _ _ _ (law_InsertTemplate v)) in Hd as [Hc Hv].
    rewrite E4 in Hc, Hv. cbn in Hc, Hv. subst v. split_and!; try done.
    unfold template_key. cbn. by rewrite !sql_eq_refl.
  - destruct (failed err3) eqn:Ef3.
    { returned E. apply outcome_failed; [by rewrite translate_failed|by left]. }
    apply failed_nil in Ef3 as ->. destruct (Hold eq_refl) as [Hin Hkey].
    apply bind_inv in E as (err5 & w5 & E5 & E). unfold ret in E. injection E as Ev' <- <-.
    apply (Within_translated _ _ _ _ _ _ _ E5 Hw3). intros Hd.
    do 2 (split; [done|]). right.
    apply (done_updates _ _ _ _ _ _ _ _ (law_UpdateTemplate _ _)) in Hd as (rows' & Hr & Hv);
      [|by rewrite Hw3]. rewrite Hw3 in Hr, Hv.
    subst v. split_and!; [done..|by exists current|by exists rows'].
Qed.

(** C32 Optimistic locking of templates.  [PutTemplate] stores only a template
    that is well formed and that the template library parses.  A free key is
    created, active and at version 1, whatever status and version the call
    names; a taken one is replaced only at the expected version, which moves to
    the next, and takes the status of the call as it is, without the checks
    that providers get (an empty status disables the template).  A failed call
    changes nothing, unless only the commit's answer was lost. *)
Theorem PutTemplate_outcome s ctx value expected w v err w' :
  unique_tables (view (w_db w)) →
  Service.PutTemplate s ctx value expected w = ((v, err), w') →
  let t := view (w_db w) in let t' := view (w_db w') in let p := normal_template value in
  let changed := template_changed p v expected t t' in
  if failed err then w_db w' = w_db w ∨ (changed ∧ answer_lost err w') else changed.
Proof. apply PutTemplate_spec. Qed.

(** ** Lookups *)

(** The lookup of a row and the comparison of its scope, byte for byte. *)
Lemma scoped_lookup {A} (m : IO DB (A * error)) rows p (tenantOf applicationOf : A → string)
    tenant application (z : A) message w v w' :
  looks_up m rows p →
  (let! (value, err) := m in
   when! failed err return! (z, translate err);
   when! (tenantOf value != tenant) || (applicationOf value != application)
   return! (z, AppErr.Forbidden message);
   ret (value, nil_err)) w = ((v, nil_err), w') →
  v ∈ rows (view (w_db w)) ∧ tenantOf v = tenant ∧ applicationOf v = application ∧ w_db w' = w_db w.
Proof.
  intros Hm E. apply bind_inv in E as ([value err] & w1 & E1 & E).
  apply (looks_up_run _ _ _ _ _ _ _ Hm) in E1 as (Hw & Hfound & _).
  destruct (failed err) eqn:Ef; [refuted E|]. apply failed_nil in Ef as ->.
  destruct (_ || _) eqn:Ex in E; [refuted E|]. returned E.
  apply orb_false_iff in Ex as
    [Et%negb_false_iff%bool_decide_eq_true Ea%negb_false_iff%bool_decide_eq_true].
  destruct (Hfound eq_refl) as [Hin _]. by split_and!.
Qed.

(** C35 [GetProvider] and [GetTemplate] only ever return a row whose tenant and
    application are exactly the requested ones, byte for byte, whatever the
    database's collation takes for equal; no lookup changes anything. *)
Theorem lookups_exact_scope s ctx tenant application code channel locale w :
  (∀ v w', Service.GetProvider s ctx tenant application code w = ((v, nil_err), w') →
     v ∈ tbl_providers (view (w_db w)) ∧ v.(Provider.TenantID) = TrimSpace tenant ∧
     v.(Provider.ApplicationID) = TrimSpace application ∧ w_db w' = w_db w) ∧
  (∀ v w', Service.GetTemplate s ctx tenant application code channel locale w
       = ((v, nil_err), w') →
     v ∈ tbl_templates (view (w_db w)) ∧ v.(Template.TenantID) = TrimSpace tenant ∧
     v.(Template.ApplicationID) = TrimSpace application ∧ w_db w' = w_db w).
Proof.
  split; intros v w' E; unfold Service.GetProvider, Service.GetTemplate in E; cbv zeta in E;
    (destruct (_ || _) in E; [refuted E|]);
    apply guarded_inv in E as [[Hf _]|(caller & w1 & _ & <- & E)]; try done.
  - exact (scoped_lookup _ _ _ _ _ _ _ _ _ _ _ _ (law_GetProvider _ _ _) E).
  - exact (scoped_lookup _ _ _ _ _ _ _ _ _ _ _ _ (law_GetTemplate _ _ _ _ _) E).
Qed.

(** ** Pages *)

Lemma wrap64_small z : 0 ≤ z < 2 ^ 63 → wrap64 z = z.
Proof. intros Hz. apply wrap64_id. unfold in_int. simpl. lia. Qed.

(** Without overflow the offset is what paging means. *)
Lemma page_offset_exact page size :
  1 ≤ page → 1 ≤ size → page * size < 2 ^ 63 → page_offset page size = (page - 1) * size.
Proof.
  intros Hp Hs Hb. unfold page_offset. rewrite (wrap64_small (page - 1)) by nia.
  apply wrap64_small. nia.
Qed.

(** Pages.  A successful [ListDeliveries] returns at most the page size it
    reports, which is 20 when none is asked and never above 100, only
    deliveries of the requested tenant, application and status, with the number
    of all of them, and changes nothing. *)
Theorem ListDeliveries_page s ctx tenant application status page size w r w' :
  Service.ListDeliveries s ctx tenant application status page size w = ((r, nil_err), w') →
  let rows := tbl_deliveries (view (w_db w)) in
  let wanted := delivery_where tenant application status in
  Z.of_nat (length r.(Page_Deliveries)) ≤ r.(Page_PageSize) ≤ 100 ∧
  1 ≤ r.(Page_Page) ∧ r.(Page_PageSize) = (if size <=? 0 then 20 else size) ∧
  (∀ v, v ∈ r.(Page_Deliveries) → v ∈ rows ∧ wanted v = true) ∧
  r.(Page_Total) = Z.of_nat (length (filter (λ v, wanted v = true) rows)) ∧
  w_db w' = w_db w.
Proof.
  unfold Service.ListDeliveries. intros E.
  apply guarded_inv in E as [[Hf _]|(caller & w1 & _ & E1 & E)]; [done|].
  destruct (100 <? normal_size size) eqn:Esz; [refuted E|]. apply Z.ltb_ge in Esz.
  apply bind_inv in E as ([[vs total] err2] & w2 & E2 & E).
  unfold ret in E. injection E as <- Et <-. apply translate_nil in Et as ->.
  pose proof (law_ListDeliveries tenant application status (normal_size size)
    (page_offset (normal_page page) (normal_size size))) as Hl.
  destruct (lists_reads _ _ _ _ Hl w1) as [Hdb2 _]. rewrite E2 in Hdb2.
  destruct (lists_page _ _ _ _ Hl w1 vs total) as (Hv & Hlen & Ht); [by rewrite E2|].
  rewrite E1 in *. cbn. split_and!; [done|done| |done|exact Hv|exact Ht|exact Hdb2].
  unfold normal_page. destruct (page <=? 0) eqn:Ep; [lia|]. apply Z.leb_gt in Ep. lia.
Qed.

(** ** The application check *)

Lemma verifyApplication_denied s t a t0 a0 w :
  s.(Service_applications) = RemoteVerifier →
  (∀ n, failed (ext_verify n (TrimSpace t0) (TrimSpace a0)) = true) →
  TrimSpace t = TrimSpace t0 → TrimSpace a = TrimSpace a0 →
  ∃ err w', Service.verifyApplication s t a w = (err, w') ∧ failed err = true ∧
    w_db w' = w_db w.
Proof.
  intros Hs Hd Ht Ha. unfold Service.verifyApplication, Service.Verify. rewrite Hs, Ht, Ha.
  destruct (_ || _); [by do 2 eexists|]. unfold bind, emit, tick, ret. cbn [w_tick].
  rewrite Hd. destruct (error_is _ _); by do 2 eexists.
Qed.

(** Go through the guards of a method up to the application check. *)
Ltac to_check w Hd :=
  cbv zeta;
  repeat match goal with
  | |- context [(if ?b then ret ?r else _) w] =>
      destruct b eqn:?; [by (do 3 eexists; split; [reflexivity|])|]
  | |- context [(let '(_, _) := ?x in _) w] => destruct x
  end;
  match type of Hd with ∀ n, failed (ext_verify n (TrimSpace ?t0) (TrimSpace ?a0)) = true =>
  match goal with
  | |- context [bind (Service.verifyApplication ?s ?t ?a) _ w] =>
      let e := fresh "e" in let w1 := fresh "w" in let E := fresh "E" in let Hf := fresh "Hf" in
      destruct (verifyApplication_denied s t a t0 a0 w) as (e & w1 & E & Hf & Hdb);
      [assumption|exact Hd|first [reflexivity|exact (TrimSpace_idem t0)]
      |first [reflexivity|exact (TrimSpace_idem a0)]|];
      unfold bind at 1; rewrite E, Hf; by do 3 eexists
  end end.

Lemma denied_result {A} (m : IO DB (A * error)) w :
  (∃ a err w', m w = ((a, err), w') ∧ failed err = true ∧ w_db w' = w_db w) →
  ∃ err w', (let! (_, err) := m in ret err) w = (err, w') ∧ failed err = true ∧ w_db w' = w_db w.
Proof. intros (a & err & w' & E & ?). exists err, w'. unfold bind. by rewrite E. Qed.

(** C33 The application gate.  While the application verifier does not grant the
    (tenant, application) pair of a request, no request succeeds and none
    changes the database, whoever asks and for whatever reason the verifier
    refuses. *)
Theorem application_gate s ctx r w :
  s.(Service_applications) = RemoteVerifier →
  (∀ n, failed (ext_verify n (TrimSpace (request_scope r).1) (TrimSpace (request_scope r).2))
        = true) →
  ∃ err w', run_request s ctx r w = (err, w') ∧ failed err = true ∧ w_db w' = w_db w.
Proof.
  intros Hs Hd.
  destruct r; apply denied_result; cbn [request_scope fst snd] in Hd;
    unfold Service.PutProvider, Service.GetProvider, Service.ListProviders, Service.PutTemplate,
      Service.GetTemplate, Service.ListTemplates, Service.Send, Service.GetDelivery,
      Service.RecordReceipt, Service.ListDeliveries;
    (destruct (Caller.FromContext ctx) as [caller|];
     [|cbv zeta; repeat match goal with
       | |- context [(if ?b then ret ?r else _) w] => destruct b
       | |- context [(let '(_, _) := ?x in _) w] => destruct x
       end; by do 3 eexists]).
  all: to_check w Hd.
Qed.

(** ** Frequency limits *)

(** Whether an answer of the limiter lets a request pass. *)
Definition passes (l : Limiter) (answer : LimitReply * error) : bool :=
  if failed answer.2 then Limiter.FailOpen l else 0 <? answer.1.(Limit_Allowed).

(** The limits of [checks] up to the [n]-th, asked in the world [w], all let the
    request pass. *)
Definition passed l (checks : list (string * RateLimitRule)) w (n : nat) : Prop :=
  ∀ i key rule, (i < n)%nat → checks !! i = Some (key, rule) →
    passes l (ext_limit (w_tick w + i) key rule) = true.

(** The first refusal: its place, and the error that it ends with. *)
Definition refused_at l (checks : list (string * RateLimitRule)) w (n : nat) (err : error) : Prop :=
  passed l checks w n ∧
  ∃ key rule, checks !! n = Some (key, rule) ∧
    let answer := ext_limit (w_tick w + n) key rule in
    passes l answer = false ∧
    if failed answer.2 then Limiter.FailOpen l = false ∧ has_code err CodeDependencyUnavailable
    else err = AppErr.TooManyRequests.

Definition asked (checks : list (string * RateLimitRule)) : list Event :=
  map (λ c, EvLimit c.1 c.2) checks.

Lemma passed_cons l key rule checks w w1 n :
  w_tick w1 = S (w_tick w) → passes l (ext_limit (w_tick w) key rule) = true →
  passed l checks w1 n → passed l ((key, rule) :: checks) w (S n).
Proof.
  intros Ht Hp Hall [|i] k r Hi Hlook; cbn in Hlook.
  - injection Hlook as <- <-. by rewrite Nat.add_0_r.
  - rewrite Nat.add_succ_r, <- Nat.add_succ_l, <- Ht. by apply Hall; [lia|].
Qed.

Lemma refused_at_cons l key rule checks w w1 n err :
  w_tick w1 = S (w_tick w) → passes l (ext_limit (w_tick w) key rule) = true →
  refused_at l checks w1 n err → refused_at l ((key, rule) :: checks) w (S n) err.
Proof.
  intros Ht Hp [Hall (k & r & Hlook & Hr)]. split; [by eapply passed_cons|].
  exists k, r. split; [done|]. by rewrite Nat.add_succ_r, <- Nat.add_succ_l, <- Ht.
Qed.

Lemma run_checks_spec l checks w err w' :
  l.(Limiter_enabled) = true → l.(Limiter_backend) = true →
  Service.run_checks l checks w = (err, w') →
  if failed err
  then ∃ n, refused_at l checks w n err ∧ w_log w' = w_log w ++ asked (take (S n) checks)
  else passed l checks w (length checks) ∧ w_log w' = w_log w ++ asked checks.
Proof.
  intros Hen Hb. revert w. induction checks as [|[key rule] checks IH]; intros w E.
  { cbn in E. returned E. rewrite app_nil_r. split; [|done]. intros i k r Hi. cbn in Hi. lia. }
  cbn [Service.run_checks] in E. apply bind_inv in E as ([result err1] & w1 & E1 & E).
  unfold Limiter.Allow in E1. rewrite Hen, Hb in E1. cbn [negb] in E1.
  unfold bind, emit, tick in E1. cbn [w_tick w_db w_log] in E1.
  destruct (ext_limit (w_tick w) key rule) as [reply errl] eqn:El.
  set (w0 := mkWorld (w_db w) (S (w_tick w)) (w_log w ++ [EvLimit key rule])) in *.
  assert (passes l (reply, errl) = true → Service.run_checks l checks w0 = (err, w') →
    if failed err
    then ∃ n, refused_at l ((key, rule) :: checks) w n err ∧
      w_log w' = w_log w ++ asked (take (S n) ((key, rule) :: checks))
    else passed l ((key, rule) :: checks) w (length ((key, rule) :: checks)) ∧
      w_log w' = w_log w ++ asked ((key, rule) :: checks)) as Hgo.
  { intros Hp E0. specialize (IH _ E0). rewrite <- El in Hp. destruct (failed err).
    - destruct IH as (n & Hn & Hlog). exists (S n). split; [by apply (refused_at_cons _ _ _ _ _ w0)|].
      by rewrite Hlog; unfold w0; cbn [w_log]; rewrite <- app_assoc.
    - destruct IH as [Hn Hlog]. split; [by apply (passed_cons _ _ _ _ _ w0)|]. by rewrite Hlog; unfold w0; cbn [w_log]; rewrite <- app_assoc. }
  assert (passes l (reply, errl) = false →
    (if failed errl then Limiter.FailOpen l = false ∧ has_code err CodeDependencyUnavailable
     else err = AppErr.TooManyRequests) → refused_at l ((key, rule) :: checks) w 0 err) as Hstop.
  { intros Hp Herr. split; [intros i ? ? ?; lia|]. exists key, rule. split; [done|].
    cbn zeta. by rewrite Nat.add_0_r, El. }
  destruct (failed errl) eqn:Efl.
  - unfold ret in E1. injection E1 as <- <- <-. cbn [failed is_nil negb] in E.
    destruct (Limiter.FailOpen l) eqn:Efo.
    + apply Hgo; [|exact E]. unfold passes. by cbn; rewrite Efl.
    + unfold ret in E. injection E as <- <-. cbn [failed is_nil negb]. exists 0%nat.
      split; [|done]. apply Hstop; [unfold passes; by cbn; rewrite Efl|eauto with go].
  - unfold ret in E1. injection E1 as <- <- <-. cbn [failed is_nil negb Result_Allowed] in E.
    destruct (0 <? Limit_Allowed reply) eqn:Ea; cbn [negb] in E.
    + apply Hgo; [|exact E]. unfold passes. by cbn; rewrite Efl.
    + unfold ret in E. injection E as <- <-. exists 0%nat.
      split; [|done]. apply Hstop; [unfold passes; by cbn; rewrite Efl|done].
Qed.

(** C34 Frequency limits.  An enabled limiter is asked for the tenant, the
    template and the recipient, in that order, until one refuses.  A request
    passes exactly when each of the three was asked once and let it pass, an
    unavailable limiter doing so only when it is set to fail open.  A request that
    fails was let pass by the limits before the first that refused it, and that
    one is the last that was asked: nothing is taken from the limits after it.
    The error is "too many requests" when the limiter answered and "unavailable"
    when it did not and fails closed. *)
Theorem frequency_gate s l tenant application code channel recipient w err w' :
  s.(Service_limiter) = Some l → l.(Limiter_enabled) = true → l.(Limiter_backend) = true →
  Service.checkFrequency s tenant application code channel recipient w = (err, w') →
  let checks := Service.frequency_checks s tenant application code channel recipient in
  if failed err
  then ∃ n, refused_at l checks w n err ∧ w_log w' = w_log w ++ asked (take (S n) checks)
  else passed l checks w 3 ∧ w_log w' = w_log w ++ asked checks.
Proof.
  intros Hs Hen Hb E. unfold Service.checkFrequency, Limiter.Enabled in E.
  rewrite Hs, Hen in E. exact (run_checks_spec _ _ _ _ _ Hen Hb E).
Qed.
End Admin.
