(* ===== verification/Outbound.v ===== *)
(** * internal/outbound: the HTTP client with retries and the registry

    [ext_http] answers the requests; the circuit breaker of the library decides
    by itself whether it admits a call ([ext_breaker]) and hands back what the
    call returned. *)

From S2P Require Import Prelude GoStrings AppError Config Reqctx Effects Libraries.
Open Scope string_scope.
Open Scope list_scope.
Open Scope Z_scope.
Open Scope go_scope.

Abbreviation Header := (gmap string string).

Record HTTPClient := mkHTTPClient {
  HTTPClient_name : string; HTTPClient_baseURL : string; HTTPClient_cfg : HTTPUpstream;
  HTTPClient_breaker : bool;
  HTTPClient_metrics : option bool  (* whether the metrics exist, and are enabled *) }.

(** ** The transport *)
Record Transport := mkTransport {
  Transport_ServerName : string; Transport_RootCAs : option string;
  Transport_Certificate : option (string * string);
  Transport_ResponseHeaderTimeout : Z }.

Definition httpTransport `{TLSFiles} (cfg : ClientTLS) (timeout : Z)
    : option Transport * error :=
  let '(roots, err) :=
    if cfg.(ClientTLS_CAFile) == "" then (None, nil_err) else
    let '(pem, err) := os_ReadFile cfg.(ClientTLS_CAFile) in
    if failed err then (None, ErrWrap "read outbound HTTP CA" err) else
    if negb (AppendCertsFromPEM pem) then (None, ErrMsg "parse outbound HTTP CA") else
    (Some pem, nil_err) in
  if failed err then (None, err) else
  let '(certificate, err) :=
    if cfg.(ClientTLS_CertFile) == "" then (None, nil_err) else
    let err := LoadX509KeyPair cfg.(ClientTLS_CertFile) cfg.(ClientTLS_KeyFile) in
    if failed err then (None, ErrWrap "load outbound HTTP client certificate" err) else
    (Some (cfg.(ClientTLS_CertFile), cfg.(ClientTLS_KeyFile)), nil_err) in
  if failed err then (None, err) else
  (Some {| Transport_ServerName := cfg.(ClientTLS_ServerName); Transport_RootCAs := roots;
           Transport_Certificate := certificate;
           Transport_ResponseHeaderTimeout := timeout |}, nil_err).

Definition NewHTTPClient `{TLSFiles} `{URLLibrary} `{GoFmt} (name : string)
    (cfg : HTTPUpstream) (metrics : option bool) : option HTTPClient * error :=
  if (cfg.(HTTPUpstream_Auth).(ClientAuth_Type) != "")
     && negb cfg.(HTTPUpstream_TLS).(ClientTLS_Enabled)
  then (None, ErrMsg "refusing to send outbound HTTP credentials without TLS") else
  let '(baseURL, err) := url_Parse cfg.(HTTPUpstream_BaseURL) in
  if failed err || (baseURL.(URL_Scheme) == "") || (baseURL.(URL_Host) == "")
  then (None, ErrMsg ("parse outbound HTTP base URL " +:+ quote cfg.(HTTPUpstream_BaseURL))) else
  let '(_, err) := httpTransport cfg.(HTTPUpstream_TLS) cfg.(HTTPUpstream_Timeout) in
  if failed err then (None, err) else
  (Some {| HTTPClient_name := name; HTTPClient_baseURL := cfg.(HTTPUpstream_BaseURL);
           HTTPClient_cfg := cfg;
           HTTPClient_breaker := cfg.(HTTPUpstream_Breaker).(Breaker_Enabled);
           HTTPClient_metrics := metrics |}, nil_err).

(** ** Requests *)
Definition retryableMethod (ctx : Context) (method : string) : bool :=
  if (method == "GET") || (method == "HEAD") || (method == "OPTIONS") || (method == "PUT")
     || (method == "DELETE") then true
  else (Idempotency.FromContext ctx).2.
Definition retryableHTTPStatus (status : Z) : bool :=
  (status =? 429) || (status =? 502) || (status =? 503) || (status =? 504).

Definition applyHTTPAuth (header : Header) (auth : ClientAuth) : Header :=
  if auth.(ClientAuth_Type) == "bearer"
  then <["Authorization" := "Bearer " +:+ auth.(ClientAuth_Token)]> header
  else if auth.(ClientAuth_Type) == "psk"
  then <["Authorization" := "PSK " +:+ auth.(ClientAuth_Token)]> header
  else header.

(** The header of an attempt: the caller's, the default content type, the
    credential. *)
Definition request_header (headers : option Header) (body : string) (auth : ClientAuth)
    : Header :=
  let header := default ∅ headers in
  let header := if (0 <? len body) && (default "" (header !! "Content-Type") == "")
                then <["Content-Type" := "application/json"]> header else header in
  applyHTTPAuth header auth.

(** [float64(z)]: 53 significant bits, ties to even. *)
Definition round53 (z : Z) : Z :=
  let e := Z.max 0 (Z.log2 (Z.abs z) - 52) in
  let q := Z.abs z / 2 ^ e in
  let r := Z.abs z mod 2 ^ e in
  let half := 2 ^ e / 2 in
  let q := if (e =? 0) || (r <? half) || ((r =? half) && Z.even q) then q else q + 1 in
  Z.sgn z * (q * 2 ^ e).
(** [time.Duration(float64(initial) * math.Pow(2, float64(attempt-1)))] *)
Definition backoff_delay `{GoArch} (initial : Z) (attempt : Z) : Z :=
  let f := round53 initial * 2 ^ (attempt - 1) in
  if (attempt <=? 1024) && (- 2 ^ 63 <=? f) && (f <? 2 ^ 63) then f else float_overflow.

Section Calls.
Context `{Externals} `{URLLibrary} `{GoArch} {DB : Type}.

Definition waitBackoff (retry : Retry) (attempt : Z) : IO DB error :=
  let delay := backoff_delay retry.(Retry_InitialBackoff) attempt in
  let delay := if retry.(Retry_MaxBackoff) <? delay then retry.(Retry_MaxBackoff) else delay in
  wait delay.

(** One exchange with the upstream. *)
Definition client_Do (request : HTTPRequest) : IO DB (HTTPResponse + error) :=
  emit (EvHTTP request) ;;
  let! n := tick in ret (ext_http n request).

(** The loop of [doWithRetry]; [fuel] is the number of attempts left. *)
Fixpoint attempts (cfg : HTTPUpstream) (request : HTTPRequest) (maxAttempts attempt : Z)
    (fuel : nat) : IO DB (option HTTPResponse * error) :=
  match fuel with
  | O => ret (None, ErrMsg "outbound HTTP attempts exhausted")
  | S fuel =>
      let! answer := client_Do request in
      let again :=
        if attempt <? maxAttempts then
          let! err := waitBackoff cfg.(HTTPUpstream_Retry) attempt in
          when! failed err return! (None, err);
          attempts cfg request maxAttempts (attempt + 1) fuel
        else attempts cfg request maxAttempts (attempt + 1) fuel in
      match answer with
      | inl response =>
          when! negb (retryableHTTPStatus response.(Response_StatusCode))
                || (attempt =? maxAttempts)
          return! (Some response, nil_err);
          again
      | inr err =>
          when! attempt =? maxAttempts return!
            (None, ErrWrap "call outbound HTTP service" err);
          again
      end
  end.

Definition doWithRetry (ctx : Context) (c : HTTPClient) (method requestPath body : string)
    (headers : option Header) : IO DB (option HTTPResponse * error) :=
  let '(reference, err) := url_Parse requestPath in
  when! failed err || (reference.(URL_Scheme) != "") || (reference.(URL_Host) != "")
  return! (None, ErrMsg "outbound HTTP path must be relative");
  let target := url_Resolve c.(HTTPClient_baseURL) requestPath in
  let cfg := c.(HTTPClient_cfg) in
  let maxAttempts := if retryableMethod ctx method
                     then cfg.(HTTPUpstream_Retry).(Retry_MaxAttempts) else 1 in
  when! (0 <? maxAttempts) && failed (http_NewRequest method target)
  return! (None, ErrWrap "create outbound HTTP request" (http_NewRequest method target));
  attempts cfg {| Request_Method := method; Request_URL := target;
                  Request_Header := request_header headers body cfg.(HTTPUpstream_Auth);
                  Request_Body := body |} maxAttempts 1 (Z.to_nat maxAttempts).

(** The error of the call that the breaker runs: [*statusError] or another. *)
Inductive CallError := statusError (response : HTTPResponse) | callError (err : error).

Definition call (ctx : Context) (c : HTTPClient) (method requestPath body : string)
    (headers : option Header) : IO DB (option HTTPResponse * option CallError) :=
  let! (response, err) := doWithRetry ctx c method requestPath body headers in
  match response with
  | Some r =>
      when! is_nil err && retryableHTTPStatus r.(Response_StatusCode)
      return! (None, Some (statusError r));
      ret (Some r, if is_nil err then None else Some (callError err))
  | None => ret (None, if is_nil err then None else Some (callError err))
  end.

(** [c.breaker.Execute(call)] *)
Definition breaker_Execute {A} (run : IO DB (option A * option CallError))
    : IO DB (option A * option CallError) :=
  let! n := tick in
  when! failed (ext_breaker n) return! (None, Some (callError (ext_breaker n)));
  run.

Definition execute (ctx : Context) (c : HTTPClient) (method requestPath body : string)
    (headers : option Header) : IO DB (option HTTPResponse * error) :=
  if negb c.(HTTPClient_breaker) then doWithRetry ctx c method requestPath body headers
  else
    let! (response, err) :=
      breaker_Execute (call ctx c method requestPath body headers) in
    match err with
    | Some (statusError r) => ret (Some r, nil_err)
    | Some (callError e) => ret (response, e)
    | None => ret (response, nil_err)
    end.

Definition Do (ctx : Context) (c : HTTPClient) (method requestPath body : string)
    (headers : option Header) : IO DB (option HTTPResponse * error) :=
  let! (response, err) := execute ctx c method requestPath body headers in
  let status := match response with
                | Some r => pretty r.(Response_StatusCode) | None => "error" end in
  (if default false c.(HTTPClient_metrics) then
     emit (EvMetric "outbound_requests_total" ["http"; c.(HTTPClient_name); status]) ;;
     emit (EvMetric "outbound_request_duration_seconds" ["http"; c.(HTTPClient_name)])
   else ret tt) ;;
  ret (response, err).
End Calls.

(** ** registry.go: the HTTP half *)
Record Registry := mkRegistry { Registry_http : gmap string HTTPClient }.

(** The loop over the configured upstreams, in the order Go visits them. *)
Fixpoint add_clients `{TLSFiles} `{URLLibrary} `{GoFmt} (metrics : option bool)
    (upstreams : list (string * HTTPUpstream)) (registry : Registry)
    : option Registry * error :=
  match upstreams with
  | [] => (Some registry, nil_err)
  | (name, upstream) :: upstreams =>
      match NewHTTPClient name upstream metrics with
      | (Some client, nil_err) =>
          add_clients metrics upstreams
            { registry with Registry_http ::= <[name := client]> }
      | (_, err) =>
          (None, ErrWrap ("create outbound HTTP client " +:+ quote name) err)
      end
  end.
Definition NewHTTPRegistry `{TLSFiles} `{URLLibrary} `{GoFmt} `{GoRange} (cfg : Config)
    (metrics : option bool) : option Registry * error :=
  add_clients metrics (range cfg.(Config_Outbound).(Outbound_HTTP)) (mkRegistry ∅).
Definition registry_HTTP (r : Registry) (name : string) : option HTTPClient :=
  r.(Registry_http) !! name.

(** ** Theorems *)

(** A registry comes back exactly when there is no error. *)
Lemma add_clients_error `{TLSFiles} `{URLLibrary} `{GoFmt} metrics upstreams : ∀ registry,
  match add_clients metrics upstreams registry with
  | (Some _, err) => err = nil_err
  | (None, err) => err ≠ nil_err
  end.
Proof.
  induction upstreams as [|[name upstream] upstreams IH]; intros registry; cbn; [done|].
  destruct (NewHTTPClient _ _ _) as [[c|] []]; try done. apply IH.
Qed.

Definition http_event (e : Event) : bool := match e with EvHTTP _ => true | _ => false end.
(** The number of requests in a log. *)
Definition http_count (l : list Event) : Z := Z.of_nat (length (filter (λ e, http_event e = true) l)).

Lemma http_count_nil : http_count [] = 0.
Proof. done. Qed.
Lemma http_count_cons e l : http_count (e :: l) = (if http_event e then 1 else 0) + http_count l.
Proof.
  unfold http_count. destruct (http_event e) eqn:E.
  - rewrite filter_cons_True by done. simpl length. lia.
  - by rewrite filter_cons_False by (by rewrite E).
Qed.
Lemma http_count_app l1 l2 : http_count (l1 ++ l2) = http_count l1 + http_count l2.
Proof. unfold http_count. rewrite filter_app, length_app. lia. Qed.

(** What a call may do to the world: requests all equal to [request], at most
    [n] of them, waits of at most [max], and metrics. *)
Definition exchanges (request : HTTPRequest) (n max : Z) (l : list Event) : Prop :=
  http_count l ≤ n ∧
  Forall (λ e, e = EvHTTP request ∨ (∃ d, e = EvWait d ∧ d ≤ max) ∨
               ∃ name labels, e = EvMetric name labels) l.

Lemma exchanges_none request n max : 0 ≤ n → exchanges request n max [].
Proof. by split. Qed.
Lemma exchanges_http request n max l :
  exchanges request n max l → exchanges request (n + 1) max (EvHTTP request :: l).
Proof. intros [Hn Hl]. split; [rewrite http_count_cons; simpl; lia|]. constructor; auto. Qed.
Lemma exchanges_waited request n max d l :
  exchanges request n max l → d ≤ max → exchanges request n max (EvWait d :: l).
Proof.
  intros [Hn Hl] Hd. split; [rewrite http_count_cons; simpl; lia|]. constructor; eauto.
Qed.
Lemma exchanges_metric request n max name labels l :
  exchanges request n max l → exchanges request n max (l ++ [EvMetric name labels]).
Proof.
  intros [Hn Hl]. split; [rewrite http_count_app, http_count_cons, http_count_nil; simpl; lia|].
  apply Forall_app. split; [done|]. constructor; eauto.
Qed.

(** [float64] holds integers below 2^53 exactly. *)
Lemma round53_exact z : 0 < z < 2 ^ 53 → round53 z = z.
Proof.
  intros [Hz Hb]. unfold round53. rewrite Z.abs_eq by lia.
  assert (Z.log2 z < 53) as Hl by (by apply Z.log2_lt_pow2).
  replace (Z.max 0 (Z.log2 z - 52)) with 0 by lia. cbn [Z.eqb orb].
  rewrite Z.sgn_pos by lia. change (2 ^ 0) with 1. rewrite Z.div_1_r. lia.
Qed.

(** Backoff.  Under a retry policy that validation accepts, with delays that
    a float64 holds exactly, the wait before attempt [k+1] is the initial delay
    doubled [k-1] times, capped by the maximum: it is positive and never
    shrinks. *)
Theorem backoff_doubles `{GoArch} retry k :
  0 < retry.(Retry_InitialBackoff) ≤ retry.(Retry_MaxBackoff) →
  retry.(Retry_InitialBackoff) < 2 ^ 53 → 1 ≤ k ≤ 10 →
  backoff_delay retry.(Retry_InitialBackoff) k = retry.(Retry_InitialBackoff) * 2 ^ (k - 1) ∧
  0 < Z.min retry.(Retry_MaxBackoff) (backoff_delay retry.(Retry_InitialBackoff) k)
    ≤ Z.min retry.(Retry_MaxBackoff) (retry.(Retry_InitialBackoff) * 2 ^ k).
Proof.
  intros Hi Hb Hk. assert (1 ≤ 2 ^ (k - 1)) as H1.
  { change 1 with (2 ^ 0). apply Z.pow_le_mono_r; lia. }
  assert (2 ^ (k - 1) ≤ 2 ^ 9) as H9 by (apply Z.pow_le_mono_r; lia).
  assert (2 ^ k = 2 * 2 ^ (k - 1)) as H2.
  { rewrite <- Z.pow_succ_r by lia. f_equal. lia. }
  assert (backoff_delay retry.(Retry_InitialBackoff) k
    = retry.(Retry_InitialBackoff) * 2 ^ (k - 1)) as Hd.
  { unfold backoff_delay. rewrite round53_exact by lia.
    destruct (_ && _) eqn:E; [done|exfalso].
    change (2 ^ 9) with 512 in H9. change (2 ^ 53) with 9007199254740992 in Hb.
    change (2 ^ 63) with 9223372036854775808 in E.
    apply not_true_iff_false in E. apply E.
    rewrite !andb_true_iff, Z.ltb_lt, !Z.leb_le. nia. }
  rewrite Hd, H2. split; [done|]. nia.
Qed.

Section Theorems.
Context `{Externals} `{URLLibrary} `{GoArch} {DB : Type}.
Implicit Types w : World DB Event.

Lemma waitBackoff_run retry attempt w :
  ∃ d err, waitBackoff retry attempt w =
      (err, mkWorld (w_db w) (S (w_tick w)) (w_log w ++ [EvWait d])) ∧
    d ≤ retry.(Retry_MaxBackoff).
Proof.
  unfold waitBackoff, wait, bind, emit, tick, ret. cbn.
  do 2 eexists. split; [reflexivity|]. destruct (_ <? _) eqn:E; [lia|].
  apply Z.ltb_ge in E. lia.
Qed.

(** A call that went from [w] to [w'] by at most [n] such requests, leaving the
    database alone, and that returns no error beside a response. *)
Definition exchanged (request : HTTPRequest) (n max : Z) w (r : option HTTPResponse)
    (err : error) (w' : World DB Event) : Prop :=
  w_db w' = w_db w ∧ (∃ l, w_log w' = w_log w ++ l ∧ exchanges request n max l) ∧
  (is_Some r → err = nil_err).

Definition sent (request : HTTPRequest) w : World DB Event :=
  mkWorld (w_db w) (S (w_tick w)) (w_log w ++ [EvHTTP request]).

Lemma exchanged_end request n max w r err :
  0 ≤ n → (is_Some r → err = nil_err) → exchanged request (Z.succ n) max w r err (sent request w).
Proof.
  intros Hn Hr. split_and!; [done| |done]. exists [EvHTTP request]. split; [done|].
  by apply exchanges_http, exchanges_none.
Qed.

Lemma exchanged_wait_failed request n max w d err w' :
  0 ≤ n → d ≤ max → w_db w' = w_db w → w_log w' = w_log (sent request w) ++ [EvWait d] →
  exchanged request (Z.succ n) max w None err w'.
Proof.
  intros Hn Hd Hdb Hlog. split_and!; [done| |by intros []].
  exists [EvHTTP request; EvWait d]. rewrite Hlog. unfold sent. cbn [w_log].
  rewrite <- app_assoc. split; [done|].
  apply exchanges_http, exchanges_waited; [by apply exchanges_none|done].
Qed.

Lemma exchanged_next request n max w l0 w0 r err w' :
  w_db w0 = w_db w → w_log w0 = w_log (sent request w) ++ l0 →
  Forall (λ e, ∃ d, e = EvWait d ∧ d ≤ max) l0 →
  exchanged request n max w0 r err w' → exchanged request (Z.succ n) max w r err w'.
Proof.
  intros Hdb Hlog Hl0 (Hdb' & (l & Hlog' & Hl) & Hr). split_and!; [congruence| |done].
  exists (EvHTTP request :: l0 ++ l).
  split; [rewrite Hlog', Hlog; unfold sent; cbn; by rewrite <- !app_assoc|].
  apply exchanges_http. clear -Hl Hl0.
  induction Hl0 as [|e l0 (d & -> & Hd) _ IH]; [done|]. by apply exchanges_waited.
Qed.

(** The attempts of [doWithRetry]: bounded, all of them the same request. *)
Lemma attempts_spec cfg request maxAttempts fuel : ∀ attempt w r err w',
  attempts cfg request maxAttempts attempt fuel w = ((r, err), w') →
  exchanged request (Z.of_nat fuel) cfg.(HTTPUpstream_Retry).(Retry_MaxBackoff) w r err w'.
Proof.
  induction fuel as [|fuel IH]; intros attempt w r err w' E; cbn [attempts] in E.
  { returned E. split_and!; [done| |by intros []].
    exists []. rewrite app_nil_r. split; [done|by apply exchanges_none]. }
  apply bind_inv in E as (answer & w1 & E1 & E).
  assert (w1 = sent request w) as -> by (unfold client_Do, emit, bind, tick, ret in E1;
    by simplify_eq/=). clear E1.
  rewrite Nat2Z.inj_succ. destruct answer as [response|e].
  - destruct (_ || _) in E.
    { returned E. apply exchanged_end; [lia|done]. }
    destruct (attempt <? maxAttempts); [|eapply (exchanged_next _ _ _ _ []); [..|eauto];
      by rewrite ?app_nil_r].
    apply bind_inv in E as (werr & w2 & E2 & E).
    destruct (waitBackoff_run cfg.(HTTPUpstream_Retry) attempt (sent request w)) as (d & e & Ed & Hd).
    rewrite Ed in E2. injection E2 as <- <-. destruct (failed e).
    + returned E. by eapply exchanged_wait_failed; [lia| | |].
    + eapply (exchanged_next _ _ _ _ [EvWait d]); [..|by eapply IH]; [done..|]. constructor; eauto.
  - destruct (attempt =? maxAttempts).
    { returned E. apply exchanged_end; [lia|by intros []]. }
    destruct (attempt <? maxAttempts); [|eapply (exchanged_next _ _ _ _ []); [..|eauto];
      by rewrite ?app_nil_r].
    apply bind_inv in E as (werr & w2 & E2 & E).
    destruct (waitBackoff_run cfg.(HTTPUpstream_Retry) attempt (sent request w)) as (d & e' & Ed & Hd).
    rewrite Ed in E2. injection E2 as <- <-. destruct (failed e').
    + returned E. by eapply exchanged_wait_failed; [lia| | |].
    + eapply (exchanged_next _ _ _ _ [EvWait d]); [..|by eapply IH]; [done..|]. constructor; eauto.
Qed.

(** The request that every attempt of a call makes. *)
Definition call_request (c : HTTPClient) (method requestPath body : string)
    (headers : option Header) : HTTPRequest := {|
  Request_Method := method; Request_URL := url_Resolve c.(HTTPClient_baseURL) requestPath;
  Request_Header := request_header headers body c.(HTTPClient_cfg).(HTTPUpstream_Auth);
  Request_Body := body |}.

Definition attempt_bound (ctx : Context) (c : HTTPClient) (method : string) : Z :=
  if retryableMethod ctx method
  then Z.max 0 c.(HTTPClient_cfg).(HTTPUpstream_Retry).(Retry_MaxAttempts) else 1.

Lemma doWithRetry_spec ctx c method requestPath body headers w r err w' :
  doWithRetry ctx c method requestPath body headers w = ((r, err), w') →
  exchanged (call_request c method requestPath body headers) (attempt_bound ctx c method)
    c.(HTTPClient_cfg).(HTTPUpstream_Retry).(Retry_MaxBackoff) w r err w'.
Proof.
  unfold doWithRetry. intros E. destruct (url_Parse requestPath) as [reference e].
  assert (0 ≤ attempt_bound ctx c method) as Hb
    by (unfold attempt_bound; destruct (retryableMethod _ _); lia).
  assert (∀ e0, exchanged (call_request c method requestPath body headers)
    (attempt_bound ctx c method) c.(HTTPClient_cfg).(HTTPUpstream_Retry).(Retry_MaxBackoff)
    w None e0 w) as Hstop.
  { intros e0. split_and!; [done| |by intros []]. exists []. rewrite app_nil_r.
    split; [done|by apply exchanges_none]. }
  destruct (_ || _) in E; [returned E; apply Hstop|]. cbv zeta in E.
  destruct (_ && _) in E; [returned E; apply Hstop|]. apply attempts_spec in E.
  unfold attempt_bound. destruct (retryableMethod ctx method); [|done].
  by replace (Z.max 0 _) with (Z.of_nat (Z.to_nat
    (c.(HTTPClient_cfg).(HTTPUpstream_Retry).(Retry_MaxAttempts)))) by lia.
Qed.

Lemma execute_spec ctx c method requestPath body headers w r err w' :
  execute ctx c method requestPath body headers w = ((r, err), w') →
  exchanged (call_request c method requestPath body headers) (attempt_bound ctx c method)
    c.(HTTPClient_cfg).(HTTPUpstream_Retry).(Retry_MaxBackoff) w r err w'.
Proof.
  unfold execute, breaker_Execute. intros E.
  destruct (negb c.(HTTPClient_breaker)); [by apply doWithRetry_spec in E|].
  assert (0 ≤ attempt_bound ctx c method) as Hb
    by (unfold attempt_bound; destruct (retryableMethod _ _); lia).
  apply bind_inv in E as ([response cerr] & w1 & E1 & E).
  apply bind_inv in E1 as (n & w2 & E2 & E1). unfold tick in E2. injection E2 as <- <-.
  destruct (failed (ext_breaker _)).
  { returned E1. returned E. split_and!; [done| |by intros []].
    exists []. rewrite app_nil_r. split; [done|by apply exchanges_none]. }
  unfold call in E1. apply bind_inv in E1 as ([r0 e0] & w3 & E3 & E1).
  apply doWithRetry_spec in E3 as (Hdb & Hlog & Hr). cbn in Hdb, Hlog.
  destruct r0 as [r0|].
  - rewrite Hr in E1 by eauto. cbn [is_nil andb] in E1.
    destruct (retryableHTTPStatus _); returned E1; returned E; by split_and!.
  - destruct e0; returned E1; returned E; split_and!; try done; by intros [].
Qed.

Lemma Do_spec ctx c method requestPath body headers w r err w' :
  Do ctx c method requestPath body headers w = ((r, err), w') →
  exchanged (call_request c method requestPath body headers) (attempt_bound ctx c method)
    c.(HTTPClient_cfg).(HTTPUpstream_Retry).(Retry_MaxBackoff) w r err w'.
Proof.
  unfold Do. intros E. apply bind_inv in E as ([r0 e0] & w1 & E1 & E).
  apply execute_spec in E1 as (Hdb & (l & Hl & Hx) & Hr). apply bind_inv in E as (u & w2 & E2 & E).
  returned E. destruct (default false _) in E2; [|returned E2; split_and!; eauto].
  unfold emit, bind in E2. injection E2 as _ <-. split_and!; [done| |done].
  eexists. cbn [w_log]. rewrite Hl, <- !app_assoc. split; [reflexivity|].
  rewrite app_assoc. by do 2 apply exchanges_metric.
Qed.

(** C28 Outbound calls are bounded and uniform.  A call makes at most the
    configured number of attempts when its method is idempotent or the context
    carries an idempotency key, and at most one otherwise, so that a plain POST
    is never repeated; every attempt is the same request, to the configured
    upstream and with its credential; no wait is longer than the configured
    maximum; and a response never comes with an error. *)
Theorem Do_bounded ctx c method requestPath body headers w r err w' :
  Do ctx c method requestPath body headers w = ((r, err), w') →
  exchanged (call_request c method requestPath body headers) (attempt_bound ctx c method)
    c.(HTTPClient_cfg).(HTTPUpstream_Retry).(Retry_MaxBackoff) w r err w'.
Proof. apply Do_spec. Qed.

(** The circuit breaker is transparent.  When it admits the call, a client
    with a breaker returns what the client without one returns, in the same
    world: the retryable status that the breaker is told of as a failure reaches
    the caller as the response it is.  When it does not admit it, no request is
    made. *)
Theorem breaker_transparent ctx c method requestPath body headers w :
  c.(HTTPClient_breaker) = true →
  execute ctx c method requestPath body headers w =
    (if failed (ext_breaker (w_tick w))
     then ((None, ext_breaker (w_tick w)), mkWorld (w_db w) (S (w_tick w)) (w_log w))
     else doWithRetry ctx c method requestPath body headers
            (mkWorld (w_db w) (S (w_tick w)) (w_log w))).
Proof.
  intros Hb. unfold execute, breaker_Execute, bind, tick. rewrite Hb. cbn [negb].
  destruct (failed (ext_breaker (w_tick w))); [done|]. unfold call, bind.
  destruct (doWithRetry _ _ _ _ _ _ _) as [[r err] w'] eqn:E.
  apply doWithRetry_spec in E as (_ & _ & Hr). destruct r as [r|].
  - rewrite Hr by eauto. cbn [is_nil andb]. by destruct (retryableHTTPStatus _).
  - by destruct err.
Qed.

End Theorems.
