(* ===== verification/Dispatcher.v ===== *)
(** * internal/notification/dispatcher.go

    The dispatcher claims due deliveries in one transaction, makes one attempt
    at each, and settles each in a transaction of its own.  [attempt] is what
    [deliver] does up to the provider's answer, [settle] what it makes of it and
    [finish_attempt] the closing transaction; [deliver] composes them as the
    source does.  Between them other processes can run (System.v). *)

From S2P Require Import Prelude GoStrings AppError Config Reqctx Effects Model Libraries Database.
From S2P Require Import Repository Service Outbound.
Open Scope string_scope.
Open Scope list_scope.
Open Scope Z_scope.
Open Scope go_scope.

Record Message := mkMessage {
  Message_DeliveryID : string; Message_Channel : string; Message_Recipient : string;
  Message_Subject : string; Message_Content : string }.
Record SendResult := mkSendResult { SendResult_Provider : string; SendResult_MessageID : string }.
Definition NoSendResult : SendResult := mkSendResult "" "".

Inductive Sender :=
  | InAppSender
  | unavailableSender (channel : string)
  | ProviderSender (provider channel : string) (client : HTTPClient) (path : string).
Abbreviation SenderRegistry := (gmap string Sender).

Record Dispatcher := mkDispatcher {
  Dispatcher_transactor : Transactor;
  Dispatcher_senders : SenderRegistry;
  Dispatcher_outbound : Registry;
  Dispatcher_cfg : Notification }.

(** ** Senders *)
Definition message_fields (message : Message) : gmap string string :=
  list_to_map [("delivery_id", message.(Message_DeliveryID));
    ("channel", message.(Message_Channel)); ("recipient", message.(Message_Recipient));
    ("subject", message.(Message_Subject)); ("content", message.(Message_Content))].

Definition is_remote_channel (channel : string) : bool :=
  (channel == "email") || (channel == "sms") || (channel == "webhook").

Fixpoint add_senders (registry : Registry) (providers : list (string * NotificationProvider))
    (senders : SenderRegistry) : SenderRegistry :=
  match providers with
  | [] => senders
  | (channel, provider) :: providers =>
      match registry_HTTP registry provider.(NotificationProvider_Upstream) with
      | Some client =>
          if is_remote_channel channel
          then add_senders registry providers
                 (<[channel := ProviderSender channel channel client
                                 provider.(NotificationProvider_Path)]> senders)
          else add_senders registry providers senders
      | None => add_senders registry providers senders
      end
  end.
Definition NewSenderRegistry `{GoRange} (registry : Registry) (cfg : Config) : SenderRegistry :=
  add_senders registry (range cfg.(Config_Notification).(Notification_Providers))
    (list_to_map [("in_app", InAppSender); ("email", unavailableSender "email");
      ("sms", unavailableSender "sms"); ("webhook", unavailableSender "webhook")]).

Definition default_positive (value default : Z) : Z := if value <=? 0 then default else value.
Definition NewDispatcher (transactor : Transactor) (senders : SenderRegistry)
    (registry : Registry) (cfg : Config) : Dispatcher :=
  let n := cfg.(Config_Notification) in {|
  Dispatcher_transactor := transactor; Dispatcher_senders := senders;
  Dispatcher_outbound := registry;
  Dispatcher_cfg := { n with
    Notification_DispatchInterval :=
      default_positive n.(Notification_DispatchInterval) second;
    Notification_BatchSize := default_positive n.(Notification_BatchSize) 100;
    Notification_MaxAttempts := default_positive n.(Notification_MaxAttempts) 8;
    Notification_RetryBase := default_positive n.(Notification_RetryBase) (5 * second) } |}.

(** ** Pure parts of an attempt *)

Definition retryBackoff (base : Z) (attempt : Z) : Z :=
  let shift := Z.max 0 (Z.min (wrap32 (attempt - 1)) 10) in
  wrap64 (base * wrap64 (2 ^ shift)).

Definition render `{TemplateLibrary} (name source : string) (variables : StringMap)
    : string * error :=
  let '(parsed, err) := template_Parse name source in
  if failed err then ("", err) else
  let '(output, err) := template_Execute true parsed variables in
  if failed err then ("", err) else (output, nil_err).

(** What [deliver] makes of the attempt's outcome at time [now]. *)
Definition settle `{LibraryText} (cfg : Notification) (delivery : Delivery.t) (now : Z)
    (outcome : SendResult * error) : Delivery.t :=
  let '(result, err) := outcome in
  let delivery := { delivery with
    Delivery.UpdatedAt := now; Delivery.UpdatedBy := "notification-dispatcher" } in
  if is_nil err then
    { delivery with
      Delivery.Status := "sent"; Delivery.Provider := result.(SendResult_Provider);
      Delivery.ProviderMessageID := result.(SendResult_MessageID);
      Delivery.FailureReason := "" }
  else
    let delivery := { delivery with Delivery.FailureReason := Error err } in
    if cfg.(Notification_MaxAttempts) <=? delivery.(Delivery.Attempts)
    then { delivery with Delivery.Status := "dead_letter" }
    else { delivery with
      Delivery.Status := "retrying";
      Delivery.NextAttemptAt :=
        now + retryBackoff cfg.(Notification_RetryBase) delivery.(Delivery.Attempts) }.

Module Dispatch.
Section Methods.
Context `{Externals} `{LibraryText} `{URLLibrary} `{TemplateLibrary} `{JSONLibrary}
  `{EventLibrary} `{GoArch} `{GoFmt} {DB : Type} `{!Repository DB}.
Implicit Types (d : Dispatcher) (ctx : Context).

Definition provider_send ctx (provider : string) (client : HTTPClient) (path : string)
    (message : Message) : IO DB (SendResult * error) :=
  let '(payload, err) := json_Marshal (Some (message_fields message)) in
  when! failed err return! (NoSendResult, ErrWrap "encode provider request" err);
  let! (response, err) := Do ctx client "POST" path payload None in
  when! failed err return! (NoSendResult, err);
  match response with
  | None => ret (NoSendResult, ErrMsg "nil response")
  | Some response =>
      when! (response.(Response_StatusCode) <? 200) || (300 <=? response.(Response_StatusCode))
      return! (NoSendResult,
        ErrMsg ("provider returned status " +:+ pretty response.(Response_StatusCode)));
      let '(messageID, err) := json_DecodeMessageID response.(Response_Body) in
      when! failed err return! (NoSendResult, ErrWrap "decode provider response" err);
      when! messageID == "" return!
        (NoSendResult, ErrMsg "provider response omitted message_id");
      ret (mkSendResult provider messageID, nil_err)
  end.

Definition sender_Send ctx (s : Sender) (message : Message) : IO DB (SendResult * error) :=
  match s with
  | InAppSender => ret (mkSendResult "in_app" "stored", nil_err)
  | unavailableSender channel =>
      ret (NoSendResult, ErrMsg (channel +:+ " provider is not configured"))
  | ProviderSender provider _ client path => provider_send ctx provider client path message
  end.

Definition sender d (delivery : Delivery.t) : IO DB (option Sender * error) :=
  let! (providers, _, err) := Repository_ListProviders delivery.(Delivery.TenantID)
    delivery.(Delivery.ApplicationID) "" delivery.(Delivery.Channel) "active" 1 0 in
  when! failed err return! (None, ErrWrap "resolve notification provider" err);
  match providers with
  | [] => ret (d.(Dispatcher_senders) !! delivery.(Delivery.Channel), nil_err)
  | provider :: _ =>
      when! negb (providerUpstreamAllowed d.(Dispatcher_cfg).(Notification_ProviderUpstreams)
                    provider.(Provider.Upstream))
      return! (None, ErrMsg ("notification provider upstream "
                 +:+ quote provider.(Provider.Upstream) +:+ " is not allowed"));
      match registry_HTTP d.(Dispatcher_outbound) provider.(Provider.Upstream) with
      | None => ret (None, ErrMsg ("notification provider upstream "
                       +:+ quote provider.(Provider.Upstream) +:+ " is not configured"))
      | Some client =>
          ret (Some (ProviderSender provider.(Provider.Code) provider.(Provider.Channel)
                       client provider.(Provider.Path)), nil_err)
      end
  end.

(** [deliver] up to the provider's answer. *)
Definition attempt d ctx (delivery : Delivery.t) : IO DB (SendResult * error) :=
  let! (tpl, err) := Repository_GetTemplate delivery.(Delivery.TenantID)
    delivery.(Delivery.ApplicationID) delivery.(Delivery.TemplateCode)
    delivery.(Delivery.Channel) delivery.(Delivery.Locale) in
  when! failed err return! (NoSendResult, err);
  let '(variables, err) := json_Unmarshal delivery.(Delivery.Variables) None in
  when! failed err return! (NoSendResult, err);
  let '(subject, subjectErr) :=
    render (tpl.(Template.Code) +:+ "-subject") tpl.(Template.Subject) variables in
  let '(content, contentErr) :=
    render (tpl.(Template.Code) +:+ "-content") tpl.(Template.Content) variables in
  let err := errors_Join subjectErr contentErr in
  when! failed err return! (NoSendResult, err);
  let! (s, senderErr) := sender d delivery in
  when! failed senderErr return! (NoSendResult, senderErr);
  match s with
  | None => ret (NoSendResult,
      ErrMsg ("sender for " +:+ delivery.(Delivery.Channel) +:+ " is not configured"))
  | Some s => sender_Send ctx s {|
      Message_DeliveryID := delivery.(Delivery.ID);
      Message_Channel := delivery.(Delivery.Channel);
      Message_Recipient := delivery.(Delivery.Recipient);
      Message_Subject := subject; Message_Content := content |}
  end.

(** The closing transaction; its error is dropped by the caller. *)
Definition finish_closure (delivery : Delivery.t) : IO DB error :=
  let! err := Repository_Finish delivery delivery.(Delivery.Version) in
  when! failed err return! err;
  Service.addDeliveryEvent
    { delivery with Delivery.Version := wrap64 (delivery.(Delivery.Version) + 1) }
    "platform.notification.v1.NotificationStatusChanged"
    "platform.notification.status.changed.v1".
Definition finish_attempt d (delivery : Delivery.t) : IO DB error :=
  Transactor.Within d.(Dispatcher_transactor) (finish_closure delivery).

Definition deliver d ctx (delivery : Delivery.t) : IO DB unit :=
  let! outcome := attempt d ctx delivery in
  let! now := now in
  let! _ := finish_attempt d (settle d.(Dispatcher_cfg) delivery now outcome) in
  ret tt.

Fixpoint deliver_all d ctx (due : list Delivery.t) : IO DB unit :=
  match due with
  | [] => ret tt
  | delivery :: due => deliver d ctx delivery ;; deliver_all d ctx due
  end.

(** The claiming transaction of [RunOnce]. *)
Definition claim d : IO DB (list Delivery.t * error) :=
  Transactor.WithinVar d.(Dispatcher_transactor) []
    (let! now := now in
     Repository_ClaimDue now d.(Dispatcher_cfg).(Notification_BatchSize)).

Definition RunOnce d ctx : IO DB (Z * error) :=
  let! (due, err) := claim d in
  when! failed err return! (0, err);
  deliver_all d ctx due ;;
  ret (Z.of_nat (length due), nil_err).

(** ** The worker *)
(** [NewWorker]: the configuration it keeps. *)
Definition NewWorker d (cfg : Config) : Config :=
  if cfg.(Config_Notification).(Notification_DispatchInterval) <=? 0
  then { cfg with Config_Notification ::= (λ n, { n with
         Notification_DispatchInterval :=
           d.(Dispatcher_cfg).(Notification_DispatchInterval) }) }
  else cfg.
(** It runs until its context is done, after [rounds] ticks.
    The rounds whose error it logs are returned. *)
Fixpoint worker_loop d ctx (rounds : nat) : IO DB (list error) :=
  let! (_, err) := RunOnce d ctx in
  let logged := if failed err && negb (error_is err ErrCanceled) then [err] else [] in
  match rounds with
  | O => ret logged
  | S rounds => let! rest := worker_loop d ctx rounds in ret (logged ++ rest)
  end.
Definition worker_start d (cfg : Config) (rounds : nat) : IO DB (list error) :=
  if negb cfg.(Config_Database).(Database_Enabled) then ret []
  else worker_loop d Background rounds.
End Methods.
End Dispatch.
