(* ===== verification/DispatcherSpec.v ===== *)
(** * What the dispatcher promises

    The retry schedule, what an attempt may do to the world, what a delivery
    step writes, and that a round makes at most one request for each delivery it
    claimed. *)

From S2P Require Import Prelude GoStrings AppError Config Reqctx Effects Model Libraries Database.
From S2P Require Import Repository Unique Service ServiceSpec Outbound Dispatcher.
Open Scope string_scope.
Open Scope list_scope.
Open Scope Z_scope.
Open Scope go_scope.

(** ** The retry schedule *)

Definition backoff_shift (attempt : Z) : Z := Z.max 0 (Z.min (attempt - 1) 10).

Lemma backoff_shift_range attempt : 0 ≤ backoff_shift attempt ≤ 10.
Proof. unfold backoff_shift. lia. Qed.

Lemma retryBackoff_exact base attempt :
  0 < base → base * 1024 < 2 ^ 63 → 0 ≤ attempt < 2 ^ 31 →
  retryBackoff base attempt = base * 2 ^ backoff_shift attempt.
Proof.
  intros Hb Hmax Ha. unfold retryBackoff.
  assert (wrap32 (attempt - 1) = attempt - 1) as ->.
  { apply wrap32_id. unfold in_int. change (2 ^ 31) with 2147483648 in Ha.
    change (2 ^ (32 - 1)) with 2147483648. lia. }
  fold (backoff_shift attempt). pose proof (backoff_shift_range attempt) as Hs.
  assert (1 ≤ 2 ^ backoff_shift attempt ≤ 1024) as Hp.
  { split; [change 1 with (2 ^ 0)|change 1024 with (2 ^ 10)]; apply Z.pow_le_mono_r; lia. }
  change (2 ^ 63) with 9223372036854775808 in Hmax.
  rewrite (wrap64_id (2 ^ _)); [apply wrap64_id|]; unfold in_int;
    change (2 ^ (64 - 1)) with 9223372036854775808; nia.
Qed.

(** C30 The retry schedule.  For a base delay below 2^53 ns (about 104 days) the
    wait after the [n]-th attempt is the base doubled [n-1] times, at most ten
    times: no wait is shorter than the base, longer than 1024 times the base, or
    shorter than the one before.  (At 2^53 ns the product overflows and is
    negative.) *)
Theorem retryBackoff_schedule base n :
  0 < base < 2 ^ 53 → 1 ≤ n < 2 ^ 31 →
  retryBackoff base n = base * 2 ^ Z.min (n - 1) 10 ∧
  base ≤ retryBackoff base n ≤ 1024 * base ∧
  retryBackoff base (n - 1) ≤ retryBackoff base n ∧
  retryBackoff (2 ^ 53) 11 < 0.
Proof.
  intros [Hb Hm] Hn. change (2 ^ 53) with 9007199254740992 in Hm.
  assert (base * 1024 < 2 ^ 63) as Hmax by (change (2 ^ 63) with 9223372036854775808; lia).
  assert (∀ k, 0 ≤ k < 2 ^ 31 → 1 ≤ 2 ^ backoff_shift k ≤ 1024) as Hp.
  { intros k Hk. pose proof (backoff_shift_range k).
    split; [change 1 with (2 ^ 0)|change 1024 with (2 ^ 10)]; apply Z.pow_le_mono_r; lia. }
  rewrite !retryBackoff_exact by lia. split_and!; [|pose proof (Hp n); nia..| |by vm_compute].
  - f_equal. f_equal. unfold backoff_shift. lia.
  - apply Z.mul_le_mono_nonneg_l; [lia|]. apply Z.pow_le_mono_r; [lia|].
    unfold backoff_shift. lia.
Qed.

(** ** Attempts *)

Section Dispatching.
Context `{Externals} `{LibraryText} `{URLLibrary} `{TemplateLibrary} `{JSONLibrary}
  `{EventLibrary} `{GoArch} `{GoFmt} `{DialectLaws} {DB : Type} `{!Repository DB}
  `{!RepositoryView DB} `{!RepositoryLaws DB}.
Implicit Types (d : Dispatcher) (ctx : Context) (w : World DB Event).

(** A computation that leaves the database alone and makes at most [n] requests,
    all of them requests of which [P] holds. *)
Definition makes (P : HTTPRequest → Prop) (n : Z) (l : list Event) : Prop :=
  http_count l ≤ n ∧ ∀ request, EvHTTP request ∈ l → P request.
Definition quiet {A} (P : HTTPRequest → Prop) (n : Z) (m : IO DB A) : Prop :=
  ∀ w, w_db (m w).2 = w_db w ∧ ∃ l, w_log (m w).2 = w_log w ++ l ∧ makes P n l.

Lemma makes_nil P n : 0 ≤ n → makes P n [].
Proof. intros Hn. split; [done|]. by intros ? ?%not_elem_of_nil. Qed.
Lemma makes_app P n1 n2 l1 l2 : makes P n1 l1 → makes P n2 l2 → makes P (n1 + n2) (l1 ++ l2).
Proof.
  intros [Hn1 Hp1] [Hn2 Hp2]. split; [rewrite http_count_app; lia|].
  by intros request [?%Hp1|?%Hp2]%elem_of_app.
Qed.

Section Quiet.
Context (P : HTTPRequest → Prop).
Lemma quiet_ret {A} n (a : A) : 0 ≤ n → quiet P n (ret a).
Proof. intros Hn w. split; [done|]. exists []. rewrite app_nil_r. split; [done|by apply makes_nil]. Qed.

Lemma quiet_bind {A B} n1 n2 (m : IO DB A) (f : A → IO DB B) :
  quiet P n1 m → (∀ a, quiet P n2 (f a)) → quiet P (n1 + n2) (bind m f).
Proof.
  intros Hm Hf w. unfold bind. destruct (Hm w) as (Hdb & l & Hl & Hn).
  destruct (m w) as [a w1]. destruct (Hf a w1) as (Hdb' & l' & Hl' & Hn'). cbn in *.
  split; [congruence|]. exists (l ++ l'). rewrite Hl', Hl, app_assoc.
  split; [done|by apply makes_app].
Qed.

Lemma quiet_if {A} n (b : bool) (m1 m2 : IO DB A) :
  quiet P n m1 → quiet P n m2 → quiet P n (if b then m1 else m2).
Proof. by destruct b. Qed.

Lemma quiet_reads {A} (m : IO DB A) : reads m → quiet P 0 m.
Proof.
  intros Hm w. destruct (Hm w) as [Hdb Hl]. split; [done|]. exists [].
  rewrite app_nil_r. split; [done|by apply makes_nil].
Qed.
End Quiet.

(** A context without an idempotency key, like the worker's. *)
Definition plain_context ctx : Prop := (Idempotency.FromContext ctx).2 = false.

Lemma quiet_Do (P : HTTPRequest → Prop) ctx c path body headers :
  plain_context ctx → P (call_request c "POST" path body headers) →
  quiet P 1 (Do ctx c "POST" path body headers).
Proof.
  intros Hctx Hp w. destruct (Do ctx c "POST" path body headers w) as [[r err] w'] eqn:E.
  apply Do_spec in E as (Hdb & (l & Hl & Hn & Hall) & _). split; [done|]. exists l.
  split; [done|]. unfold attempt_bound in Hn.
  change (retryableMethod ctx "POST") with ((Idempotency.FromContext ctx).2) in Hn.
  rewrite Hctx in Hn. split; [done|]. intros request Hin. rewrite Forall_forall in Hall.
  by destruct (Hall _ Hin) as [[= ->]|[(? & [=] & _)|(? & ? & [=])]].
Qed.

(** The request that a sender makes for a message. *)
Definition carries_message (message : Message) (request : HTTPRequest) : Prop :=
  request.(Request_Method) = "POST" ∧
  json_Marshal (Some (message_fields message)) = (request.(Request_Body), nil_err).
(** A request for the delivery [v]: its body is the message of [v], to its
    recipient on its channel. *)
Definition carries (v : Delivery.t) (request : HTTPRequest) : Prop :=
  ∃ subject content, carries_message {|
    Message_DeliveryID := v.(Delivery.ID); Message_Channel := v.(Delivery.Channel);
    Message_Recipient := v.(Delivery.Recipient);
    Message_Subject := subject; Message_Content := content |} request.

Lemma quiet_send (P : HTTPRequest → Prop) ctx s message :
  plain_context ctx → (∀ request, carries_message message request → P request) →
  quiet P 1 (Dispatch.sender_Send ctx s message).
Proof.
  intros Hctx Hp. destruct s as [|channel|provider channel client path]; cbn [Dispatch.sender_Send];
    [by apply quiet_ret..|].
  unfold Dispatch.provider_send. destruct (json_Marshal _) as [payload err] eqn:Ej.
  destruct (failed err) eqn:Ef; [by apply quiet_ret|]. apply failed_nil in Ef as ->.
  apply (quiet_bind _ 1 0); [by apply quiet_Do; [|apply Hp]|].
  intros [response err2]. apply quiet_if; [by apply quiet_ret|].
  destruct response as [response|]; [|by apply quiet_ret].
  apply quiet_if; [by apply quiet_ret|]. destruct (json_DecodeMessageID _) as [id err3].
  repeat (apply quiet_if; [by apply quiet_ret|]). by apply quiet_ret.
Qed.

Lemma quiet_sender P d v : quiet P 0 (Dispatch.sender d v).
Proof.
  unfold Dispatch.sender. apply (quiet_bind _ 0 0);
    [eapply quiet_reads, lists_reads, law_ListProviders|].
  intros [[providers total] err]. apply quiet_if; [by apply quiet_ret|].
  destruct providers as [|p ps]; [by apply quiet_ret|].
  apply quiet_if; [by apply quiet_ret|].
  destruct (registry_HTTP _ _); by apply quiet_ret.
Qed.

(** An attempt changes no table and makes at most one request, which is for its
    delivery. *)
Lemma quiet_attempt d ctx v : plain_context ctx → quiet (carries v) 1 (Dispatch.attempt d ctx v).
Proof.
  intros Hctx. unfold Dispatch.attempt.
  apply (quiet_bind _ 0 1); [eapply quiet_reads, looks_up_reads, law_GetTemplate|]. intros [tpl err].
  apply quiet_if; [by apply quiet_ret|]. destruct (json_Unmarshal _ _) as [variables err2].
  apply quiet_if; [by apply quiet_ret|]. destruct (render _ _ _) as [subject err3].
  destruct (render _ _ _) as [content err4]. apply quiet_if; [by apply quiet_ret|].
  apply (quiet_bind _ 0 1); [apply quiet_sender|]. intros [s err5].
  apply quiet_if; [by apply quiet_ret|].
  destruct s; [apply quiet_send; [done|by exists subject, content]|by apply quiet_ret].
Qed.

(** ** Settling *)

Lemma settle_same cfg v now outcome :
  let d := settle cfg v now outcome in
  d.(Delivery.ID) = v.(Delivery.ID) ∧ d.(Delivery.Version) = v.(Delivery.Version) ∧
  d.(Delivery.Attempts) = v.(Delivery.Attempts).
Proof. destruct outcome as [r err]. cbn. destruct (is_nil err); [done|]. by destruct (_ <=? _). Qed.

Lemma settle_status cfg v now outcome :
  let b := (settle cfg v now outcome).(Delivery.Status) in
  b = "sent" ∨ b = "retrying" ∨ b = "dead_letter".
Proof.
  destruct outcome as [res err]. unfold settle. destruct (is_nil err); [by left|].
  destruct (_ <=? _); [by right; right|by right; left].
Qed.

Lemma finish_closure_ok v w w' :
  unique_tables (view (w_db w)) →
  Dispatch.finish_closure v w = (nil_err, w') → settled v (view (w_db w)) (view (w_db w')).
Proof.
  unfold Dispatch.finish_closure. intros Hu E. apply bind_inv in E as (err & w1 & E1 & E).
  destruct (failed err) eqn:Ef; [by returned E|]. apply failed_nil in Ef as ->.
  destruct (updates_ok _ _ _ _ _ _ (law_Finish v v.(Delivery.Version)) w Hu) as (rows' & Hrows & Hv);
    [by rewrite E1|]. rewrite E1 in Hv. cbn in Hv.
  apply addDeliveryEvent_ok in E as (e & He & Hx & Hw). rewrite Hv in Hx.
  exists rows', e. split_and!; [done..|]. rewrite Hw, Hv. by destruct (view (w_db w)).
Qed.

Lemma finish_attempt_spec d v w err w' :
  unique_tables (view (w_db w)) → Dispatch.finish_attempt d v w = (err, w') →
  let closed := settled v (view (w_db w)) (view (w_db w')) in
  if failed err then w_db w' = w_db w ∨ (closed ∧ commit_lost err w') else closed.
Proof.
  intros Hu E closed. apply Within_spec in E.
  assert (done_by (Dispatch.finish_closure v) w (w_db w') →
    closed) as Hd.
  { unfold closed. intros (wa & wb & Eb & Ha & _ & <-). rewrite <- Ha. apply finish_closure_ok; [|done].
    by rewrite Ha. }
  destruct (failed err); [destruct E as [|[]]|]; auto.
Qed.

(** Handling a delivery is an attempt, a reading of the clock, and the closing
    transaction on what the two make of the delivery. *)
Lemma deliver_spec d ctx v w w' :
  plain_context ctx → unique_tables (view (w_db w)) →
  Dispatch.deliver d ctx v w = (tt, w') →
  ∃ outcome w1 err, Dispatch.attempt d ctx v w = (outcome, w1) ∧
    let s := settle d.(Dispatcher_cfg) v (ext_now (w_tick w1)) outcome in
    let closed := settled s (view (w_db w)) (view (w_db w')) in
    Dispatch.finish_attempt d s (next w1) = (err, w') ∧
    if failed err then w_db w' = w_db w ∨ (closed ∧ commit_lost err w') else closed.
Proof.
  intros Hctx Hu E. unfold Dispatch.deliver in E.
  apply bind_inv in E as (outcome & w1 & E1 & E).
  destruct (quiet_attempt d ctx v Hctx w) as [Hdb _]. rewrite E1 in Hdb. cbn in Hdb.
  apply bind_inv in E as (time & w2 & E2 & E).
  unfold now, bind, tick, ret in E2. injection E2 as <- <-. fold (next w1) in E.
  apply bind_inv in E as (err & w3 & E3 & E). returned E.
  exists outcome, w1, err. split; [done|]. split; [exact E3|].
  apply finish_attempt_spec in E3; cbn in *; by rewrite Hdb in *.
Qed.

(** C6 One step of the dispatcher.  Handling a claimed delivery makes one attempt,
    which changes no table, reads the clock once, and closes the delivery in one
    transaction: the row of the claimed version gets the attempt's outcome
    ("sent" with the provider's message id, "retrying" at that reading of the
    clock plus the wait of the schedule while attempts are left, "dead_letter"
    with the reason when they are not), and the event of the change enters the
    outbox in the same transaction.  When the transaction fails nothing is
    changed, unless only the answer to its commit was lost. *)
Theorem deliver_outcome d ctx v w w' :
  plain_context ctx → unique_tables (view (w_db w)) →
  Dispatch.deliver d ctx v w = (tt, w') →
  ∃ outcome w1 s err, Dispatch.attempt d ctx v w = (outcome, w1) ∧ w_db w1 = w_db w ∧
    let now := ext_now (w_tick w1) in
    let closed := settled s (view (w_db w)) (view (w_db w')) in
    Dispatch.finish_attempt d s (next w1) = (err, w') ∧
    (if failed err then w_db w' = w_db w ∨ (closed ∧ commit_lost err w') else closed) ∧
    s.(Delivery.ID) = v.(Delivery.ID) ∧ s.(Delivery.Version) = v.(Delivery.Version) ∧
    s.(Delivery.Attempts) = v.(Delivery.Attempts) ∧ s.(Delivery.UpdatedAt) = now ∧
    if is_nil outcome.2
    then s.(Delivery.Status) = "sent" ∧ s.(Delivery.FailureReason) = "" ∧
         s.(Delivery.ProviderMessageID) = outcome.1.(SendResult_MessageID)
    else s.(Delivery.FailureReason) = Error outcome.2 ∧
      if v.(Delivery.Attempts) <? d.(Dispatcher_cfg).(Notification_MaxAttempts)
      then s.(Delivery.Status) = "retrying" ∧ s.(Delivery.NextAttemptAt) =
        now + retryBackoff d.(Dispatcher_cfg).(Notification_RetryBase) v.(Delivery.Attempts)
      else s.(Delivery.Status) = "dead_letter" ∧
        s.(Delivery.NextAttemptAt) = v.(Delivery.NextAttemptAt).
Proof.
  intros Hctx Hu E. destruct (deliver_spec _ _ _ _ _ Hctx Hu E) as (outcome & w1 & err & E1 & E2 & Hs).
  destruct (quiet_attempt d ctx v Hctx w) as [Hdb _]. rewrite E1 in Hdb.
  exists outcome, w1, (settle d.(Dispatcher_cfg) v (ext_now (w_tick w1)) outcome), err.
  do 2 (split; [done|]). intros now' closed. do 2 (split; [done|]).
  destruct (settle_same d.(Dispatcher_cfg) v (ext_now (w_tick w1)) outcome) as (-> & -> & ->).
  do 3 (split; [done|]). destruct outcome as [r e]. cbn [fst snd].
  rewrite Z.ltb_antisym. unfold settle. destruct (is_nil e); [done|]. split; [by destruct (_ <=? _)|].
  change (Delivery.Attempts _) with v.(Delivery.Attempts). by destruct (_ <=? _).
Qed.

(** ** A round *)

(** A transaction whose closure logs nothing logs nothing. *)
Lemma silent_WithinVar {A} t (captured : A) (fn : IO DB (A * error)) :
  silent fn → silent (Transactor.WithinVar t captured fn).
Proof.
  intros Hf w. destruct (Transactor.WithinVar t captured fn w) as [r w'] eqn:E.
  unfold Transactor.WithinVar, fault in E. cbn.
  assert (∀ wa wb x, fn wa = (x, wb) → w_log wb = w_log wa) as Hlog.
  { intros wa wb x Ef. specialize (Hf wa). by rewrite Ef in Hf. }
  run; bools; simplify_eq/=; try done.
  all: match goal with Ef : _ = (_, _) |- _ => by apply Hlog in Ef end.
Qed.

Lemma silent_bind {A B} (m : IO DB A) (f : A → IO DB B) :
  silent m → (∀ a, silent (f a)) → silent (bind m f).
Proof.
  intros Hm Hf w. unfold bind. specialize (Hm w). destruct (m w) as [a w1]. by rewrite Hf.
Qed.

Lemma silent_claim d : silent (Dispatch.claim d).
Proof. apply silent_WithinVar, silent_bind; [done|]. intros t. apply law_ClaimDue_silent. Qed.

Lemma silent_finish_attempt d v : silent (Dispatch.finish_attempt d v).
Proof.
  unfold Dispatch.finish_attempt, Transactor.Within. apply silent_bind; [|by intros [? ?]].
  apply silent_WithinVar, silent_bind; [|done]. unfold Dispatch.finish_closure.
  apply silent_bind; [eapply updates_silent, law_Finish|]. intros err.
  destruct (failed err); [done|]. unfold Service.addDeliveryEvent.
  apply silent_bind; [done|]. intros id. destruct (eventbus_NewEnvelope _ _) as [env e].
  destruct (failed e); [done|]. destruct (proto_Marshal env) as [enc e2].
  destruct (failed e2); [done|]. eapply inserts_silent, law_AddOutbox.
Qed.

Lemma deliver_log d ctx v w :
  plain_context ctx →
  ∃ l, w_log (Dispatch.deliver d ctx v w).2 = w_log w ++ l ∧ makes (carries v) 1 l.
Proof.
  intros Hctx. unfold Dispatch.deliver, bind.
  destruct (quiet_attempt d ctx v Hctx w) as (_ & l & Hl & Hn).
  destruct (Dispatch.attempt d ctx v w) as [outcome w1]. cbn in Hl. exists l.
  destruct (now w1) as [time w2] eqn:E2.
  assert (w_log w2 = w_log w1) as Hw2 by (unfold now, bind, tick, ret in E2; by simplify_eq).
  pose proof (silent_finish_attempt d (settle (Dispatcher_cfg d) v time outcome) w2) as Hf.
  destruct (Dispatch.finish_attempt _ _ w2) as [err w3]. cbn in *. split; [congruence|done].
Qed.

(** The log of a round falls into one part per delivery, in their order. *)
Lemma deliver_all_log d ctx due w :
  plain_context ctx →
  ∃ logs, w_log (Dispatch.deliver_all d ctx due w).2 = w_log w ++ concat logs ∧
    Forall2 (λ v l, makes (carries v) 1 l) due logs.
Proof.
  intros Hctx. revert w. induction due as [|v due IH]; intros w.
  { exists []. by rewrite app_nil_r. }
  cbn [Dispatch.deliver_all]. unfold bind. destruct (deliver_log d ctx v w Hctx) as (l & Hl & Hn).
  destruct (Dispatch.deliver d ctx v w) as [[] w1]. destruct (IH w1) as (logs & Hl' & Hn').
  exists (l :: logs). cbn [concat]. rewrite Hl', app_assoc. cbn in *. split; [by rewrite Hl|by constructor].
Qed.

(** No two rows of a claim have the same id. *)
Lemma claim_distinct time limit t rows vs t' :
  claim_spec time limit t rows vs t' → unique_tables t →
  ForallOrdPairs (λ a b, sql_eq a.(Delivery.ID) b.(Delivery.ID) = false) rows.
Proof.
  intros Hc Hu. pose proof (claim_nodup _ _ _ _ _ _ Hc) as Hn.
  assert (∀ r, r ∈ rows → r ∈ t.(tbl_deliveries)) as Hin by apply Hc.
  clear Hc. induction Hn as [|r rows Hr _ IH]; [constructor|]. constructor.
  - apply List.Forall_forall. intros b Hb%list_elem_of_In.
    apply not_true_iff_false. intros He. apply Hr.
    assert (r = b) as ->; [|done].
    apply (same_id _ _ _ (unique_deliveries _ Hu)); [apply Hin; left|apply Hin; by right|exact He].
  - apply IH. intros b Hb. apply Hin. by right.
Qed.

(** C20 At most once per claim.  A round of the dispatcher that succeeds claimed
    some waiting rows, no two with the same id and never more than the configured
    batch, and reports their number; and its log is one part for each of them, in
    their order, with at most one request to a provider, which carries the message
    of that delivery: its id, channel and recipient.  When the claim fails the
    round makes no request at all. *)
Theorem RunOnce_at_most_once d ctx w n err w' :
  plain_context ctx → unique_tables (view (w_db w)) →
  Dispatch.RunOnce d ctx w = ((n, err), w') →
  if failed err then n = 0 ∧ w_log w' = w_log w else
  ∃ now rows logs,
    (∀ r, r ∈ rows → r ∈ tbl_deliveries (view (w_db w)) ∧ due now r = true) ∧
    ForallOrdPairs (λ a b, sql_eq a.(Delivery.ID) b.(Delivery.ID) = false) rows ∧
    n = Z.of_nat (length rows) ∧ n ≤ d.(Dispatcher_cfg).(Notification_BatchSize) ∧
    w_log w' = w_log w ++ concat logs ∧
    Forall2 (λ r l, http_count l ≤ 1 ∧ ∀ request, EvHTTP request ∈ l → carries r request)
      rows logs.
Proof.
  intros Hctx Hu E. unfold Dispatch.RunOnce in E. apply bind_inv in E as ([vs e] & w1 & E1 & E).
  pose proof (silent_claim d w) as Hsil. rewrite E1 in Hsil. cbn in Hsil.
  destruct (failed e) eqn:Ef; [returned E; by rewrite Ef|].
  apply failed_nil in Ef as ->. apply bind_inv in E as ([] & w2 & E2 & E). returned E.
  destruct (deliver_all_log d ctx vs w1 Hctx) as (logs & Hl & Hn). rewrite E2 in Hl. cbn in Hl |- *.
  apply WithinVar_ok in E1 as (wa & wb & Eb & Ha & _ & _).
  apply bind_inv in Eb as (time & wc & Ec & Eb). apply (keeps_run _ _ _ _ keeps_now) in Ec.
  apply law_ClaimDue in Eb as [rows Hc]; [|by rewrite Ec, Ha]. rewrite Ec, Ha in Hc.
  exists time, rows, logs. split; [apply Hc|]. split; [by eapply claim_distinct|].
  rewrite (claim_handed _ _ _ _ _ _ Hc), length_map. split; [done|]. split; [apply Hc|].
  split; [by rewrite Hl, Hsil|]. rewrite (claim_handed _ _ _ _ _ _ Hc) in Hn.
  apply Forall2_fmap_l in Hn. exact Hn.
Qed.
End Dispatching.
