(* ===== verification/Liveness.v ===== *)
(** * The dispatcher makes progress

    Without faults of the database and with working event envelopes, a round of
    the dispatcher does not only leave well-formed rows: it claims every due
    delivery it is given room for and settles each of them. *)

From S2P Require Import Prelude GoStrings AppError Config Reqctx Effects Ratelimit Model Libraries.
From S2P Require Import Database Repository Unique Sql Service ServiceSpec Outbound Dispatcher.
From S2P Require Import Clock DispatcherSpec.
Open Scope string_scope.
Open Scope list_scope.
Open Scope Z_scope.
Open Scope go_scope.

Section Dispatching.
Context `{Externals} `{LibraryText} `{URLLibrary} `{TemplateLibrary} `{JSONLibrary}
  `{EventLibrary} `{GoArch} `{GoFmt} `{DialectLaws} {DB : Type} `{!Repository DB}
  `{!RepositoryView DB} `{!RepositoryLaws DB} `{!RepositoryClock DB}.
Implicit Types (d : Dispatcher) (ctx : Context) (w : World DB Event).

Lemma advances_attempts cfg request maxAttempts fuel : ∀ attempt,
  advances (DB := DB) (attempts cfg request maxAttempts attempt fuel).
Proof.
  induction fuel as [|fuel IH]; intros attempt; cbn [attempts]; [clocked|].
  apply advances_bind; [unfold client_Do; clocked|intros answer].
  assert (advances (DB := DB) (waitBackoff cfg.(HTTPUpstream_Retry) attempt)) as Hw
    by (unfold waitBackoff, wait; clocked).
  clocked.
Qed.
Lemma advances_Do ctx c method path body headers :
  advances (DB := DB) (Do ctx c method path body headers).
Proof.
  assert (advances (DB := DB) (doWithRetry ctx c method path body headers)) as Hr.
  { unfold doWithRetry. destruct (url_Parse path). clocked. apply advances_attempts. }
  unfold Do, execute, breaker_Execute, call. clocked.
Qed.
Hint Resolve advances_Do : clock.
Lemma advances_attempt d ctx v : advances (Dispatch.attempt d ctx v).
Proof.
  unfold Dispatch.attempt, Dispatch.sender, Dispatch.sender_Send, Dispatch.provider_send. clocked.
Qed.
Lemma advances_claim d : advances (Dispatch.claim d).
Proof. unfold Dispatch.claim. clocked. Qed.

(** ** Assumptions of progress *)
(** The event library makes an envelope with the given id of every event, and the
    generated ids are different from each other. *)
Class EventLaws : Prop := {
  envelope_made m p : (eventbus_NewEnvelope m p).2 = nil_err;
  envelope_id m p : Envelope_EventId (eventbus_NewEnvelope m p).1 = m.(Metadata_EventID);
  envelope_encoded e : (proto_Marshal e).2 = nil_err;
  uuid_distinct n m : n ≠ m → sql_eq (ext_uuid n) (ext_uuid m) = false }.
Context `{!EventLaws}.
(** No event of the outbox has an id that is still to be generated. *)
Definition unused_ids w : Prop :=
  ∀ e n, e ∈ tbl_outbox (view (w_db w)) → (w_tick w ≤ n)%nat →
  sql_eq e.(OutboxEvent.ID) (ext_uuid n) = false.
Lemma unused_ids_later w w' :
  tbl_outbox (view (w_db w')) = tbl_outbox (view (w_db w)) → (w_tick w ≤ w_tick w')%nat →
  unused_ids w → unused_ids w'.
Proof. intros Ho Ht Hf e n He Hn. rewrite Ho in He. apply Hf; [done|lia]. Qed.

Hypothesis no_faults : fault_free.

(** ** Transactions commit *)
Lemma WithinVar_progress {A} t (captured : A) (fn : IO DB (A * error)) w value w2 :
  t.(Transactor_db) = true → fn (next w) = ((value, nil_err), w2) →
  Transactor.WithinVar t captured fn w = ((value, nil_err), next w2).
Proof.
  intros Ht E. unfold Transactor.WithinVar, fault, bind, tick, get_db, ret in *. rewrite Ht.
  cbn. rewrite no_faults. unfold next in E. rewrite E. cbn. by rewrite no_faults.
Qed.
Lemma Within_progress t (fn : IO DB error) w w2 :
  t.(Transactor_db) = true → fn (next w) = (nil_err, w2) →
  Transactor.Within t fn w = (nil_err, next w2).
Proof.
  intros Ht E. unfold Transactor.Within, bind at 1.
  erewrite WithinVar_progress; [reflexivity|done|]. unfold bind, ret. by rewrite E.
Qed.

(** ** A delivery is settled *)
(** The event of a settled delivery enters the outbox. *)
Lemma addDeliveryEvent_progress v eventType subject w :
  unused_ids w →
  ∃ w', Service.addDeliveryEvent v eventType subject w = (nil_err, w') ∧ unused_ids w' ∧
    (w_tick w ≤ w_tick w')%nat.
Proof.
  intros Hf. unfold Service.addDeliveryEvent, uuid, bind, tick, ret. cbn.
  set (id := ext_uuid (w_tick w)).
  pose proof (envelope_made (Service.event_metadata id eventType v) (Service.event_message eventType v)) as He.
  pose proof (envelope_id (Service.event_metadata id eventType v) (Service.event_message eventType v)) as Hi.
  destruct (eventbus_NewEnvelope _ _) as [envelope err]. cbn in He, Hi. subst err. cbn.
  pose proof (envelope_encoded envelope) as Hm.
  destruct (proto_Marshal envelope) as [encoded err]. cbn in Hm. subst err. cbn.
  set (e := Service.outbox_event envelope subject encoded v).
  set (w1 := mkWorld (w_db w) (S (w_tick w)) (w_log w)).
  assert (existsb (event_clash e) (tbl_outbox (view (w_db w1))) = false) as Hc.
  { apply existsb_false. intros r Hr. unfold event_clash. cbn. rewrite Hi. by apply Hf. }
  pose proof (inserts_progress _ _ _ _ _ _ (law_AddOutbox e) w1 no_faults eq_refl Hc) as Hp.
  pose proof (inserts_ok _ _ _ _ _ _ (law_AddOutbox e) w1 Hp) as [_ Hv].
  pose proof (clock_AddOutbox e w1) as Ht.
  destruct (Repository_AddOutbox e w1) as [err w']. cbn in *. subst err.
  exists w'. split; [done|]. split; [|lia].
  intros r n Hr Hn. rewrite Hv in Hr. cbn in Hr.
  apply elem_of_app in Hr as [Hr|[->|[]%elem_of_nil]%elem_of_cons]; [apply Hf; [done|lia]|].
  cbn. rewrite Hi. apply uuid_distinct. lia.
Qed.

(** The row of a claimed delivery: it is the table's, at the claimed version. *)
Definition row_of (t : Tables) (v c : Delivery.t) : Prop :=
  c ∈ t.(tbl_deliveries) ∧ c.(Delivery.ID) = v.(Delivery.ID) ∧
  c.(Delivery.Version) = v.(Delivery.Version) ∧ can_incr 64 c.(Delivery.Version) = true.
Lemma row_of_versioned t v c :
  row_of t v c → versioned_delivery v.(Delivery.ID) v.(Delivery.Version) c = true.
Proof.
  intros (_ & Hi & Hv & _). unfold versioned_delivery. rewrite Hi, Hv, sql_eq_refl. apply Z.eqb_refl.
Qed.

Lemma finish_progress d v c w :
  d.(Dispatcher_transactor).(Transactor_db) = true → unique_tables (view (w_db w)) →
  unused_ids w → row_of (view (w_db w)) v c →
  ∃ w', Dispatch.finish_attempt d v w = (nil_err, w') ∧ unused_ids w' ∧
    settled v (view (w_db w)) (view (w_db w')).
Proof.
  intros Ht Hu Hf Hc. pose proof (row_of_versioned _ _ _ Hc) as Hvc.
  destruct Hc as (Hin & _ & Hv & Hfit).
  assert ((Repository_Finish v v.(Delivery.Version) (next w)).1 = nil_err) as Hp.
  { apply (updates_progress _ _ _ _ _ _ (law_Finish v v.(Delivery.Version))); [done|done| |].
    - apply existsb_exists. exists c. split; [by apply list_elem_of_In|done].
    - intros r _ [_ Hr%Z.eqb_eq]%andb_true_iff. by rewrite Hr, <- Hv. }
  destruct (updates_ok _ _ _ _ _ _ (law_Finish v v.(Delivery.Version)) (next w) Hu Hp)
    as (rows' & _ & Hw1).
  pose proof (clock_Finish v v.(Delivery.Version) (next w)) as Ht1.
  destruct (Repository_Finish v v.(Delivery.Version) (next w)) as [err w1] eqn:E1.
  cbn in Hp, Hw1, Ht1. subst err.
  destruct (addDeliveryEvent_progress { v with Delivery.Version := wrap64 (v.(Delivery.Version) + 1) }
    "platform.notification.v1.NotificationStatusChanged"
    "platform.notification.status.changed.v1" w1) as (w2 & E2 & Hf2 & Ht2).
  { apply (unused_ids_later w); [by rewrite Hw1|lia|done]. }
  assert (Dispatch.finish_closure v (next w) = (nil_err, w2)) as E.
  { unfold Dispatch.finish_closure, bind. rewrite E1. exact E2. }
  exists (next w2). split; [by apply Within_progress|]. split.
  - apply (unused_ids_later w2); [done|cbn; lia|done].
  - exact (finish_closure_ok v (next w) w2 Hu E).
Qed.

Lemma deliver_progress d ctx v c w :
  plain_context ctx → d.(Dispatcher_transactor).(Transactor_db) = true →
  unique_tables (view (w_db w)) → unused_ids w → row_of (view (w_db w)) v c →
  ∃ time w', Dispatch.deliver d ctx v w = (tt, w') ∧ unused_ids w' ∧
    settled (settle d.(Dispatcher_cfg) v time (Dispatch.attempt d ctx v w).1)
      (view (w_db w)) (view (w_db w')).
Proof.
  intros Hctx Ht Hu Hf Hc. unfold Dispatch.deliver.
  pose proof (advances_attempt d ctx v w) as Ha. pose proof (quiet_attempt d ctx v Hctx w) as [Hdb _].
  destruct (Dispatch.attempt d ctx v w) as [outcome w1] eqn:E1. cbn in Ha, Hdb.
  set (time := ext_now (w_tick w1)). set (w2 := mkWorld (w_db w1) (S (w_tick w1)) (w_log w1)).
  set (s := settle d.(Dispatcher_cfg) v time outcome).
  destruct (settle_same d.(Dispatcher_cfg) v time outcome) as (Hi & Hv & _).
  destruct (finish_progress d s c w2) as (w3 & E3 & Hf3 & Hs); [done|by rewrite <- Hdb in Hu| | |].
  - apply (unused_ids_later w); [by cbn; rewrite Hdb|cbn; lia|done].
  - cbn. rewrite Hdb. destruct Hc as (? & ? & ? & ?). unfold row_of. fold s in Hi, Hv.
    by rewrite Hi, Hv.
  - exists time, w3. split.
    { unfold bind. rewrite E1. unfold now, bind, tick, ret. cbn. fold time w2 s. by rewrite E3. }
    split; [done|]. cbn in Hs. by rewrite Hdb in Hs.
Qed.

(** ** A round settles what it claimed *)
Abbreviation same a b := (sql_eq a.(Delivery.ID) b.(Delivery.ID)).
(** The tables that an attempt reads. *)
Definition alike (t t' : Tables) : Prop :=
  t'.(tbl_templates) = t.(tbl_templates) ∧ t'.(tbl_providers) = t.(tbl_providers).
Lemma settled_alike t v t1 t2 : alike t t1 → settled v t1 t2 → alike t t2.
Proof. intros [Ht Hp] (rows' & e & _ & _ & _ & ->). by split. Qed.
(** What handling the claimed deliveries [vs] makes of the row [c]; the attempts
    run in worlds like [t]. *)
Definition handled d ctx (t : Tables) (vs : list Delivery.t) (c c' : Delivery.t) : Prop :=
  (c' = c ∧ ∀ v, v ∈ vs → same c v = false) ∨
  ∃ v time w, v ∈ vs ∧ alike t (view (w_db w)) ∧ same c v = true ∧
    c' = finished_delivery (settle d.(Dispatcher_cfg) v time (Dispatch.attempt d ctx v w).1) c.

(** The rows with the id of a claimed delivery are its row. *)
Lemma row_of_only t v c r :
  unique_tables t → row_of t v c → r ∈ t.(tbl_deliveries) →
  versioned_delivery v.(Delivery.ID) v.(Delivery.Version) r = same r v.
Proof.
  intros Hu Hc Hr. unfold versioned_delivery. destruct (same r v) eqn:E; [|done]. cbn.
  destruct Hc as (Hin & Hi & Hv & _).
  assert (r = c) as ->; [|rewrite Hv; apply Z.eqb_refl].
  apply (same_id _ _ _ (unique_deliveries _ Hu) Hr Hin). by rewrite Hi.
Qed.
(** Settling rewrites that row and leaves the others. *)
Lemma settled_rows_map cfg v c t t' time outcome :
  let s := settle cfg v time outcome in
  unique_tables t → row_of t v c → settled s t t' →
  t'.(tbl_deliveries) =
    map (λ r, if same r v then finished_delivery s r else r) t.(tbl_deliveries).
Proof.
  intros s Hu Hc (rows' & e & Hone & _ & _ & ->). cbn.
  destruct (settle_same cfg v time outcome) as (Hi & Hv & _). fold s in Hi, Hv.
  apply one_updated_as_map in Hone as ->. apply list_fmap_ext. intros i r Hr.
  apply list_elem_of_lookup_2 in Hr. rewrite Hi, Hv. by erewrite row_of_only.
Qed.

Lemma deliver_all_progress d ctx t vs :
  plain_context ctx → d.(Dispatcher_transactor).(Transactor_db) = true →
  ∀ w, alike t (view (w_db w)) → unique_tables (view (w_db w)) → unused_ids w →
  ForallOrdPairs (λ a b, same a b = false) vs →
  (∀ v, v ∈ vs → ∃ c, row_of (view (w_db w)) v c) →
  ∃ f w', Dispatch.deliver_all d ctx vs w = (tt, w') ∧
    alike t (view (w_db w')) ∧ unique_tables (view (w_db w')) ∧ unused_ids w' ∧
    tbl_deliveries (view (w_db w')) = map f (tbl_deliveries (view (w_db w))) ∧
    ∀ r, r ∈ tbl_deliveries (view (w_db w)) → handled d ctx t vs r (f r).
Proof.
  intros Hctx Ht. induction vs as [|v vs IH]; intros w Ha Hu Hf Hd Hrows.
  { exists id, w. rewrite map_id. do 5 (split; [done|]). intros r _. left.
    split; [done|]. by intros v ?%not_elem_of_nil. }
  inversion Hd as [|? ? Hv Hd']; subst. rewrite List.Forall_forall in Hv.
  destruct (Hrows v) as [c Hc]; [left|].
  destruct (deliver_progress d ctx v c w Hctx Ht Hu Hf Hc) as (time & w1 & E1 & Hf1 & Hs).
  pose proof (settled_alike _ _ _ _ Ha Hs) as Ha1.
  pose proof (settled_rows_map _ _ _ _ _ _ _ Hu Hc Hs) as Hr1. cbn zeta in Hr1.
  set (g := λ r, if same r v then _ else r) in Hr1.
  assert (∀ v' r, v' ∈ vs → same r v = true → same r v' = false) as Hother.
  { intros v' r Hv' Hr. apply not_true_iff_false. intros Hr'.
    apply list_elem_of_In, Hv in Hv'. rewrite (sql_eq_trans v.(Delivery.ID) r.(Delivery.ID)) in Hv';
      [done|by rewrite sql_eq_comm|done]. }
  destruct (IH w1) as (f & w' & E' & Ha' & Hu' & Hf' & Hr' & Hall);
    [done|by eapply settled_unique|done|done| |].
  { intros v' Hv'. destruct (Hrows v') as (c' & Hin & Hi' & Hr); [by right|]. exists c'.
    split; [|done]. rewrite Hr1. apply list_elem_of_fmap. exists c'. split; [|done]. unfold g.
    destruct (same c' v) eqn:Es; [|done].
    apply (Hother v') in Es; [|done]. by rewrite Hi', sql_eq_refl in Es. }
  exists (f ∘ g), w'. split; [cbn [Dispatch.deliver_all]; unfold bind; by rewrite E1|].
  do 3 (split; [done|]). split; [by rewrite Hr', Hr1, map_map|]. intros r Hr.
  assert (g r ∈ tbl_deliveries (view (w_db w1))) as Hg
    by (rewrite Hr1; apply list_elem_of_fmap; by exists r).
  specialize (Hall (g r) Hg). cbn. unfold g in Hall |- *. destruct (same r v) eqn:Es.
  - right. exists v, time, w. split; [left|]. do 2 (split; [done|]).
    destruct Hall as [[? _]|(v' & ? & ? & Hv' & _ & Hn & _)]; [done|].
    by rewrite (Hother v' r Hv' Es : same (finished_delivery _ r) v' = false) in Hn.
  - destruct Hall as [[? Hn]|(v' & t' & w0 & Hv' & Hsame & ?)].
    + left. split; [done|]. by intros v' [->|Hv']%elem_of_cons; [|apply Hn].
    + right. exists v', t', w0. split; [by right|done].
Qed.

(** ** The claim *)
(** The claim's reading of the clock, the second answer of its round. *)
Definition claim_time w : Z := ext_now (w_tick (next w)).
Lemma claim_progress d w :
  d.(Dispatcher_transactor).(Transactor_db) = true →
  0 ≤ d.(Dispatcher_cfg).(Notification_BatchSize) → unique_tables (view (w_db w)) →
  (∀ r, r ∈ tbl_deliveries (view (w_db w)) → claim_fits r = true) →
  ∃ rows vs w', Dispatch.claim d w = ((vs, nil_err), w') ∧ (w_tick w ≤ w_tick w')%nat ∧
    claim_spec (claim_time w) d.(Dispatcher_cfg).(Notification_BatchSize) (view (w_db w)) rows vs
      (view (w_db w')).
Proof.
  intros Ht Hb Hu Hfit. set (limit := d.(Dispatcher_cfg).(Notification_BatchSize)) in *.
  set (time := claim_time w). set (w1 := next (next w)).
  pose proof (law_ClaimDue_progress time limit w1 no_faults Hu Hb (λ r Hr _, Hfit r Hr)) as Hp.
  destruct (Repository_ClaimDue time limit w1) as [[vs err] w2] eqn:E. cbn in Hp. subst err.
  destruct (law_ClaimDue time limit w1 vs w2 Hu E) as [rows Hc].
  assert (Dispatch.claim d w = ((vs, nil_err), next w2)) as Ec.
  { apply WithinVar_progress; [done|]. exact E. }
  exists rows, vs, (next w2). split; [exact Ec|]. split; [|exact Hc].
  pose proof (advances_claim d w) as Ha. by rewrite Ec in Ha.
Qed.

(** The claimed rows are in the table, each at its new version, and no two of them
    have the same id. *)
Lemma claim_rows time limit t rows vs t' :
  claim_spec time limit t rows vs t' →
  (∀ r, r ∈ t.(tbl_deliveries) → can_incr 64 (r.(Delivery.Version) + 1) = true) →
  ∀ v, v ∈ vs → ∃ c, row_of t' v c.
Proof.
  intros Hc Hfit v Hv. rewrite (claim_handed _ _ _ _ _ _ Hc) in Hv.
  apply list_elem_of_fmap in Hv as (r & -> & Hr).
  destruct (claim_due _ _ _ _ _ _ Hc r Hr) as [Hin _].
  exists (claimed_delivery time r). split; [|by split_and!; [..|apply Hfit]].
  rewrite (claim_after _ _ _ _ _ _ Hc). apply list_elem_of_fmap. exists r.
  by rewrite bool_decide_eq_true_2.
Qed.
Lemma handed_distinct time limit t rows vs t' :
  claim_spec time limit t rows vs t' → unique_tables t →
  ForallOrdPairs (λ a b, sql_eq a.(Delivery.ID) b.(Delivery.ID) = false) vs.
Proof.
  intros Hc Hu. rewrite (claim_handed _ _ _ _ _ _ Hc).
  pose proof (claim_distinct _ _ _ _ _ _ Hc Hu) as Hd. clear Hc.
  induction Hd as [|r rows Hr _ IH]; cbn [map]; constructor; [|exact IH].
  rewrite List.Forall_map. exact Hr.
Qed.

(** The row of a delivery that a round claimed at [claim] and attempted in a world
    like [t]. *)
Definition attempted d ctx (t : Tables) (claim : Z) (r r' : Delivery.t) : Prop :=
  ∃ time w, alike t (view (w_db w)) ∧
    r' = finished_delivery
      (settle d.(Dispatcher_cfg) (handed_out claim r) time
        (Dispatch.attempt d ctx (handed_out claim r) w).1)
      (claimed_delivery claim r).
(** The state that it is in. *)
Definition settled_status (cfg : Notification) (r : Delivery.t) : Prop :=
  r.(Delivery.Status) = "sent" ∨
  (r.(Delivery.Status) = "retrying" ∧ r.(Delivery.Attempts) < cfg.(Notification_MaxAttempts)) ∨
  (r.(Delivery.Status) = "dead_letter" ∧ cfg.(Notification_MaxAttempts) ≤ r.(Delivery.Attempts)).
Lemma attempted_row d ctx t claim r r' :
  attempted d ctx t claim r r' →
  r'.(Delivery.ID) = r.(Delivery.ID) ∧ r'.(Delivery.Version) = r.(Delivery.Version) + 2 ∧
  r'.(Delivery.Attempts) = r.(Delivery.Attempts) + 1 ∧ settled_status d.(Dispatcher_cfg) r'.
Proof.
  intros (time & w & _ & ->). split; [done|].
  split; [change (r.(Delivery.Version) + 1 + 1 = r.(Delivery.Version) + 2); lia|]. split; [done|].
  destruct (Dispatch.attempt _ _ _ _).1 as [res err]. unfold settle.
  destruct (is_nil err); [by left|right].
  match goal with |- context[if ?b then _ else _] => destruct b eqn:E end.
  - right. apply Z.leb_le in E. done.
  - left. apply Z.leb_gt in E. done.
Qed.

(** A round succeeds: every claimed row is attempted and the others stay. *)
Lemma round_progress d ctx w :
  plain_context ctx → d.(Dispatcher_transactor).(Transactor_db) = true →
  0 ≤ d.(Dispatcher_cfg).(Notification_BatchSize) →
  unique_tables (view (w_db w)) → unused_ids w →
  (∀ r, r ∈ tbl_deliveries (view (w_db w)) →
    claim_fits r = true ∧ can_incr 64 (r.(Delivery.Version) + 1) = true) →
  ∃ rows vs t1 f w', Dispatch.RunOnce d ctx w = ((Z.of_nat (length rows), nil_err), w') ∧
    claim_spec (claim_time w) d.(Dispatcher_cfg).(Notification_BatchSize) (view (w_db w)) rows vs t1 ∧
    alike (view (w_db w)) (view (w_db w')) ∧ unique_tables (view (w_db w')) ∧ unused_ids w' ∧
    tbl_deliveries (view (w_db w')) = map f (tbl_deliveries (view (w_db w))) ∧
    ∀ r, r ∈ tbl_deliveries (view (w_db w)) →
      (r ∈ rows → attempted d ctx (view (w_db w)) (claim_time w) r (f r)) ∧ (r ∉ rows → f r = r).
Proof.
  intros Hctx Ht Hb Hu Hf Hfit.
  destruct (claim_progress d w Ht Hb Hu (λ r Hr, proj1 (Hfit r Hr))) as (rows & vs & w1 & E1 & Ht1 & Hc).
  pose proof (claim_after _ _ _ _ _ _ Hc) as Ha. pose proof (claim_handed _ _ _ _ _ _ Hc) as Hvs.
  destruct (deliver_all_progress d ctx (view (w_db w)) vs Hctx Ht w1)
    as (f & w' & E' & Ha' & Hu' & Hf' & Hr' & Hall).
  - by rewrite Ha.
  - by eapply claim_unique.
  - apply (unused_ids_later w); [by rewrite Ha|done|done].
  - by eapply handed_distinct.
  - eapply claim_rows; [exact Hc|]. intros r Hr. apply Hfit. exact Hr.
  - set (g := λ r, if bool_decide (r ∈ rows) then claimed_delivery (claim_time w) r else r).
    exists rows, vs, (view (w_db w1)), (f ∘ g), w'.
    split; [unfold Dispatch.RunOnce, bind; rewrite E1; cbn [failed is_nil negb]; rewrite E';
      by rewrite Hvs, length_map|].
    do 4 (split; [done|]). rewrite Ha in Hr', Hall. split; [rewrite Hr'; exact (map_map g f _)|].
    intros r Hr. assert (g r ∈ map g (tbl_deliveries (view (w_db w)))) as Hg
      by (apply list_elem_of_fmap; by exists r).
    assert (∀ v, v ∈ vs → same r v = true → r ∈ rows ∧ v = handed_out (claim_time w) r) as Honly.
    { intros v Hv Hs. rewrite Hvs in Hv. apply list_elem_of_fmap in Hv as (r2 & -> & Hr2).
      assert (r = r2) as ->; [|done].
      by apply (same_id _ _ _ (unique_deliveries _ Hu) Hr); [apply (claim_due _ _ _ _ _ _ Hc)|]. }
    specialize (Hall (g r) Hg). cbn. unfold g in Hall |- *. split; intros Hin.
    + rewrite bool_decide_eq_true_2 in Hall |- * by done.
      destruct Hall as [[_ Hn]|(v & time & w0 & Hv & Hw0 & Hs & ->)].
      * assert (handed_out (claim_time w) r ∈ vs) as Hh by (rewrite Hvs; apply list_elem_of_fmap; by exists r).
        specialize (Hn _ Hh). cbn in Hn. by rewrite sql_eq_refl in Hn.
      * destruct (Honly v Hv Hs) as [_ ->]. by exists time, w0.
    + rewrite bool_decide_eq_false_2 in Hall |- * by done.
      destruct Hall as [[-> _]|(v & _ & _ & Hv & _ & Hs & _)]; [done|]. by destruct (Honly v Hv Hs).
Qed.

(** C7 Progress.  Without faults of the database, with working event envelopes and
    fresh ids, a round of the dispatcher succeeds and settles every delivery that
    it claims: each claimed row was due at the clock reading of the claim (the
    second answer that the round gets, after the one that opens its transaction),
    and ends at its second next version as sent, waiting for a retry, or
    dead-lettered, never left in processing.  When no other transaction holds a
    row and the batch was not filled, these are all the deliveries that were due
    at that reading. *)
Theorem RunOnce_settles d ctx w :
  plain_context ctx → d.(Dispatcher_transactor).(Transactor_db) = true →
  0 ≤ d.(Dispatcher_cfg).(Notification_BatchSize) →
  unique_tables (view (w_db w)) → unused_ids w →
  (∀ r, r ∈ tbl_deliveries (view (w_db w)) →
    claim_fits r = true ∧ can_incr 64 (r.(Delivery.Version) + 1) = true) →
  let time := ext_now (S (w_tick w)) in
  ∃ rows w', Dispatch.RunOnce d ctx w = ((Z.of_nat (length rows), nil_err), w') ∧
    (∀ r, r ∈ rows → r ∈ tbl_deliveries (view (w_db w)) ∧ due time r = true ∧
      ∃ r', r' ∈ tbl_deliveries (view (w_db w')) ∧ r'.(Delivery.ID) = r.(Delivery.ID) ∧
        r'.(Delivery.Version) = r.(Delivery.Version) + 2 ∧
        r'.(Delivery.Status) ∈ ["sent"; "retrying"; "dead_letter"]) ∧
    ((∀ n id, ext_locked n id = false) →
     Z.of_nat (length rows) < d.(Dispatcher_cfg).(Notification_BatchSize) →
     ∀ r, r ∈ tbl_deliveries (view (w_db w)) → due time r = true → r ∈ rows).
Proof.
  intros Hctx Ht Hb Hu Hf Hfit time. change time with (claim_time w).
  destruct (round_progress d ctx w Hctx Ht Hb Hu Hf Hfit)
    as (rows & vs & t1 & f & w' & E & Hc & _ & _ & _ & Hr' & Hall).
  exists rows, w'. split; [exact E|]. split; [|exact (claim_complete _ _ _ _ _ _ Hc)].
  intros r Hr. destruct (claim_due _ _ _ _ _ _ Hc r Hr) as [Hin Hd]. do 2 (split; [done|]).
  exists (f r). split; [rewrite Hr'; apply list_elem_of_fmap; by exists r|].
  destruct (attempted_row _ _ _ _ _ _ (proj1 (Hall r Hin) Hr)) as (? & ? & _ & Hs).
  unfold settled_status in Hs. do 2 (split; [done|]).
  rewrite !elem_of_cons. tauto.
Qed.
End Dispatching.
