(* ===== verification/Cleanup.v ===== *)
(** * internal/notification/cleanup.go: the retention cleaner *)

From S2P Require Import Prelude AppError Config Effects Model Database Repository Unique Clock.
Open Scope string_scope.
Open Scope list_scope.
Open Scope Z_scope.
Open Scope go_scope.

Record RetentionCleaner := mkRetentionCleaner {
  Cleaner_retention : Z; Cleaner_interval : Z; Cleaner_batchSize : Z; Cleaner_enabled : bool }.

Module Cleaner.
(** [repository] and [logger] tell whether the dependency was given. *)
Definition NewRetentionCleaner (repository logger : bool) (cfg : Config)
    : option RetentionCleaner * error :=
  if negb repository || negb logger
  then (None, ErrMsg "notification retention cleaner dependencies are required") else
  let n := cfg.(Config_Notification) in
  (Some {|
    Cleaner_retention := if n.(Notification_Retention) <=? 0 then 30 * 24 * hour
                         else n.(Notification_Retention);
    Cleaner_interval := if n.(Notification_CleanupInterval) <=? 0 then hour
                        else n.(Notification_CleanupInterval);
    Cleaner_batchSize := if n.(Notification_CleanupBatchSize) <=? 0 then 500
                         else n.(Notification_CleanupBatchSize);
    Cleaner_enabled := cfg.(Config_Database).(Database_Enabled) |}, nil_err).

Section Methods.
Context `{Externals} {DB : Type} `{!Repository DB}.
Implicit Types c : RetentionCleaner.

(** The loop of [clean], with at most [fuel] rounds; [None] when they were not
    enough. *)
Fixpoint clean_loop c (fuel : nat) : IO DB (option error) :=
  match fuel with
  | O => ret None
  | S fuel =>
      let! now := now in
      let! (deleted, err) :=
        Repository_DeleteTerminalDeliveriesBefore (now + - c.(Cleaner_retention))
          c.(Cleaner_batchSize) in
      when! failed err return! Some err;
      when! deleted <? c.(Cleaner_batchSize) return! Some nil_err;
      clean_loop c fuel
  end.

(** The cleaner's goroutine: a run of [clean], with the given fuel, per tick
    until its context is done; the errors it logs ([None] for a run whose fuel
    was not enough). *)
Fixpoint run c (fuel rounds : nat) : IO DB (list (option error)) :=
  let! err := clean_loop c fuel in
  let logged := match err with
    | Some err => if failed err && negb (error_is err ErrCanceled) then [Some err] else []
    | None => [None]
    end in
  match rounds with
  | O => ret logged
  | S rounds => let! rest := run c fuel rounds in ret (logged ++ rest)
  end.
Definition start c (fuel rounds : nat) : IO DB (list (option error)) :=
  if negb c.(Cleaner_enabled) then ret [] else run c fuel rounds.
End Methods.
End Cleaner.

Section Theorems.
Context `{Externals} `{DialectLaws} {DB : Type} `{!Repository DB} `{!RepositoryView DB}
  `{!RepositoryLaws DB} `{!RepositoryClock DB}.
Implicit Types (c : RetentionCleaner) (w : World DB Event).

(** Retention removed rows and changed nothing else: what is left is the old
    table without some rows, each of them sent or dead-lettered and older than a
    cutoff of which [cutoff] holds. *)
Definition retained (cutoff : Z → Prop) (t t' : Tables) : Prop :=
  ∃ gone : Delivery.t → bool,
    t' = set_deliveries (filter (λ r, gone r = false) t.(tbl_deliveries)) t ∧
    ∀ r, r ∈ t.(tbl_deliveries) → gone r = true →
      ∃ before, cutoff before ∧ expired before r = true.

(** The cutoffs of a run of the cleaner from [w] to [w']: the clock, read in the
    run, minus the retention. *)
Definition cutoff_of c w w' (before : Z) : Prop :=
  ∃ k, (w_tick w ≤ k < w_tick w')%nat ∧ before = ext_now k - c.(Cleaner_retention).

Lemma cutoff_of_wider c w1 w2 w1' w2' before :
  (w_tick w1' ≤ w_tick w1)%nat → (w_tick w2 ≤ w_tick w2')%nat →
  cutoff_of c w1 w2 before → cutoff_of c w1' w2' before.
Proof. intros ? ? (k & Hk & ->). exists k. split; [lia|done]. Qed.

Lemma retained_refl cutoff t : retained cutoff t t.
Proof.
  exists (λ _, false). split; [|done].
  assert (∀ l : list Delivery.t, filter (λ r, false = false) l = l) as ->.
  { intros l. induction l as [|x l IH]; [done|]. by rewrite filter_cons_True, IH by done. }
  by destruct t.
Qed.

Lemma retained_trans cutoff t1 t2 t3 :
  retained cutoff t1 t2 → retained cutoff t2 t3 → retained cutoff t1 t3.
Proof.
  intros (g1 & -> & Hg1) (g2 & -> & Hg2). exists (λ r, g1 r || g2 r). cbn in *. split.
  - unfold set_deliveries. cbn. do 3 f_equal. unfold constant. rewrite list_filter_filter.
    apply list_filter_iff. intros r. rewrite orb_false_iff. tauto.
  - intros r Hr [Hg|Hg]%orb_true_iff; [eauto|].
    destruct (g1 r) eqn:E; [eauto|]. apply Hg2; [|done]. by apply list_elem_of_filter.
Qed.

Lemma retained_weaken (P Q : Z → Prop) t t' :
  (∀ before, P before → Q before) → retained P t t' → retained Q t t'.
Proof.
  intros Hpq (gone & -> & Hg). exists gone. split; [done|]. intros r Hr Hgone.
  destruct (Hg r Hr Hgone) as (before & ? & ?). eauto.
Qed.

Lemma delete_retained (cutoff : Z → Prop) before limit w :
  cutoff before →
  retained cutoff (view (w_db w))
    (view (w_db (Repository_DeleteTerminalDeliveriesBefore before limit w).2)).
Proof.
  intros Hc. destruct (law_Delete_safe before limit w) as (gone & E & Hg). exists gone.
  split; [done|]. intros r _ Hr. eauto.
Qed.

Lemma retained_unique cutoff t t' : retained cutoff t t' → unique_tables t → unique_tables t'.
Proof.
  intros (gone & -> & _) [Hp Ht Hd Ho]. split; [done..| |done]. cbn.
  erewrite list_filter_iff; [by apply (pairwise_free_filter _ (λ r, negb (gone r)))|].
  intros r. by rewrite negb_true_iff.
Qed.

(** Deleting a full batch makes the table shorter by the batch. *)
Lemma delete_shorter before limit t n t' :
  delete_spec before limit t n t' →
  Z.of_nat (length t.(tbl_deliveries)) = Z.of_nat (length t'.(tbl_deliveries)) + n.
Proof.
  intros [(gone & -> & -> & _) _ _].
  change (tbl_deliveries { t with tbl_deliveries := ?l }) with l.
  generalize (tbl_deliveries t) as rows. induction rows as [|r rows IH]; [done|].
  rewrite !filter_cons. destruct (gone r); repeat case_decide; try done; cbn [length]; lia.
Qed.

(** One round of the loop. *)
Lemma clean_loop_step c fuel w :
  Cleaner.clean_loop c (S fuel) w =
    let '(deleted, err, w2) := Repository_DeleteTerminalDeliveriesBefore
      (ext_now (w_tick w) + - c.(Cleaner_retention)) c.(Cleaner_batchSize)
      (mkWorld (w_db w) (S (w_tick w)) (w_log w)) in
    if failed err then (Some err, w2)
    else if deleted <? c.(Cleaner_batchSize) then (Some nil_err, w2)
    else Cleaner.clean_loop c fuel w2.
Proof.
  cbn [Cleaner.clean_loop]. unfold bind, now, tick, ret. cbn.
  destruct (Repository_DeleteTerminalDeliveriesBefore _ _ _) as [[deleted err] w2].
  destruct (failed err); [done|]. by destruct (deleted <? _).
Qed.

Lemma advances_clean_loop c fuel : advances (Cleaner.clean_loop c fuel).
Proof.
  induction fuel as [|fuel IH]; cbn [Cleaner.clean_loop]; [clocked|].
  apply advances_bind; [clocked|intros time]. apply advances_bind; [clocked|].
  intros [deleted err]. clocked.
Qed.

(** C27 Retention terminates and is safe.  With a positive batch size one run of
    [clean] ends within as many rounds as there are deliveries, plus one.
    Whatever happens it has removed only deliveries that were sent or
    dead-lettered and older than the retention at a reading of the clock in this
    run, and touched no other table; when it ends without an error there is such a
    reading at which no sent or dead-lettered delivery that is left is older than
    the retention. *)
Theorem clean_terminates c w :
  0 < c.(Cleaner_batchSize) → unique_tables (view (w_db w)) →
  ∃ err w', Cleaner.clean_loop c (S (length (tbl_deliveries (view (w_db w))))) w
      = (Some err, w') ∧
    retained (cutoff_of c w w') (view (w_db w)) (view (w_db w')) ∧
    (err = nil_err → ∃ before, cutoff_of c w w' before ∧
       ∀ r, r ∈ tbl_deliveries (view (w_db w')) → expired before r = false).
Proof.
  intros Hb. remember (length (tbl_deliveries (view (w_db w)))) as n eqn:Hn.
  assert (length (tbl_deliveries (view (w_db w))) ≤ n)%nat as Hle by lia. clear Hn.
  revert w Hle. induction n as [|n IH]; intros w Hle Hu; rewrite clean_loop_step;
    set (w1 := mkWorld (w_db w) (S (w_tick w)) (w_log w));
    set (before := ext_now (w_tick w) + - c.(Cleaner_retention));
    pose proof (clock_Delete before c.(Cleaner_batchSize) w1) as Ht;
    pose proof (λ cutoff, delete_retained cutoff before c.(Cleaner_batchSize) w1) as Hret;
    destruct (Repository_DeleteTerminalDeliveriesBefore before c.(Cleaner_batchSize) w1)
      as [[deleted err] w2] eqn:E; cbn in Hret, Ht;
    assert (∀ w', (w_tick w2 ≤ w_tick w')%nat → cutoff_of c w w' before) as Hcut
      by (intros w' Hw'; exists (w_tick w); split; [lia|done]);
    (destruct (failed err) eqn:Ef;
     [by (do 2 eexists; split_and!; [reflexivity|by apply Hret, Hcut|by intros ->])|]);
    apply failed_nil in Ef as ->;
    pose proof (law_Delete before c.(Cleaner_batchSize) w1 _ _ Hu E) as Hd;
    pose proof (delete_shorter _ _ _ _ _ Hd) as Hlen; cbn in Hlen;
    destruct (deleted <? c.(Cleaner_batchSize)) eqn:Elt.
  1, 3: apply Z.ltb_lt in Elt; do 2 eexists; split_and!; [reflexivity|by apply Hret, Hcut|];
    intros _; exists before; split; [by apply Hcut|exact (delete_all _ _ _ _ _ Hd Elt)].
  - exfalso. apply Z.ltb_ge in Elt. lia.
  - apply Z.ltb_ge in Elt.
    destruct (IH w2) as (e & w' & E' & Hr & Hn); [lia|eapply retained_unique, Hu; by apply Hret, (Hcut w2)|].
    pose proof (advances_clean_loop c (S n) w2) as Ha. rewrite E' in Ha. cbn in Ha.
    assert (∀ x, cutoff_of c w2 w' x → cutoff_of c w w' x) as Hw by (intros x; apply cutoff_of_wider; lia).
    exists e, w'. split_and!; [exact E'| |].
    + eapply retained_trans; [by apply Hret, Hcut|by eapply retained_weaken].
    + intros He. destruct (Hn He) as (x & Hx & ?). eauto.
Qed.
End Theorems.
