(* ===== verification/System.v ===== *)
(** * The life of a delivery

    The service, any number of dispatchers, provider receipts and the retention
    cleaner share the tables.  A step of the system is one transaction of one
    of them, or a process that stops in between: a dispatcher holds the
    deliveries it claimed ([sys_tasks]) and a receipt handler what it read and
    is about to write ([sys_receipts]) while the others run.  The steps are the
    relations that ServiceSpec.v, DispatcherSpec.v and Cleanup.v prove of the
    code; [RunOnce_refines] and the theorems after it say so. *)

From S2P Require Import Prelude GoStrings AppError Config Reqctx Effects Model Libraries Database.
From S2P Require Import Repository Unique Service ServiceSpec Outbound Dispatcher DispatcherSpec.
From S2P Require Import Cleanup.
Open Scope string_scope.
Open Scope list_scope.
Open Scope Z_scope.
Open Scope go_scope.

Definition statuses : list string :=
  ["pending"; "processing"; "retrying"; "sent"; "dead_letter"; "delivered"; "bounced"; "failed"].

(** What the program relies on of the collation for its own words: the status
    names are different, and only the empty string equals an empty column. *)
Class StatusLaws `{Dialect} : Prop := {
  status_eq : ∀ a b, a ∈ statuses → b ∈ statuses → sql_eq a b = true → a = b;
  blank_eq : ∀ a, sql_eq "" a = true → a = "" }.

Ltac listed := unfold statuses; rewrite !elem_of_cons; solve [auto 10].

Record Sys := mkSys {
  sys_tables : Tables;
  sys_tasks : list Delivery.t;
  sys_receipts : list Delivery.t }.

Section System.
Context `{LibraryText} `{JSONLibrary} `{EventLibrary} `{Externals} `{Dialect}.
Variable cfg : Notification.

Inductive step : Sys → Sys → Prop :=
  | step_send t t' tasks receipts v :
      requested v t t' → v.(Delivery.Status) = "pending" → v.(Delivery.Version) = 1 →
      v.(Delivery.Attempts) = 0 → v.(Delivery.ProviderMessageID) = "" →
      Forall (λ d, sql_eq v.(Delivery.ID) d.(Delivery.ID) = false) receipts →
      step (mkSys t tasks receipts) (mkSys t' tasks receipts)
  | step_admin t t' tasks receipts :
      t'.(tbl_deliveries) = t.(tbl_deliveries) → unique_tables t' →
      step (mkSys t tasks receipts) (mkSys t' tasks receipts)
  | step_claim t t' tasks receipts now limit rows vs :
      claim_spec now limit t rows vs t' →
      step (mkSys t tasks receipts) (mkSys t' (tasks ++ vs) receipts)
  | step_settle t t' tasks1 v tasks2 receipts now outcome :
      settled (settle cfg v now outcome) t t' →
      step (mkSys t (tasks1 ++ v :: tasks2) receipts) (mkSys t' (tasks1 ++ tasks2) receipts)
  | step_stop t tasks1 v tasks2 receipts :
      step (mkSys t (tasks1 ++ v :: tasks2) receipts) (mkSys t (tasks1 ++ tasks2) receipts)
  | step_read t tasks receipts d messageID statusValue reason now actor :
      d ∈ t.(tbl_deliveries) → messageID ≠ "" →
      sql_eq d.(Delivery.ProviderMessageID) messageID = true →
      terminalDeliveryStatus d.(Delivery.Status) = false →
      validReceiptStatus statusValue = true →
      step (mkSys t tasks receipts)
           (mkSys t tasks (receipts ++ [Service.received d statusValue reason now actor]))
  | step_receive t t' tasks receipts1 d receipts2 :
      settled d t t' →
      step (mkSys t tasks (receipts1 ++ d :: receipts2)) (mkSys t' tasks (receipts1 ++ receipts2))
  | step_forget t tasks receipts1 d receipts2 :
      step (mkSys t tasks (receipts1 ++ d :: receipts2)) (mkSys t tasks (receipts1 ++ receipts2))
  | step_clean t t' tasks receipts :
      retained (λ _, True) t t' →
      step (mkSys t tasks receipts) (mkSys t' tasks receipts).

Definition initial : Sys := mkSys no_rows [] [].
Definition reachable (s : Sys) : Prop := rtc step initial s.

(** ** The invariant *)

Abbreviation Max := cfg.(Notification_MaxAttempts).

(** The state of a row: its status, with the attempts and the version it can
    have.  A claim and a settlement each add one to the version, a claim also
    one to the attempts; a message id comes with "sent". *)
Inductive lifecycle (r : Delivery.t) : Prop :=
  | life_pending : r.(Delivery.Status) = "pending" → r.(Delivery.Attempts) = 0 →
      r.(Delivery.Version) = 1 → r.(Delivery.ProviderMessageID) = "" → lifecycle r
  | life_processing : r.(Delivery.Status) = "processing" → 1 ≤ r.(Delivery.Attempts) ≤ Max →
      r.(Delivery.Version) = 2 * r.(Delivery.Attempts) →
      r.(Delivery.ProviderMessageID) = "" → lifecycle r
  | life_retrying : r.(Delivery.Status) = "retrying" → 1 ≤ r.(Delivery.Attempts) < Max →
      r.(Delivery.Version) = 2 * r.(Delivery.Attempts) + 1 →
      r.(Delivery.ProviderMessageID) = "" → lifecycle r
  | life_dead_letter : r.(Delivery.Status) = "dead_letter" → r.(Delivery.Attempts) = Max →
      r.(Delivery.Version) = 2 * r.(Delivery.Attempts) + 1 →
      r.(Delivery.ProviderMessageID) = "" → lifecycle r
  | life_sent : r.(Delivery.Status) = "sent" → 1 ≤ r.(Delivery.Attempts) ≤ Max →
      r.(Delivery.Version) = 2 * r.(Delivery.Attempts) + 1 → lifecycle r
  | life_received : validReceiptStatus r.(Delivery.Status) = true →
      1 ≤ r.(Delivery.Attempts) ≤ Max →
      r.(Delivery.Version) = 2 * r.(Delivery.Attempts) + 2 → lifecycle r.

(** A claimed copy matches its row, which is still being processed. *)
Definition task_row (rows : list Delivery.t) (v : Delivery.t) : Prop :=
  v.(Delivery.ProviderMessageID) = "" ∧
  ∃ r, r ∈ rows ∧ r.(Delivery.Status) = "processing" ∧ r.(Delivery.ID) = v.(Delivery.ID) ∧
    r.(Delivery.Version) = v.(Delivery.Version) ∧ r.(Delivery.Attempts) = v.(Delivery.Attempts).

(** A receipt to write: its delivery has moved on, or is sent. *)
Definition receipt_row (rows : list Delivery.t) (d : Delivery.t) : Prop :=
  validReceiptStatus d.(Delivery.Status) = true ∧
  ∀ r, r ∈ rows → sql_eq r.(Delivery.ID) d.(Delivery.ID) = true →
    d.(Delivery.Version) ≤ r.(Delivery.Version) ∧
    (r.(Delivery.Version) = d.(Delivery.Version) → r.(Delivery.Status) = "sent").

Record inv (s : Sys) : Prop := {
  inv_unique : unique_tables s.(sys_tables);
  inv_rows : ∀ r, r ∈ s.(sys_tables).(tbl_deliveries) → lifecycle r;
  inv_tasks : ∀ v, v ∈ s.(sys_tasks) → task_row s.(sys_tables).(tbl_deliveries) v;
  inv_exclusive : NoDup (map Delivery.ID s.(sys_tasks));
  inv_receipts : ∀ d, d ∈ s.(sys_receipts) →
    receipt_row s.(sys_tables).(tbl_deliveries) d }.

Lemma inv_initial : inv initial.
Proof.
  split; cbn; try (by intros ? ?%not_elem_of_nil); [|constructor].
  split; cbn; intros i j a b Hi; by rewrite lookup_nil in Hi.
Qed.

(** ** Preservation *)
Context `{!DialectLaws} `{!StatusLaws}.
Hypothesis Max_pos : 1 ≤ Max.

(** What a settlement does to the rows. *)
Lemma settled_rows d t t' :
  settled d t t' → unique_tables t →
  ∃ r, r ∈ t.(tbl_deliveries) ∧ sql_eq r.(Delivery.ID) d.(Delivery.ID) = true ∧
    r.(Delivery.Version) = d.(Delivery.Version) ∧
    (∀ x, x ∈ t'.(tbl_deliveries) →
       x = finished_delivery d r ∨ (x ∈ t.(tbl_deliveries) ∧ x ≠ r)) ∧
    (∀ x, x ∈ t.(tbl_deliveries) → x ≠ r → x ∈ t'.(tbl_deliveries)).
Proof.
  intros (rows' & e & (l1 & r & l2 & Hl & -> & Hp & _) & _ & _ & ->) Hu. cbn.
  pose proof (unique_deliveries _ Hu) as Hf.
  pose proof (pairwise_free_nodup _ _ delivery_clash_refl Hf) as Hnd.
  rewrite Hl in Hnd |- *. apply NoDup_app in Hnd as (Hn1 & Hd & [Hr Hn2]%NoDup_cons).
  apply andb_true_iff in Hp as [Hid Hv%Z.eqb_eq].
  exists r. setoid_rewrite elem_of_app. setoid_rewrite elem_of_cons.
  split_and!; [auto|done|done| |].
  - intros x [Hx|[->|Hx]]; [right|by left|right]; split; [auto| |auto|by intros ->].
    intros ->. apply (Hd _ Hx). left.
  - intros x [Hx|[->|Hx]] Hne; auto. done.
Qed.

Lemma status_in r : lifecycle r → r.(Delivery.Status) ∈ statuses.
Proof.
  unfold statuses. destruct 1 as [-> | -> | -> | -> | -> | Hs]; try listed.
  unfold validReceiptStatus in Hs. bools. destruct Hs as [[-> | ->] | ->]; listed.
Qed.

Lemma due_status now r :
  lifecycle r → due now r = true →
  r.(Delivery.Status) = "pending" ∨ r.(Delivery.Status) = "retrying".
Proof.
  intros Hl%status_in [Hd _]%andb_true_iff. apply orb_true_iff in Hd as [Hd|Hd];
    apply status_eq in Hd; auto; listed.
Qed.

Lemma expired_status before r :
  lifecycle r → expired before r = true →
  r.(Delivery.Status) = "sent" ∨ r.(Delivery.Status) = "dead_letter".
Proof.
  intros Hl%status_in [Hd _]%andb_true_iff. apply orb_true_iff in Hd as [Hd|Hd];
    apply status_eq in Hd; auto; listed.
Qed.

Lemma due_unsent now r :
  lifecycle r → due now r = true → r.(Delivery.ProviderMessageID) = "".
Proof.
  intros Hl Hd. destruct (due_status _ _ Hl Hd) as [E|E];
    destruct Hl as [| | | |Hs|Hs]; try done; rewrite E in Hs; done.
Qed.

(** *** Rows *)
Lemma claimed_lifecycle now r :
  lifecycle r → due now r = true → lifecycle (claimed_delivery now r).
Proof.
  intros Hl Hd. destruct (due_status _ _ Hl Hd) as [E|E].
  all: destruct Hl as [Hs Ha Hv Hm|Hs Ha Hv Hm|Hs Ha Hv Hm|Hs Ha Hv Hm|Hs Ha Hv|Hs Ha Hv];
    try congruence; try (rewrite E in Hs; done).
  all: apply life_processing; cbn [Delivery.Status claimed_delivery];
    change (Delivery.Attempts (claimed_delivery now r)) with (r.(Delivery.Attempts) + 1);
    change (Delivery.Version (claimed_delivery now r)) with (r.(Delivery.Version) + 1); try done; lia.
Qed.

(** The outcome of an attempt, on the row that is being processed. *)
Lemma finished_lifecycle v now outcome r :
  lifecycle r → r.(Delivery.Status) = "processing" →
  r.(Delivery.Attempts) = v.(Delivery.Attempts) → v.(Delivery.ProviderMessageID) = "" →
  lifecycle (finished_delivery (settle cfg v now outcome) r).
Proof.
  intros Hl Hs Ha Hm. destruct Hl as [Hs' ?|Hs' Hb Hv Hm'|Hs'|Hs'|Hs'|Hs']; try congruence;
    [|by rewrite Hs in Hs'].
  destruct outcome as [res err]. unfold settle. destruct (is_nil err).
  - apply life_sent; [done|exact Hb|].
    change (r.(Delivery.Version) + 1 = 2 * r.(Delivery.Attempts) + 1). lia.
  - change (Delivery.Attempts { v with Delivery.UpdatedAt := now;
      Delivery.UpdatedBy := "notification-dispatcher"; Delivery.FailureReason := Error err })
      with v.(Delivery.Attempts). destruct (_ <=? _) eqn:E.
    + apply Z.leb_le in E. apply life_dead_letter; [done| | |exact Hm].
      * change (r.(Delivery.Attempts) = Max). lia.
      * change (r.(Delivery.Version) + 1 = 2 * r.(Delivery.Attempts) + 1). lia.
    + apply Z.leb_gt in E. apply life_retrying; [done| | |exact Hm].
      * change (1 ≤ r.(Delivery.Attempts) < Max). lia.
      * change (r.(Delivery.Version) + 1 = 2 * r.(Delivery.Attempts) + 1). lia.
Qed.

Lemma received_lifecycle d r :
  lifecycle r → r.(Delivery.Status) = "sent" → validReceiptStatus d.(Delivery.Status) = true →
  lifecycle (finished_delivery d r).
Proof.
  intros Hl Hs Hv. destruct Hl as [Hs' ?|Hs' ?|Hs' ?|Hs' ?|Hs' Hb Hver|Hs']; try congruence;
    [|by rewrite Hs in Hs'].
  apply life_received; [exact Hv|exact Hb|].
  change (r.(Delivery.Version) + 1 = 2 * r.(Delivery.Attempts) + 2). lia.
Qed.

(** *** Steps *)

Lemma inv_send t t' tasks receipts v :
  requested v t t' → v.(Delivery.Status) = "pending" → v.(Delivery.Version) = 1 →
  v.(Delivery.Attempts) = 0 → v.(Delivery.ProviderMessageID) = "" →
  Forall (λ d, sql_eq v.(Delivery.ID) d.(Delivery.ID) = false) receipts →
  inv (mkSys t tasks receipts) → inv (mkSys t' tasks receipts).
Proof.
  intros Hreq Hs Hv Ha Hm Hfresh [Hu Hrows Htasks Hex Hrec]. cbn in *.
  pose proof (requested_unique _ _ _ Hreq Hu) as Hu'.
  destruct Hreq as (e & _ & Hc & _ & ->). split; [exact Hu'|..|exact Hex|]; cbn.
  - intros r [Hr| ->%list_elem_of_singleton]%elem_of_app; [by apply Hrows|].
    by apply life_pending.
  - intros x Hx. destruct (Htasks x Hx) as (Hm' & r & Hr & ?). split; [done|].
    exists r. split; [|done]. apply elem_of_app. by left.
  - intros d Hd. destruct (Hrec d Hd) as [Hval Hd']. split; [done|].
    intros r [Hr| ->%list_elem_of_singleton]%elem_of_app Hid; [by apply Hd'|].
    rewrite Forall_forall in Hfresh. specialize (Hfresh d Hd).
    change (sql_eq v.(Delivery.ID) d.(Delivery.ID) = true) in Hid. congruence.
Qed.

Lemma inv_same_rows t t' tasks receipts :
  t'.(tbl_deliveries) = t.(tbl_deliveries) → unique_tables t' →
  inv (mkSys t tasks receipts) → inv (mkSys t' tasks receipts).
Proof.
  intros E Hu [_ Hrows Htasks Hex Hrec]. cbn in *.
  split; cbn; [done| | |done|]; intros ?; rewrite E; auto.
Qed.

Lemma in_claim_map now (claimed rows : list Delivery.t) x :
  x ∈ map (λ r, if bool_decide (r ∈ claimed) then claimed_delivery now r else r) rows →
  ∃ r, r ∈ rows ∧ ((r ∈ claimed ∧ x = claimed_delivery now r) ∨ ((¬ r ∈ claimed) ∧ x = r)).
Proof.
  intros (r & -> & Hr)%list_elem_of_fmap. exists r. split; [done|].
  case_bool_decide; auto.
Qed.

Lemma claim_tasks_exclusive now t tasks receipts rows :
  inv (mkSys t tasks receipts) →
  (∀ r, r ∈ rows → r ∈ t.(tbl_deliveries) ∧ due now r = true) → NoDup rows →
  NoDup (map Delivery.ID (tasks ++ map (handed_out now) rows)).
Proof.
  intros [Hu Hrows Htasks Hex _] Hdue Hnd. cbn in *. pose proof (unique_deliveries _ Hu) as Hf.
  assert (map Delivery.ID (map (handed_out now) rows) = map Delivery.ID rows) as Hids
    by (rewrite map_map; apply map_ext; done).
  rewrite map_app, Hids. apply NoDup_app. split_and!; [done| |].
  - intros id (v & -> & Hv)%list_elem_of_fmap (r & Hid & Hr)%list_elem_of_fmap.
    destruct (Htasks v Hv) as (_ & x & Hx & Hxs & Hxid & _). destruct (Hdue r Hr) as [Hrt Hd].
    rewrite (same_id _ x r Hf Hx Hrt) in Hxs by (rewrite Hxid, Hid; apply sql_eq_refl).
    destruct (due_status _ _ (Hrows _ Hrt) Hd); congruence.
  - apply NoDup_fmap_2_strong; [|done]. intros a b Ha Hb He.
    apply (same_id _ _ _ Hf); [by apply Hdue|by apply Hdue|rewrite He; apply sql_eq_refl].
Qed.

Lemma inv_claim t t' tasks receipts now limit rows vs :
  claim_spec now limit t rows vs t' →
  inv (mkSys t tasks receipts) → inv (mkSys t' (tasks ++ vs) receipts).
Proof.
  intros Hc Hinv. pose proof Hinv as [Hu Hrows Htasks Hex Hrec]. cbn in *.
  destruct Hc as [Hdue Hnd _ _ _ -> ->]. pose proof (unique_deliveries _ Hu) as Hf.
  split; cbn.
  - destruct Hu as [Hp Ht Hd Ho]. split; [done..| |done]. cbn.
    apply pairwise_free_map; [|done]. intros a b. by repeat case_bool_decide.
  - intros x (r & Hr & [[Hin ->]|[_ ->]])%in_claim_map; [|by apply Hrows].
    apply (claimed_lifecycle now); [by apply Hrows|by apply Hdue].
  - intros v [Hv|(r & -> & Hr)%list_elem_of_fmap]%elem_of_app.
    + destruct (Htasks v Hv) as (Hm & r & Hr & Hs & ?). split; [done|]. exists r.
      split; [|done]. apply list_elem_of_fmap. exists r. split; [|done].
      rewrite bool_decide_eq_false_2; [done|]. intros Hin.
      destruct (due_status now r (Hrows _ Hr)); [by apply Hdue|congruence..].
    + destruct (Hdue r Hr) as [Hrt Hd]. split.
      { exact (due_unsent now r (Hrows _ Hrt) Hd). }
      exists (claimed_delivery now r). split; [|done]. apply list_elem_of_fmap. exists r.
      by rewrite bool_decide_eq_true_2.
  - by eapply claim_tasks_exclusive.
  - intros d Hd. destruct (Hrec d Hd) as [Hval Hd']. split; [done|].
    intros x (r & Hr & [[Hin ->]|[_ ->]])%in_claim_map Hid; [|by apply Hd'].
    destruct (Hd' r Hr Hid) as [Hle Hsent]. change (Delivery.Version (claimed_delivery now r))
      with (r.(Delivery.Version) + 1). split; lia.
Qed.

Lemma exclusive_without tasks1 v tasks2 :
  NoDup (map Delivery.ID (tasks1 ++ v :: tasks2)) →
  NoDup (map Delivery.ID (tasks1 ++ tasks2)) ∧
  ∀ u, u ∈ tasks1 ++ tasks2 → u.(Delivery.ID) ≠ v.(Delivery.ID).
Proof.
  rewrite <- (Permutation_middle tasks1 tasks2 v). cbn. intros [Hn Hnd]%NoDup_cons.
  split; [done|]. intros u Hu E. apply Hn. apply list_elem_of_fmap. by exists u.
Qed.

Lemma task_row_kept rows rows' v r :
  task_row rows v → (∀ x, x ∈ rows → x ≠ r → x ∈ rows') →
  (∀ x, x ∈ rows → x.(Delivery.Status) = "processing" → x.(Delivery.ID) = v.(Delivery.ID) → x ≠ r) →
  task_row rows' v.
Proof.
  intros (Hm & x & Hx & Hs & Hid & ?) Hk Hne. split; [done|]. exists x.
  split; [|done]. apply Hk; [done|]. by apply Hne.
Qed.

(** A row that moves to its next version leaves every receipt behind. *)
Lemma receipt_row_moved rows rows' r d f :
  receipt_row rows d → r ∈ rows → f.(Delivery.ID) = r.(Delivery.ID) →
  f.(Delivery.Version) = r.(Delivery.Version) + 1 →
  (∀ x, x ∈ rows' → x = f ∨ (x ∈ rows ∧ x ≠ r)) → receipt_row rows' d.
Proof.
  intros [Hval Hd] Hr Hid Hv Hrows. split; [done|].
  intros x [->|[Hx _]]%Hrows He; [|by apply Hd].
  rewrite Hid in He. destruct (Hd r Hr He). split; lia.
Qed.

Lemma inv_settle t t' tasks1 v tasks2 receipts now outcome :
  settled (settle cfg v now outcome) t t' →
  inv (mkSys t (tasks1 ++ v :: tasks2) receipts) →
  inv (mkSys t' (tasks1 ++ tasks2) receipts).
Proof.
  intros Hs [Hu Hrows Htasks Hex Hrec]. cbn in *.
  pose proof (settled_unique _ _ _ Hs Hu) as Hu'.
  destruct (settled_rows _ _ _ Hs Hu) as (r & Hr & Hid & Hv & Hnew & Hkept).
  destruct (settle_same cfg v now outcome) as (Eid & Ev & _). rewrite Eid in Hid.
  destruct (exclusive_without _ _ _ Hex) as [Hex' Hne].
  destruct (Htasks v) as (Hm & r0 & Hr0 & Hst & Hid0 & Hver0 & Hat0);
    [apply elem_of_app; right; left|].
  assert (r0 = r) as ->.
  { apply (same_id _ _ _ (unique_deliveries _ Hu) Hr0 Hr). rewrite Hid0. by apply sql_eq_sym. }
  split; cbn; [done| | |done|].
  - intros x [->|[Hx _]]%Hnew; [|by apply Hrows].
    apply finished_lifecycle; [by apply Hrows|done..].
  - intros u Hu0. eapply task_row_kept; [apply Htasks|exact Hkept|].
    + rewrite elem_of_app, elem_of_cons. apply elem_of_app in Hu0. tauto.
    + intros x _ _ Hx ->. apply (Hne u Hu0). congruence.
  - intros d Hd. by eapply receipt_row_moved; [apply Hrec|exact Hr| | |exact Hnew].
Qed.

Lemma inv_stop t tasks1 v tasks2 receipts :
  inv (mkSys t (tasks1 ++ v :: tasks2) receipts) → inv (mkSys t (tasks1 ++ tasks2) receipts).
Proof.
  intros [Hu Hrows Htasks Hex Hrec]. cbn in *.
  split; cbn; [done|done| |by apply (exclusive_without _ v)|done].
  intros u Hu0. apply Htasks. rewrite elem_of_app, elem_of_cons.
  apply elem_of_app in Hu0. tauto.
Qed.

(** Only a sent delivery can be found by the id of a provider's message and
    still be open. *)
Lemma open_receipt_sent d messageID :
  lifecycle d → messageID ≠ "" → sql_eq d.(Delivery.ProviderMessageID) messageID = true →
  terminalDeliveryStatus d.(Delivery.Status) = false → d.(Delivery.Status) = "sent".
Proof.
  intros Hl Hne He Ht.
  destruct Hl as [? ? ? Hm|? ? ? Hm|? ? ? Hm|? ? ? Hm|?|Hr]; [| | | |done|];
    try (rewrite Hm in He; by apply blank_eq in He).
  exfalso. unfold validReceiptStatus, terminalDeliveryStatus in *. by rewrite Hr in Ht.
Qed.

Lemma inv_read t tasks receipts d messageID statusValue reason now actor :
  d ∈ t.(tbl_deliveries) → messageID ≠ "" →
  sql_eq d.(Delivery.ProviderMessageID) messageID = true →
  terminalDeliveryStatus d.(Delivery.Status) = false → validReceiptStatus statusValue = true →
  inv (mkSys t tasks receipts) →
  inv (mkSys t tasks (receipts ++ [Service.received d statusValue reason now actor])).
Proof.
  intros Hd Hne He Ht Hval [Hu Hrows Htasks Hex Hrec]. cbn in *. split; cbn; [done..|].
  intros x [Hx| ->%list_elem_of_singleton]%elem_of_app; [by apply Hrec|]. split; [done|].
  intros r Hr Hid. change (Delivery.ID (Service.received _ _ _ _ _)) with d.(Delivery.ID) in Hid.
  rewrite (same_id _ r d (unique_deliveries _ Hu) Hr Hd Hid). split; [done|].
  intros _. by eapply open_receipt_sent; [apply Hrows| | |].
Qed.

Lemma inv_receive t t' tasks receipts1 d receipts2 :
  settled d t t' →
  inv (mkSys t tasks (receipts1 ++ d :: receipts2)) →
  inv (mkSys t' tasks (receipts1 ++ receipts2)).
Proof.
  intros Hs [Hu Hrows Htasks Hex Hrec]. cbn in *.
  pose proof (settled_unique _ _ _ Hs Hu) as Hu'.
  destruct (settled_rows _ _ _ Hs Hu) as (r & Hr & Hid & Hv & Hnew & Hkept).
  destruct (Hrec d) as [Hval Hd]; [apply elem_of_app; right; left|].
  destruct (Hd r Hr Hid) as [_ Hsent]. specialize (Hsent Hv).
  split; cbn; [done| | |done|].
  - intros x [->|[Hx _]]%Hnew; [|by apply Hrows].
    apply received_lifecycle; [by apply Hrows|done..].
  - intros u Hu0. eapply task_row_kept; [by apply Htasks|exact Hkept|].
    intros x _ Hx _ ->. congruence.
  - intros d' Hd'. eapply receipt_row_moved; [apply Hrec|exact Hr| | |exact Hnew]; [|done..].
    rewrite elem_of_app, elem_of_cons. apply elem_of_app in Hd'. tauto.
Qed.

Lemma inv_forget t tasks receipts1 d receipts2 :
  inv (mkSys t tasks (receipts1 ++ d :: receipts2)) →
  inv (mkSys t tasks (receipts1 ++ receipts2)).
Proof.
  intros [Hu Hrows Htasks Hex Hrec]. cbn in *. split; cbn; [done..|].
  intros x Hx. apply Hrec. rewrite elem_of_app, elem_of_cons. apply elem_of_app in Hx. tauto.
Qed.

Lemma retained_rows t t' :
  retained (λ _, True) t t' → (∀ x, x ∈ t'.(tbl_deliveries) → x ∈ t.(tbl_deliveries)) ∧
  ∀ x, x ∈ t.(tbl_deliveries) → lifecycle x → x ∈ t'.(tbl_deliveries) ∨
    x.(Delivery.Status) = "sent" ∨ x.(Delivery.Status) = "dead_letter".
Proof.
  intros (gone & -> & Hg). cbn. split.
  - by intros x [_ Hx]%list_elem_of_filter.
  - intros x Hx Hl. destruct (gone x) eqn:E.
    + right. destruct (Hg x Hx E) as (before & _ & He). by eapply expired_status.
    + left. by apply list_elem_of_filter.
Qed.

Lemma inv_clean t t' tasks receipts :
  retained (λ _, True) t t' → inv (mkSys t tasks receipts) → inv (mkSys t' tasks receipts).
Proof.
  intros Hret [Hu Hrows Htasks Hex Hrec]. cbn in *.
  destruct (retained_rows _ _ Hret) as [Hsub Hkept].
  split; cbn; [by eapply retained_unique|auto| |done|].
  - intros v Hv. destruct (Htasks v Hv) as (Hm & r & Hr & Hs & ?). split; [done|].
    exists r. split; [|done]. destruct (Hkept r Hr (Hrows r Hr)) as [?|[?|?]]; [done|congruence..].
  - intros d Hd. destruct (Hrec d Hd) as [Hval Hd']. split; [done|]. auto.
Qed.

Lemma inv_step s s' : step s s' → inv s → inv s'.
Proof.
  destruct 1; [by eapply inv_send|by eapply inv_same_rows|by eapply inv_claim
    |by eapply inv_settle|by eapply inv_stop|by eapply inv_read|by eapply inv_receive
    |by eapply inv_forget|by eapply inv_clean].
Qed.

Lemma inv_steps s s' : rtc step s s' → inv s → inv s'.
Proof. induction 1; eauto using inv_step. Qed.

Lemma inv_reachable s : reachable s → inv s.
Proof. intros Hs. eapply inv_steps; [exact Hs|apply inv_initial]. Qed.

(** ** How a row changes *)

(** What no step changes: the request that made the delivery. *)
Definition same_request (r r' : Delivery.t) : Prop :=
  r'.(Delivery.ID) = r.(Delivery.ID) ∧ r'.(Delivery.TenantID) = r.(Delivery.TenantID) ∧
  r'.(Delivery.ApplicationID) = r.(Delivery.ApplicationID) ∧
  r'.(Delivery.TemplateCode) = r.(Delivery.TemplateCode) ∧
  r'.(Delivery.Channel) = r.(Delivery.Channel) ∧ r'.(Delivery.Locale) = r.(Delivery.Locale) ∧
  r'.(Delivery.Recipient) = r.(Delivery.Recipient) ∧
  r'.(Delivery.Variables) = r.(Delivery.Variables) ∧
  r'.(Delivery.IdempotencyKey) = r.(Delivery.IdempotencyKey) ∧
  r'.(Delivery.CreatedAt) = r.(Delivery.CreatedAt) ∧ r'.(Delivery.CreatedBy) = r.(Delivery.CreatedBy).

(** The transitions of the status machine. *)
Inductive transition : string → string → Prop :=
  | trans_claim a : a = "pending" ∨ a = "retrying" → transition a "processing"
  | trans_settle b : b = "sent" ∨ b = "retrying" ∨ b = "dead_letter" → transition "processing" b
  | trans_receipt b : validReceiptStatus b = true → transition "sent" b.

Definition moved (r r' : Delivery.t) : Prop :=
  same_request r r' ∧ r'.(Delivery.Version) = r.(Delivery.Version) + 1 ∧
  transition r.(Delivery.Status) r'.(Delivery.Status).

Lemma step_moved s s' r r' :
  inv s → step s s' → r ∈ s.(sys_tables).(tbl_deliveries) →
  r' ∈ s'.(sys_tables).(tbl_deliveries) → r'.(Delivery.ID) = r.(Delivery.ID) →
  r' = r ∨ moved r r'.
Proof.
  intros [Hu Hrows Htasks _ Hrec] Hs Hr Hr' Hid. pose proof (unique_deliveries _ Hu) as Hf.
  assert (∀ x, x ∈ s.(sys_tables).(tbl_deliveries) → x.(Delivery.ID) = r.(Delivery.ID) → x = r)
    as Hsame by (intros x Hx E; apply (same_id _ _ _ Hf Hx Hr); rewrite E; apply sql_eq_refl).
  destruct Hs as [t t' tasks receipts v Hreq|t t' tasks receipts E|t t' tasks receipts now limit rows vs Hc
    |t t' tasks1 v tasks2 receipts now outcome Hset| | |t t' tasks receipts1 d receipts2 Hset| |t t' tasks receipts Hret];
    cbn in *; try (by left; apply Hsame).
  - left. destruct Hreq as (e & _ & Hc & _ & ->). cbn in Hr'.
    apply elem_of_app in Hr' as [Hr'| ->%list_elem_of_singleton]; [by apply Hsame|].
    rewrite existsb_false in Hc. specialize (Hc r Hr). unfold delivery_clash in Hc.
    change (v.(Delivery.ID) = r.(Delivery.ID)) in Hid. by rewrite <- Hid, sql_eq_refl in Hc.
  - left. apply Hsame; [congruence|done].
  - destruct Hc as [Hdue _ _ _ _ _ ->]. cbn in Hr'.
    apply in_claim_map in Hr' as (x & Hx & [[Hin ->]|[_ ->]]); [right|by left; apply Hsame].
    apply (Hsame x Hx) in Hid as ->. split; [done|]. split; [done|].
    apply trans_claim. by apply (due_status now); [apply Hrows|apply Hdue].
  - destruct (settled_rows _ _ _ Hset Hu) as (r0 & Hr0 & Hid0 & Hv & Hnew & _).
    apply Hnew in Hr' as [->|[Hx _]]; [right|by left; apply Hsame].
    apply (Hsame r0 Hr0) in Hid as ->. split; [done|]. split; [done|].
    destruct (Htasks v) as (_ & x & Hx & Hst & Hidx & _); [apply elem_of_app; right; left|].
    destruct (settle_same cfg v now outcome) as (Eid & _ & _). rewrite Eid in Hid0.
    assert (x = r) as -> by (apply (same_id _ _ _ Hf Hx Hr); rewrite Hidx; by apply sql_eq_sym).
    rewrite Hst. apply trans_settle, settle_status.
  - destruct (settled_rows _ _ _ Hset Hu) as (r0 & Hr0 & Hid0 & Hv & Hnew & _).
    apply Hnew in Hr' as [->|[Hx _]]; [right|by left; apply Hsame].
    apply (Hsame r0 Hr0) in Hid as ->. split; [done|]. split; [done|].
    destruct (Hrec d) as [Hval Hd]; [apply elem_of_app; right; left|].
    destruct (Hd r Hr Hid0) as [_ Hsent]. rewrite (Hsent Hv). by apply trans_receipt.
  - left. apply Hsame; [|done]. by apply (retained_rows _ _ Hret).
Qed.

(** A row that no step in flight concerns stays. *)
Lemma step_keeps_row s s' r :
  inv s → step s s' → r ∈ s.(sys_tables).(tbl_deliveries) →
  r.(Delivery.Status) ∉ ["pending"; "retrying"; "sent"; "dead_letter"] →
  (∀ v, v ∈ s.(sys_tasks) → v.(Delivery.ID) ≠ r.(Delivery.ID)) →
  r ∈ s'.(sys_tables).(tbl_deliveries) ∧
  ∀ v, v ∈ s'.(sys_tasks) → v.(Delivery.ID) ≠ r.(Delivery.ID).
Proof.
  intros [Hu Hrows Htasks _ Hrec] Hs Hr Hn Hfree. pose proof (unique_deliveries _ Hu) as Hf.
  assert (∀ (l1 : list Delivery.t) v l2 x, x ∈ l1 ++ l2 → x ∈ l1 ++ v :: l2) as Hsub.
  { intros l1 v l2 x [?|?]%elem_of_app; apply elem_of_app; [by left|by right; right]. }
  assert (r.(Delivery.Status) ≠ "sent" ∧ r.(Delivery.Status) ≠ "dead_letter") as [Hns Hnd]
    by (split; intros E; apply Hn; rewrite E; rewrite !elem_of_cons; auto).
  destruct Hs as [t t' tasks receipts v Hreq|t t' tasks receipts E|t t' tasks receipts now limit rows vs Hc
    |t t' tasks1 v tasks2 receipts now outcome Hset|t tasks1 v tasks2 receipts| |t t' tasks receipts1 d receipts2 Hset| |t t' tasks receipts Hret];
    cbn in *; try done.
  - split; [|done]. destruct Hreq as (e & _ & _ & _ & ->). apply elem_of_app. by left.
  - by rewrite E.
  - destruct Hc as [Hdue _ _ _ _ -> ->].
    assert (∀ x, x ∈ rows → x ≠ r) as Hne.
    { intros x Hx ->. destruct (Hdue r Hx) as [_ Hd].
      destruct (due_status _ _ (Hrows r Hr) Hd) as [E|E]; apply Hn; rewrite E, !elem_of_cons; auto. }
    split.
    + apply list_elem_of_fmap. exists r. rewrite bool_decide_eq_false_2; [done|].
      intros Hin. by apply (Hne r).
    + intros v [Hv|(x & -> & Hx)%list_elem_of_fmap]%elem_of_app; [by apply Hfree|].
      intros E. apply (Hne x Hx). apply (same_id _ _ _ Hf); [by apply Hdue|done|].
      change (x.(Delivery.ID) = r.(Delivery.ID)) in E. rewrite E. apply sql_eq_refl.
  - destruct (settled_rows _ _ _ Hset Hu) as (r0 & Hr0 & Hid0 & Hv & _ & Hkept).
    split; [|intros u Hu'; apply Hfree; by apply Hsub].
    apply Hkept; [done|]. intros ->.
    destruct (Htasks v) as (_ & x & Hx & _ & Hidx & _); [apply elem_of_app; right; left|].
    destruct (settle_same cfg v now outcome) as (Eid & _ & _). rewrite Eid in Hid0.
    assert (x = r0) as -> by (apply (same_id _ _ _ Hf Hx Hr); rewrite Hidx; by apply sql_eq_sym).
    by apply (Hfree v); [apply elem_of_app; right; left|].
  - split; [done|]. intros u Hu'; apply Hfree; by apply Hsub.
  - destruct (settled_rows _ _ _ Hset Hu) as (r0 & Hr0 & Hid0 & Hv & _ & Hkept).
    split; [|done]. apply Hkept; [done|]. intros ->.
    destruct (Hrec d) as [_ Hd]; [apply elem_of_app; right; left|].
    by destruct (Hd r0 Hr Hid0) as [_ ?%(λ H, H Hv)].
  - split; [|done]. destruct (retained_rows _ _ Hret) as [_ Hk].
    by destruct (Hk r Hr (Hrows r Hr)) as [?|[?|?]].
Qed.

Lemma steps_keep_row s s' r :
  rtc step s s' → inv s → r ∈ s.(sys_tables).(tbl_deliveries) →
  r.(Delivery.Status) ∉ ["pending"; "retrying"; "sent"; "dead_letter"] →
  (∀ v, v ∈ s.(sys_tasks) → v.(Delivery.ID) ≠ r.(Delivery.ID)) →
  r ∈ s'.(sys_tables).(tbl_deliveries).
Proof.
  induction 1 as [|s1 s2 s3 Hs _ IH]; intros Hi Hr Hn Hfree; [done|].
  destruct (step_keeps_row _ _ _ Hi Hs Hr Hn Hfree). apply IH; [by eapply inv_step|done..].
Qed.
End System.
