(* ===== verification/SystemSpec.v ===== *)
(** * The program refines its system, and what follows

    Every operation of the service, every part of a dispatcher round and every
    run of the cleaner is a sequence of the steps of System.v
    ([run_request_transact], [claim_transact], [deliver_steps], [clean_steps]); so
    what System.v proves of the reachable states holds of every execution
    ([run_actions]) in which requests, dispatchers, the cleaner and crashes
    interleave. *)

From S2P Require Import Prelude GoStrings AppError Config Reqctx Effects Ratelimit Model.
From S2P Require Import Libraries Database Repository Unique Service ServiceSpec ServiceAdmin.
From S2P Require Import Outbound Dispatcher DispatcherSpec Cleanup System.
Open Scope string_scope.
Open Scope list_scope.
Open Scope Z_scope.
Open Scope go_scope.

Section Refinement.
Context `{Externals} `{UnicodeTables} `{LibraryText} `{URLLibrary} `{TemplateLibrary}
  `{JSONLibrary} `{EventLibrary} `{GoArch} `{GoFmt} `{DialectLaws} {DB : Type}
  `{!Repository DB} `{!RepositoryView DB} `{!RepositoryLaws DB}.
Implicit Types (s : NotificationService) (ctx : Context) (w : World DB Event).

(** ** Requests *)

Lemma reads_keeps {A} (m : IO DB A) : reads m → keeps_db m.
Proof. intros Hm w. apply Hm. Qed.

Ltac keeps :=
  repeat first
    [ apply keeps_verifyApplication | apply keeps_ret | apply keeps_if
    | apply keeps_bind; [|intros ?]
    | match goal with
      | |- keeps_db (match ?x with Some _ => _ | None => _ end) => destruct x
      | |- keeps_db (let '(_, _) := ?x in _) => destruct x
      | |- keeps_db (Repository_GetProvider _ _ _) => eapply reads_keeps, looks_up_reads, law_GetProvider
      | |- keeps_db (Repository_GetTemplate _ _ _ _ _) => eapply reads_keeps, looks_up_reads, law_GetTemplate
      | |- keeps_db (Repository_GetDelivery _ _ _) => eapply reads_keeps, looks_up_reads, law_GetDelivery
      | |- keeps_db (Repository_ListProviders _ _ _ _ _ _ _) => eapply reads_keeps, lists_reads, law_ListProviders
      | |- keeps_db (Repository_ListTemplates _ _ _ _ _ _ _) => eapply reads_keeps, lists_reads, law_ListTemplates
      | |- keeps_db (Repository_ListDeliveries _ _ _ _ _) => eapply reads_keeps, lists_reads, law_ListDeliveries
      end ].

Definition is_query (r : Request) : bool :=
  match r with
  | RGetProvider _ _ _ | RListProviders _ _ _ _ _ _ _ | RGetTemplate _ _ _ _ _
  | RListTemplates _ _ _ _ _ _ _ | RGetDelivery _ _ _ | RListDeliveries _ _ _ _ _ => true
  | _ => false
  end.

Lemma query_keeps s ctx r : is_query r = true → keeps_db (DB := DB) (run_request s ctx r).
Proof.
  destruct r; try done; intros _;
    unfold run_request, Service.GetProvider, Service.GetTemplate, Service.ListProviders,
      Service.ListTemplates, Service.GetDelivery, Service.ListDeliveries; cbv zeta; keeps.
Qed.

(** The dispatchers of the system, which share one configuration. *)
Variable d : Dispatcher.
Abbreviation cfg := d.(Dispatcher_cfg).
Abbreviation steps := (rtc (step cfg)).
Implicit Types (tasks receipts : list Delivery.t).


(** No new id is one that a receipt in flight refers to. *)
Definition fresh_ids receipts : Prop :=
  ∀ n, Forall (λ r, sql_eq (ext_uuid n) r.(Delivery.ID) = false) receipts.

(** One transaction: among the steps at most one changes the tables. *)
Definition transact (s s' : Sys) : Prop :=
  ∃ s1 s2 : Sys, steps s s1 ∧ s1.(sys_tables) = s.(sys_tables) ∧
    (s2 = s1 ∨ step cfg s1 s2) ∧ steps s2 s' ∧ s'.(sys_tables) = s2.(sys_tables).

Lemma transact_steps (s s' : Sys) : transact s s' → steps s s'.
Proof.
  intros (s1 & s2 & Hs1 & _ & Hs & Hs2 & _). etrans; [exact Hs1|].
  destruct Hs as [->|Hs]; [exact Hs2|]. eapply rtc_l; [exact Hs|exact Hs2].
Qed.
Lemma transact_step (s s' : Sys) : step cfg s s' → transact s s'.
Proof. intros Hs. exists s, s'. split_and!; [done..|by right|done|done]. Qed.
Lemma transact_quiet (s s' : Sys) : steps s s' → s'.(sys_tables) = s.(sys_tables) → transact s s'.
Proof. intros Hs Ht. exists s', s'. split_and!; [done..|by left|done|done]. Qed.
Lemma transact_same t t' tasks receipts :
  t' = t → transact (mkSys t tasks receipts) (mkSys t' tasks receipts).
Proof. intros ->. by apply transact_quiet. Qed.

Lemma Send_transact s ctx tenant application code channel locale recipient key variables
    w res w' tasks receipts :
  fresh_ids receipts →
  Service.Send s ctx tenant application code channel locale recipient key variables w
    = (res, w') →
  transact (mkSys (view (w_db w)) tasks receipts) (mkSys (view (w_db w')) tasks receipts).
Proof.
  intros Hf E. destruct res as [v err]. apply Send_spec in E.
  assert (send_adds ctx tenant application code channel locale recipient key variables v
    (view (w_db w)) (view (w_db w')) → step cfg (mkSys (view (w_db w)) tasks receipts)
    (mkSys (view (w_db w')) tasks receipts)) as Hs.
  { intros (Hr & _ & (caller & _ & [_ _ (Hs1 & Hs2 & Hs3 & Hs4) _ _ [n Hid]]) & _).
    apply step_send with v; try done. rewrite Hid. apply Hf. }
  apply outcome_change in E. destruct (failed err); destruct E as [E|E]; try (by apply transact_step, Hs).
  - by apply transact_same; rewrite E.
  - by apply transact_same; destruct E as [-> _].
Qed.

Lemma RecordReceipt_transact s ctx tenant application provider messageID statusValue reason
    w res w' tasks receipts :
  unique_tables (view (w_db w)) →
  Service.RecordReceipt s ctx tenant application provider messageID statusValue reason w
    = (res, w') →
  transact (mkSys (view (w_db w)) tasks receipts) (mkSys (view (w_db w')) tasks receipts).
Proof.
  intros Hu E. destruct res as [v err]. apply RecordReceipt_spec in E; [|done].
  apply outcome_change in E. destruct (failed err); destruct E as [E|(r & now & caller & [Hr Hk] & Ht & Hv & Hm & _ & Hs)];
    try (by apply transact_same; first [by rewrite E|destruct E as [-> _]]).
  all: unfold message_key in Hk; rewrite !andb_true_iff in Hk; destruct Hk as [_ Hk].
  all: pose proof (step_read cfg _ tasks receipts r (TrimSpace messageID)
      (ToLower (TrimSpace statusValue)) (TrimSpace reason) now caller.(Principal_ID)
      Hr Hm Hk Ht Hv) as Hread.
  all: pose proof (step_receive cfg _ _ tasks receipts _ [] Hs) as Hwrite;
    rewrite app_nil_r in Hwrite.
  all: do 2 eexists; split_and!; [exact (rtc_once _ _ Hread)|done|right; exact Hwrite|done|done].
Qed.

Lemma provider_changed_kept s p v expected t t' :
  provider_changed s p v expected t t' → unique_tables t →
  t'.(tbl_deliveries) = t.(tbl_deliveries) ∧ unique_tables t'.
Proof.
  intros [_ [(_ & _ & _ & _ & _ & _ & Hc & ->)|(_ & _ & _ & _ & rows' & Hr & ->)]] [Hp Ht Hd Ho];
    (split; [done|]); (split; [|done..]).
  - by apply (pairwise_free_insert _ _ v); [apply provider_clash_sym|..].
  - by apply (λ H, pairwise_free_update _ _ _ _ _ H Hr Hp).
Qed.

Lemma template_changed_kept p v expected t t' :
  template_changed p v expected t t' → unique_tables t →
  t'.(tbl_deliveries) = t.(tbl_deliveries) ∧ unique_tables t'.
Proof.
  intros (_ & _ & [(_ & _ & _ & _ & _ & Hc & ->)|(_ & _ & _ & _ & _ & rows' & Hr & ->)])
    [Hp Ht Hd Ho]; (split; [done|]); (split; [done| |done..]).
  - by apply (pairwise_free_insert _ _ v); [apply template_clash_sym|..].
  - by apply (λ H, pairwise_free_update _ _ _ _ _ H Hr Ht).
Qed.

Lemma run_request_transact s ctx r w err w' tasks receipts :
  fresh_ids receipts → unique_tables (view (w_db w)) → run_request s ctx r w = (err, w') →
  transact (mkSys (view (w_db w)) tasks receipts) (mkSys (view (w_db w')) tasks receipts).
Proof.
  intros Hf Hu E. destruct (is_query r) eqn:Eq.
  { apply transact_same. f_equal. eapply keeps_run; [|exact E]. by apply query_keeps. }
  destruct r; try discriminate Eq; unfold run_request in E;
    apply bind_inv in E as (res & w1 & E1 & E); destruct res as [v' err']; returned E.
  - apply PutProvider_spec in E1; [|done].
    assert (provider_changed s (normal_provider v) v' expected (view (w_db w)) (view (w_db w')) →
      step cfg (mkSys (view (w_db w)) tasks receipts) (mkSys (view (w_db w')) tasks receipts)) as Hs
      by (intros [? ?]%provider_changed_kept; [by apply step_admin|done]).
    destruct (failed err); [destruct E1 as [E1|[E1 _]]|];
      first [by apply transact_same; rewrite E1|by apply transact_step, Hs].
  - apply PutTemplate_spec in E1; [|done].
    assert (template_changed (normal_template v) v' expected (view (w_db w)) (view (w_db w')) →
      step cfg (mkSys (view (w_db w)) tasks receipts) (mkSys (view (w_db w')) tasks receipts)) as Hs
      by (intros [? ?]%template_changed_kept; [by apply step_admin|done]).
    destruct (failed err); [destruct E1 as [E1|[E1 _]]|];
      first [by apply transact_same; rewrite E1|by apply transact_step, Hs].
  - by eapply Send_transact.
  - by eapply RecordReceipt_transact.
Qed.

(** ** The dispatcher *)

(** What the claiming transaction may have done: nothing, or a whole claim,
    which it hands to the dispatcher unless it reports an error. *)
Lemma claim_outcome w due err w' :
  unique_tables (view (w_db w)) → Dispatch.claim d w = ((due, err), w') →
  let claimed := ∃ now rows, claim_spec now d.(Dispatcher_cfg).(Notification_BatchSize)
    (view (w_db w)) rows due (view (w_db w')) in
  if failed err then w_db w' = w_db w ∨ claimed else claimed.
Proof.
  intros Hu E claimed. unfold Dispatch.claim in E.
  assert (∀ db', committed (let! now := now in
      Repository_ClaimDue now d.(Dispatcher_cfg).(Notification_BatchSize)) w due db' →
    db' = w_db w' → claimed) as Hc.
  { intros db' (wa & wb & Eb & Ha & _ & Hb) ->.
    apply bind_inv in Eb as (time & w1 & E1 & Eb). apply (keeps_run _ _ _ _ keeps_now) in E1.
    apply law_ClaimDue in Eb as [rows Hr]; [|by rewrite E1, Ha].
    exists time, rows. by rewrite E1, Ha, Hb in Hr. }
  destruct (failed err) eqn:Ef.
  - destruct (WithinVar_failed _ _ _ _ _ _ _ E Ef) as [?|[Hcm _]]; [by left|right; by eapply Hc].
  - apply failed_nil in Ef as ->. by eapply Hc; [eapply WithinVar_ok, E|].
Qed.

Lemma stop_all t tasks vs receipts :
  steps (mkSys t (tasks ++ vs) receipts) (mkSys t tasks receipts).
Proof.
  induction vs as [|v vs IH]; [by rewrite app_nil_r|].
  eapply rtc_l; [apply step_stop|exact IH].
Qed.

Lemma claim_transact w due err w' tasks receipts :
  unique_tables (view (w_db w)) → Dispatch.claim d w = ((due, err), w') →
  transact (mkSys (view (w_db w)) tasks receipts)
    (mkSys (view (w_db w')) (if failed err then tasks else tasks ++ due) receipts).
Proof.
  intros Hu E. apply claim_outcome in E; [|done]. destruct (failed err).
  - destruct E as [E|(now & rows & Hc)]; [by apply transact_same; rewrite E|].
    do 2 eexists. split_and!; [constructor|done|right; by eapply step_claim|apply stop_all|done].
  - destruct E as (now & rows & Hc). by eapply transact_step, step_claim.
Qed.

Lemma deliver_steps ctx w w' tasks1 v tasks2 receipts :
  plain_context ctx → unique_tables (view (w_db w)) →
  Dispatch.deliver d ctx v w = (tt, w') →
  step cfg (mkSys (view (w_db w)) (tasks1 ++ v :: tasks2) receipts)
    (mkSys (view (w_db w')) (tasks1 ++ tasks2) receipts) ∧ unique_tables (view (w_db w')).
Proof.
  intros Hctx Hu E. apply deliver_spec in E as (outcome & w1 & err & _ & _ & Hs); [|done..].
  cbn zeta in Hs.
  assert (w_db w' = w_db w ∨ settled (settle cfg v (ext_now (w_tick w1)) outcome)
    (view (w_db w)) (view (w_db w'))) as [Hs'|Hs'] by (destruct (failed err); tauto);
    clear Hs; rename Hs' into Hs.
  - rewrite Hs. split; [apply step_stop|done].
  - split; [by eapply step_settle|by eapply settled_unique].
Qed.

Lemma deliver_all_steps ctx due w w' tasks receipts :
  plain_context ctx → unique_tables (view (w_db w)) →
  Dispatch.deliver_all d ctx due w = (tt, w') →
  steps (mkSys (view (w_db w)) (tasks ++ due) receipts) (mkSys (view (w_db w')) tasks receipts).
Proof.
  intros Hctx. revert w. induction due as [|v due IH]; intros w Hu E.
  - cbn [Dispatch.deliver_all] in E. returned E. rewrite app_nil_r. constructor.
  - cbn [Dispatch.deliver_all] in E. apply bind_inv in E as ([] & w1 & E1 & E).
    destruct (deliver_steps ctx w w1 tasks v due receipts) as [Hs Hu1]; [done..|].
    eapply rtc_l; [exact Hs|]. by apply IH.
Qed.

Lemma RunOnce_steps ctx w res w' tasks receipts :
  plain_context ctx → unique_tables (view (w_db w)) →
  Dispatch.RunOnce d ctx w = (res, w') →
  steps (mkSys (view (w_db w)) tasks receipts) (mkSys (view (w_db w')) tasks receipts).
Proof.
  intros Hctx Hu E. unfold Dispatch.RunOnce in E.
  apply bind_inv in E as ([due err] & w1 & E1 & E).
  pose proof (transact_steps _ _ (claim_transact _ _ _ _ tasks receipts Hu E1)) as Hc.
  apply claim_outcome in E1; [|done]. destruct (failed err); [by returned E|].
  destruct E1 as (now & rows & Hr). apply bind_inv in E as ([] & w2 & E2 & E). returned E.
  etrans; [exact Hc|]. eapply deliver_all_steps; [done..| |exact E2]. by eapply claim_unique.
Qed.

(** ** The cleaner *)

Lemma clean_loop_retained c fuel w :
  retained (λ _, True) (view (w_db w)) (view (w_db (Cleaner.clean_loop c fuel w).2)).
Proof.
  revert w. induction fuel as [|fuel IH]; intros w; [apply retained_refl|].
  rewrite clean_loop_step. set (w1 := mkWorld _ _ _).
  pose proof (delete_retained (λ _, True) (ext_now (w_tick w) + - c.(Cleaner_retention))
    c.(Cleaner_batchSize) w1 I) as Hr.
  destruct (Repository_DeleteTerminalDeliveriesBefore _ _ w1) as [[n err] w2]. cbn in Hr.
  destruct (failed err); [done|]. destruct (n <? _); [done|]. by eapply retained_trans.
Qed.

Lemma clean_steps c fuel w tasks receipts :
  step cfg (mkSys (view (w_db w)) tasks receipts)
    (mkSys (view (w_db (Cleaner.clean_loop c fuel w).2)) tasks receipts).
Proof. apply step_clean, clean_loop_retained. Qed.

(** ** Executions

    What the processes do, at the granularity of their transactions: a request
    of any service instance, the claim of a dispatcher, the delivery of the
    [i]-th claimed task, a dispatcher that stops with it, a run of the cleaner. *)
Inductive Action :=
  | ActRequest s ctx (r : Request)
  | ActClaim
  | ActDeliver (i : nat)
  | ActStop (i : nat)
  | ActClean (c : RetentionCleaner) (fuel : nat).

Definition act (e : World DB Event * list Delivery.t) (a : Action)
    : World DB Event * list Delivery.t :=
  let '(w, tasks) := e in
  match a with
  | ActRequest s ctx r => ((run_request s ctx r w).2, tasks)
  | ActClaim =>
      let '((due, err), w') := Dispatch.claim d w in
      (w', if failed err then tasks else tasks ++ due)
  | ActDeliver i =>
      match tasks !! i with
      | Some v => ((Dispatch.deliver d Background v w).2, delete i tasks)
      | None => e
      end
  | ActStop i => (w, delete i tasks)
  | ActClean c fuel => ((Cleaner.clean_loop c fuel w).2, tasks)
  end.
Definition run_actions (acts : list Action) (w : World DB Event)
    : World DB Event * list Delivery.t := fold_left act acts (w, []).

Definition state_of (e : World DB Event * list Delivery.t) : Sys :=
  mkSys (view (w_db e.1)) e.2 [].

Lemma split_task (tasks : list Delivery.t) i v :
  tasks !! i = Some v →
  tasks = take i tasks ++ v :: drop (S i) tasks ∧
  delete i tasks = take i tasks ++ drop (S i) tasks.
Proof. intros Hi. split; [by rewrite take_drop_middle|]. apply delete_take_drop. Qed.

(** The delivery of a task is one step. *)
Lemma deliver_act_step e i v :
  unique_tables (view (w_db e.1)) → e.2 !! i = Some v →
  step cfg (state_of e) (state_of (act e (ActDeliver i))).
Proof.
  destruct e as [w tasks]. unfold state_of. cbn. intros Hu Ei. rewrite Ei. cbn.
  destruct (split_task _ _ _ Ei) as [Et ->]. rewrite Et at 1.
  destruct (Dispatch.deliver d Background v w) as [[] w'] eqn:E.
  by apply (deliver_steps Background).
Qed.

Lemma act_transact e a :
  unique_tables (view (w_db e.1)) → transact (state_of e) (state_of (act e a)).
Proof.
  destruct e as [w tasks]. unfold state_of. cbn. intros Hu.
  destruct a as [s ctx r| |i|i|c fuel]; cbn [act fst snd].
  - destruct (run_request s ctx r w) as [err w'] eqn:E.
    eapply run_request_transact; [|done|exact E]. intros n. constructor.
  - destruct (Dispatch.claim d w) as [[due err] w'] eqn:E. by apply claim_transact.
  - destruct (tasks !! i) as [v|] eqn:Ei; [|by apply transact_same].
    pose proof (deliver_act_step (w, tasks) i v Hu Ei) as Hs.
    unfold act, state_of in Hs. rewrite Ei in Hs. by apply transact_step.
  - destruct (decide (i < length tasks)%nat) as [Hi|Hi].
    + apply lookup_lt_is_Some in Hi as [v Hi]. destruct (split_task _ _ _ Hi) as [Et ->].
      rewrite Et at 1. apply transact_step, step_stop.
    + rewrite delete_take_drop, take_ge, drop_ge, app_nil_r by lia. by apply transact_same.
  - apply transact_step, clean_steps.
Qed.

(** ** Theorems *)
Context `{!StatusLaws}.
Hypothesis Max_pos : 1 ≤ cfg.(Notification_MaxAttempts).

Lemma run_actions_reachable acts w :
  view (w_db w) = no_rows → reachable cfg (state_of (run_actions acts w)).
Proof.
  intros H0'. unfold run_actions. induction acts as [|a acts IH] using rev_ind.
  - cbn. unfold reachable, initial, state_of. cbn. rewrite H0'. constructor.
  - rewrite fold_left_app. cbn. unfold reachable. etrans; [exact IH|].
    apply transact_steps, act_transact. exact (inv_unique cfg _ (inv_reachable _ Max_pos _ IH)).
Qed.

(** Refinement.  Whatever the requests, claims, deliveries, crashes and
    cleaner runs of the processes and however they interleave, from empty tables
    they only ever lead to states that the steps of the system reach. *)
Theorem executions_refine acts w :
  view (w_db w) = no_rows → reachable cfg (state_of (run_actions acts w)).
Proof. apply run_actions_reachable. Qed.

(** C1 The life of a delivery.  After any execution every delivery is in a
    proper state: the attempts never exceed the configured maximum, a dead
    letter has used exactly all of them and a retrying delivery fewer, an
    untouched one none; the version counts the changes; only a sent delivery,
    or one whose receipt came, has a provider's message id; and no two rows
    clash. *)
Theorem delivery_lifecycle acts w r :
  view (w_db w) = no_rows →
  let t := view (w_db (run_actions acts w).1) in
  unique_tables t ∧ (r ∈ t.(tbl_deliveries) → lifecycle cfg r).
Proof.
  intros H0'. pose proof (inv_reachable _ Max_pos _ (run_actions_reachable acts w H0')) as [Hu Hr _ _ _].
  split; [exact Hu|apply Hr].
Qed.

(** C3 Exclusive claims.  After any execution no delivery is held twice by the
    dispatchers, and each one held is still being processed at the version and
    with the attempts it was claimed with, so that the outcome of its attempt
    will be stored. *)
Theorem claims_exclusive acts w :
  view (w_db w) = no_rows →
  let '(w', tasks) := run_actions acts w in
  NoDup (map Delivery.ID tasks) ∧
  ∀ v, v ∈ tasks → ∃ r, r ∈ tbl_deliveries (view (w_db w')) ∧
    r.(Delivery.Status) = "processing" ∧ r.(Delivery.ID) = v.(Delivery.ID) ∧
    r.(Delivery.Version) = v.(Delivery.Version) ∧ r.(Delivery.Attempts) = v.(Delivery.Attempts).
Proof.
  intros H0'. pose proof (inv_reachable _ Max_pos _ (run_actions_reachable acts w H0')) as [_ _ Ht Hn _].
  destruct (run_actions acts w) as [w' tasks]. split; [exact Hn|].
  intros v Hv. by destruct (Ht v Hv) as [_ ?].
Qed.

(** The rows after an execution. *)
Abbreviation rows_of e := (tbl_deliveries (view (w_db e.1))).

Lemma run_actions_inv acts w : view (w_db w) = no_rows → inv cfg (state_of (run_actions acts w)).
Proof. intros H0'. exact (inv_reachable _ Max_pos _ (run_actions_reachable acts w H0')). Qed.

Lemma run_more_steps acts more w :
  view (w_db w) = no_rows →
  steps (state_of (run_actions acts w)) (state_of (run_actions (acts ++ more) w)).
Proof.
  intros H0'. induction more as [|a more IH] using rev_ind; [by rewrite app_nil_r|].
  rewrite app_assoc. unfold run_actions at 2. rewrite fold_left_app. cbn.
  etrans; [exact IH|]. apply transact_steps, act_transact.
  exact (inv_unique cfg _ (run_actions_inv (acts ++ more) w H0')).
Qed.

(** C15 The status machine.  After any execution, one more action of any process
    leaves a delivery as it was or moves it along an edge of the machine (pending
    or retrying to processing, processing to sent, retrying or dead_letter, sent
    to what a receipt says) to its next version, and never changes the request it
    was made from: no state is skipped, nothing leaves a terminal status. *)
Theorem status_machine acts a w r r' :
  view (w_db w) = no_rows →
  let e := run_actions acts w in
  r ∈ rows_of e → r' ∈ rows_of (act e a) → r'.(Delivery.ID) = r.(Delivery.ID) →
  r' = r ∨ moved r r'.
Proof.
  intros H0' e Hr Hr' Hid. pose proof (run_actions_inv acts w H0') as Hi.
  destruct (act_transact e a (inv_unique _ _ Hi)) as (s1 & s2 & Hs1 & Ht1 & Hs & _ & Ht2).
  pose proof (inv_steps _ Max_pos _ _ Hs1 Hi) as Hi1.
  assert (r ∈ tbl_deliveries (sys_tables s1)) as Hr1 by (rewrite Ht1; exact Hr).
  assert (r' ∈ tbl_deliveries (sys_tables s2)) as Hr2 by (rewrite <- Ht2; exact Hr').
  destruct Hs as [->|Hs]; [|exact (step_moved _ _ _ _ _ Hi1 Hs Hr1 Hr2 Hid)].
  left. apply (same_id _ _ _ (unique_deliveries _ (inv_unique _ _ Hi1)) Hr2 Hr1).
  rewrite Hid. apply sql_eq_refl.
Qed.

(** C26 A delivery that stays in "processing" after its dispatcher stopped, or
    after the closing transaction failed, is lost: whatever the processes do
    afterwards, it stays as it is.  [ClaimDue] looks only for pending and
    retrying rows. *)
Theorem orphan_stuck acts more w r :
  view (w_db w) = no_rows →
  let '(w1, tasks) := run_actions acts w in
  r ∈ tbl_deliveries (view (w_db w1)) → r.(Delivery.Status) = "processing" →
  (∀ v, v ∈ tasks → v.(Delivery.ID) ≠ r.(Delivery.ID)) →
  r ∈ rows_of (run_actions (acts ++ more) w).
Proof.
  intros H0'. pose proof (run_more_steps acts more w H0') as Hsteps.
  pose proof (run_actions_inv acts w H0') as Hi.
  destruct (run_actions acts w) as [w1 tasks]. intros Hr Hst Hfree.
  apply (steps_keep_row _ Max_pos _ _ r Hsteps Hi Hr); [|exact Hfree].
  rewrite Hst, !elem_of_cons. intros [?|[?|[?|[?|?%not_elem_of_nil]]]]; done.
Qed.

(** C25 A delivery whose receipt came (delivered, bounced or failed) is final
    and kept forever: whatever the processes do afterwards, it stays as it is,
    and retention, which removes sent and dead-lettered deliveries, never
    removes it. *)
Theorem receipted_forever acts more w r :
  view (w_db w) = no_rows →
  r ∈ rows_of (run_actions acts w) → validReceiptStatus r.(Delivery.Status) = true →
  r ∈ rows_of (run_actions (acts ++ more) w).
Proof.
  intros H0' Hr Hst. pose proof (run_actions_inv acts w H0') as Hi.
  apply (steps_keep_row _ Max_pos _ _ r (run_more_steps acts more w H0') Hi Hr).
  - unfold validReceiptStatus in Hst. rewrite !elem_of_cons.
    intros [E|[E|[E|[E|?%not_elem_of_nil]]]]; [by rewrite E in Hst..|done].
  - intros v Hv Hid. destruct Hi as [Hu _ Ht _ _].
    destruct (Ht v Hv) as (_ & x & Hx & Hp & Hxid & _).
    rewrite (same_id _ x r (unique_deliveries _ Hu) Hx Hr) in Hp
      by (rewrite Hxid, Hid; apply sql_eq_refl).
    by rewrite Hp in Hst.
Qed.
End Refinement.
