(* ===== verification/Retries.v ===== *)
(** * A delivery is not retried forever

    Rounds of the dispatcher in a row.  Without faults, every round at which a
    waiting delivery is due makes exactly one attempt at it, and after as many due
    rounds as the attempts that are left the delivery has been sent or is a dead
    letter. *)

From S2P Require Import Prelude GoStrings AppError Config Reqctx Effects Model Libraries Database.
From S2P Require Import Repository Unique Clock Service ServiceSpec Outbound Dispatcher DispatcherSpec Liveness System.
Open Scope string_scope.
Open Scope list_scope.
Open Scope Z_scope.
Open Scope go_scope.

Section Retrying.
Context `{Externals} `{UnicodeTables} `{LibraryText} `{URLLibrary} `{TemplateLibrary} `{JSONLibrary}
  `{EventLibrary} `{GoArch} `{GoFmt} `{DialectLaws} {DB : Type} `{!Repository DB}
  `{!RepositoryView DB} `{!RepositoryLaws DB} `{!RepositoryClock DB} `{!EventLaws}
  `{!StatusLaws}.
Implicit Types (d : Dispatcher) (ctx : Context) (w : World DB Event) (r : Delivery.t).

(** ** Rounds in a row *)
Fixpoint rounds d ctx (n : nat) w : World DB Event :=
  match n with
  | O => w
  | S n => rounds d ctx n (Dispatch.RunOnce d ctx w).2
  end.

(** The number of the rounds that start in a world of which [p] holds. *)
Fixpoint count_rounds (p : World DB Event → bool) d ctx (n : nat) w : Z :=
  match n with
  | O => 0
  | S n => Z.b2z (p w) + count_rounds p d ctx n (Dispatch.RunOnce d ctx w).2
  end.

Definition waits r : bool :=
  sql_eq r.(Delivery.Status) "pending" || sql_eq r.(Delivery.Status) "retrying".
Definition some_row (p : Delivery.t → bool) (id : string) w : bool :=
  existsb (λ r, sql_eq r.(Delivery.ID) id && p r) (tbl_deliveries (view (w_db w))).
(** The delivery [id] waits, and its time has come or has not. *)
Definition is_due (id : string) w : bool := some_row (due (claim_time w)) id w.
Definition is_early (id : string) w : bool :=
  some_row (λ r, waits r && negb (due (claim_time w) r)) id w.

(** The attempts that are left, of which there is always one. *)
Definition budget (cfg : Notification) r : Z :=
  Z.max 1 (cfg.(Notification_MaxAttempts) - r.(Delivery.Attempts)).

(** Room for the counters of a row in [n] rounds. *)
Definition room (n : nat) r : Prop :=
  0 ≤ r.(Delivery.Attempts) ∧ r.(Delivery.Attempts) + Z.of_nat n < 2 ^ 31 ∧
  0 ≤ r.(Delivery.Version) ∧ r.(Delivery.Version) + 2 * Z.of_nat n < 2 ^ 63.

(** A world in which [n] rounds can run undisturbed. *)
Record steady d (n : nat) w : Prop := {
  steady_unique : unique_tables (view (w_db w));
  steady_ids : unused_ids w;
  steady_batch : Z.of_nat (length (tbl_deliveries (view (w_db w)))) <
    d.(Dispatcher_cfg).(Notification_BatchSize);
  steady_room r : r ∈ tbl_deliveries (view (w_db w)) → room n r }.

Hypothesis no_faults : fault_free.
Hypothesis no_locks : ∀ n id, ext_locked n id = false.

(** ** One round *)
Lemma room_fits n r : room (S n) r →
  claim_fits r = true ∧ can_incr 64 (r.(Delivery.Version) + 1) = true.
Proof.
  unfold room, claim_fits, can_incr. change (2 ^ 31) with 2147483648.
  change (2 ^ 63) with 9223372036854775808. change (2 ^ (32 - 1)) with 2147483648.
  change (2 ^ (64 - 1)) with 9223372036854775808.
  rewrite !andb_true_iff, !Z.leb_le, !Z.ltb_lt. lia.
Qed.
Lemma due_waits time r : due time r = true → waits r = true.
Proof. unfold due. by intros [? _]%andb_true_iff. Qed.

Lemma steady_round d ctx n w :
  plain_context ctx → d.(Dispatcher_transactor).(Transactor_db) = true → steady d (S n) w →
  ∃ f, steady d n (Dispatch.RunOnce d ctx w).2 ∧
    alike (view (w_db w)) (view (w_db (Dispatch.RunOnce d ctx w).2)) ∧
    tbl_deliveries (view (w_db (Dispatch.RunOnce d ctx w).2)) =
      map f (tbl_deliveries (view (w_db w))) ∧
    ∀ r, r ∈ tbl_deliveries (view (w_db w)) →
      if due (claim_time w) r then attempted d ctx (view (w_db w)) (claim_time w) r (f r)
      else f r = r.
Proof.
  intros Hctx Ht [Hu Hi Hb Hr].
  destruct (round_progress no_faults d ctx w Hctx Ht ltac:(lia) Hu Hi (λ r Hin, room_fits n r (Hr r Hin)))
    as (rows & vs & t1 & f & w' & -> & Hc & Ha & Hu' & Hi' & Hr' & Hall).
  assert (Z.of_nat (length rows) < d.(Dispatcher_cfg).(Notification_BatchSize)) as Hn.
  { eapply Z.le_lt_trans; [|exact Hb]. apply inj_le, NoDup_incl_length.
    - apply NoDup_ListNoDup, (claim_nodup _ _ _ _ _ _ Hc).
    - intros r Hin%list_elem_of_In. by apply list_elem_of_In, (claim_due _ _ _ _ _ _ Hc). }
  assert (∀ r, r ∈ tbl_deliveries (view (w_db w)) →
    if due (claim_time w) r then attempted d ctx (view (w_db w)) (claim_time w) r (f r)
    else f r = r) as Hf.
  { intros r Hin. destruct (Hall r Hin) as [Hyes Hno]. destruct (due (claim_time w) r) eqn:E.
    - by apply Hyes, (claim_complete _ _ _ _ _ _ Hc no_locks Hn).
    - apply Hno. intros Hd%(claim_due _ _ _ _ _ _ Hc). destruct Hd. congruence. }
  exists f. cbn [snd]. split; [|done]. split; [done..|by rewrite Hr', length_map|].
  intros r' Hin. rewrite Hr' in Hin. apply list_elem_of_fmap in Hin as (r & -> & Hin).
  pose proof (Hr r Hin) as Hroom. specialize (Hf r Hin). unfold room in *.
  destruct (due (claim_time w) r); [|rewrite Hf; lia].
  destruct (attempted_row _ _ _ _ _ _ Hf) as (_ & -> & -> & _). lia.
Qed.

(** The row of the delivery decides what is asked of it by its id. *)
Lemma some_row_eq p r w :
  unique_tables (view (w_db w)) → r ∈ tbl_deliveries (view (w_db w)) →
  some_row p r.(Delivery.ID) w = p r.
Proof.
  intros Hu Hr. unfold some_row. destruct (p r) eqn:E.
  - apply existsb_exists. exists r. split; [by apply list_elem_of_In|]. by rewrite sql_eq_refl, E.
  - apply existsb_false. intros r2 Hr2. destruct (sql_eq r2.(Delivery.ID) r.(Delivery.ID)) eqn:Es; [|done]. cbn.
    by rewrite (same_id _ _ _ (unique_deliveries _ Hu) Hr2 Hr Es).
Qed.

(** ** Many rounds *)
(** Every attempt at [r] succeeds, while the templates and the providers are those
    of [t]. *)
Definition accepts d ctx (t : Tables) r : Prop := ∀ v w,
  same_request r v → alike t (view (w_db w)) → (Dispatch.attempt d ctx v w).1.2 = nil_err.

(** What [k] due rounds made of the row [r]. *)
Record retried d ctx (t : Tables) (k : Z) r (r' : Delivery.t) : Prop := {
  retried_request : same_request r r';
  retried_Attempts : r'.(Delivery.Attempts) = r.(Delivery.Attempts) + k;
  retried_Version : r'.(Delivery.Version) = r.(Delivery.Version) + 2 * k;
  retried_none : k = 0 → r' = r;
  retried_some : k ≠ 0 → settled_status d.(Dispatcher_cfg) r';
  retried_budget : 0 ≤ k ≤ budget d.(Dispatcher_cfg) r;
  retried_left : waits r' = true → k < budget d.(Dispatcher_cfg) r;
  retried_final : waits r = false → k = 0;
  retried_accepted : accepts d ctx t r → k ≤ 1 ∧ (k = 1 → r'.(Delivery.Status) = "sent") }.

Lemma retried_refl d ctx t r : retried d ctx t 0 r r.
Proof. split; unfold budget; try done; lia. Qed.

Lemma final_waits s r : r.(Delivery.Status) = s → s ∈ ["sent"; "dead_letter"] → waits r = false.
Proof.
  intros Hr Hs. unfold waits. rewrite Hr. apply not_true_iff_false. rewrite orb_true_iff.
  rewrite !elem_of_cons, elem_of_nil in Hs.
  intros [E|E]; apply status_eq in E; try listed; destruct Hs as [->|[->|[]]]; try done; listed.
Qed.

Lemma same_request_trans r1 r2 r3 : same_request r1 r2 → same_request r2 r3 → same_request r1 r3.
Proof. unfold same_request. intuition congruence. Qed.
Lemma attempted_request d ctx t claim r r1 :
  attempted d ctx t claim r r1 → same_request r r1.
Proof. by intros (time & w & _ & ->). Qed.
Lemma attempted_accepted d ctx t claim r r1 :
  attempted d ctx t claim r r1 → accepts d ctx t r → r1.(Delivery.Status) = "sent".
Proof.
  intros (time & w & Ha & ->) Hok. specialize (Hok (handed_out claim r) w).
  destruct (Dispatch.attempt _ _ _ _).1 as [res err]. cbn in Hok. by rewrite Hok.
Qed.

(** One attempt more, before the others. *)
Lemma retried_attempted d ctx t claim k r r1 r' :
  attempted d ctx t claim r r1 → waits r = true → retried d ctx t k r1 r' →
  retried d ctx t (1 + k) r r'.
Proof.
  intros Hat Hw Hr. destruct (attempted_row _ _ _ _ _ _ Hat) as (Hi & Hv & Ha & Hs).
  assert (r1.(Delivery.Status) ∈ ["sent"; "dead_letter"] → k = 0 ∧ r' = r1 ∧ waits r1 = false)
    as Hend.
  { intros Hf. pose proof (final_waits _ _ eq_refl Hf) as Hf'.
    pose proof (retried_final _ _ _ _ _ _ Hr Hf') as Hk.
    split; [done|]. split; [exact (retried_none _ _ _ _ _ _ Hr Hk)|done]. }
  rewrite !elem_of_cons in Hend.
  assert (k = 0 ∧ waits r' = false ∨
    budget d.(Dispatcher_cfg) r = 1 + budget d.(Dispatcher_cfg) r1) as Hk.
  { destruct Hs as [Hs|[[Hs Hlt]|[Hs _]]]; [left|right; unfold budget; lia|left];
      destruct Hend as (? & -> & ?); tauto. }
  destruct Hr as [Hq' Ha' Hv' Hn Hst [Hk0 Hb] Hl _ _].
  pose proof (same_request_trans _ _ _ (attempted_request _ _ _ _ _ _ Hat) Hq') as Hq.
  split; [done|lia|lia|lia| | |intros Hw'; specialize (Hl Hw')|congruence|].
  - intros _. destruct (decide (k = 0)) as [->|Hk1]; [by rewrite (Hn eq_refl)|by apply Hst].
  - unfold budget in *. lia.
  - unfold budget in *. destruct Hk as [[-> ?]|?]; [congruence|lia].
  - intros Hok. pose proof (attempted_accepted _ _ _ _ _ _ Hat Hok) as Hsent.
    destruct Hend as (-> & -> & _); [by left|done].
Qed.

Lemma rounds_retried d ctx t n :
  plain_context ctx → d.(Dispatcher_transactor).(Transactor_db) = true →
  ∀ w r, alike t (view (w_db w)) → steady d n w → r ∈ tbl_deliveries (view (w_db w)) →
  ∃ r', r' ∈ tbl_deliveries (view (w_db (rounds d ctx n w))) ∧
    retried d ctx t (count_rounds (is_due r.(Delivery.ID)) d ctx n w) r r' ∧
    (waits r' = true → Z.of_nat n = count_rounds (is_due r.(Delivery.ID)) d ctx n w +
      count_rounds (is_early r.(Delivery.ID)) d ctx n w).
Proof.
  intros Hctx Ht. induction n as [|n IH]; intros w r Hal Hst Hin.
  { exists r. cbn. split; [done|]. split; [apply retried_refl|done]. }
  destruct (steady_round d ctx n w Hctx Ht Hst) as (f & Hst' & [Hal1 Hal2] & Hrows & Hf).
  specialize (Hf r Hin). destruct Hal as [Hat Hap].
  destruct (IH (Dispatch.RunOnce d ctx w).2 (f r)) as (r' & Hin' & Hr & Hwait);
    [by split; congruence|done|by rewrite Hrows; apply list_elem_of_fmap; exists r|].
  exists r'. split; [exact Hin'|]. cbn [count_rounds].
  unfold is_due at 1, is_early at 1. unfold is_due at 2.
  rewrite !(some_row_eq _ r w (steady_unique _ _ _ Hst) Hin).
  destruct (due (claim_time w) r) eqn:Ed; cbn [negb Z.b2z].
  - destruct (attempted_row _ _ _ _ _ _ Hf) as (Hid & _). rewrite Hid in Hr, Hwait.
    split; [|rewrite andb_false_r; intros Hw'%Hwait; cbn; lia].
    eapply (retried_attempted _ _ _ (claim_time w)); [|exact (due_waits _ _ Ed)|exact Hr].
    destruct Hf as (time & w0 & [H1' H2'] & Hf). exists time, w0. split; [split; congruence|done].
  - rewrite Hf in Hr, Hwait. split; [by rewrite Z.add_0_l|]. rewrite andb_true_r. intros Hw'.
    specialize (Hwait Hw'). destruct (waits r) eqn:Ew; cbn; [lia|].
    pose proof (retried_final _ _ _ _ _ _ Hr Ew) as Hk.
    rewrite (retried_none _ _ _ _ _ _ Hr Hk) in Hw'. congruence.
Qed.

(** A delivery that waited, after rounds enough. *)
Lemma rounds_finish d ctx t k early n r r' :
  retried d ctx t k r r' → waits r = true → (waits r' = true → n = k + early) →
  (budget d.(Dispatcher_cfg) r + early ≤ n →
   r'.(Delivery.Status) = "sent" ∨
   (r'.(Delivery.Status) = "dead_letter" ∧
    d.(Dispatcher_cfg).(Notification_MaxAttempts) ≤ r'.(Delivery.Attempts))) ∧
  (accepts d ctx t r → 1 + early ≤ n → k = 1 ∧ r'.(Delivery.Status) = "sent").
Proof.
  intros Hr Hw Hwait.
  assert (k = 0 → waits r' = true) as Hk0 by (intros Hk; by rewrite (retried_none _ _ _ _ _ _ Hr Hk)).
  pose proof (retried_budget _ _ _ _ _ _ Hr) as [Hk _]. split.
  - intros Hn. assert (waits r' = false) as Hf.
    { apply not_true_iff_false. intros Hw'. pose proof (retried_left _ _ _ _ _ _ Hr Hw').
      specialize (Hwait Hw'). lia. }
    destruct (retried_some _ _ _ _ _ _ Hr) as [?|[[Hs _]|?]]; [|by left| |by right].
    + intros Hk'. rewrite Hk0 in Hf by done. congruence.
    + unfold waits in Hf. by rewrite Hs, (sql_eq_refl "retrying"), orb_true_r in Hf.
  - intros Hok Hn. destruct (retried_accepted _ _ _ _ _ _ Hr Hok) as [Hk1 Hsent].
    assert (k = 1) as E; [|by auto].
    destruct (decide (k = 0)) as [E|]; [specialize (Hwait (Hk0 E)); lia|lia].
Qed.

(** C8 No delivery is retried forever.  Let [n] rounds of the dispatcher run
    without faults, locks and concurrent requests, with a batch larger than the
    table.  A delivery that waits at first is attempted exactly once at each round
    at which its time has come, never more often than it has attempts left (or
    once), and its version counts two writes for each attempt.  When enough of the
    rounds find it due, it is no longer waiting: it was sent, or it is a dead letter
    with all of its attempts used. *)
Theorem retries_terminate d ctx n w r :
  plain_context ctx → d.(Dispatcher_transactor).(Transactor_db) = true →
  steady d n w → r ∈ tbl_deliveries (view (w_db w)) → waits r = true →
  let cfg := d.(Dispatcher_cfg) in
  let k := count_rounds (is_due r.(Delivery.ID)) d ctx n w in
  let early := count_rounds (is_early r.(Delivery.ID)) d ctx n w in
  ∃ r', r' ∈ tbl_deliveries (view (w_db (rounds d ctx n w))) ∧
    r'.(Delivery.ID) = r.(Delivery.ID) ∧
    r'.(Delivery.Attempts) = r.(Delivery.Attempts) + k ∧
    r'.(Delivery.Version) = r.(Delivery.Version) + 2 * k ∧
    0 ≤ k ≤ Z.max 1 (cfg.(Notification_MaxAttempts) - r.(Delivery.Attempts)) ∧
    (Z.max 1 (cfg.(Notification_MaxAttempts) - r.(Delivery.Attempts)) + early ≤ Z.of_nat n →
     r'.(Delivery.Status) = "sent" ∨
     (r'.(Delivery.Status) = "dead_letter" ∧
      cfg.(Notification_MaxAttempts) ≤ r'.(Delivery.Attempts))).
Proof.
  intros Hctx Ht Hst Hin Hw cfg k early. fold (budget cfg r).
  destruct (rounds_retried d ctx (view (w_db w)) n Hctx Ht w r) as (r' & Hin' & Hr & Hwait); [done..|].
  fold cfg in Hr. fold k in Hr, Hwait. fold early in Hwait. exists r'. split; [done|].
  pose proof (rounds_finish _ _ _ _ _ _ _ _ Hr Hw Hwait) as [Hend _].
  destruct Hr as [Hq Ha Hv _ _ Hb _ _ _]. split; [apply Hq|].
  by do 3 (split; [done|]).
Qed.

(** ** The worker *)
(** The worker's loop is rounds in a row, the first before its first tick. *)
Lemma worker_loop_rounds d ctx n : ∀ w,
  (Dispatch.worker_loop d ctx n w).2 = rounds d ctx (S n) w.
Proof.
  induction n as [|n IH]; intros w; cbn [Dispatch.worker_loop rounds]; unfold bind.
  - by destruct (Dispatch.RunOnce d ctx w) as [[m err] w1].
  - specialize (IH (Dispatch.RunOnce d ctx w).2). cbn [rounds] in IH. rewrite <- IH.
    destruct (Dispatch.RunOnce d ctx w) as [[m err] w1]. cbn [snd].
    by destruct (Dispatch.worker_loop d ctx n w1).
Qed.
Lemma worker_start_rounds d cfg n w :
  cfg.(Config_Database).(Database_Enabled) = true →
  (Dispatch.worker_start d cfg n w).2 = rounds d Background (S n) w.
Proof. intros He. unfold Dispatch.worker_start. rewrite He. apply worker_loop_rounds. Qed.

(** C9 What [Send] accepted is delivered.  [Send] succeeded with a new key, and the
    worker runs for [n] ticks without faults, locks and other requests.  The
    delivery that [Send] returned is still there, asking for the same, after at most
    as many attempts as are configured.  When enough rounds found it due it was sent
    or it is a dead letter with all attempts used; and when its provider accepts the
    message, the first due round sends it, with one attempt. *)
Theorem Send_delivers s ctx tenant application code channel locale recipient key variables
    d wcfg n w v w1 :
  Service.Send s ctx tenant application code channel locale recipient key variables w
    = ((v, nil_err), w1) →
  existsb (delivery_key (TrimSpace tenant) (TrimSpace application) (TrimSpace key))
    (tbl_deliveries (view (w_db w))) = false →
  wcfg.(Config_Database).(Database_Enabled) = true →
  d.(Dispatcher_transactor).(Transactor_db) = true → steady d (S n) w1 →
  let cfg := d.(Dispatcher_cfg) in
  let r := stored_delivery v in
  let k := count_rounds (is_due r.(Delivery.ID)) d Background (S n) w1 in
  let early := count_rounds (is_early r.(Delivery.ID)) d Background (S n) w1 in
  let w2 := (Dispatch.worker_start d wcfg n w1).2 in
  ∃ r', r' ∈ tbl_deliveries (view (w_db w2)) ∧
    same_request r r' ∧ r'.(Delivery.Attempts) = k ∧
    0 ≤ k ≤ Z.max 1 cfg.(Notification_MaxAttempts) ∧
    (Z.max 1 cfg.(Notification_MaxAttempts) + early ≤ Z.of_nat (S n) →
     r'.(Delivery.Status) = "sent" ∨
     (r'.(Delivery.Status) = "dead_letter" ∧
      cfg.(Notification_MaxAttempts) ≤ r'.(Delivery.Attempts))) ∧
    (accepts d Background (view (w_db w1)) r → 1 + early ≤ Z.of_nat (S n) →
     r'.(Delivery.Status) = "sent" ∧ r'.(Delivery.Attempts) = 1).
Proof.
  intros E Hkey Hen Ht Hst cfg r k early w2. subst w2. rewrite worker_start_rounds by done.
  apply Send_spec in E as [(_ & Hin & Hsame)|[(e & _ & _ & _ & Hw1) [_ [(caller & _ & Hnew) _]]]].
  { exfalso. rewrite existsb_false in Hkey. by rewrite Hkey in Hsame. }
  destruct (new_state _ _ _ _ _ _ _ _ _ _ Hnew) as (Hs & _ & Ha & _).
  assert (waits r = true) as Hw by (unfold waits;
    change r.(Delivery.Status) with v.(Delivery.Status); by rewrite Hs, (sql_eq_refl "pending")).
  assert (r ∈ tbl_deliveries (view (w_db w1))) as Hr1 by (rewrite Hw1; apply elem_of_app; right; left).
  assert (budget cfg r = Z.max 1 cfg.(Notification_MaxAttempts)) as <-
    by (unfold budget; change r.(Delivery.Attempts) with v.(Delivery.Attempts);
      by rewrite Ha, Z.sub_0_r).
  destruct (rounds_retried d Background (view (w_db w1)) (S n) eq_refl Ht w1 r)
    as (r' & Hin' & Hr & Hwait); [done..|].
  fold k in Hr, Hwait. fold early in Hwait. exists r'. split; [done|].
  destruct (rounds_finish _ _ _ _ _ _ _ _ Hr Hw Hwait) as [Hend Hok].
  destruct Hr as [Hq Hat _ _ _ Hb _ _ _]. change r.(Delivery.Attempts) with v.(Delivery.Attempts) in Hat.
  rewrite Ha, Z.add_0_l in Hat. do 4 (split; [done|]). intros Hacc Hn.
  destruct (Hok Hacc Hn) as [Hk ?]. by rewrite Hat.
Qed.
End Retrying.
