(* ===== verification/Calls.v ===== *)
(** * A call of the service, as both transports make it

    The ten methods of the service as one function from requests to values. *)

From S2P Require Import Prelude GoStrings AppError Config Reqctx Effects Model Libraries.
From S2P Require Import Repository Service ServiceSpec.
Open Scope string_scope.
Open Scope list_scope.
Open Scope Z_scope.
Open Scope go_scope.

Inductive Value :=
  | VProvider (v : Provider.t) | VTemplate (v : Template.t) | VDelivery (v : Delivery.t)
  | VProviders (p : ProviderPage) | VTemplates (p : TemplatePage) | VDeliveries (p : Page).

Section Calls.
Context `{Externals} `{UnicodeTables} `{LibraryText} `{URLLibrary} `{TemplateLibrary}
  `{JSONLibrary} `{EventLibrary} {DB : Type} `{!Repository DB}.
Implicit Types (s : NotificationService) (ctx : Context) (w : World DB Event).

Definition value_of {A} (f : A → Value) (m : IO DB (A * error)) : IO DB (Value * error) :=
  let! (v, err) := m in ret (f v, err).
Definition call s ctx (r : Request) : IO DB (Value * error) :=
  match r with
  | RPutProvider v expected => value_of VProvider (Service.PutProvider s ctx v expected)
  | RGetProvider t a code => value_of VProvider (Service.GetProvider s ctx t a code)
  | RListProviders t a k c st p n => value_of VProviders (Service.ListProviders s ctx t a k c st p n)
  | RPutTemplate v expected => value_of VTemplate (Service.PutTemplate s ctx v expected)
  | RGetTemplate t a code c l => value_of VTemplate (Service.GetTemplate s ctx t a code c l)
  | RListTemplates t a k c st p n => value_of VTemplates (Service.ListTemplates s ctx t a k c st p n)
  | RSend t a code c l rcp key vars =>
      value_of VDelivery (Service.Send s ctx t a code c l rcp key vars)
  | RGetDelivery id t a => value_of VDelivery (Service.GetDelivery s ctx id t a)
  | RRecordReceipt t a p m st re => value_of VDelivery (Service.RecordReceipt s ctx t a p m st re)
  | RListDeliveries t a st p n => value_of VDeliveries (Service.ListDeliveries s ctx t a st p n)
  end.

Lemma value_of_run {A} (f : A → Value) (m : IO DB (A * error)) w :
  value_of f m w = ((f (m w).1.1, (m w).1.2), (m w).2).
Proof. unfold value_of, bind. by destruct (m w) as [[v err] w']. Qed.

(** The errors and effects of a call are those of the request it stands for. *)
Lemma call_run_request s ctx r w :
  run_request s ctx r w = ((call s ctx r w).1.2, (call s ctx r w).2).
Proof.
  destruct r; cbn [call run_request]; rewrite value_of_run; unfold bind, ret; cbn [fst snd];
    match goal with |- context [let '(_, _) := ?m in _] => by destruct m as [[v' err'] w'] end.
Qed.
End Calls.
