(* ===== verification/Web.v ===== *)
(** * The HTTP transport's ground: requests, the gin context, responses

    A [gin.Context] is the record of what the program reads and writes through
    it: the request, the keys it sets, and the response so far.  A
    [gin.HandlerFunc] is a function of the rest of its chain, [c.Next]: each of
    the program's handlers calls it once or aborts.  A panic is a mark on the
    context: the statements after [c.Next] are skipped ([after]), until
    [Recovery] takes it away. *)

From S2P Require Import Prelude Wire AppError Config Reqctx Effects.
Open Scope string_scope.
Open Scope list_scope.
Open Scope Z_scope.
Open Scope go_scope.

(** What was written to the client: a JSON response, or the bytes of a handler
    that is not the program's. *)
Inductive Output := Unified (r : Response.t) | Raw (text : string).

Record Gin := mkGin {
  gin_Method : string;
  gin_FullPath : string;                  (* the matched route, "" if none *)
  gin_Header : gmap string string;
  gin_ContentLength : Z;
  gin_TLS : bool;
  gin_ClientIP : string;
  gin_Body : string * error;              (* the bytes, and what the reader ends with *)
  gin_ctx : Context;                      (* c.Request.Context() *)
  gin_request_id : option string;         (* c.Set("request_id") *)
  gin_subject : option string;            (* c.Set("subject") *)
  gin_environment : option string;        (* c.Set("environment") *)
  gin_headers : gmap string string;       (* response headers *)
  gin_Status : Z;
  gin_Written : bool;
  gin_Output : list Output;
  gin_panic : bool }.

(** ** The methods of the gin context that the program calls *)
Definition GetHeader (c : Gin) (name : string) : string := default "" (c.(gin_Header) !! name).
(** [c.Header]: an empty value removes the header. *)
Definition set_header (name value : string) (c : Gin) : Gin :=
  { c with gin_headers ::= (if value == "" then delete name else insert name value) }.
(** The status of a response is settled by its first write. *)
Definition write (status : Z) (output : list Output) (c : Gin) : Gin :=
  { c with
    gin_Status := (if c.(gin_Written) then c.(gin_Status) else status);
    gin_Written := true;
    gin_Output ::= (λ o, o ++ output) }.
Definition JSONResponse (status : Z) (r : Response.t) (c : Gin) : Gin :=
  write status [Unified r] c.
Definition AbortWithStatusJSON : Z → Response.t → Gin → Gin := JSONResponse.
Definition AbortWithStatus (status : Z) (c : Gin) : Gin := write status [] c.

Definition requestID (c : Gin) : string := default "" c.(gin_request_id).

(** ** response.go *)
Section Responses.
Context `{CodeValues}.
Implicit Types (c : Gin).

Definition unified (code : Code) (message : string) (body : JSON) c : Response.t := {|
  Response.Code := code_value code; Response.Message := message; Response.Body := body;
  Response.RequestID := requestID c |}.

Definition OK (body : JSON) c : Gin :=
  JSONResponse 200 (unified CodeOK "success" body c) c.
Definition app_error (err : error) : AppError :=
  match error_as_app err with
  | Some appErr => appErr
  | None => mkAppError CodeInternal "internal server error" 500 err
  end.
Definition Fail (err : error) c : Gin :=
  let appErr := app_error err in
  AbortWithStatusJSON appErr.(app_HTTPStatus)
    (unified appErr.(app_Code) appErr.(app_Message) JNull c) c.
End Responses.

(** ** Handlers *)
Abbreviation Handler DB := (Gin → IO DB Gin).
Abbreviation Middleware DB := (Handler DB → Handler DB).

(** The statements after [c.Next()]. *)
Definition after {DB} (next : Handler DB) (c : Gin) (k : Handler DB) : IO DB Gin :=
  let! c := next c in if c.(gin_panic) then ret c else k c.
(** A handler that writes and ends. *)
Definition finish {DB} (f : Gin → Gin) : Handler DB := λ c, ret (f c).
(** Handlers in their order of registration, before [h]. *)
Definition chain {DB} (ms : list (Middleware DB)) (h : Handler DB) : Handler DB :=
  foldr (λ m next, m next) h ms.

Lemma chain_app {DB} (ms ns : list (Middleware DB)) h : chain (ms ++ ns) h = chain ms (chain ns h).
Proof. unfold chain. by rewrite foldr_app. Qed.

(** ** Facts about responses *)
Section Facts.
Context `{CodeValues}.

(** [c] answers with exactly [r] under [status]: nothing else was written. *)
Definition answers (status : Z) (r : Response.t) (c : Gin) : Prop :=
  c.(gin_Status) = status ∧ c.(gin_Written) = true ∧ c.(gin_Output) = [Unified r].
(** Nothing was written yet. *)
Definition fresh (c : Gin) : Prop := c.(gin_Written) = false ∧ c.(gin_Output) = [].

Lemma JSONResponse_answers status r c : fresh c → answers status r (JSONResponse status r c).
Proof. destruct c. intros [Hw Ho]. cbn in *. by subst. Qed.


(** An application error is answered with its own status, code and message. *)
Lemma Fail_app code message status cause c : fresh c →
  answers status (unified code message JNull c) (Fail (ErrApp code message status cause) c).
Proof. apply JSONResponse_answers. Qed.

(** The text of an internal cause never reaches the client. *)
Lemma Fail_internal err c : error_as_app err = None → fresh c →
  answers 500 (unified CodeInternal "internal server error" JNull c) (Fail err c).
Proof. intros He. unfold Fail, app_error. rewrite He. apply JSONResponse_answers. Qed.
End Facts.
