(* ===== verification/Health.v ===== *)
(** * internal/health: liveness and readiness

    [Ready] runs one check per dependency in a goroutine of its own and collects
    the two results in the order in which they arrive, which is the outside
    world's choice ([ext_first]). *)

From S2P Require Import Prelude Wire Config Reqctx Effects.
Open Scope string_scope.
Open Scope list_scope.
Open Scope Z_scope.
Open Scope go_scope.

(** [time.Duration.String] *)
Class DurationText := Duration_String : Z → string.

Record Dependency := mkDependency { Dependency_Status : string; Dependency_Latency : string }.
Module Status.
Record t := mk { Status : string; Dependencies : gmap string Dependency }.
Definition dependency_json (d : Dependency) : JSON :=
  JObj (("status", JStr d.(Dependency_Status))
        :: if d.(Dependency_Latency) == "" then [] else [("latency", JStr d.(Dependency_Latency))]).
(** [dependencies] has [omitempty]. *)
Definition to_json (s : t) : JSON :=
  JObj (("status", JStr s.(Status))
        :: match map_to_list s.(Dependencies) with
           | [] => []
           | l => [("dependencies", JObj (map (λ e, (e.1, dependency_json e.2)) l))]
           end).
End Status.

(** [db] and [redis] tell whether the pool and the client exist. *)
Record HealthService := mkHealthService {
  HealthService_db : bool; HealthService_redis : bool; HealthService_cfg : Health }.
Record CheckResult := mkCheckResult {
  result_name : string; result_dependency : Dependency; result_ready : bool }.

Module HealthService.
Definition New (db client : bool) (cfg : Config) : HealthService :=
  mkHealthService db client cfg.(Config_Health).

Definition Live (s : HealthService) : Status.t := Status.mk "up" ∅.

Section Checks.
Context `{Externals} `{DurationText} {DB : Type}.
Implicit Types (s : HealthService) (ctx : Context).

Definition checkResult (name : string) (started : Z) (err : error) : IO DB CheckResult :=
  let! t := now in
  let latency := Duration_String (wrap64 (t - started)) in
  when! failed err return! mkCheckResult name (mkDependency "down" latency) false;
  ret (mkCheckResult name (mkDependency "up" latency) true).
Definition ping (name : string) : IO DB error :=
  emit (EvPing name) ;; let! n := tick in ret (ext_ping n name).
(** [checkDatabase] and [checkRedis]; [exists_] tells whether there is a client. *)
Definition check (name : string) (exists_ : bool) : IO DB CheckResult :=
  when! negb exists_ return! mkCheckResult name (mkDependency "disabled" "") true;
  let! started := now in
  let! err := ping name in
  checkResult name started err.
Definition checkDatabase s : IO DB CheckResult := check "database" s.(HealthService_db).
Definition checkRedis s : IO DB CheckResult := check "redis" s.(HealthService_redis).

(** The loop over the two results, in the order of their arrival. *)
Definition collect (items : list CheckResult) : gmap string Dependency * bool :=
  fold_left (λ acc item,
    (<[item.(result_name) := item.(result_dependency)]> acc.1, acc.2 && item.(result_ready)))
    items (∅, true).
Definition Ready s ctx : IO DB (Status.t * bool) :=
  let! database := checkDatabase s in
  let! redis := checkRedis s in
  let! n := tick in
  let '(dependencies, ready) :=
    collect (if ext_first n then [database; redis] else [redis; database]) in
  ret (Status.mk (if ready then "ready" else "not_ready") dependencies, ready).
End Checks.
End HealthService.

(** ** Readiness *)
Section Properties.
Context `{Externals} `{DurationText} {DB : Type}.

(** The state of a dependency whose ping ended with [err]. *)
Definition dependency_state (exists_ : bool) (err : error) : string :=
  if exists_ then if is_nil err then "up" else "down" else "disabled".
Definition available (exists_ : bool) (err : error) : bool := negb exists_ || is_nil err.

(** What one check reports: it pings at most once and touches no table. *)
Lemma check_spec name exists_ (w : World DB Event) :
  ∃ d w', HealthService.check name exists_ w = (d, w') ∧ w_db w' = w_db w ∧
    d.(result_name) = name ∧
    d.(result_dependency).(Dependency_Status) = dependency_state exists_ (ext_ping (S (w_tick w)) name) ∧
    d.(result_ready) = available exists_ (ext_ping (S (w_tick w)) name).
Proof.
  unfold HealthService.check. destruct exists_; [|by do 2 eexists].
  unfold bind, now, HealthService.ping, emit, tick, ret, HealthService.checkResult, dependency_state.
  cbn. by destruct (ext_ping (S (w_tick w)) name); do 2 eexists.
Qed.

(** Readiness does not depend on which goroutine answers first. *)
Lemma collect_order a b : a.(result_name) ≠ b.(result_name) →
  HealthService.collect [a; b] = HealthService.collect [b; a].
Proof.
  intros Hn. unfold HealthService.collect. cbn. f_equal.
  - by rewrite insert_insert_ne.
  - by rewrite andb_comm.
Qed.

Lemma check_keeps name exists_ : keeps_db (DB := DB) (HealthService.check name exists_).
Proof. intros w. by destruct (check_spec name exists_ w) as (d & w' & -> & Hw & _). Qed.
Lemma Ready_keeps s ctx : keeps_db (DB := DB) (HealthService.Ready s ctx).
Proof.
  unfold HealthService.Ready. do 2 (apply keeps_bind; [apply check_keeps|intros ?]).
  apply keeps_bind; [apply keeps_tick|intros n]. by destruct (HealthService.collect _).
Qed.

(** The service reports itself ready exactly when each of its two dependencies
    is disabled or answered its ping, whichever check ends first; the report
    names both dependencies with their state, and no table is touched. *)
Theorem Ready_spec s ctx (w : World DB Event) :
  ∃ n m status w',
    let ready := available s.(HealthService_db) (ext_ping n "database")
                 && available s.(HealthService_redis) (ext_ping m "redis") in
    HealthService.Ready s ctx w = ((status, ready), w') ∧ w_db w' = w_db w ∧
    status.(Status.Status) = (if ready then "ready" else "not_ready") ∧
    Dependency_Status <$> status.(Status.Dependencies) =
      {[ "database" := dependency_state s.(HealthService_db) (ext_ping n "database");
         "redis" := dependency_state s.(HealthService_redis) (ext_ping m "redis") ]}.
Proof.
  destruct (check_spec "database" s.(HealthService_db) w) as (d & w1 & E1 & Hw1 & Hd & Hds & Hdr).
  destruct (check_spec "redis" s.(HealthService_redis) w1) as (r & w2 & E2 & Hw2 & Hr & Hrs & Hrr).
  assert (HealthService.collect (if ext_first (w_tick w2) then [d; r] else [r; d])
    = HealthService.collect [d; r]) as Hc.
  { destruct (ext_first _); [done|]. apply collect_order. by rewrite Hd, Hr. }
  exists (S (w_tick w)), (S (w_tick w1)).
  unfold HealthService.Ready, HealthService.checkDatabase, HealthService.checkRedis, bind, tick, ret.
  rewrite E1, E2. cbn [w_tick]. rewrite Hc. unfold HealthService.collect. cbn [fold_left fst snd].
  rewrite Hd, Hr, <- Hdr, <- Hrr. do 2 eexists. split; [reflexivity|]. cbn [w_db Status.Status Status.Dependencies].
  split; [congruence|]. split; [done|].
  by rewrite !fmap_insert, fmap_empty, Hds, Hrs, insert_insert_ne, insert_empty.
Qed.
End Properties.
