(* ===== verification/Middleware.v ===== *)
(** * internal/transport/http/middleware.go

    A middleware takes the rest of the chain and a context. *)

From S2P Require Import Prelude GoStrings PathMatch Wire AppError Config Connections Reqctx Auth Effects.
From S2P Require Import Ratelimit Web.
From Stdlib Require Import Ascii.
Open Scope string_scope.
Open Scope list_scope.
Open Scope Z_scope.
Open Scope go_scope.

(** [mime.ParseMediaType], the platform's [idempotency.Valid], the hexadecimal
    SHA-256, and [encoding/json] on the unified response. *)
Class WebLibrary := {
  mime_ParseMediaType : string → string * error;
  idempotency_Valid : string → bool;
  sha256_hex : string → string;
  json_MarshalResponse : Response.t → string;
  json_UnmarshalResponse : string → Response.t * error }.

(** [d.Round(time.Second)]: half away from zero, saturating. *)
Definition Duration_Round (d m : Z) : Z :=
  let r := Z.rem d m in
  if d <? 0 then
    if (- r) + (- r) <? m then d + - r
    else let d1 := wrap64 (d - m + - r) in if d1 <? d then d1 else - 2 ^ 63
  else
    if r + r <? m then d - r
    else let d1 := wrap64 (d + m - r) in if d <? d1 then d1 else max_int64.

(** [int(d.Seconds())]: the seconds are a [float64], which from 2^23 seconds on
    is too coarse to tell the last nanoseconds from the next second. *)
Definition Seconds_int (d : Z) : Z :=
  let s := Z.abs d `quot` second in
  let n := Z.abs d `rem` second in
  let s := if (0 <? n) && ((second - n) * 2 ^ 53 <=? second * 2 ^ Z.log2 s) then s + 1 else s in
  Z.sgn d * s.

(** [fmt.Sprint] of the subject. *)
Definition Sprint (subject : option string) : string := default "<nil>" subject.
Definition NUL : string := String "000"%char "".

Record IdempotencyManager := mkIdempotencyManager { Manager_Enabled : bool }.

Module Http.
Definition WithCallerCredential (ctx : Context) (header : string) : Context :=
  { ctx with ctx_credential := Some header }.
(** [c.Request = c.Request.WithContext(f(c.Request.Context()))] *)
Definition with_context (f : Context → Context) (c : Gin) : Gin := { c with gin_ctx ::= f }.

Section Middleware.
Context `{Externals} `{TokenLibrary} `{CodeValues} `{WebLibrary} {DB : Type}.
Implicit Types (next : Handler DB) (c : Gin).

(** ** Ids, environment *)
Definition generate : IO DB string :=
  let! n := tick in
  let random := ext_random n in
  let! t := (match random with Some _ => ret 0 | None => now end) in
  ret (Requestid.Generate random t).
Definition RequestID : Middleware DB := λ next c,
  let id := GetHeader c "X-Request-ID" in
  let! id := (if Requestid.Valid id then ret id else generate) in
  let c := { c with gin_request_id := Some id } in
  let c := set_header "X-Request-ID" id c in
  next (with_context (λ ctx, Requestid.WithContext ctx id) c).

Definition Environment (profile : string) : Middleware DB := λ next c,
  let c := { c with gin_environment := Some profile } in
  next (with_context (λ ctx, Environment.WithContext ctx profile) c).

Definition IdempotencyKey : Middleware DB := λ next c,
  let key := GetHeader c "Idempotency-Key" in
  if key == "" then next c else
  if negb (idempotency_Valid key)
  then ret (Fail (AppErr.Invalid "invalid Idempotency-Key" nil_err) c) else
  let c := set_header "Idempotency-Key" key c in
  next (with_context (λ ctx, Idempotency.WithContext ctx key) c).

(** ** Idempotent execution *)
(** [io.ReadAll] and the body that replaces the one it consumed. *)
Definition idempotencyFingerprint c : string * error * Gin :=
  let '(body, err) := c.(gin_Body) in
  if failed err then ("", err, c) else
  (sha256_hex (Sprint c.(gin_subject) +:+ NUL +:+ c.(gin_Method) +:+ NUL +:+ c.(gin_FullPath)
               +:+ NUL +:+ body),
   nil_err, { c with gin_Body := (body, nil_err) }).

Definition Begin (key fingerprint : string) : IO DB (Decision * error) :=
  emit (EvBegin key fingerprint) ;; let! n := tick in ret (ext_begin n key fingerprint).
Definition Complete (key owner : string) (response : Response.t) : IO DB error :=
  emit (EvComplete key owner response) ;; let! n := tick in ret (ext_complete n key response).
Definition Fail_key (key owner : string) (failure : Failure) : IO DB error :=
  emit (EvFail key owner failure) ;; let! n := tick in ret (ext_fail n key failure).

(** What [responseCapture] holds: the bytes written since it was put in place. *)
Definition output_text (o : Output) : string :=
  match o with Unified r => json_MarshalResponse r | Raw text => text end.
Definition captured (c c' : Gin) : string :=
  String.concat "" (map output_text (drop (length c.(gin_Output)) c'.(gin_Output))).

(** What follows [c.Next()]: the answer is kept under the key. *)
Definition persist (key owner : string) (c0 c : Gin) : IO DB Gin :=
  let '(response, err) := json_UnmarshalResponse (captured c0 c) in
  when! failed err return! c;
  let response := { response with Response.RequestID := "" } in
  let! _ := (if 400 <=? c.(gin_Status)
    then Fail_key key owner (mkFailure response.(Response.Code) response.(Response.Message)
                               c.(gin_Status))
    else Complete key owner response) in
  ret c.

Definition replay (decision : Decision) c : Gin :=
  let '(response, err) := json_UnmarshalResponse decision.(Decision_Response) in
  if failed err then Fail (AppErr.Unavailable "idempotency response is unavailable" err) c
  else AbortWithStatusJSON 200 { response with Response.RequestID := requestID c } c.
Definition replay_failure (failure : Failure) c : Gin :=
  AbortWithStatusJSON failure.(Failure_HTTPStatus)
    {| Response.Code := failure.(Failure_Code); Response.Message := failure.(Failure_Message);
       Response.Body := JNull; Response.RequestID := requestID c |} c.

Definition IdempotencyExecution (manager : option IdempotencyManager) (paths : list string)
    : Middleware DB := λ next c,
  let '(key, ok) := Idempotency.FromContext c.(gin_ctx) in
  if negb ok || negb (match manager with Some m => m.(Manager_Enabled) | None => false end)
     || (c.(gin_Method) != "POST") || negb (MatchesAny c.(gin_FullPath) paths)
  then next c else
  let '(fingerprint, err, c) := idempotencyFingerprint c in
  when! failed err return! Fail (AppErr.Invalid "read idempotent request" err) c;
  let! (decision, err) := Begin key fingerprint in
  when! failed err return! Fail (AppErr.Unavailable "idempotency is unavailable" err) c;
  match decision.(Decision_State) with
  | StateCompleted => ret (replay decision c)
  | StateFailed => ret (replay_failure decision.(Decision_Failure) c)
  | StateProcessing => ret (Fail AppErr.RequestInProgress c)
  | StateConflict =>
      ret (Fail (AppErr.Conflict "idempotency key belongs to a different request" nil_err) c)
  | StateAcquired => after next c (persist key decision.(Decision_Owner) c)
  | StateOther _ => ret (Fail (AppErr.Unavailable "idempotency state is invalid" nil_err) c)
  end.

(** ** Observers *)
Definition RequestLogger : Middleware DB := λ next c,
  after next c (λ c,
    emit (EvAccess (requestID c) c.(gin_Method) c.(gin_FullPath) c.(gin_Status)) ;; ret c).

Definition HTTPMetrics (enabled : bool) : Middleware DB := λ next c,
  after next c (λ c,
    when! negb enabled return! c;
    let route := if c.(gin_FullPath) == "" then "unmatched" else c.(gin_FullPath) in
    emit (EvMetric "http_requests_total" [c.(gin_Method); route; pretty c.(gin_Status)]) ;;
    emit (EvMetric "http_request_duration_seconds" [c.(gin_Method); route]) ;;
    ret c).

Definition recovered c : Gin :=
  AbortWithStatusJSON 500 (unified CodeInternal "internal server error" JNull c)
    { c with gin_panic := false }.
Definition Recovery : Middleware DB := λ next c,
  let! c := next c in if c.(gin_panic) then ret (recovered c) else ret c.

(** ** Bounds on the request *)
Definition Timeout : Middleware DB := λ next c,
  after next (with_context (λ ctx, { ctx with ctx_has_deadline := true }) c) (λ c,
    let! n := tick in
    ret (if ext_deadline n && negb c.(gin_Written) then Fail AppErr.RequestTimeout c else c)).

(** [http.MaxBytesReader]: what lies beyond the limit is not read, and reading
    it is an error. *)
Definition MaxBytesReader (body : string * error) (limit : Z) : string * error :=
  let limit := Z.to_nat (Z.max 0 limit) in
  if (limit <? String.length body.1)%nat
  then (String.substring 0 limit body.1, ErrMsg "http: request body too large") else body.
Definition MaxBody (limit : Z) : Middleware DB := λ next c,
  next { c with gin_Body ::= (λ body, MaxBytesReader body limit) }.

Definition RequireJSON : Middleware DB := λ next c,
  let '(mediaType, err) := mime_ParseMediaType (GetHeader c "Content-Type") in
  if (c.(gin_Method) == "POST") && (c.(gin_ContentLength) != 0)
     && (failed err || (mediaType != "application/json"))
  then ret (AbortWithStatusJSON 415
    (unified CodeInvalidArgument "content type must be application/json" JNull c) c)
  else next c.

(** ** Browser policy *)
Definition SecurityHeaders : Middleware DB := λ next c,
  let c := set_header "X-Content-Type-Options" "nosniff" c in
  let c := set_header "X-Frame-Options" "DENY" c in
  let c := set_header "Referrer-Policy" "no-referrer" c in
  let c := set_header "Content-Security-Policy" "default-src 'none'; frame-ancestors 'none'" c in
  let c := set_header "Cache-Control" "no-store" c in
  let c := if c.(gin_TLS)
    then set_header "Strict-Transport-Security" "max-age=31536000; includeSubDomains" c else c in
  next c.

Definition CORS (cfg : CORS) : Middleware DB := λ next c,
  if negb cfg.(CORS_Enabled) then next c else
  let origin := GetHeader c "Origin" in
  if origin == "" then next c else
  if negb (bool_decide (origin ∈ cfg.(CORS_AllowedOrigins)))
  then ret (AbortWithStatusJSON 403 (unified CodeForbidden "origin is not allowed" JNull c) c) else
  let c := set_header "Access-Control-Allow-Origin" origin c in
  let c := set_header "Vary" "Origin" c in
  let c := set_header "Access-Control-Allow-Methods" "POST, GET, OPTIONS" c in
  let c := set_header "Access-Control-Allow-Headers" (Join cfg.(CORS_AllowedHeaders) ", ") c in
  let c := set_header "Access-Control-Expose-Headers" (Join cfg.(CORS_ExposedHeaders) ", ") c in
  let c := set_header "Access-Control-Max-Age" (pretty (Seconds_int cfg.(CORS_MaxAge))) c in
  if c.(gin_Method) == "OPTIONS" then ret (AbortWithStatus 204 c) else next c.

(** ** Rate limits *)
Definition rate_headers (result : LimitResult) c : Gin :=
  set_header "X-RateLimit-Remaining" (pretty result.(Result_Remaining))
    (set_header "X-RateLimit-Limit" (pretty result.(Result_Limit)) c).
Definition retry_after (result : LimitResult) : Z :=
  Z.max 1 (Duration_Round result.(Result_RetryAfter) second `quot` second).
Definition RateLimit (limiter : Limiter) (rule : RateLimitRule) (dimension : string)
    (keyFunc : Gin → string) : Middleware DB := λ next c,
  if negb (Limiter.Enabled limiter) then next c else
  let key := keyFunc c in
  if key == "" then next c else
  let! (result, err) := Limiter.Allow limiter ("rate:" +:+ dimension +:+ ":" +:+ key) rule in
  if failed err then
    if Limiter.FailOpen limiter then next c
    else ret (Fail (AppErr.Unavailable "rate limiter unavailable" err) c)
  else
  let c := rate_headers result c in
  if negb result.(Result_Allowed)
  then ret (Fail AppErr.TooManyRequests (set_header "Retry-After" (pretty (retry_after result)) c))
  else next c.

(** ** Authentication and authorization *)
Definition JWT (service : AuthService) : Middleware DB := λ next c,
  let header := GetHeader c "Authorization" in
  let '(scheme, raw, ok) := Cut header " " in
  if negb ok || negb (EqualFold scheme "Bearer") || (raw == "")
  then ret (Fail (AppErr.Unauthorized "missing bearer token") c) else
  let '(caller, err) := AuthService.Verify service raw in
  if failed err then ret (Fail (AppErr.Unauthorized "invalid or expired token") c) else
  let c := { c with gin_subject := Some caller.(Principal_ID) } in
  next (with_context (λ ctx, WithCallerCredential (Caller.WithContext ctx caller) header) c).

Definition requirements : list (string * Requirement) := [
  ("/api/v1/notifications/templates/put",
    mkRequirement "notification.template" "update" ScopePrincipal);
  ("/api/v1/notifications/templates/get",
    mkRequirement "notification.template" "read" ScopePrincipal);
  ("/api/v1/notifications/templates/list",
    mkRequirement "notification.template" "list" ScopePrincipal);
  ("/api/v1/notifications/providers/put",
    mkRequirement "notification.provider" "update" ScopePrincipal);
  ("/api/v1/notifications/providers/get",
    mkRequirement "notification.provider" "read" ScopePrincipal);
  ("/api/v1/notifications/providers/list",
    mkRequirement "notification.provider" "list" ScopePrincipal);
  ("/api/v1/notifications/send",
    mkRequirement "notification.delivery" "send" ScopePrincipal);
  ("/api/v1/notifications/providers/receipt",
    mkRequirement "notification.receipt" "record" ScopePlatform);
  ("/api/v1/notifications/deliveries/get",
    mkRequirement "notification.delivery" "read" ScopePrincipal);
  ("/api/v1/notifications/deliveries/list",
    mkRequirement "notification.delivery" "list" ScopePrincipal)].
Definition notificationHTTPRequirement (route : string) : option Requirement :=
  snd <$> List.find (λ r, r.1 == route) requirements.

Definition Enforce (authorizer : Authorizer) (ctx : Context) (requirement : Requirement)
    : IO DB error :=
  emit (EvEnforce (Caller.FromContext ctx) requirement) ;;
  let! n := tick in ret (ext_enforce n authorizer ctx requirement).
Definition Authorization (enabled : bool) (authorizer : Authorizer) : Middleware DB := λ next c,
  match notificationHTTPRequirement c.(gin_FullPath) with
  | Some requirement =>
      if negb enabled then next c else
      let! err := Enforce authorizer c.(gin_ctx) requirement in
      if failed err then
        if error_is err ErrDecisionUnavailable
        then ret (Fail (AppErr.Unavailable "authorization decision is unavailable" err) c)
        else ret (Fail (AppErr.Forbidden "permission denied") c)
      else next c
  | None => next c
  end.

Definition psk_principal : Principal :=
  mkPrincipal "notification-service:psk" TypeServiceAccount "".
Definition Authentication (service : AuthService) (cfg : Auth) : Middleware DB := λ next c,
  let psk := cfg.(Auth_PSK) in
  if psk.(PSK_Enabled) && MatchesAny c.(gin_FullPath) psk.(PSK_HTTPPaths) then
    if negb (VerifyPSK (GetHeader c "Authorization") psk.(PSK_Key))
    then ret (Fail (AppErr.Unauthorized "missing or invalid PSK") c) else
    let c := { c with gin_subject := Some "psk" } in
    next (with_context (λ ctx, WithCallerCredential (Caller.WithContext ctx psk_principal)
                                 (GetHeader c "Authorization")) c)
  else if MatchesAny c.(gin_FullPath) cfg.(Auth_SkipHTTPPaths) then next c
  else JWT service next c.

Definition pprofAuth (expected : string) : Middleware DB := λ next c,
  let '(scheme, token, ok) := Cut (GetHeader c "Authorization") " " in
  if negb ok || negb (EqualFold scheme "Bearer") || negb (ConstantTimeCompare token expected)
  then ret (AbortWithStatus 401 c) else next c.
End Middleware.
End Http.
