(* ===== verification/Handlers.v ===== *)
(** * internal/transport/http/handler.go

    A request struct is the list of its fields with their tags ([Form]); the
    JSON decoder fills one, and the validator checks the fields tagged
    [binding:"required"].  A response struct is a record with its encoding by
    the tags. *)

From S2P Require Import Prelude GoStrings Wire AppError Config Reqctx Effects Model Libraries.
From S2P Require Import Repository Service Web Health Middleware.
Open Scope string_scope.
Open Scope list_scope.
Open Scope Z_scope.
Open Scope go_scope.

(** ** Requests *)
Inductive FieldType := TString | TInt | TStringMap.
Record Field := mkField { Field_json : string; Field_type : FieldType; Field_required : bool }.
Abbreviation Form := (list Field).
Definition required (name : string) : Field := mkField name TString true.
Definition optional (name : string) : Field := mkField name TString false.
Definition number (name : string) : Field := mkField name TInt false.

Definition PutTemplateRequest : Form := [
  required "tenant_id"; required "application_id"; required "code"; required "channel";
  required "locale"; optional "subject"; required "content"; optional "status";
  number "expected_version"].
Definition PutProviderRequest : Form := [
  required "tenant_id"; required "application_id"; required "code"; required "channel";
  required "upstream"; required "path"; number "priority"; optional "status";
  number "expected_version"].
Definition GetProviderRequest : Form := [
  required "tenant_id"; required "application_id"; required "code"].
Definition ListProvidersRequest : Form := [
  required "tenant_id"; required "application_id"; optional "keyword"; optional "channel";
  optional "status"; number "page"; number "page_size"].
Definition SendNotificationRequest : Form := [
  required "tenant_id"; required "application_id"; required "template_code";
  required "channel"; required "locale"; required "recipient";
  mkField "variables" TStringMap false; required "idempotency_key"].
Definition ListTemplatesRequest : Form := [
  required "tenant_id"; required "application_id"; optional "keyword"; optional "channel";
  optional "status"; number "page"; number "page_size"].
Definition GetTemplateRequest : Form := [
  required "tenant_id"; required "application_id"; required "code"; required "channel";
  required "locale"].
Definition GetDeliveryRequest : Form := [
  required "id"; required "tenant_id"; required "application_id"].
Definition ListDeliveriesRequest : Form := [
  required "tenant_id"; required "application_id"; optional "status"; number "page";
  number "page_size"].
Definition ProviderReceiptRequest : Form := [
  required "tenant_id"; required "application_id"; required "provider";
  required "provider_message_id"; required "status"; optional "failure_reason"].

(** A filled struct; a field that the text does not set has its zero value. *)
Record Fields := mkFields {
  str : string → string; int : string → Z; strings : string → StringMap }.

(** [json.NewDecoder(body).Decode(&request)] on the bytes of a reader and what it
    ends with; [json.Unmarshal] into an [any]; the text of a validation error. *)
Class FormLibrary := {
  json_Decode : Form → string * error → Fields * error;
  json_UnmarshalAny : string → JSON * error;
  validation_error : Form → Fields → string }.

Definition missing (form : Form) (r : Fields) : bool :=
  existsb (λ f, f.(Field_required) && (r.(str) f.(Field_json) == "")) form.
Definition ShouldBindJSON `{FormLibrary} (form : Form) (c : Gin) : Fields * error :=
  let '(request, err) := json_Decode form c.(gin_Body) in
  if failed err then (request, err) else
  if missing form request then (request, ErrMsg (validation_error form request)) else
  (request, nil_err).

(** ** Responses *)
Module TemplateResponseBody.
Record t := mk {
  ID : string; TenantID : string; ApplicationID : string; Code : string; Channel : string;
  Locale : string; Subject : string; Content : string; Status : string; Version : Z;
  CreatedAt : Z; UpdatedAt : Z; CreatedBy : string; UpdatedBy : string }.
Definition to_json (v : t) : JSON := JObj [
  ("id", JStr v.(ID)); ("tenant_id", JStr v.(TenantID));
  ("application_id", JStr v.(ApplicationID)); ("code", JStr v.(Code));
  ("channel", JStr v.(Channel)); ("locale", JStr v.(Locale)); ("subject", JStr v.(Subject));
  ("content", JStr v.(Content)); ("status", JStr v.(Status)); ("version", JNum v.(Version));
  ("created_at", JTime v.(CreatedAt)); ("updated_at", JTime v.(UpdatedAt));
  ("created_by", JStr v.(CreatedBy)); ("updated_by", JStr v.(UpdatedBy))].
End TemplateResponseBody.

Module ProviderResponseBody.
Record t := mk {
  ID : string; TenantID : string; ApplicationID : string; Code : string; Channel : string;
  Upstream : string; Path : string; Priority : Z; Status : string; Version : Z;
  CreatedAt : Z; UpdatedAt : Z; CreatedBy : string; UpdatedBy : string }.
Definition to_json (v : t) : JSON := JObj [
  ("id", JStr v.(ID)); ("tenant_id", JStr v.(TenantID));
  ("application_id", JStr v.(ApplicationID)); ("code", JStr v.(Code));
  ("channel", JStr v.(Channel)); ("upstream", JStr v.(Upstream)); ("path", JStr v.(Path));
  ("priority", JNum v.(Priority)); ("status", JStr v.(Status)); ("version", JNum v.(Version));
  ("created_at", JTime v.(CreatedAt)); ("updated_at", JTime v.(UpdatedAt));
  ("created_by", JStr v.(CreatedBy)); ("updated_by", JStr v.(UpdatedBy))].
End ProviderResponseBody.

Module DeliveryResponseBody.
Record t := mk {
  ID : string; TenantID : string; ApplicationID : string; TemplateCode : string;
  Channel : string; Locale : string; Recipient : string; Variables : JSON;
  IdempotencyKey : string; Status : string; Provider : string; ProviderMessageID : string;
  FailureReason : string; Attempts : Z; NextAttemptAt : Z; Version : Z; CreatedAt : Z;
  UpdatedAt : Z; CreatedBy : string; UpdatedBy : string }.
Definition to_json (v : t) : JSON := JObj [
  ("id", JStr v.(ID)); ("tenant_id", JStr v.(TenantID));
  ("application_id", JStr v.(ApplicationID)); ("template_code", JStr v.(TemplateCode));
  ("channel", JStr v.(Channel)); ("locale", JStr v.(Locale));
  ("recipient", JStr v.(Recipient)); ("variables", v.(Variables));
  ("idempotency_key", JStr v.(IdempotencyKey)); ("status", JStr v.(Status));
  ("provider", JStr v.(Provider)); ("provider_message_id", JStr v.(ProviderMessageID));
  ("failure_reason", JStr v.(FailureReason)); ("attempts", JNum v.(Attempts));
  ("next_attempt_at", JTime v.(NextAttemptAt)); ("version", JNum v.(Version));
  ("created_at", JTime v.(CreatedAt)); ("updated_at", JTime v.(UpdatedAt));
  ("created_by", JStr v.(CreatedBy)); ("updated_by", JStr v.(UpdatedBy))].
End DeliveryResponseBody.

(** A page: the rows under the name of their kind, and the counters. *)
Definition page_json (rows : string) (l : list JSON) (total page size : Z) : JSON := JObj [
  (rows, JArr l); ("total", JNum total); ("page", JNum page); ("page_size", JNum size)].
Definition TemplatePageResponseBody (l : list TemplateResponseBody.t) : Z → Z → Z → JSON :=
  page_json "templates" (map TemplateResponseBody.to_json l).
Definition ProviderPageResponseBody (l : list ProviderResponseBody.t) : Z → Z → Z → JSON :=
  page_json "providers" (map ProviderResponseBody.to_json l).
Definition DeliveryPageResponseBody (l : list DeliveryResponseBody.t) : Z → Z → Z → JSON :=
  page_json "deliveries" (map DeliveryResponseBody.to_json l).
Definition MeResponseBody (subject : option string) : JSON :=
  JObj [("subject", match subject with Some s => JStr s | None => JNull end)].

Definition templateResponse (value : Template.t) : TemplateResponseBody.t := {|
  TemplateResponseBody.ID := value.(Template.ID);
  TemplateResponseBody.TenantID := value.(Template.TenantID);
  TemplateResponseBody.ApplicationID := value.(Template.ApplicationID);
  TemplateResponseBody.Code := value.(Template.Code);
  TemplateResponseBody.Channel := value.(Template.Channel);
  TemplateResponseBody.Locale := value.(Template.Locale);
  TemplateResponseBody.Subject := value.(Template.Subject);
  TemplateResponseBody.Content := value.(Template.Content);
  TemplateResponseBody.Status := value.(Template.Status);
  TemplateResponseBody.Version := value.(Template.Version);
  TemplateResponseBody.CreatedAt := value.(Template.CreatedAt);
  TemplateResponseBody.UpdatedAt := value.(Template.UpdatedAt);
  TemplateResponseBody.CreatedBy := value.(Template.CreatedBy);
  TemplateResponseBody.UpdatedBy := value.(Template.UpdatedBy) |}.
Definition providerResponse (value : Provider.t) : ProviderResponseBody.t := {|
  ProviderResponseBody.ID := value.(Provider.ID);
  ProviderResponseBody.TenantID := value.(Provider.TenantID);
  ProviderResponseBody.ApplicationID := value.(Provider.ApplicationID);
  ProviderResponseBody.Code := value.(Provider.Code);
  ProviderResponseBody.Channel := value.(Provider.Channel);
  ProviderResponseBody.Upstream := value.(Provider.Upstream);
  ProviderResponseBody.Path := value.(Provider.Path);
  ProviderResponseBody.Priority := value.(Provider.Priority);
  ProviderResponseBody.Status := value.(Provider.Status);
  ProviderResponseBody.Version := value.(Provider.Version);
  ProviderResponseBody.CreatedAt := value.(Provider.CreatedAt);
  ProviderResponseBody.UpdatedAt := value.(Provider.UpdatedAt);
  ProviderResponseBody.CreatedBy := value.(Provider.CreatedBy);
  ProviderResponseBody.UpdatedBy := value.(Provider.UpdatedBy) |}.
(** The variables of a row, as they come back from the JSON column; null when
    there are none. *)
Definition deliveryResponse `{FormLibrary} (value : Delivery.t) : DeliveryResponseBody.t := {|
  DeliveryResponseBody.ID := value.(Delivery.ID);
  DeliveryResponseBody.TenantID := value.(Delivery.TenantID);
  DeliveryResponseBody.ApplicationID := value.(Delivery.ApplicationID);
  DeliveryResponseBody.TemplateCode := value.(Delivery.TemplateCode);
  DeliveryResponseBody.Channel := value.(Delivery.Channel);
  DeliveryResponseBody.Locale := value.(Delivery.Locale);
  DeliveryResponseBody.Recipient := value.(Delivery.Recipient);
  DeliveryResponseBody.Variables :=
    (if value.(Delivery.Variables) == "" then JNull
     else (json_UnmarshalAny value.(Delivery.Variables)).1);
  DeliveryResponseBody.IdempotencyKey := value.(Delivery.IdempotencyKey);
  DeliveryResponseBody.Status := value.(Delivery.Status);
  DeliveryResponseBody.Provider := value.(Delivery.Provider);
  DeliveryResponseBody.ProviderMessageID := value.(Delivery.ProviderMessageID);
  DeliveryResponseBody.FailureReason := value.(Delivery.FailureReason);
  DeliveryResponseBody.Attempts := value.(Delivery.Attempts);
  DeliveryResponseBody.NextAttemptAt := value.(Delivery.NextAttemptAt);
  DeliveryResponseBody.Version := value.(Delivery.Version);
  DeliveryResponseBody.CreatedAt := value.(Delivery.CreatedAt);
  DeliveryResponseBody.UpdatedAt := value.(Delivery.UpdatedAt);
  DeliveryResponseBody.CreatedBy := value.(Delivery.CreatedBy);
  DeliveryResponseBody.UpdatedBy := value.(Delivery.UpdatedBy) |}.

(** ** internal/buildinfo *)
Record Info := mkInfo {
  Info_Version : string; Info_Commit : string; Info_BuildTime : string; Info_StartedAt : Z;
  Info_Uptime : string }.
Definition Info_json (i : Info) : JSON := JObj [
  ("version", JStr i.(Info_Version)); ("commit", JStr i.(Info_Commit));
  ("build_time", JStr i.(Info_BuildTime)); ("started_at", JTime i.(Info_StartedAt));
  ("uptime", JStr i.(Info_Uptime))].
(** The package variables, which the linker sets, and the start of the process. *)
Record Build := mkBuild {
  Build_Version : string; Build_Commit : string; Build_BuildTime : string; startedAt : Z }.
Definition Current `{Externals} `{DurationText} {DB} (b : Build) : IO DB Info :=
  let! t := now in
  ret {| Info_Version := b.(Build_Version); Info_Commit := b.(Build_Commit);
         Info_BuildTime := b.(Build_BuildTime); Info_StartedAt := b.(startedAt);
         Info_Uptime := Duration_String (Duration_Round (wrap64 (t - b.(startedAt))) second) |}.

(** ** Handlers *)
Record HTTPHandler := mkHTTPHandler {
  Handler_health : HealthService; Handler_notifications : NotificationService }.
Definition NewHandler (healthService : HealthService) (notificationService : NotificationService)
    : HTTPHandler := mkHTTPHandler healthService notificationService.

Module Handler.
Section Handlers.
Context `{Externals} `{UnicodeTables} `{LibraryText} `{URLLibrary} `{TemplateLibrary}
  `{JSONLibrary} `{EventLibrary} `{CodeValues} `{FormLibrary} `{DurationText} {DB : Type}
  `{!Repository DB}.
Implicit Types (h : HTTPHandler) (c : Gin) (r : Fields).

Definition Live h : Handler DB := λ c, ret (OK (Status.to_json (HealthService.Live h.(Handler_health))) c).
Definition Ready h : Handler DB := λ c,
  let! (status, ready) := HealthService.Ready h.(Handler_health) c.(gin_ctx) in
  when! negb ready return!
    JSONResponse 503 (unified CodeDependencyUnavailable "service is not ready"
      (Status.to_json status) c) c;
  ret (OK (Status.to_json status) c).
Definition Me : Handler DB := λ c, ret (OK (MeResponseBody c.(gin_subject)) c).
Definition Version (b : Build) : Handler DB := λ c,
  let! info := Current b in ret (OK (Info_json info) c).

(** The head that the notification handlers share, and their end. *)
Definition bind_json (form : Form) (message : string) (k : Fields → Handler DB) : Handler DB := λ c,
  let '(request, err) := ShouldBindJSON form c in
  if failed err then ret (Fail (AppErr.Invalid message err) c) else k request c.
Definition respond {A} (body : A → JSON) c (call : IO DB (A * error)) : IO DB Gin :=
  let! (value, err) := call in
  when! failed err return! Fail err c;
  ret (OK (body value) c).

Definition provider_of r : Provider.t :=
  { Provider.zero with
    Provider.TenantID := r.(str) "tenant_id"; Provider.ApplicationID := r.(str) "application_id";
    Provider.Code := r.(str) "code"; Provider.Channel := r.(str) "channel";
    Provider.Upstream := r.(str) "upstream"; Provider.Path := r.(str) "path";
    Provider.Priority := r.(int) "priority"; Provider.Status := r.(str) "status" }.
Definition template_of r : Template.t :=
  { Template.zero with
    Template.TenantID := r.(str) "tenant_id"; Template.ApplicationID := r.(str) "application_id";
    Template.Code := r.(str) "code"; Template.Channel := r.(str) "channel";
    Template.Locale := r.(str) "locale"; Template.Subject := r.(str) "subject";
    Template.Content := r.(str) "content"; Template.Status := r.(str) "status" }.

Definition PutNotificationProvider h : Handler DB :=
  bind_json PutProviderRequest "invalid request body" (λ r c,
    respond (λ v, ProviderResponseBody.to_json (providerResponse v)) c
      (Service.PutProvider h.(Handler_notifications) c.(gin_ctx) (provider_of r)
        (r.(int) "expected_version"))).
Definition GetNotificationProvider h : Handler DB :=
  bind_json GetProviderRequest "invalid request body" (λ r c,
    respond (λ v, ProviderResponseBody.to_json (providerResponse v)) c
      (Service.GetProvider h.(Handler_notifications) c.(gin_ctx) (r.(str) "tenant_id")
        (r.(str) "application_id") (r.(str) "code"))).
Definition ListNotificationProviders h : Handler DB :=
  bind_json ListProvidersRequest "invalid request body" (λ r c,
    respond (λ page, ProviderPageResponseBody (map providerResponse page.(ProviderPage_Providers))
        page.(ProviderPage_Total) page.(ProviderPage_Page) page.(ProviderPage_PageSize)) c
      (Service.ListProviders h.(Handler_notifications) c.(gin_ctx) (r.(str) "tenant_id")
        (r.(str) "application_id") (r.(str) "keyword") (r.(str) "channel") (r.(str) "status")
        (r.(int) "page") (r.(int) "page_size"))).
Definition PutNotificationTemplate h : Handler DB :=
  bind_json PutTemplateRequest "invalid json request" (λ r c,
    respond (λ v, TemplateResponseBody.to_json (templateResponse v)) c
      (Service.PutTemplate h.(Handler_notifications) c.(gin_ctx) (template_of r)
        (r.(int) "expected_version"))).
Definition GetNotificationTemplate h : Handler DB :=
  bind_json GetTemplateRequest "invalid request body" (λ r c,
    respond (λ v, TemplateResponseBody.to_json (templateResponse v)) c
      (Service.GetTemplate h.(Handler_notifications) c.(gin_ctx) (r.(str) "tenant_id")
        (r.(str) "application_id") (r.(str) "code") (r.(str) "channel") (r.(str) "locale"))).
Definition ListNotificationTemplates h : Handler DB :=
  bind_json ListTemplatesRequest "invalid json request" (λ r c,
    respond (λ page, TemplatePageResponseBody (map templateResponse page.(TemplatePage_Templates))
        page.(TemplatePage_Total) page.(TemplatePage_Page) page.(TemplatePage_PageSize)) c
      (Service.ListTemplates h.(Handler_notifications) c.(gin_ctx) (r.(str) "tenant_id")
        (r.(str) "application_id") (r.(str) "keyword") (r.(str) "channel") (r.(str) "status")
        (r.(int) "page") (r.(int) "page_size"))).
Definition SendNotification h : Handler DB :=
  bind_json SendNotificationRequest "invalid json request" (λ r c,
    respond (λ v, DeliveryResponseBody.to_json (deliveryResponse v)) c
      (Service.Send h.(Handler_notifications) c.(gin_ctx) (r.(str) "tenant_id")
        (r.(str) "application_id") (r.(str) "template_code") (r.(str) "channel")
        (r.(str) "locale") (r.(str) "recipient") (r.(str) "idempotency_key")
        (r.(strings) "variables"))).
Definition RecordProviderReceipt h : Handler DB :=
  bind_json ProviderReceiptRequest "invalid json request" (λ r c,
    respond (λ v, DeliveryResponseBody.to_json (deliveryResponse v)) c
      (Service.RecordReceipt h.(Handler_notifications) c.(gin_ctx) (r.(str) "tenant_id")
        (r.(str) "application_id") (r.(str) "provider") (r.(str) "provider_message_id")
        (r.(str) "status") (r.(str) "failure_reason"))).
Definition GetNotificationDelivery h : Handler DB :=
  bind_json GetDeliveryRequest "invalid json request" (λ r c,
    respond (λ v, DeliveryResponseBody.to_json (deliveryResponse v)) c
      (Service.GetDelivery h.(Handler_notifications) c.(gin_ctx) (r.(str) "id")
        (r.(str) "tenant_id") (r.(str) "application_id"))).
Definition ListNotificationDeliveries h : Handler DB :=
  bind_json ListDeliveriesRequest "invalid json request" (λ r c,
    respond (λ page, DeliveryPageResponseBody (map deliveryResponse page.(Page_Deliveries))
        page.(Page_Total) page.(Page_Page) page.(Page_PageSize)) c
      (Service.ListDeliveries h.(Handler_notifications) c.(gin_ctx) (r.(str) "tenant_id")
        (r.(str) "application_id") (r.(str) "status") (r.(int) "page") (r.(int) "page_size"))).
End Handlers.
End Handler.
