(* ===== verification/HttpServer.v ===== *)
(** * internal/transport/http/server.go: the routes and their chains

    [gin] chooses the route of a request; [serve] runs the chain of a route.
    The handlers behind the metrics, profiling and documentation routes are
    libraries' ([foreign]), as are the tracing middleware and the parsing of the
    trusted proxies. *)

From S2P Require Import Prelude GoStrings Wire AppError Config Connections Reqctx Auth Effects Ratelimit.
From S2P Require Import Libraries Repository Service Web Health Middleware Handlers.
Open Scope string_scope.
Open Scope list_scope.
Open Scope Z_scope.
Open Scope go_scope.

Class GinLibrary (DB : Type) := {
  otelgin : string → Middleware DB;
  foreign : string → Handler DB;
  gin_SetTrustedProxies : list string → error }.

Record Route DB := mkRoute {
  Route_methods : list string; Route_path : string; Route_group : list (Middleware DB);
  Route_handler : Handler DB }.
Arguments mkRoute {DB}.
Arguments Route_methods {DB}.
Arguments Route_path {DB}.
Arguments Route_group {DB}.
Arguments Route_handler {DB}.

Record HTTPServer DB := mkHTTPServer {
  Server_use : list (Middleware DB); Server_routes : list (Route DB); Server_Addr : string;
  Server_ReadTimeout : Z; Server_WriteTimeout : Z; Server_IdleTimeout : Z }.
Arguments mkHTTPServer {DB}.
Arguments Server_use {DB}.
Arguments Server_routes {DB}.
Arguments Server_Addr {DB}.

Module Server.
Section Server.
Context `{Externals} `{UnicodeTables} `{LibraryText} `{URLLibrary} `{TemplateLibrary}
  `{JSONLibrary} `{EventLibrary} `{TokenLibrary} `{CodeValues} `{WebLibrary} `{FormLibrary}
  `{DurationText} {DB : Type} `{!Repository DB} `{!GinLibrary DB}.
Implicit Types (cfg : Config) (h : HTTPHandler).

Definition global (cfg : Config) (metrics : bool) : list (Middleware DB) := [
  Http.RequestID; Http.IdempotencyKey;
  Http.Environment cfg.(Config_Runtime).(Runtime_ActiveProfile);
  otelgin cfg.(Config_App).(App_Name); Http.RequestLogger; Http.Recovery;
  Http.HTTPMetrics metrics; Http.SecurityHeaders; Http.CORS cfg.(Config_HTTP).(HTTP_CORS);
  Http.MaxBody cfg.(Config_HTTP).(HTTP_MaxBodyBytes); Http.Timeout; Http.RequireJSON].

Definition get (path : string) (group : list (Middleware DB)) (handler : Handler DB) : Route DB :=
  mkRoute ["GET"] path group handler.
Definition post (path : string) (group : list (Middleware DB)) (handler : Handler DB) : Route DB :=
  mkRoute ["POST"] path group handler.

Definition registerPprof (group : list (Middleware DB)) : list (Route DB) := [
  get "/debug/pprof/" group (foreign "pprof.Index");
  get "/debug/pprof/cmdline" group (foreign "pprof.Cmdline");
  get "/debug/pprof/profile" group (foreign "pprof.Profile");
  post "/debug/pprof/symbol" group (foreign "pprof.Symbol");
  get "/debug/pprof/symbol" group (foreign "pprof.Symbol");
  get "/debug/pprof/trace" group (foreign "pprof.Trace")]
  ++ map (λ profile, get ("/debug/pprof/" +:+ profile) group (foreign ("pprof." +:+ profile)))
       ["allocs"; "block"; "goroutine"; "heap"; "mutex"; "threadcreate"].

Definition subject_key (c : Gin) : string := default "" c.(gin_subject).
(** The group of [/api/v1]. *)
Definition api cfg (authService : AuthService) (authorizer : Authorizer) (limiter : Limiter)
    (manager : IdempotencyManager) : list (Middleware DB) := [
  Http.RateLimit limiter cfg.(Config_RateLimit).(RateLimit_IP) "ip" gin_ClientIP;
  Http.RateLimit limiter cfg.(Config_RateLimit).(RateLimit_API) "api" gin_FullPath;
  Http.Authentication authService cfg.(Config_Auth);
  Http.Authorization cfg.(Config_Authorization).(Authorization_Enabled) authorizer;
  Http.RateLimit limiter cfg.(Config_RateLimit).(RateLimit_User) "user" subject_key;
  Http.IdempotencyExecution (Some manager) cfg.(Config_Idempotency).(Idempotency_HTTPPaths)].

Definition api_routes h (build : Build) (group : list (Middleware DB)) : list (Route DB) := [
  post "/api/v1/version" group (Handler.Version build);
  post "/api/v1/me" group Handler.Me;
  post "/api/v1/notifications/templates/put" group (Handler.PutNotificationTemplate h);
  post "/api/v1/notifications/templates/get" group (Handler.GetNotificationTemplate h);
  post "/api/v1/notifications/templates/list" group (Handler.ListNotificationTemplates h);
  post "/api/v1/notifications/providers/put" group (Handler.PutNotificationProvider h);
  post "/api/v1/notifications/providers/get" group (Handler.GetNotificationProvider h);
  post "/api/v1/notifications/providers/list" group (Handler.ListNotificationProviders h);
  post "/api/v1/notifications/send" group (Handler.SendNotification h);
  post "/api/v1/notifications/providers/receipt" group (Handler.RecordProviderReceipt h);
  post "/api/v1/notifications/deliveries/get" group (Handler.GetNotificationDelivery h);
  post "/api/v1/notifications/deliveries/list" group (Handler.ListNotificationDeliveries h)].

Definition operations cfg h (authService : AuthService) (metrics : bool) : list (Route DB) :=
  [mkRoute ["GET"; "POST"] "/live" [] (Handler.Live h);
   mkRoute ["GET"; "POST"] "/ready" [] (Handler.Ready h)]
  ++ (if metrics then [get "/metrics" [] (foreign "metrics")] else [])
  ++ (let o := cfg.(Config_Observability) in
      if o.(Observability_PprofEnabled)
      then registerPprof [Http.pprofAuth o.(Observability_PprofToken)] else [])
  ++ (let s := cfg.(Config_Swagger) in
      if s.(Swagger_Enabled)
      then [get "/swagger/*any" (if s.(Swagger_RequireAuth) then [Http.JWT authService] else [])
              (foreign "swagger")]
      else []).

(** The tracing component is a parameter that the constructor does not use. *)
Definition NewServer cfg h (authService : AuthService) (authorizer : Authorizer)
    (limiter : Limiter) (manager : IdempotencyManager) (metrics : bool) (build : Build)
    : option (HTTPServer DB) * error :=
  let http := cfg.(Config_HTTP) in
  let err := gin_SetTrustedProxies http.(HTTP_TrustedProxies) in
  if failed err then (None, ErrWrap "configure trusted proxies" err) else
  (Some {| Server_use := global cfg metrics;
           Server_routes := operations cfg h authService metrics
             ++ api_routes h build (api cfg authService authorizer limiter manager);
           Server_Addr := http.(HTTP_Address);
           Server_ReadTimeout := http.(HTTP_ReadTimeout);
           Server_WriteTimeout := http.(HTTP_WriteTimeout);
           Server_IdleTimeout := http.(HTTP_IdleTimeout) |}, nil_err).

(** The start hook, over the answer of [net.Listen]. *)
Definition OnStart (listen : string → error) (server : HTTPServer DB) : error :=
  let err := listen server.(Server_Addr) in
  if failed err then ErrWrap "listen http" err else nil_err.

(** A request of the given method that gin matched to the route. *)
Definition matched (route : Route DB) (c : Gin) : Prop :=
  c.(gin_Method) ∈ route.(Route_methods) ∧ c.(gin_FullPath) = route.(Route_path).
Definition serve (server : HTTPServer DB) (route : Route DB) : Handler DB :=
  chain (server.(Server_use) ++ route.(Route_group)) route.(Route_handler).
End Server.
End Server.
