(* ===== verification/ChainSpec.v ===== *)
(** * What each middleware lets through

    Three readings of a middleware [m]: [wraps m], it touches the tables only
    through the rest of its chain; [only P Q m], from a context in [P] it hands
    on only contexts in [Q]; [settles m], if the rest of the chain answers a
    request exactly once, so does [m].  Each composes along a chain. *)

From S2P Require Import Prelude GoStrings Wire AppError Config Connections Reqctx Auth Effects Ratelimit.
From S2P Require Import Web Middleware.
From Stdlib Require Import Ascii.
Open Scope string_scope.
Open Scope list_scope.
Open Scope Z_scope.
Open Scope go_scope.

(** ** Changes of the tables *)
Section Changes.
Context {DB : Type} (P : DB → DB → Prop) `{!Reflexive P}.

Definition changes {Ev A} (m : M DB Ev A) : Prop := ∀ w, P (w_db w) (w_db (m w).2).

Lemma keeps_changes {Ev A} (m : M DB Ev A) : keeps_db m → changes m.
Proof. intros Hm w. by rewrite Hm. Qed.
Lemma changes_after {Ev A B} (m : M DB Ev A) (f : A → M DB Ev B) :
  keeps_db m → (∀ a, changes (f a)) → changes (bind m f).
Proof.
  intros Hm Hf w. unfold bind. specialize (Hm w). destruct (m w) as [a w1]. cbn in Hm.
  rewrite <- Hm. apply Hf.
Qed.
Lemma changes_before {Ev A B} (m : M DB Ev A) (f : A → M DB Ev B) :
  changes m → (∀ a, keeps_db (f a)) → changes (bind m f).
Proof.
  intros Hm Hf w. unfold bind. specialize (Hm w). destruct (m w) as [a w1].
  by rewrite Hf.
Qed.
Lemma changes_ret {Ev A} (a : A) : changes (ret (DB := DB) (Ev := Ev) a).
Proof. by apply keeps_changes. Qed.
End Changes.

Definition wraps {DB} (m : Middleware DB) : Prop :=
  ∀ P, Reflexive P → ∀ next, (∀ c, changes P (next c)) → ∀ c, changes P (m next c).

Lemma wraps_chain {DB} (ms : list (Middleware DB)) :
  Forall wraps ms → ∀ P, Reflexive P → ∀ h, (∀ c, changes P (h c)) → ∀ c, changes P (chain ms h c).
Proof. induction 1 as [|m ms Hm _ IH]; intros P HP h Hh c; [apply Hh|]. apply Hm; [done|]. by apply IH. Qed.

(** ** What is handed on *)
Definition only {DB} (P Q : Gin → Prop) (m : Middleware DB) : Prop :=
  ∀ next next' : Handler DB, (∀ c w, Q c → next c w = next' c w) →
  ∀ c w, P c → m next c w = m next' c w.

Lemma only_nil {DB} (P : Gin → Prop) : only (DB := DB) P P (λ next, next).
Proof. intros next next' Hn c w HP. by apply Hn. Qed.
Lemma only_comp {DB} (P Q R : Gin → Prop) (m n : Middleware DB) :
  only P Q m → only Q R n → only P R (λ next, m (n next)).
Proof. intros Hm Hn next next' Hnext. apply Hm. by apply Hn. Qed.
Lemma only_weaken {DB} (P Q P' Q' : Gin → Prop) (m : Middleware DB) :
  (∀ c, P' c → P c) → (∀ c, Q c → Q' c) → only P Q m → only P' Q' m.
Proof. intros HP HQ Hm next next' Hn c w Hc. apply Hm; auto. Qed.
Lemma only_chain {DB} (P Q : Gin → Prop) (m : Middleware DB) (R : Gin → Prop) ms :
  only P Q m → only Q R (chain ms) → only P R (chain (m :: ms)).
Proof. exact (only_comp P Q R m (chain ms)). Qed.

Lemma bind_cong {DB Ev A B} (m : M DB Ev A) (f g : A → M DB Ev B) w :
  (∀ a w', m w = (a, w') → f a w' = g a w') → bind m f w = bind m g w.
Proof. intros Hf. unfold bind. destruct (m w) as [a w'] eqn:E. by apply Hf. Qed.
Lemma after_cong {DB} (next next' : Handler DB) c k w :
  next c w = next' c w → after next c k w = after next' c k w.
Proof. unfold after, bind. by intros ->. Qed.

(** ** Answers *)
(** [c] carries one unified response, with the id of the request, and its handler
    did not panic. *)
Definition answered (c : Gin) : Prop :=
  c.(gin_panic) = false ∧
  ∃ status r, answers status r c ∧ r.(Response.RequestID) = requestID c.
(** A request as gin hands it over: by POST, nothing answered. *)
Definition pristine (c : Gin) : Prop :=
  fresh c ∧ c.(gin_panic) = false ∧ c.(gin_Method) = "POST".
Definition settled_by {DB} (h : Handler DB) : Prop := ∀ c w, pristine c → answered (h c w).1.
Definition settles {DB} (m : Middleware DB) : Prop := ∀ next, settled_by next → settled_by (m next).

Lemma settles_chain {DB} (ms : list (Middleware DB)) h :
  Forall settles ms → settled_by h → settled_by (chain ms h).
Proof. intros Hms Hh. induction Hms as [|m ms Hm _ IH]; [exact Hh|]. by apply Hm. Qed.

Lemma JSONResponse_answered status r c :
  pristine c → r.(Response.RequestID) = requestID c → answered (JSONResponse status r c).
Proof.
  intros (Hf & Hp & _) Hr. pose proof (JSONResponse_answers status r c Hf) as Ha.
  destruct c. split; [exact Hp|]. by exists status, r.
Qed.
Lemma unified_answered `{CodeValues} status code message body c :
  pristine c → answered (JSONResponse status (unified code message body c) c).
Proof. intros Hc. by apply JSONResponse_answered. Qed.
Lemma Fail_answered `{CodeValues} err c : pristine c → answered (Fail err c).
Proof. apply unified_answered. Qed.
Lemma OK_answered `{CodeValues} body c : pristine c → answered (OK body c).
Proof. apply unified_answered. Qed.
Lemma answered_written c : answered c → c.(gin_panic) = false ∧ c.(gin_Written) = true.
Proof. by intros (Hp & status & r & (_ & Hw & _) & _). Qed.

(** ** The middlewares *)
Section Middlewares.
Context `{Externals} `{TokenLibrary} `{CodeValues} `{WebLibrary} {DB : Type}.
Implicit Types (next : Handler DB) (c : Gin).

Lemma keeps_generate : keeps_db (DB := DB) Http.generate.
Proof.
  apply keeps_bind; [auto with go|intros n]. apply keeps_bind; [|auto with go].
  destruct (ext_random n); [apply keeps_ret|]. by apply keeps_bind; [apply keeps_tick|].
Qed.
Lemma keeps_call {A} (e : Event) (f : nat → A) :
  keeps_db (DB := DB) (emit e ;; let! n := tick in ret (f n)).
Proof. done. Qed.
Lemma keeps_persist key owner c0 c : keeps_db (DB := DB) (Http.persist key owner c0 c).
Proof.
  unfold Http.persist. destruct (json_UnmarshalResponse _) as [response err].
  apply keeps_if; [apply keeps_ret|]. apply keeps_bind; [|auto with go].
  by apply keeps_if; apply keeps_call.
Qed.

Section Wraps.
Context (P : DB → DB → Prop) `{!Reflexive P} (next : Handler DB)
  (Hnext : ∀ c, changes P (next c)).

Lemma changes_if {A} (b : bool) (m1 m2 : IO DB A) :
  changes P m1 → changes P m2 → changes P (if b then m1 else m2).
Proof. by destruct b. Qed.
Lemma changes_after_next c k : (∀ c, keeps_db (k c)) → changes P (after next c k).
Proof.
  intros Hk. apply changes_before; [apply Hnext|]. intros c'. destruct (gin_panic c'); [done|apply Hk].
Qed.
End Wraps.

Ltac pass :=
  repeat first
    [ match goal with Hn : ∀ c, changes ?P (?next c) |- changes ?P (?next _) => apply Hn end
    | apply changes_ret; assumption
    | apply changes_if
    | match goal with
      | |- changes _ (match ?x with Some _ => _ | None => _ end) => destruct x
      | |- changes _ (let '(_, _) := ?x in _) => destruct x
      end ].

Lemma RequestID_wraps : wraps (DB := DB) Http.RequestID.
Proof.
  intros P HP next Hn c. unfold Http.RequestID. apply changes_after; [|intros id; pass].
  apply keeps_if; [apply keeps_ret|apply keeps_generate].
Qed.
Lemma IdempotencyKey_wraps : wraps (DB := DB) Http.IdempotencyKey.
Proof. intros P HP next Hn c. unfold Http.IdempotencyKey. cbv zeta. pass. Qed.
Lemma Environment_wraps profile : wraps (DB := DB) (Http.Environment profile).
Proof. intros P HP next Hn c. apply Hn. Qed.
Lemma RequestLogger_wraps : wraps (DB := DB) Http.RequestLogger.
Proof. intros P HP next Hn c. by apply changes_after_next. Qed.
Lemma HTTPMetrics_wraps enabled : wraps (DB := DB) (Http.HTTPMetrics enabled).
Proof. intros P HP next Hn c. apply changes_after_next; [done..|]. intros c'. by destruct enabled. Qed.
Lemma Recovery_wraps : wraps (DB := DB) Http.Recovery.
Proof. intros P HP next Hn c. apply changes_before; [apply Hn|]. intros c'. by destruct (gin_panic c'). Qed.
Lemma Timeout_wraps : wraps (DB := DB) Http.Timeout.
Proof. intros P HP next Hn c. by apply changes_after_next. Qed.
Lemma MaxBody_wraps limit : wraps (DB := DB) (Http.MaxBody limit).
Proof. intros P HP next Hn c. apply Hn. Qed.
Lemma RequireJSON_wraps : wraps (DB := DB) Http.RequireJSON.
Proof. intros P HP next Hn c. unfold Http.RequireJSON. pass. Qed.
Lemma SecurityHeaders_wraps : wraps (DB := DB) Http.SecurityHeaders.
Proof. intros P HP next Hn c. apply Hn. Qed.
Lemma CORS_wraps cfg : wraps (DB := DB) (Http.CORS cfg).
Proof. intros P HP next Hn c. unfold Http.CORS. cbv zeta. pass. Qed.
Lemma RateLimit_wraps limiter rule dimension key :
  wraps (DB := DB) (Http.RateLimit limiter rule dimension key).
Proof.
  intros P HP next Hn c. unfold Http.RateLimit. cbv zeta. do 2 (apply changes_if; [apply Hn|]).
  apply changes_after; [apply keeps_Allow|]. intros [result err]. pass.
Qed.
Lemma JWT_wraps service : wraps (DB := DB) (Http.JWT service).
Proof.
  intros P HP next Hn c. unfold Http.JWT. cbv zeta.
  destruct (Cut _ _) as [[scheme raw] ok]. pass.
Qed.
Lemma Authentication_wraps service cfg : wraps (DB := DB) (Http.Authentication service cfg).
Proof.
  intros P HP next Hn c. unfold Http.Authentication. cbv zeta. pass. by apply JWT_wraps.
Qed.
Lemma Authorization_wraps enabled authorizer :
  wraps (DB := DB) (Http.Authorization enabled authorizer).
Proof.
  intros P HP next Hn c. unfold Http.Authorization. pass.
  apply changes_after; [apply keeps_call|]. intros err. pass.
Qed.
Lemma pprofAuth_wraps expected : wraps (DB := DB) (Http.pprofAuth expected).
Proof.
  intros P HP next Hn c. unfold Http.pprofAuth. destruct (Cut _ _) as [[scheme raw] ok]. pass.
Qed.
Lemma IdempotencyExecution_wraps manager paths :
  wraps (DB := DB) (Http.IdempotencyExecution manager paths).
Proof.
  intros P HP next Hn c. unfold Http.IdempotencyExecution.
  destruct (Idempotency.FromContext _) as [key ok]. apply changes_if; [apply Hn|].
  destruct (Http.idempotencyFingerprint c) as [[fingerprint err] c1].
  apply changes_if; [by apply changes_ret|]. apply changes_after; [apply keeps_call|].
  intros [decision err']. apply changes_if; [by apply changes_ret|].
  destruct (Decision_State decision); try by apply changes_ret.
  apply changes_after_next; [done..|]. intros c'. apply keeps_persist.
Qed.

(** *** Exactly one answer *)
Ltac still_pristine := match goal with Hc : pristine _ |- pristine _ => exact Hc end.
Ltac settle :=
  repeat first
    [ match goal with Hn : settled_by ?next |- answered (?next _ _).1 => apply Hn; still_pristine end
    | match goal with
      | |- answered (ret (Fail _ _) _).1 => apply Fail_answered; still_pristine
      | |- answered (ret (AbortWithStatusJSON _ (unified _ _ _ _) _) _).1 =>
          apply unified_answered; still_pristine
      | |- answered ((if ?b then _ else _) _).1 => destruct b eqn:?
      | |- answered ((match ?x with Some _ => _ | None => _ end) _).1 => destruct x eqn:?
      | |- answered ((let '(_, _) := ?x in _) _).1 => destruct x eqn:?
      end ].
Lemma settles_bind {A} (m : IO DB A) (k : A → IO DB Gin) w :
  (∀ a w', answered (k a w').1) → answered (bind m k w).1.
Proof. intros Hk. unfold bind. destruct (m w) as [a w']. apply Hk. Qed.
(** An answer stays as it is when what follows keeps written contexts. *)
Lemma settles_after next c k w :
  answered (next c w).1 → (∀ c w, answered c → answered (k c w).1) → answered (after next c k w).1.
Proof.
  intros Hn Hk. unfold after, bind. destruct (next c w) as [c' w']. cbn in Hn.
  rewrite (proj1 (answered_written _ Hn)). by apply Hk.
Qed.

Lemma RequestID_settles : settles (DB := DB) Http.RequestID.
Proof. intros next Hn c w Hc. unfold Http.RequestID. cbv zeta. apply settles_bind. intros id w'. settle. Qed.
Lemma IdempotencyKey_settles : settles (DB := DB) Http.IdempotencyKey.
Proof. intros next Hn c w Hc. unfold Http.IdempotencyKey. cbv zeta. settle. Qed.
Lemma Environment_settles profile : settles (DB := DB) (Http.Environment profile).
Proof. intros next Hn c w Hc. unfold Http.Environment. cbv zeta. settle. Qed.
Lemma RequestLogger_settles : settles (DB := DB) Http.RequestLogger.
Proof. intros next Hn c w Hc. apply settles_after; [settle|]. by intros c' w' Ha. Qed.
Lemma HTTPMetrics_settles enabled : settles (DB := DB) (Http.HTTPMetrics enabled).
Proof. intros next Hn c w Hc. apply settles_after; [settle|]. intros c' w' Ha. by destruct enabled. Qed.
Lemma Recovery_settles : settles (DB := DB) Http.Recovery.
Proof. intros next Hn c w Hc. unfold Http.Recovery, bind. pose proof (Hn c w Hc) as Ha.
  destruct (next c w) as [c' w']. cbn in Ha. by rewrite (proj1 (answered_written _ Ha)).
Qed.
Lemma Timeout_settles : settles (DB := DB) Http.Timeout.
Proof.
  intros next Hn c w Hc. apply settles_after; [settle|]. intros c' w' Ha. apply settles_bind.
  intros n w1. cbn. rewrite (proj2 (answered_written _ Ha)), andb_false_r. exact Ha.
Qed.
Lemma MaxBody_settles limit : settles (DB := DB) (Http.MaxBody limit).
Proof. intros next Hn c w Hc. unfold Http.MaxBody. settle. Qed.
Lemma RequireJSON_settles : settles (DB := DB) Http.RequireJSON.
Proof. intros next Hn c w Hc. unfold Http.RequireJSON. settle. Qed.
Lemma SecurityHeaders_settles : settles (DB := DB) Http.SecurityHeaders.
Proof.
  intros next Hn c w Hc. unfold Http.SecurityHeaders. cbv zeta. apply Hn. by destruct (gin_TLS _).
Qed.
Lemma CORS_settles cfg : settles (DB := DB) (Http.CORS cfg).
Proof.
  intros next Hn c w Hc. unfold Http.CORS. cbv zeta. settle. exfalso.
  destruct Hc as (_ & _ & Hm). bools. destruct c. cbn in *. congruence.
Qed.
Lemma RateLimit_settles limiter rule dimension key :
  settles (DB := DB) (Http.RateLimit limiter rule dimension key).
Proof.
  intros next Hn c w Hc. unfold Http.RateLimit. cbv zeta. settle.
  apply settles_bind. intros [result err] w'. settle.
Qed.
Lemma JWT_settles service : settles (DB := DB) (Http.JWT service).
Proof.
  intros next Hn c w Hc. unfold Http.JWT. cbv zeta. destruct (Cut _ _) as [[scheme raw] ok]. settle.
Qed.
Lemma Authentication_settles service cfg : settles (DB := DB) (Http.Authentication service cfg).
Proof. intros next Hn c w Hc. unfold Http.Authentication. cbv zeta. settle. by apply JWT_settles. Qed.
Lemma Authorization_settles enabled authorizer :
  settles (DB := DB) (Http.Authorization enabled authorizer).
Proof.
  intros next Hn c w Hc. unfold Http.Authorization. settle.
  apply settles_bind. intros err w'. settle.
Qed.
Lemma IdempotencyExecution_settles manager paths :
  settles (DB := DB) (Http.IdempotencyExecution manager paths).
Proof.
  intros next Hn c w Hc. unfold Http.IdempotencyExecution.
  destruct (Idempotency.FromContext _) as [key ok]. destruct (_ || _); [settle|].
  destruct (Http.idempotencyFingerprint c) as [[fingerprint err] c1] eqn:Ef.
  assert (pristine c1) as Hc1.
  { unfold Http.idempotencyFingerprint in Ef. destruct (gin_Body c) as [body e].
    by destruct (failed e); injection Ef as <- <- <-. }
  clear Hc. settle. apply settles_bind. intros [decision err'] w'. settle.
  destruct (Decision_State decision); settle.
  - apply settles_after; [settle|]. intros c' w1 Ha. unfold Http.persist. settle; [done|].
    by apply settles_bind.
  - unfold Http.replay. destruct (json_UnmarshalResponse _) as [response e'].
    destruct (failed e'); [settle|]. by apply JSONResponse_answered.
  - by apply JSONResponse_answered.
Qed.

(** *** What is handed on *)
(** Middlewares that hand on the request line and the request headers as they are. *)
Definition at_route (path : string) (headers : gmap string string) (c : Gin) : Prop :=
  c.(gin_FullPath) = path ∧ c.(gin_Header) = headers.
Definition forwards (m : Middleware DB) : Prop :=
  ∀ path headers, only (at_route path headers) (at_route path headers) m.

Ltac hand_on :=
  repeat first
    [ match goal with
      | Hn : ∀ c w, _ → ?next c w = ?next' c w |- ?next _ _ = ?next' _ _ =>
          apply Hn; match goal with Hc : _ |- _ => exact Hc end
      end
    | reflexivity
    | match goal with
      | |- after ?next ?c ?k ?w = after _ _ _ _ => apply after_cong
      | |- bind _ _ _ = bind _ _ _ => apply bind_cong; intros ?a ?w' _
      | |- (if ?b then _ else _) _ = _ => destruct b eqn:?
      | |- (match ?x with Some _ => _ | None => _ end) _ = _ => destruct x eqn:?
      | |- (let '(_, _) := ?x in _) _ = _ => destruct x eqn:?
      end ].

Lemma RequestID_forwards : forwards Http.RequestID.
Proof. intros path hs next next' Hn c w Hc. unfold Http.RequestID. cbv zeta. hand_on. Qed.
Lemma IdempotencyKey_forwards : forwards Http.IdempotencyKey.
Proof. intros path hs next next' Hn c w Hc. unfold Http.IdempotencyKey. cbv zeta. hand_on. Qed.
Lemma Environment_forwards profile : forwards (Http.Environment profile).
Proof. intros path hs next next' Hn c w Hc. unfold Http.Environment. hand_on. Qed.
Lemma RequestLogger_forwards : forwards Http.RequestLogger.
Proof. intros path hs next next' Hn c w Hc. unfold Http.RequestLogger. hand_on. Qed.
Lemma HTTPMetrics_forwards enabled : forwards (Http.HTTPMetrics enabled).
Proof. intros path hs next next' Hn c w Hc. unfold Http.HTTPMetrics. hand_on. Qed.
Lemma Recovery_forwards : forwards Http.Recovery.
Proof. intros path hs next next' Hn c w Hc. unfold Http.Recovery, bind. by rewrite (Hn c w Hc). Qed.
Lemma Timeout_forwards : forwards Http.Timeout.
Proof. intros path hs next next' Hn c w Hc. unfold Http.Timeout. hand_on. Qed.
Lemma MaxBody_forwards limit : forwards (Http.MaxBody limit).
Proof. intros path hs next next' Hn c w Hc. unfold Http.MaxBody. hand_on. Qed.
Lemma RequireJSON_forwards : forwards Http.RequireJSON.
Proof. intros path hs next next' Hn c w Hc. unfold Http.RequireJSON. hand_on. Qed.
Lemma SecurityHeaders_forwards : forwards Http.SecurityHeaders.
Proof.
  intros path hs next next' Hn c w Hc. unfold Http.SecurityHeaders. cbv zeta.
  destruct (gin_TLS _); hand_on.
Qed.
Lemma CORS_forwards cfg : forwards (Http.CORS cfg).
Proof. intros path hs next next' Hn c w Hc. unfold Http.CORS. cbv zeta. hand_on. Qed.

(** Rate limits and idempotency hand on the caller as well. *)
Lemma RateLimit_only (Q : Gin → Prop) limiter rule dimension key :
  (∀ name value c, Q c → Q (set_header name value c)) →
  only (DB := DB) Q Q (Http.RateLimit limiter rule dimension key).
Proof.
  intros HQ next next' Hn c w Hc. unfold Http.RateLimit. cbv zeta.
  destruct (negb (Limiter.Enabled _)); [by apply Hn|]. destruct (_ == _); [by apply Hn|].
  apply bind_cong. intros [result err] w' _.
  destruct (failed err); [destruct (Limiter.FailOpen _); [by apply Hn|done]|].
  destruct (negb _); [done|]. apply Hn. unfold Http.rate_headers. auto.
Qed.
Lemma IdempotencyExecution_only (Q : Gin → Prop) manager paths :
  (∀ body c, Q c → Q { c with gin_Body := body }) →
  only (DB := DB) Q Q (Http.IdempotencyExecution manager paths).
Proof.
  intros HQ next next' Hn c w Hc. unfold Http.IdempotencyExecution.
  destruct (Idempotency.FromContext _) as [key ok]. destruct (_ || _); [by apply Hn|].
  destruct (Http.idempotencyFingerprint c) as [[fingerprint err] c1] eqn:Ef.
  assert (Q c1) as Hc1.
  { unfold Http.idempotencyFingerprint in Ef. destruct (gin_Body c) as [body e].
    destruct (failed e); injection Ef as <- <- <-; [exact Hc|exact (HQ _ c Hc)]. }
  destruct (failed err); [done|]. apply bind_cong. intros [decision err'] w' _.
  destruct (failed err'); [done|]. destruct (Decision_State decision); try done.
  apply after_cong. by apply Hn.
Qed.

(** Who a request that got past [Authentication] is: on a route that takes the
    pre-shared key the one who has it, elsewhere the one whom a verified bearer
    token names.  Only on a route that the configuration exempts, by a pattern of
    [skip_http_paths], is no credential looked at. *)
Definition bearer (service : AuthService) (header : string) (p : Principal) : Prop :=
  ∃ scheme raw, Cut header " " = (scheme, raw, true) ∧ EqualFold scheme "Bearer" = true ∧
    raw ≠ "" ∧ AuthService.Verify service raw = (p, nil_err).
Definition by_psk (cfg : Auth) (path : string) : bool :=
  cfg.(Auth_PSK).(PSK_Enabled) && MatchesAny path cfg.(Auth_PSK).(PSK_HTTPPaths).
Definition exempt (cfg : Auth) (path : string) : bool :=
  negb (by_psk cfg path) && MatchesAny path cfg.(Auth_SkipHTTPPaths).
Definition authenticated (service : AuthService) (cfg : Auth) (c : Gin) : Prop :=
  if by_psk cfg c.(gin_FullPath) then
    VerifyPSK (GetHeader c "Authorization") cfg.(Auth_PSK).(PSK_Key) = true ∧
    Caller.FromContext c.(gin_ctx) = Some Http.psk_principal
  else
    ∃ p, bearer service (GetHeader c "Authorization") p ∧
      Caller.FromContext c.(gin_ctx) = Some p ∧ c.(gin_subject) = Some p.(Principal_ID).

Lemma JWT_only service (Q : Gin → Prop) :
  only (DB := DB) Q
    (λ c, ∃ c0 p, Q c0 ∧ bearer service (GetHeader c "Authorization") p ∧
       c.(gin_FullPath) = c0.(gin_FullPath) ∧ c.(gin_Header) = c0.(gin_Header) ∧
       Caller.FromContext c.(gin_ctx) = Some p ∧ c.(gin_subject) = Some p.(Principal_ID))
    (Http.JWT service).
Proof.
  intros next next' Hn c w Hc. unfold Http.JWT. cbv zeta.
  destruct (Cut _ _) as [[scheme raw] ok] eqn:Ec. destruct (_ || _) eqn:Eb; [done|].
  destruct (AuthService.Verify service raw) as [p err] eqn:Ev. destruct (failed err) eqn:Ee; [done|].
  apply failed_nil in Ee as ->. apply Hn. exists c, p. split_and!; try done.
  bools. destruct Eb as [[-> Hs] Hr]. by exists scheme, raw.
Qed.

Lemma Authentication_only service cfg path headers :
  only (DB := DB) (at_route path headers)
    (λ c, at_route path headers c ∧ (exempt cfg path = true ∨ authenticated service cfg c))
    (Http.Authentication service cfg).
Proof.
  intros next next' Hn c w [Hp Hh]. unfold Http.Authentication. cbv zeta.
  destruct (_ && _) eqn:Ep.
  - destruct (VerifyPSK _ _) eqn:Ev; [|done]. cbn [negb].
    apply Hn. split; [by split|]. right. unfold authenticated, by_psk.
    change (gin_FullPath (Http.with_context _ _)) with (gin_FullPath c). rewrite Ep. by split.
  - destruct (MatchesAny _ (Auth_SkipHTTPPaths cfg)) eqn:Es.
    + apply Hn. split; [by split|]. left. unfold exempt, by_psk. by rewrite <- Hp, Ep, Es.
    + apply (JWT_only service (λ c', c' = c)); [|done].
      intros c' w' (c0 & p & -> & Hb & Hp' & Hh' & Hc & Hs). apply Hn. split.
      { split; congruence. }
      right. unfold authenticated, by_psk. rewrite Hp', Ep. by exists p.
Qed.

(** Which permission it has. *)
Definition authorized (enabled : bool) (authorizer : Authorizer) (c : Gin) : Prop :=
  ∀ requirement, enabled = true →
    Http.notificationHTTPRequirement c.(gin_FullPath) = Some requirement →
    ∃ n, ext_enforce n authorizer c.(gin_ctx) requirement = nil_err.
Lemma Authorization_only enabled authorizer (Q : Gin → Prop) :
  only (DB := DB) Q (λ c, Q c ∧ authorized enabled authorizer c)
    (Http.Authorization enabled authorizer).
Proof.
  intros next next' Hn c w Hc. unfold Http.Authorization.
  destruct (Http.notificationHTTPRequirement _) as [requirement|] eqn:Er.
  2: { apply Hn. split; [done|]. intros r _. by rewrite Er. }
  destruct enabled; cbn [negb]; [|apply Hn; split; [done|by intros r]].
  unfold Http.Enforce, bind, emit, tick, ret. cbn.
  destruct (failed _) eqn:Ef; [by destruct (error_is _ _)|]. apply failed_nil in Ef.
  apply Hn. split; [done|]. intros r _ Hr. rewrite Er in Hr. injection Hr as <-. by eexists.
Qed.
End Middlewares.

Create HintDb chain discriminated.
#[export] Hint Resolve Forall_cons_2 Forall_nil_2 RequestID_wraps IdempotencyKey_wraps Environment_wraps
  RequestLogger_wraps HTTPMetrics_wraps Recovery_wraps Timeout_wraps MaxBody_wraps
  RequireJSON_wraps SecurityHeaders_wraps CORS_wraps RateLimit_wraps JWT_wraps
  Authentication_wraps Authorization_wraps pprofAuth_wraps IdempotencyExecution_wraps
  RequestID_settles IdempotencyKey_settles Environment_settles RequestLogger_settles
  HTTPMetrics_settles Recovery_settles Timeout_settles MaxBody_settles RequireJSON_settles
  SecurityHeaders_settles CORS_settles RateLimit_settles JWT_settles
  Authentication_settles Authorization_settles IdempotencyExecution_settles
  RequestID_forwards IdempotencyKey_forwards Environment_forwards RequestLogger_forwards
  HTTPMetrics_forwards Recovery_forwards Timeout_forwards MaxBody_forwards
  RequireJSON_forwards SecurityHeaders_forwards CORS_forwards : chain.
