(* ===== verification/HttpSpec.v ===== *)
(** * What the HTTP transport promises

    Over any service, authorizer, limiter and idempotency manager: which
    requests reach a handler, what the handlers answer, and that serving a
    request touches the tables only through one call of the service. *)

From S2P Require Import Prelude GoStrings Wire AppError Config Connections Reqctx Auth Effects Ratelimit Model.
From S2P Require Import Libraries Database Repository Unique Service ServiceSpec.
From S2P Require Import Calls Web Health Middleware Handlers HttpServer ChainSpec.
Open Scope string_scope.
Open Scope list_scope.
Open Scope Z_scope.
Open Scope go_scope.

(** ** Endpoints: the routes that call the service *)
Inductive Endpoint :=
  | EPutTemplate | EGetTemplate | EListTemplates | EPutProvider | EGetProvider
  | EListProviders | ESend | EReceipt | EGetDelivery | EListDeliveries.
Definition endpoint_path (e : Endpoint) : string :=
  "/api/v1/notifications/" +:+
  match e with
  | EPutTemplate => "templates/put" | EGetTemplate => "templates/get"
  | EListTemplates => "templates/list" | EPutProvider => "providers/put"
  | EGetProvider => "providers/get" | EListProviders => "providers/list"
  | ESend => "send" | EReceipt => "providers/receipt"
  | EGetDelivery => "deliveries/get" | EListDeliveries => "deliveries/list"
  end.
Definition endpoint_form (e : Endpoint) : Form :=
  match e with
  | EPutTemplate => PutTemplateRequest | EGetTemplate => GetTemplateRequest
  | EListTemplates => ListTemplatesRequest | EPutProvider => PutProviderRequest
  | EGetProvider => GetProviderRequest | EListProviders => ListProvidersRequest
  | ESend => SendNotificationRequest | EReceipt => ProviderReceiptRequest
  | EGetDelivery => GetDeliveryRequest | EListDeliveries => ListDeliveriesRequest
  end.
(** The call of the service that a well-formed body asks for. *)
Definition endpoint_request (e : Endpoint) (r : Fields) : Request :=
  let t := r.(str) "tenant_id" in let a := r.(str) "application_id" in
  match e with
  | EPutTemplate => RPutTemplate (Handler.template_of r) (r.(int) "expected_version")
  | EGetTemplate => RGetTemplate t a (r.(str) "code") (r.(str) "channel") (r.(str) "locale")
  | EListTemplates => RListTemplates t a (r.(str) "keyword") (r.(str) "channel")
      (r.(str) "status") (r.(int) "page") (r.(int) "page_size")
  | EPutProvider => RPutProvider (Handler.provider_of r) (r.(int) "expected_version")
  | EGetProvider => RGetProvider t a (r.(str) "code")
  | EListProviders => RListProviders t a (r.(str) "keyword") (r.(str) "channel")
      (r.(str) "status") (r.(int) "page") (r.(int) "page_size")
  | ESend => RSend t a (r.(str) "template_code") (r.(str) "channel") (r.(str) "locale")
      (r.(str) "recipient") (r.(str) "idempotency_key") (r.(strings) "variables")
  | EReceipt => RRecordReceipt t a (r.(str) "provider") (r.(str) "provider_message_id")
      (r.(str) "status") (r.(str) "failure_reason")
  | EGetDelivery => RGetDelivery (r.(str) "id") t a
  | EListDeliveries => RListDeliveries t a (r.(str) "status") (r.(int) "page")
      (r.(int) "page_size")
  end.

Section Endpoints.
Context `{Externals} `{UnicodeTables} `{LibraryText} `{URLLibrary} `{TemplateLibrary}
  `{JSONLibrary} `{EventLibrary} `{CodeValues} `{FormLibrary} {DB : Type} `{!Repository DB}.
Implicit Types (h : HTTPHandler) (c : Gin) (w : World DB Event).

Definition endpoint_handler h (e : Endpoint) : Handler DB :=
  match e with
  | EPutTemplate => Handler.PutNotificationTemplate h
  | EGetTemplate => Handler.GetNotificationTemplate h
  | EListTemplates => Handler.ListNotificationTemplates h
  | EPutProvider => Handler.PutNotificationProvider h
  | EGetProvider => Handler.GetNotificationProvider h
  | EListProviders => Handler.ListNotificationProviders h
  | ESend => Handler.SendNotification h | EReceipt => Handler.RecordProviderReceipt h
  | EGetDelivery => Handler.GetNotificationDelivery h
  | EListDeliveries => Handler.ListNotificationDeliveries h
  end.

Lemma respond_spec {A} (body : A → JSON) c (m : IO DB (A * error)) w :
  Handler.respond body c m w =
    (if failed (m w).1.2 then Fail (m w).1.2 c else OK (body (m w).1.1) c, (m w).2).
Proof.
  unfold Handler.respond, bind. destruct (m w) as [[v err] w'].
  cbn. by destruct (failed err).
Qed.

(** The body of a successful answer. *)
Definition value_json (v : Value) : JSON :=
  match v with
  | VProvider v => ProviderResponseBody.to_json (providerResponse v)
  | VTemplate v => TemplateResponseBody.to_json (templateResponse v)
  | VDelivery v => DeliveryResponseBody.to_json (deliveryResponse v)
  | VProviders p => ProviderPageResponseBody (map providerResponse p.(ProviderPage_Providers))
      p.(ProviderPage_Total) p.(ProviderPage_Page) p.(ProviderPage_PageSize)
  | VTemplates p => TemplatePageResponseBody (map templateResponse p.(TemplatePage_Templates))
      p.(TemplatePage_Total) p.(TemplatePage_Page) p.(TemplatePage_PageSize)
  | VDeliveries p => DeliveryPageResponseBody (map deliveryResponse p.(Page_Deliveries))
      p.(Page_Total) p.(Page_Page) p.(Page_PageSize)
  end.

(** A body that a handler cannot bind ends the request; another is one call of
    the service, whose error or value is the answer. *)
Lemma endpoint_spec h e c w :
  let '(r, err) := ShouldBindJSON (endpoint_form e) c in
  if failed err then
    ∃ message, message ∈ ["invalid request body"; "invalid json request"] ∧
    endpoint_handler h e c w = (Fail (AppErr.Invalid message err) c, w)
  else
    let '((v, answer), w') :=
      call h.(Handler_notifications) c.(gin_ctx) (endpoint_request e r) w in
    endpoint_handler h e c w = (if failed answer then Fail answer c else OK (value_json v) c, w').
Proof.
  destruct (ShouldBindJSON _ c) as [r err] eqn:Eb.
  destruct e; cbn [endpoint_form] in Eb; cbn [endpoint_handler];
    unfold Handler.PutNotificationTemplate, Handler.GetNotificationTemplate,
      Handler.ListNotificationTemplates, Handler.PutNotificationProvider,
      Handler.GetNotificationProvider, Handler.ListNotificationProviders,
      Handler.SendNotification, Handler.RecordProviderReceipt, Handler.GetNotificationDelivery,
      Handler.ListNotificationDeliveries, Handler.bind_json; rewrite Eb;
    (destruct (failed err); [eexists; by split; [|done]; apply (bool_decide_unpack _)|]); cbn [endpoint_request call];
    by rewrite value_of_run, respond_spec.
Qed.
End Endpoints.

(** The tracing middleware runs the rest of the chain once and puts the request's
    context back; the handlers that are not the program's touch no table. *)
Class GinLaws DB `{!Externals} `{!GinLibrary DB} := {
  otelgin_passes name (next : Handler DB) c w :
    otelgin name next c w =
      (let! c' := next c in ret (Http.with_context (λ _, c.(gin_ctx)) c')) w;
  foreign_keeps name c : keeps_db (foreign (DB := DB) name c) }.

(** ** The chains of the server *)
Section Chains.
Context `{Externals} `{UnicodeTables} `{LibraryText} `{URLLibrary} `{TemplateLibrary}
  `{JSONLibrary} `{EventLibrary} `{TokenLibrary} `{CodeValues} `{WebLibrary} `{FormLibrary}
  `{DurationText} {DB : Type} `{!Repository DB} `{!GinLibrary DB} `{!GinLaws DB}.
Implicit Types (cfg : Config) (h : HTTPHandler) (c : Gin) (w : World DB Event).

Lemma otelgin_wraps name : wraps (DB := DB) (otelgin name).
Proof.
  intros P HP next Hn c w. rewrite otelgin_passes. apply changes_before; [apply Hn|done].
Qed.
Lemma otelgin_settles name : settles (DB := DB) (otelgin name).
Proof.
  intros next Hn c w Hc. rewrite otelgin_passes. unfold bind. pose proof (Hn c w Hc) as Ha.
  by destruct (next c w) as [c' w'].
Qed.
Lemma otelgin_forwards name : forwards (DB := DB) (otelgin name).
Proof.
  intros path hs next next' Hn c w Hc. rewrite !otelgin_passes. unfold bind. by rewrite (Hn c w Hc).
Qed.

#[local] Hint Resolve otelgin_wraps otelgin_settles otelgin_forwards : chain.
Lemma global_wraps cfg metrics : Forall (wraps (DB := DB)) (Server.global cfg metrics).
Proof. unfold Server.global, Server.api. auto 20 with chain. Qed.
Lemma api_wraps cfg service authorizer limiter manager :
  Forall (wraps (DB := DB)) (Server.api cfg service authorizer limiter manager).
Proof. unfold Server.global, Server.api. auto 20 with chain. Qed.
Lemma global_settles cfg metrics : Forall (settles (DB := DB)) (Server.global cfg metrics).
Proof. unfold Server.global, Server.api. auto 20 with chain. Qed.
Lemma api_settles cfg service authorizer limiter manager :
  Forall (settles (DB := DB)) (Server.api cfg service authorizer limiter manager).
Proof. unfold Server.global, Server.api. auto 20 with chain. Qed.
Lemma global_forwards cfg metrics : Forall (forwards (DB := DB)) (Server.global cfg metrics).
Proof. unfold Server.global, Server.api. auto 20 with chain. Qed.
Lemma forwards_chain (ms : list (Middleware DB)) : Forall forwards ms → forwards (chain ms).
Proof.
  induction 1 as [|m ms Hm _ IH]; intros path headers; [apply only_nil|].
  by apply (only_chain _ (at_route path headers)).
Qed.

(** ** Who reaches a handler *)
Definition endpoint_requirement (e : Endpoint) : Requirement :=
  match e with
  | EPutTemplate => mkRequirement "notification.template" "update" ScopePrincipal
  | EGetTemplate => mkRequirement "notification.template" "read" ScopePrincipal
  | EListTemplates => mkRequirement "notification.template" "list" ScopePrincipal
  | EPutProvider => mkRequirement "notification.provider" "update" ScopePrincipal
  | EGetProvider => mkRequirement "notification.provider" "read" ScopePrincipal
  | EListProviders => mkRequirement "notification.provider" "list" ScopePrincipal
  | ESend => mkRequirement "notification.delivery" "send" ScopePrincipal
  | EReceipt => mkRequirement "notification.receipt" "record" ScopePlatform
  | EGetDelivery => mkRequirement "notification.delivery" "read" ScopePrincipal
  | EListDeliveries => mkRequirement "notification.delivery" "list" ScopePrincipal
  end.
Lemma endpoint_required e :
  Http.notificationHTTPRequirement (endpoint_path e) = Some (endpoint_requirement e).
Proof. by destruct e. Qed.

(** [c] is at the route [path] with these headers, its caller is the one the
    credentials name unless the route is exempt, and the authorizer granted the
    requirement. *)
Definition guarded cfg service authorizer path headers c : Prop :=
  at_route path headers c ∧
  (exempt cfg.(Config_Auth) path = true ∨ authenticated service cfg.(Config_Auth) c) ∧
  authorized cfg.(Config_Authorization).(Authorization_Enabled) authorizer c.

Lemma api_only cfg service authorizer limiter manager path headers :
  only (DB := DB) (at_route path headers) (guarded cfg service authorizer path headers)
    (chain (Server.api cfg service authorizer limiter manager)).
Proof.
  unfold Server.api.
  do 2 (apply (only_chain _ (at_route path headers)); [by apply RateLimit_only|]).
  eapply only_chain; [apply Authentication_only|].
  eapply only_chain; [apply Authorization_only|].
  apply (only_weaken (guarded cfg service authorizer path headers) (guarded cfg service authorizer path headers));
    [by intros c' [[? ?] ?]|done|].
  apply (only_chain _ (guarded cfg service authorizer path headers)); [by apply RateLimit_only|].
  apply (only_chain _ (guarded cfg service authorizer path headers)); [by apply IdempotencyExecution_only|].
  apply only_nil.
Qed.

(** C5 Every notification route is guarded.  Unless a pattern of [skip_http_paths]
    exempts the route, where no credential is looked at, a handler behind the
    server's chain is only ever run for a request whose caller is the one its
    credentials name (the pre-shared key where the route takes it, else a verified
    bearer token); and on every route, exempt or not, only when authorization is off
    or the server's authorizer granted the permission of the route: two handlers
    that agree there cannot be told apart by any request. *)
Theorem endpoint_guarded cfg service authorizer limiter manager metrics e (f g : Handler DB) c w :
  c.(gin_FullPath) = endpoint_path e →
  (∀ c' w', at_route (endpoint_path e) c.(gin_Header) c' →
    exempt cfg.(Config_Auth) (endpoint_path e) = true ∨ authenticated service cfg.(Config_Auth) c' →
    (cfg.(Config_Authorization).(Authorization_Enabled) = true →
      ∃ n, ext_enforce n authorizer c'.(gin_ctx) (endpoint_requirement e) = nil_err) →
    f c' w' = g c' w') →
  let ms := Server.global cfg metrics ++ Server.api cfg service authorizer limiter manager in
  chain ms f c w = chain ms g c w.
Proof.
  intros Hp Hfg ms. unfold ms. rewrite !chain_app.
  apply (forwards_chain _ (global_forwards cfg metrics) (endpoint_path e) c.(gin_Header)).
  - intros c1 w1 Hc1. apply (api_only _ _ _ _ _ (endpoint_path e) c.(gin_Header)); [|done].
    intros c2 w2 (Ha & Hau & Haz). apply Hfg; [done..|]. intros He.
    apply Haz; [done|]. destruct Ha as [-> _]. apply endpoint_required.
  - by split.
Qed.

(** ** Answers *)
Lemma endpoint_settled h e : settled_by (endpoint_handler (DB := DB) h e).
Proof.
  intros c w Hc. pose proof (endpoint_spec h e c w) as He.
  destruct (ShouldBindJSON _ c) as [r err]. destruct (failed err).
  - destruct He as (message & _ & ->). by apply Fail_answered.
  - destruct (call _ _ _ w) as [[v answer] w'] eqn:E. rewrite He. cbn.
    destruct (failed answer); [by apply Fail_answered|by apply OK_answered].
Qed.

(** The routes of the API are the version, the caller and the ten endpoints. *)
Lemma api_route_handlers h build group route :
  route ∈ Server.api_routes (DB := DB) h build group →
  route = Server.post "/api/v1/version" group (Handler.Version build) ∨
  route = Server.post "/api/v1/me" group Handler.Me ∨
  ∃ e, route = Server.post (endpoint_path e) group (endpoint_handler h e).
Proof.
  unfold Server.api_routes. rewrite !elem_of_cons, elem_of_nil.
  intros [->|[->|Hr]]; [by left|by right; left|]. right. right.
  destruct_or! Hr; try done; subst;
    [exists EPutTemplate|exists EGetTemplate|exists EListTemplates|exists EPutProvider
    |exists EGetProvider|exists EListProviders|exists ESend|exists EReceipt
    |exists EGetDelivery|exists EListDeliveries]; reflexivity.
Qed.
Lemma endpoint_registered h build group e :
  Server.post (endpoint_path e) group (endpoint_handler h e) ∈ Server.api_routes (DB := DB) h build group.
Proof. unfold Server.api_routes. rewrite !elem_of_cons. destruct e; tauto. Qed.

(** C23 Every request to the API is answered once, by one unified response that
    carries the request's id: whatever its body, its credentials, the limits,
    the stored results and the outcome of the service. *)
Theorem api_answers_once cfg h service authorizer limiter manager metrics build server route c w :
  Server.NewServer cfg h service authorizer limiter manager metrics build = (Some server, nil_err) →
  route ∈ Server.api_routes h build (Server.api cfg service authorizer limiter manager) →
  Server.matched route c → fresh c → c.(gin_panic) = false →
  route ∈ server.(Server_routes) ∧
  ∃ status r c' w', Server.serve server route c w = (c', w') ∧ answers status r c' ∧
    r.(Response.RequestID) = requestID c'.
Proof.
  intros Hs Hr [Hm _] Hf Hp. unfold Server.NewServer in Hs.
  destruct (failed _); [done|]. injection Hs as <-.
  split; [by apply (elem_of_app (Server.operations cfg h service metrics)); right|].
  assert (settled_by route.(Route_handler) ∧ route.(Route_methods) = ["POST"] ∧
    route.(Route_group) = Server.api cfg service authorizer limiter manager) as (Hh & Hpost & Hg).
  { apply api_route_handlers in Hr as [->|[->|[e ->]]]; cbn; (split; [|done]).
    - intros c' w' Hc'. unfold Handler.Version. apply settles_bind. intros i w1. by apply OK_answered.
    - intros c' w' Hc'. by apply OK_answered.
    - apply endpoint_settled. }
  rewrite Hpost, list_elem_of_singleton in Hm.
  destruct (settles_chain (Server.global cfg metrics ++ route.(Route_group)) route.(Route_handler))
    with (c := c) (w := w) as (_ & status & r & Ha & Hid); [|done|by repeat split; try apply Hf|].
  { rewrite Hg. apply Forall_app. split; [apply global_settles|apply api_settles]. }
  unfold Server.serve. cbn [Server_use]. destruct (chain _ _ c w) as [c' w'].
  by exists status, r, c', w'.
Qed.
End Chains.

(** ** Idempotent execution *)
(** What [encoding/json] makes of a unified response it wrote itself: the code,
    the message and the id again, and the body as it reads into an [any]. *)
Class JSONRoundTrip `{WebLibrary} := {
  json_any : JSON → JSON;
  json_any_idem body : json_any (json_any body) = json_any body;
  json_roundtrip r : json_UnmarshalResponse (json_MarshalResponse r) =
    ({ r with Response.Body := json_any r.(Response.Body) }, nil_err) }.

Section Idempotency.
Context `{Externals} `{CodeValues} `{JSONRoundTrip} {DB : Type}.
Implicit Types (c : Gin) (w : World DB Event).

(** The request has an idempotency key on a route where keys are honoured. *)
Definition keyed (manager : option IdempotencyManager) (paths : list string) (key : string) c : Prop :=
  Idempotency.FromContext c.(gin_ctx) = (key, true) ∧
  manager = Some (mkIdempotencyManager true) ∧
  c.(gin_Method) = "POST" ∧ MatchesAny c.(gin_FullPath) paths = true ∧ c.(gin_Body).2 = nil_err.
Definition fingerprint_of c : string := (Http.idempotencyFingerprint c).1.1.

(** What is kept of the answer [r] under [status]. *)
Definition kept_failure (status : Z) (r : Response.t) : Failure :=
  mkFailure r.(Response.Code) r.(Response.Message) status.
Definition kept_response (r : Response.t) : Response.t :=
  { r with Response.Body := json_any r.(Response.Body); Response.RequestID := "" }.
Definition kept_event (key owner : string) (status : Z) (r : Response.t) : Event :=
  if 400 <=? status then EvFail key owner (kept_failure status r)
  else EvComplete key owner (kept_response r).
(** A manager's decision that gives it back. *)
Definition remembers (decision : Decision) (status : Z) (r : Response.t) : Prop :=
  if 400 <=? status
  then decision.(Decision_State) = StateFailed ∧ decision.(Decision_Failure) = kept_failure status r
  else decision.(Decision_State) = StateCompleted ∧
    decision.(Decision_Response) = json_MarshalResponse (kept_response r).

(** What the middleware does with a keyed request once the manager decided. *)
Definition decided (next : Handler DB) c (decision : Decision) (key : string) : IO DB Gin :=
  match decision.(Decision_State) with
  | StateCompleted => ret (Http.replay decision c)
  | StateFailed => ret (Http.replay_failure decision.(Decision_Failure) c)
  | StateProcessing => ret (Fail AppErr.RequestInProgress c)
  | StateConflict =>
      ret (Fail (AppErr.Conflict "idempotency key belongs to a different request" nil_err) c)
  | StateAcquired => after next c (Http.persist key decision.(Decision_Owner) c)
  | StateOther _ => ret (Fail (AppErr.Unavailable "idempotency state is invalid" nil_err) c)
  end.
Lemma keyed_runs manager paths key (next : Handler DB) c w decision :
  keyed manager paths key c →
  ext_begin (w_tick w) key (fingerprint_of c) = (decision, nil_err) →
  ∃ c1 w1, Http.IdempotencyExecution manager paths next c w = decided next c1 decision key w1 ∧
    c1 = { c with gin_Body := (c.(gin_Body).1, nil_err) } ∧
    w1 = mkWorld (w_db w) (S (w_tick w)) (w_log w ++ [EvBegin key (fingerprint_of c)]).
Proof.
  intros (Hk & -> & Hm & Hp & Hb) Hd. unfold Http.IdempotencyExecution. rewrite Hk, Hm, Hp.
  assert (Http.idempotencyFingerprint c =
    (fingerprint_of c, nil_err, { c with gin_Body := (c.(gin_Body).1, nil_err) })) as Hf.
  { unfold fingerprint_of, Http.idempotencyFingerprint.
    destruct (gin_Body c) as [body err]. cbn in Hb. by subst err. }
  rewrite Hf. generalize dependent (fingerprint_of c). intros fingerprint Hd _.
  do 2 eexists. split; [|done].
  match goal with |- (if ?b then _ else _) _ = _ => change b with false end.
  unfold Http.Begin, bind, emit, tick, ret. destruct w. cbn in *. by rewrite Hd.
Qed.

Lemma captured_once status r c0 c :
  fresh c0 → answers status r c → Http.captured c0 c = json_MarshalResponse r.
Proof.
  intros [_ H0'] (_ & _ & Ho). unfold Http.captured. by rewrite H0', Ho.
Qed.

Lemma persist_spec key owner status r c0 c w :
  fresh c0 → answers status r c →
  ∃ w', Http.persist key owner c0 c w = (c, w') ∧ w_db w' = w_db w ∧
    w_log w' = w_log w ++ [kept_event key owner status r].
Proof.
  intros Hf Ha. unfold Http.persist. rewrite (captured_once status r) by done.
  rewrite json_roundtrip. destruct Ha as (<- & _). unfold kept_event.
  unfold Http.Fail_key, Http.Complete, bind, emit, tick, ret. cbn.
  by destruct (400 <=? gin_Status c); eexists.
Qed.

Lemma kept_roundtrip r :
  json_UnmarshalResponse (json_MarshalResponse (kept_response r)) = (kept_response r, nil_err).
Proof. rewrite json_roundtrip. destruct r. unfold kept_response, constant. cbn. by rewrite json_any_idem. Qed.

(** The world and the context in which the manager's decision is carried out. *)
Definition begun key c w : World DB Event :=
  mkWorld (w_db w) (S (w_tick w)) (w_log w ++ [EvBegin key (fingerprint_of c)]).
Definition reread c : Gin := { c with gin_Body := (c.(gin_Body).1, nil_err) }.

(** C11 Idempotent execution round trip.  When a request with an idempotency key is
    executed, its answer is kept under the key; and whenever the manager gives
    back what was kept, a later request with the key is answered with the same
    code and message under its own request id, a failure with the same status,
    a success with the body as it reads back from JSON, and neither the
    handler nor any table is touched. *)
Theorem idempotent_replay manager paths key (next : Handler DB) c w decision c1 w1 status r :
  keyed manager paths key c → fresh c →
  ext_begin (w_tick w) key (fingerprint_of c) = (decision, nil_err) →
  decision.(Decision_State) = StateAcquired →
  next (reread c) (begun key c w) = (c1, w1) → c1.(gin_panic) = false → answers status r c1 →
  (∃ w2, Http.IdempotencyExecution manager paths next c w = (c1, w2) ∧ w_db w2 = w_db w1 ∧
     w_log w2 = w_log w1 ++ [kept_event key decision.(Decision_Owner) status r]) ∧
  ∀ (other : Handler DB) c' w' decision',
    keyed manager paths key c' → fresh c' →
    ext_begin (w_tick w') key (fingerprint_of c') = (decision', nil_err) →
    remembers decision' status r →
    ∃ c2, Http.IdempotencyExecution manager paths other c' w' = (c2, begun key c' w') ∧
      answers (if 400 <=? status then status else 200)
        {| Response.Code := r.(Response.Code); Response.Message := r.(Response.Message);
           Response.Body := if 400 <=? status then JNull else json_any r.(Response.Body);
           Response.RequestID := requestID c' |} c2.
Proof.
  intros Hk Hf Hd Hs Hn Hp Ha. split.
  - destruct (keyed_runs _ _ _ next _ _ _ Hk Hd) as (c0 & w0 & -> & -> & ->).
    unfold decided. rewrite Hs. unfold after, bind. unfold reread, begun in Hn. rewrite Hn, Hp.
    destruct (persist_spec key decision.(Decision_Owner) status r
      { c with gin_Body := (c.(gin_Body).1, nil_err) } c1 w1 Hf Ha) as (w2 & E & Hdb & Hl).
    by exists w2.
  - intros other c' w' decision' Hk' Hf' Hd' Hr.
    destruct (keyed_runs _ _ _ other _ _ _ Hk' Hd') as (c0 & w0 & -> & -> & ->).
    unfold decided, remembers in *. destruct (400 <=? status); destruct Hr as [-> Hr].
    + rewrite Hr. eexists. split; [reflexivity|]. exact (JSONResponse_answers status _ _ Hf').
    + unfold Http.replay. rewrite Hr, kept_roundtrip. eexists. split; [reflexivity|]. exact (JSONResponse_answers 200 _ _ Hf').
Qed.
End Idempotency.
