(* ===== verification/Grpc.v ===== *)
(** * internal/transport/grpc/server.go

    An interceptor takes the call's method and incoming metadata and the rest of
    the chain.  A handler returns a reply and a status (nil is [None]), or
    panics.  The platform's authorization and idempotency interceptors and the
    generated names of the methods are libraries'. *)

From S2P Require Import Prelude GoStrings PathMatch Wire AppError Config Connections Reqctx Auth Effects.
From S2P Require Import Model Libraries Repository Service Health Middleware.
From Stdlib Require Import Ascii.
Open Scope string_scope.
Open Scope list_scope.
Open Scope Z_scope.
Open Scope go_scope.

(** ** Messages *)
Inductive Method :=
  | PutProvider | GetProvider | ListProviders | PutTemplate | GetTemplate | ListTemplates
  | Send | RecordProviderReceipt | GetDelivery | ListDeliveries.
#[export] Instance Method_eq_dec : EqDecision Method.
Proof. solve_decision. Defined.
(** The generated [NotificationService_..._FullMethodName]. *)
Class MethodNames := FullMethodName : Method → string.

Module Pb.
Record PageRequest := mkPageRequest { PageRequest_page : Z; PageRequest_page_size : Z }.
Record Provider := mkProvider {
  Provider_id : string; Provider_tenant_id : string; Provider_application_id : string;
  Provider_code : string; Provider_channel : string; Provider_upstream : string;
  Provider_path : string; Provider_priority : Z; Provider_status : string;
  Provider_version : Z; Provider_created_at : Z; Provider_updated_at : Z;
  Provider_created_by : string; Provider_updated_by : string }.
Record Template := mkTemplate {
  Template_id : string; Template_tenant_id : string; Template_application_id : string;
  Template_code : string; Template_channel : string; Template_locale : string;
  Template_subject : string; Template_content : string; Template_status : string;
  Template_version : Z; Template_created_at : Z; Template_updated_at : Z;
  Template_created_by : string; Template_updated_by : string }.
Inductive Request :=
  | PutProviderRequest (provider : option Provider) (expected_version : Z)
  | GetProviderRequest (tenant_id application_id code : string)
  | ListProvidersRequest (tenant_id application_id keyword channel status : string)
      (page : option PageRequest)
  | PutTemplateRequest (template : option Template) (expected_version : Z)
  | GetTemplateRequest (tenant_id application_id code channel locale : string)
  | ListTemplatesRequest (tenant_id application_id keyword channel status : string)
      (page : option PageRequest)
  | SendRequest (tenant_id application_id template_code channel locale recipient
      idempotency_key : string) (variables : StringMap)
  | RecordProviderReceiptRequest (tenant_id application_id provider provider_message_id status
      failure_reason : string)
  | GetDeliveryRequest (id tenant_id application_id : string)
  | ListDeliveriesRequest (tenant_id application_id status : string) (page : option PageRequest).
(** [total] is a [uint64], the page and its size are [uint32]. *)
Record PageResult := mkPageResult {
  PageResult_total : Z; PageResult_page : Z; PageResult_page_size : Z }.
Inductive Response :=
  | ProviderResponse (provider : Provider)
  | ListProvidersResponse (providers : list Provider) (page : PageResult)
  | TemplateResponse (template : Template)
  | ListTemplatesResponse (templates : list Template) (page : PageResult)
  | DeliveryResponse (delivery : ProtoDelivery)
  | ListDeliveriesResponse (deliveries : list ProtoDelivery) (page : PageResult).
End Pb.
Definition method_of (request : Pb.Request) : Method :=
  match request with
  | Pb.PutProviderRequest _ _ => PutProvider
  | Pb.GetProviderRequest _ _ _ => GetProvider
  | Pb.ListProvidersRequest _ _ _ _ _ _ => ListProviders
  | Pb.PutTemplateRequest _ _ => PutTemplate
  | Pb.GetTemplateRequest _ _ _ _ _ => GetTemplate
  | Pb.ListTemplatesRequest _ _ _ _ _ _ => ListTemplates
  | Pb.SendRequest _ _ _ _ _ _ _ _ => Send
  | Pb.RecordProviderReceiptRequest _ _ _ _ _ _ => RecordProviderReceipt
  | Pb.GetDeliveryRequest _ _ _ => GetDelivery
  | Pb.ListDeliveriesRequest _ _ _ _ => ListDeliveries
  end.

(** Go's conversions to unsigned integers. *)
Definition uint32 (z : Z) : Z := z `mod` 2 ^ 32.
Definition uint64 (z : Z) : Z := z `mod` 2 ^ 64.

Definition toProtoProvider (value : Provider.t) : Pb.Provider := {|
  Pb.Provider_id := value.(Provider.ID); Pb.Provider_tenant_id := value.(Provider.TenantID);
  Pb.Provider_application_id := value.(Provider.ApplicationID);
  Pb.Provider_code := value.(Provider.Code); Pb.Provider_channel := value.(Provider.Channel);
  Pb.Provider_upstream := value.(Provider.Upstream); Pb.Provider_path := value.(Provider.Path);
  Pb.Provider_priority := wrap32 value.(Provider.Priority);
  Pb.Provider_status := value.(Provider.Status); Pb.Provider_version := value.(Provider.Version);
  Pb.Provider_created_at := value.(Provider.CreatedAt);
  Pb.Provider_updated_at := value.(Provider.UpdatedAt);
  Pb.Provider_created_by := value.(Provider.CreatedBy);
  Pb.Provider_updated_by := value.(Provider.UpdatedBy) |}.
Definition toProtoTemplate (v : Template.t) : Pb.Template := {|
  Pb.Template_id := v.(Template.ID); Pb.Template_tenant_id := v.(Template.TenantID);
  Pb.Template_application_id := v.(Template.ApplicationID);
  Pb.Template_code := v.(Template.Code); Pb.Template_channel := v.(Template.Channel);
  Pb.Template_locale := v.(Template.Locale); Pb.Template_subject := v.(Template.Subject);
  Pb.Template_content := v.(Template.Content); Pb.Template_status := v.(Template.Status);
  Pb.Template_version := v.(Template.Version); Pb.Template_created_at := v.(Template.CreatedAt);
  Pb.Template_updated_at := v.(Template.UpdatedAt);
  Pb.Template_created_by := v.(Template.CreatedBy);
  Pb.Template_updated_by := v.(Template.UpdatedBy) |}.

(** ** Statuses *)
Inductive GCode :=
  | Canceled | InvalidArgument | DeadlineExceeded | NotFound | PermissionDenied
  | ResourceExhausted | Aborted | Internal | Unavailable | Unauthenticated | OtherCode (n : Z).
#[export] Instance GCode_eq_dec : EqDecision GCode.
Proof. solve_decision. Defined.
Record GStatus := mkGStatus { status_code : GCode; status_message : string }.

Definition grpc_code (code : Code) : GCode :=
  match code with
  | CodeInvalidArgument => InvalidArgument
  | CodeUnauthorized => Unauthenticated
  | CodeForbidden => PermissionDenied
  | CodeNotFound => NotFound
  | CodeConflict => Aborted
  | CodeDependencyUnavailable => Unavailable
  | _ => Internal
  end.
Definition grpcError (err : error) : GStatus :=
  match error_as_app err with
  | None => mkGStatus Internal "internal server error"
  | Some appErr => mkGStatus (grpc_code appErr.(app_Code)) appErr.(app_Message)
  end.

(** ** Handlers and interceptors *)
Inductive Result (R : Type) :=
  | Returned (reply : option R) (err : option GStatus)
  | Panicked.
Arguments Returned {R}.
Arguments Panicked {R}.
Definition fails {R} (code : GCode) (message : string) : Result R :=
  Returned None (Some (mkGStatus code message)).
(** [FullMethod] and the metadata that came with the call. *)
Record CallInfo := mkCallInfo { FullMethod : string; Incoming : string → list string }.
Abbreviation UnaryHandler DB R := (Context → IO DB (Result R)).
Abbreviation Interceptor DB R := (CallInfo → UnaryHandler DB R → UnaryHandler DB R).

(** The platform's interceptors: authorization by the requirement of a method, with
    the status of its refusals, and idempotent execution. *)
Class PlatformInterceptors (DB R : Type) := {
  platformauthz_UnaryServerInterceptor :
    Authorizer → (string → option Requirement) → Interceptor DB R;
  platformauthz_refusal : error → GStatus;
  platformidempotency_UnaryServerInterceptor : IdempotencyManager → list string → Interceptor DB R }.

Module Grpc.
Section Interceptors.
Context `{Externals} `{TokenLibrary} `{WebLibrary} {DB R : Type}.
Implicit Types (ctx : Context) (info : CallInfo) (handler : UnaryHandler DB R).

Definition environmentInterceptor (profile : string) : Interceptor DB R := λ info handler ctx,
  handler (Environment.WithContext ctx profile).

Definition incoming_id info : string :=
  match info.(Incoming) "x-request-id" with
  | value :: _ => if Requestid.Valid value then value else ""
  | [] => ""
  end.
Definition requestIDInterceptor : Interceptor DB R := λ info handler ctx,
  let id := incoming_id info in
  let! id := (if id == "" then Http.generate else ret id) in
  emit (EvHeader "x-request-id" id) ;;
  handler (Requestid.WithContext ctx id).

Definition idempotencyInterceptor : Interceptor DB R := λ info handler ctx,
  match info.(Incoming) "idempotency-key" with
  | [] => handler ctx
  | value :: _ =>
      if negb (idempotency_Valid value)
      then ret (fails InvalidArgument "invalid idempotency-key")
      else handler (Idempotency.WithContext ctx value)
  end.

Definition recoveryInterceptor : Interceptor DB R := λ info handler ctx,
  let! result := handler ctx in
  match result with
  | Panicked => ret (fails Internal "internal server error")
  | Returned reply err => ret (Returned reply err)
  end.

Definition authenticateGRPC ctx info (service : AuthService) (cfg : Auth) : Context * option GStatus :=
  let values := info.(Incoming) "authorization" in
  let psk := cfg.(Auth_PSK) in
  let method := info.(FullMethod) in
  if psk.(PSK_Enabled) && MatchesAny method psk.(PSK_GRPCMethods) then
    match values with
    | value :: _ =>
        if negb (VerifyPSK value psk.(PSK_Key))
        then (ctx, Some (mkGStatus Unauthenticated "missing or invalid PSK"))
        else (Caller.WithContext ctx Http.psk_principal, None)
    | [] => (ctx, Some (mkGStatus Unauthenticated "missing or invalid PSK"))
    end
  else if MatchesAny method cfg.(Auth_SkipGRPCMethods) then (ctx, None) else
  match values with
  | [] => (ctx, Some (mkGStatus Unauthenticated "missing bearer token"))
  | value :: _ =>
      let '(scheme, raw, ok) := Cut value " " in
      if negb ok || negb (EqualFold scheme "Bearer")
      then (ctx, Some (mkGStatus Unauthenticated "invalid bearer token")) else
      let '(caller, err) := AuthService.Verify service raw in
      if failed err then (ctx, Some (mkGStatus Unauthenticated "invalid or expired token"))
      else (Caller.WithContext ctx caller, None)
  end.
Definition authInterceptor (service : AuthService) (cfg : Auth) : Interceptor DB R :=
  λ info handler ctx,
  let '(authCtx, err) := authenticateGRPC ctx info service cfg in
  match err with
  | Some status => ret (Returned None (Some status))
  | None => handler authCtx
  end.

(** The text of a status code ([codes.Code.String]). *)
Definition code_text (names : option GCode → string) (err : option GStatus) : string :=
  names (status_code <$> err).
Definition metricsInterceptor (enabled : bool) (names : option GCode → string) : Interceptor DB R :=
  λ info handler ctx,
  let! result := handler ctx in
  match result with
  | Panicked => ret Panicked
  | Returned reply err =>
      (if enabled then
         emit (EvMetric "grpc_server_requests_total" [info.(FullMethod); code_text names err]) ;;
         emit (EvMetric "grpc_server_duration_seconds" [info.(FullMethod)])
       else ret tt) ;;
      ret (Returned reply err)
  end.

(** On a stream the id is sent with [SetHeader], which can fail. *)
Definition requestIDStreamInterceptor : Interceptor DB R := λ info handler ctx,
  let id := incoming_id info in
  let! id := (if id == "" then Http.generate else ret id) in
  let! n := tick in
  when! failed (ext_set_header n) return! fails Internal "set request metadata";
  emit (EvHeader "x-request-id" id) ;;
  handler (Requestid.WithContext ctx id).
End Interceptors.
End Grpc.

(** ** Streams: the same interceptors around a stream's context *)
Module GrpcStream.
Section Streams.
Context `{Externals} `{TokenLibrary} `{WebLibrary} {DB R : Type}.
(** [contextServerStream]: the stream with another context. *)
Definition contextServerStream (ctx : Context) : Context := ctx.
Definition environmentStreamInterceptor (profile : string) : Interceptor DB R := λ info handler ctx,
  handler (contextServerStream (Environment.WithContext ctx profile)).
Definition idempotencyStreamInterceptor : Interceptor DB R := λ info handler ctx,
  match info.(Incoming) "idempotency-key" with
  | [] => handler ctx
  | value :: _ =>
      if negb (idempotency_Valid value)
      then ret (fails InvalidArgument "invalid idempotency-key")
      else handler (contextServerStream (Idempotency.WithContext ctx value))
  end.
Definition recoveryStreamInterceptor : Interceptor DB R := λ info handler ctx,
  let! result := handler ctx in
  match result with
  | Panicked => ret (fails Internal "internal server error")
  | Returned reply err => ret (Returned reply err)
  end.
Definition authStreamInterceptor (service : AuthService) (cfg : Auth) : Interceptor DB R :=
  λ info handler ctx,
  let '(authCtx, err) := Grpc.authenticateGRPC ctx info service cfg in
  match err with
  | Some status => ret (Returned None (Some status))
  | None => handler (contextServerStream authCtx)
  end.
Definition metricsStreamInterceptor (enabled : bool) (names : option GCode → string)
    : Interceptor DB R := Grpc.metricsInterceptor enabled names.
End Streams.
End GrpcStream.

(** ** The notification server *)
Module NotificationServer.
Section Methods.
Context `{Externals} `{UnicodeTables} `{LibraryText} `{URLLibrary} `{TemplateLibrary}
  `{JSONLibrary} `{EventLibrary} {DB : Type} `{!Repository DB}.
Implicit Types (s : NotificationService) (ctx : Context).

Definition toProtoDelivery (v : Delivery.t) : ProtoDelivery :=
  let '(variables, _) := json_Unmarshal v.(Delivery.Variables) (Some ∅) in
  {| Proto_Id := v.(Delivery.ID); Proto_TenantId := v.(Delivery.TenantID);
     Proto_ApplicationId := v.(Delivery.ApplicationID);
     Proto_TemplateCode := v.(Delivery.TemplateCode); Proto_Channel := v.(Delivery.Channel);
     Proto_Recipient := v.(Delivery.Recipient); Proto_Variables := variables;
     Proto_Status := v.(Delivery.Status); Proto_Provider := v.(Delivery.Provider);
     Proto_ProviderMessageId := v.(Delivery.ProviderMessageID);
     Proto_FailureReason := v.(Delivery.FailureReason); Proto_Attempts := v.(Delivery.Attempts);
     Proto_NextAttemptAt := v.(Delivery.NextAttemptAt); Proto_Version := v.(Delivery.Version);
     Proto_CreatedAt := v.(Delivery.CreatedAt); Proto_UpdatedAt := v.(Delivery.UpdatedAt);
     Proto_CreatedBy := v.(Delivery.CreatedBy); Proto_UpdatedBy := v.(Delivery.UpdatedBy) |}.

(** [if err != nil { return nil, grpcError(err) }] and the reply. *)
Definition reply {A} (body : A → Pb.Response) (call : IO DB (A * error))
    : IO DB (Result Pb.Response) :=
  let! (value, err) := call in
  when! failed err return! Returned None (Some (grpcError err));
  ret (Returned (Some (body value)) None).
Definition page_of (page : option Pb.PageRequest) : Z * Z :=
  match page with
  | Some p => (p.(Pb.PageRequest_page), p.(Pb.PageRequest_page_size))
  | None => (0, 0)
  end.
Definition page_result (total page size : Z) : Pb.PageResult :=
  Pb.mkPageResult (uint64 total) (uint32 page) (uint32 size).

(** The fields that the put methods take from a message. *)
Definition provider_of (value : Pb.Provider) : Provider.t :=
  { Provider.zero with
    Provider.TenantID := value.(Pb.Provider_tenant_id);
    Provider.ApplicationID := value.(Pb.Provider_application_id);
    Provider.Code := value.(Pb.Provider_code); Provider.Channel := value.(Pb.Provider_channel);
    Provider.Upstream := value.(Pb.Provider_upstream); Provider.Path := value.(Pb.Provider_path);
    Provider.Priority := value.(Pb.Provider_priority);
    Provider.Status := value.(Pb.Provider_status) }.
Definition template_of (v : Pb.Template) : Template.t :=
  { Template.zero with
    Template.TenantID := v.(Pb.Template_tenant_id);
    Template.ApplicationID := v.(Pb.Template_application_id);
    Template.Code := v.(Pb.Template_code); Template.Channel := v.(Pb.Template_channel);
    Template.Locale := v.(Pb.Template_locale); Template.Subject := v.(Pb.Template_subject);
    Template.Content := v.(Pb.Template_content); Template.Status := v.(Pb.Template_status) }.

Definition PutProvider s ctx (provider : option Pb.Provider) (expected : Z)
    : IO DB (Result Pb.Response) :=
  match provider with
  | None => ret (fails InvalidArgument "provider is required")
  | Some value => reply (λ v, Pb.ProviderResponse (toProtoProvider v))
      (Service.PutProvider s ctx (provider_of value) expected)
  end.
Definition GetProvider s ctx (tenant application code : string) : IO DB (Result Pb.Response) :=
  reply (λ v, Pb.ProviderResponse (toProtoProvider v))
    (Service.GetProvider s ctx tenant application code).
Definition ListProviders s ctx (tenant application keyword channel status : string)
    (page : option Pb.PageRequest) : IO DB (Result Pb.Response) :=
  let '(page, pageSize) := page_of page in
  reply (λ p, Pb.ListProvidersResponse (map toProtoProvider p.(ProviderPage_Providers))
      (page_result p.(ProviderPage_Total) p.(ProviderPage_Page) p.(ProviderPage_PageSize)))
    (Service.ListProviders s ctx tenant application keyword channel status page pageSize).
Definition PutTemplate s ctx (template : option Pb.Template) (expected : Z)
    : IO DB (Result Pb.Response) :=
  match template with
  | None => ret (fails InvalidArgument "template is required")
  | Some v => reply (λ v, Pb.TemplateResponse (toProtoTemplate v))
      (Service.PutTemplate s ctx (template_of v) expected)
  end.
Definition GetTemplate s ctx (tenant application code channel locale : string)
    : IO DB (Result Pb.Response) :=
  reply (λ v, Pb.TemplateResponse (toProtoTemplate v))
    (Service.GetTemplate s ctx tenant application code channel locale).
Definition ListTemplates s ctx (tenant application keyword channel status : string)
    (page : option Pb.PageRequest) : IO DB (Result Pb.Response) :=
  let '(page, pageSize) := page_of page in
  reply (λ p, Pb.ListTemplatesResponse (map toProtoTemplate p.(TemplatePage_Templates))
      (page_result p.(TemplatePage_Total) p.(TemplatePage_Page) p.(TemplatePage_PageSize)))
    (Service.ListTemplates s ctx tenant application keyword channel status page pageSize).
Definition Send s ctx (tenant application code channel locale recipient key : string)
    (variables : StringMap) : IO DB (Result Pb.Response) :=
  reply (λ v, Pb.DeliveryResponse (toProtoDelivery v))
    (Service.Send s ctx tenant application code channel locale recipient key variables).
Definition RecordProviderReceipt s ctx (tenant application provider messageID status reason : string)
    : IO DB (Result Pb.Response) :=
  reply (λ v, Pb.DeliveryResponse (toProtoDelivery v))
    (Service.RecordReceipt s ctx tenant application provider messageID status reason).
Definition GetDelivery s ctx (id tenant application : string) : IO DB (Result Pb.Response) :=
  reply (λ v, Pb.DeliveryResponse (toProtoDelivery v))
    (Service.GetDelivery s ctx id tenant application).
Definition ListDeliveries s ctx (tenant application status : string)
    (page : option Pb.PageRequest) : IO DB (Result Pb.Response) :=
  let '(page, pageSize) := page_of page in
  reply (λ p, Pb.ListDeliveriesResponse (map toProtoDelivery p.(Page_Deliveries))
      (page_result p.(Page_Total) p.(Page_Page) p.(Page_PageSize)))
    (Service.ListDeliveries s ctx tenant application status page pageSize).

(** The method that the generated code calls for a request message. *)
Definition handle s (request : Pb.Request) : UnaryHandler DB Pb.Response := λ ctx,
  match request with
  | Pb.PutProviderRequest provider expected => PutProvider s ctx provider expected
  | Pb.GetProviderRequest t a code => GetProvider s ctx t a code
  | Pb.ListProvidersRequest t a keyword channel status page =>
      ListProviders s ctx t a keyword channel status page
  | Pb.PutTemplateRequest template expected => PutTemplate s ctx template expected
  | Pb.GetTemplateRequest t a code channel locale => GetTemplate s ctx t a code channel locale
  | Pb.ListTemplatesRequest t a keyword channel status page =>
      ListTemplates s ctx t a keyword channel status page
  | Pb.SendRequest t a code channel locale recipient key variables =>
      Send s ctx t a code channel locale recipient key variables
  | Pb.RecordProviderReceiptRequest t a provider messageID status reason =>
      RecordProviderReceipt s ctx t a provider messageID status reason
  | Pb.GetDeliveryRequest id t a => GetDelivery s ctx id t a
  | Pb.ListDeliveriesRequest t a status page => ListDeliveries s ctx t a status page
  end.
End Methods.
End NotificationServer.

(** ** The health server *)
Inductive Serving := SERVING | NOT_SERVING.
Module HealthServer.
Definition Check `{Externals} `{DurationText} {DB} (s : HealthService) (ctx : Context)
    : IO DB (Serving * error) :=
  let! (_, ready) := HealthService.Ready s ctx in
  ret (if ready then SERVING else NOT_SERVING, nil_err).
Definition List : gmap string Serving * error := ({[ "" := SERVING ]}, nil_err).
End HealthServer.

(** ** The server *)
Record ServerCredentials := mkServerCredentials {
  Credentials_Certificate : string * string; Credentials_ClientCAs : option string;
  Credentials_RequireClientCert : bool }.
Definition serverCredentials `{TLSFiles} (cfg : GRPCTLS) : option ServerCredentials * error :=
  let certificate := (cfg.(GRPCTLS_CertFile), cfg.(GRPCTLS_KeyFile)) in
  let err := LoadX509KeyPair cfg.(GRPCTLS_CertFile) cfg.(GRPCTLS_KeyFile) in
  if failed err then (None, ErrWrap "load grpc certificate" err) else
  if cfg.(GRPCTLS_ClientCAFile) != "" then
    let '(pem, err) := os_ReadFile cfg.(GRPCTLS_ClientCAFile) in
    if failed err then (None, ErrWrap "read grpc client CA" err) else
    if negb (AppendCertsFromPEM pem) then (None, ErrMsg "parse grpc client CA") else
    (Some (mkServerCredentials certificate (Some pem) true), nil_err)
  else (Some (mkServerCredentials certificate None false), nil_err).

Definition requirement_table `{MethodNames} : list (string * Requirement) := [
  (FullMethodName PutProvider, mkRequirement "notification.provider" "update" ScopePrincipal);
  (FullMethodName GetProvider, mkRequirement "notification.provider" "read" ScopePrincipal);
  (FullMethodName ListProviders, mkRequirement "notification.provider" "list" ScopePrincipal);
  (FullMethodName PutTemplate, mkRequirement "notification.template" "update" ScopePrincipal);
  (FullMethodName GetTemplate, mkRequirement "notification.template" "read" ScopePrincipal);
  (FullMethodName ListTemplates, mkRequirement "notification.template" "list" ScopePrincipal);
  (FullMethodName Send, mkRequirement "notification.delivery" "send" ScopePrincipal);
  (FullMethodName RecordProviderReceipt,
    mkRequirement "notification.receipt" "record" ScopePlatform);
  (FullMethodName GetDelivery, mkRequirement "notification.delivery" "read" ScopePrincipal);
  (FullMethodName ListDeliveries, mkRequirement "notification.delivery" "list" ScopePrincipal)].
Definition notificationGRPCRequirement `{MethodNames} (enabled : bool) (method : string)
    : option Requirement :=
  if negb enabled then None else snd <$> List.find (λ r, r.1 == method) requirement_table.

(** [grpc.ChainUnaryInterceptor]: the first interceptor is the outermost. *)
Definition ChainInterceptor {DB R} (interceptors : list (Interceptor DB R)) : Interceptor DB R :=
  λ info handler, foldr (λ i next, i info next) handler interceptors.

Record GRPCServer DB := mkGRPCServer {
  GRPCServer_unary : list (Interceptor DB Pb.Response);
  GRPCServer_stream : list (Interceptor DB Pb.Response);
  GRPCServer_notifications : NotificationService; GRPCServer_health : HealthService;
  GRPCServer_creds : option ServerCredentials; GRPCServer_MaxRecvMsgSize : Z;
  GRPCServer_reflection : bool; GRPCServer_address : string }.
Arguments mkGRPCServer {DB}.
Arguments GRPCServer_unary {DB}.
Arguments GRPCServer_stream {DB}.
Arguments GRPCServer_notifications {DB}.
Arguments GRPCServer_health {DB}.
Arguments GRPCServer_address {DB}.

Module GRPCServer.
Section Server.
Context `{Externals} `{UnicodeTables} `{LibraryText} `{URLLibrary} `{TemplateLibrary}
  `{JSONLibrary} `{EventLibrary} `{TokenLibrary} `{WebLibrary} `{TLSFiles} `{MethodNames}
  {DB : Type} `{!Repository DB} `{!PlatformInterceptors DB Pb.Response}.

Definition unary_interceptors (cfg : Config) (authService : AuthService)
    (authorizer : Authorizer) (manager : IdempotencyManager) (metrics : bool) (names : option GCode → string)
    : list (Interceptor DB Pb.Response) := [
  Grpc.environmentInterceptor cfg.(Config_Runtime).(Runtime_ActiveProfile);
  Grpc.requestIDInterceptor; Grpc.idempotencyInterceptor; Grpc.recoveryInterceptor;
  Grpc.authInterceptor authService cfg.(Config_Auth);
  platformauthz_UnaryServerInterceptor authorizer
    (notificationGRPCRequirement cfg.(Config_Authorization).(Authorization_Enabled));
  platformidempotency_UnaryServerInterceptor manager
    cfg.(Config_Idempotency).(Idempotency_GRPCMethods);
  Grpc.metricsInterceptor metrics names].
Definition stream_interceptors (cfg : Config) (authService : AuthService) (metrics : bool)
    (names : option GCode → string) : list (Interceptor DB Pb.Response) := [
  GrpcStream.environmentStreamInterceptor cfg.(Config_Runtime).(Runtime_ActiveProfile);
  Grpc.requestIDStreamInterceptor; GrpcStream.idempotencyStreamInterceptor;
  GrpcStream.recoveryStreamInterceptor; GrpcStream.authStreamInterceptor authService cfg.(Config_Auth);
  GrpcStream.metricsStreamInterceptor metrics names].

(** The two services that the server registers are the ones it is given. *)
Definition NewServer (cfg : Config) (authService : AuthService) (authorizer : Authorizer)
    (healthService : HealthService) (notificationService : NotificationService)
    (manager : IdempotencyManager) (metrics : bool) (names : option GCode → string)
    : option (GRPCServer DB) * error :=
  let grpc := cfg.(Config_GRPC) in
  let '(creds, err) :=
    if grpc.(GRPC_TLS).(GRPCTLS_Enabled) then serverCredentials grpc.(GRPC_TLS)
    else (None, nil_err) in
  if failed err then (None, err) else
  (Some {| GRPCServer_unary := unary_interceptors cfg authService authorizer manager metrics names;
           GRPCServer_stream := stream_interceptors cfg authService metrics names;
           GRPCServer_notifications := notificationService;
           GRPCServer_health := healthService; GRPCServer_creds := creds;
           GRPCServer_MaxRecvMsgSize := grpc.(GRPC_MaxReceiveBytes);
           GRPCServer_reflection := grpc.(GRPC_ReflectionEnabled);
           GRPCServer_address := grpc.(GRPC_Address) |}, nil_err).

(** The start hook, over the answer of [net.Listen]. *)
Definition start (enabled : bool) (listen : string → error) (s : GRPCServer DB) : error :=
  if negb enabled then nil_err else
  let err := listen s.(GRPCServer_address) in
  if failed err then ErrWrap "listen grpc" err else nil_err.
(** The stop hook: the graceful stop ends first, or the context does, and then
    the server is stopped at once.  The first component tells whether it was. *)
Definition stop (graceful_first : bool) (ctx_err : error) : bool * error :=
  if graceful_first then (false, nil_err) else (true, ctx_err).

(** A unary call of the registered notification service, with metadata [incoming]. *)
Definition serve (server : GRPCServer DB)
    (incoming : string → list string) (request : Pb.Request) : UnaryHandler DB Pb.Response :=
  ChainInterceptor server.(GRPCServer_unary)
    (mkCallInfo (FullMethodName (method_of request)) incoming)
    (NotificationServer.handle server.(GRPCServer_notifications) request).
End Server.
End GRPCServer.
