(* ===== verification/GrpcSpec.v ===== *)
(** * What the gRPC transport promises

    Which calls reach a method, what the methods answer, and that they make the
    same calls of the service as the HTTP endpoints do. *)

From S2P Require Import Prelude GoStrings Wire AppError Config Connections Reqctx Auth Effects Model Libraries.
From S2P Require Import Repository Service ServiceSpec Calls Web Health Middleware Handlers.
From S2P Require Import HttpServer ChainSpec HttpSpec Grpc.
From Stdlib Require Import Ascii.
Open Scope string_scope.
Open Scope list_scope.
Open Scope Z_scope.
Open Scope go_scope.

(** ** Methods *)
(** The call of the service that a message asks for; [None] when the message lacks
    its provider or template. *)
Definition rpc_request (request : Pb.Request) : option Request :=
  match request with
  | Pb.PutProviderRequest provider expected =>
      (λ p, RPutProvider (NotificationServer.provider_of p) expected) <$> provider
  | Pb.GetProviderRequest t a code => Some (RGetProvider t a code)
  | Pb.ListProvidersRequest t a keyword channel status page =>
      let '(p, n) := NotificationServer.page_of page in
      Some (RListProviders t a keyword channel status p n)
  | Pb.PutTemplateRequest template expected =>
      (λ v, RPutTemplate (NotificationServer.template_of v) expected) <$> template
  | Pb.GetTemplateRequest t a code channel locale => Some (RGetTemplate t a code channel locale)
  | Pb.ListTemplatesRequest t a keyword channel status page =>
      let '(p, n) := NotificationServer.page_of page in
      Some (RListTemplates t a keyword channel status p n)
  | Pb.SendRequest t a code channel locale recipient key variables =>
      Some (RSend t a code channel locale recipient key variables)
  | Pb.RecordProviderReceiptRequest t a provider messageID status reason =>
      Some (RRecordReceipt t a provider messageID status reason)
  | Pb.GetDeliveryRequest id t a => Some (RGetDelivery id t a)
  | Pb.ListDeliveriesRequest t a status page =>
      let '(p, n) := NotificationServer.page_of page in Some (RListDeliveries t a status p n)
  end.

Section Methods.
Context `{Externals} `{UnicodeTables} `{LibraryText} `{URLLibrary} `{TemplateLibrary}
  `{JSONLibrary} `{EventLibrary} `{CodeValues} `{FormLibrary} {DB : Type} `{!Repository DB}.
Implicit Types (s : NotificationService) (ctx : Context) (w : World DB Event).

Definition value_proto (v : Value) : Pb.Response :=
  match v with
  | VProvider v => Pb.ProviderResponse (toProtoProvider v)
  | VTemplate v => Pb.TemplateResponse (toProtoTemplate v)
  | VDelivery v => Pb.DeliveryResponse (NotificationServer.toProtoDelivery v)
  | VProviders p => Pb.ListProvidersResponse (map toProtoProvider p.(ProviderPage_Providers))
      (NotificationServer.page_result p.(ProviderPage_Total) p.(ProviderPage_Page)
        p.(ProviderPage_PageSize))
  | VTemplates p => Pb.ListTemplatesResponse (map toProtoTemplate p.(TemplatePage_Templates))
      (NotificationServer.page_result p.(TemplatePage_Total) p.(TemplatePage_Page)
        p.(TemplatePage_PageSize))
  | VDeliveries p => Pb.ListDeliveriesResponse
      (map NotificationServer.toProtoDelivery p.(Page_Deliveries))
      (NotificationServer.page_result p.(Page_Total) p.(Page_Page) p.(Page_PageSize))
  end.
Definition rpc_result (res : Value * error) : Result Pb.Response :=
  if failed res.2 then Returned None (Some (grpcError res.2))
  else Returned (Some (value_proto res.1)) None.

Lemma reply_spec {A} (body : A → Pb.Response) (m : IO DB (A * error)) w :
  NotificationServer.reply body m w =
    (if failed (m w).1.2 then Returned None (Some (grpcError (m w).1.2))
     else Returned (Some (body (m w).1.1)) None, (m w).2).
Proof.
  unfold NotificationServer.reply, bind. destruct (m w) as [[v err] w'].
  cbn. by destruct (failed err).
Qed.

(** A method is one call of the service, whose error or value is the answer. *)
Lemma handle_spec s request ctx w :
  NotificationServer.handle s request ctx w =
    match rpc_request request with
    | Some r => let '(res, w') := call s ctx r w in (rpc_result res, w')
    | None => (fails InvalidArgument
        (match request with
         | Pb.PutProviderRequest _ _ => "provider is required" | _ => "template is required" end), w)
    end.
Proof.
  destruct request as [[p|] ?| |? ? ? ? ? page|[v|] ?| |? ? ? ? ? page| | | |? ? ? page];
    try destruct (NotificationServer.page_of page) as [p n] eqn:Ep;
    cbn [rpc_request fmap option_fmap option_map call NotificationServer.handle];
    unfold NotificationServer.PutProvider, NotificationServer.GetProvider,
      NotificationServer.ListProviders, NotificationServer.PutTemplate,
      NotificationServer.GetTemplate, NotificationServer.ListTemplates, NotificationServer.Send,
      NotificationServer.RecordProviderReceipt, NotificationServer.GetDelivery,
      NotificationServer.ListDeliveries; try rewrite Ep;
    try reflexivity; rewrite reply_spec; cbn [call]; by rewrite value_of_run.
Qed.

(** C22 The transports agree.  An HTTP endpoint and a gRPC method that are asked for
    the same thing by the same caller in the same world make the same call of the
    service, with the same effects; both succeed, with renderings of the same
    value, or both report the same error. *)
Theorem transports_agree h e c request r w :
  ShouldBindJSON (endpoint_form e) c = (r, nil_err) →
  rpc_request request = Some (endpoint_request e r) →
  ∃ v err w',
    endpoint_handler h e c w = (if failed err then Fail err c else OK (value_json v) c, w') ∧
    NotificationServer.handle h.(Handler_notifications) request c.(gin_ctx) w
      = (if failed err then Returned None (Some (grpcError err))
         else Returned (Some (value_proto v)) None, w').
Proof.
  intros Hb Hr. rewrite handle_spec, Hr. pose proof (endpoint_spec h e c w) as He.
  rewrite Hb in He. cbn in He.
  destruct (call _ _ (endpoint_request e r) w) as [[v err] w']. by exists v, err, w'.
Qed.

(** The status of an error.  A gRPC client is told the class of an application
    error only for six of its codes; rate limits, stale versions, requests in
    progress and timeouts are reported as internal errors, though HTTP gives
    each a status of its own. *)
Theorem grpcError_internal err :
  status_code (grpcError err) = Internal ↔
  match error_as_app err with
  | None => True
  | Some a => a.(app_Code) ∈ [CodeInternal; CodeTooManyRequests; CodeStaleVersion;
                              CodeRequestInProgress; CodeRequestTimeout; CodeOK]
  end.
Proof.
  unfold grpcError. destruct (error_as_app err) as [a|]; [|done]. cbn.
  destruct a as [[] ? ? ?]; cbn; rewrite !elem_of_cons; split; try tauto; try done;
    intros Hc; destruct_or! Hc; try done; by apply not_elem_of_nil in Hc.
Qed.
End Methods.

(** ** Interceptors *)
(** What the service relies on from the platform's interceptors: one asks the
    authorizer for the requirement of the method, if it has one, before it goes
    on; the other touches the tables only through the call it runs. *)
Class PlatformLaws DB R `{!Externals} `{!PlatformInterceptors DB R} := {
  authz_free authorizer resolver info (handler : UnaryHandler DB R) ctx w :
    resolver info.(FullMethod) = None →
    platformauthz_UnaryServerInterceptor authorizer resolver info handler ctx w = handler ctx w;
  authz_enforced authorizer resolver info requirement (handler : UnaryHandler DB R) ctx w :
    resolver info.(FullMethod) = Some requirement →
    platformauthz_UnaryServerInterceptor authorizer resolver info handler ctx w =
      (let! err := Http.Enforce authorizer ctx requirement in
       if failed err then ret (Returned None (Some (platformauthz_refusal (DB := DB) (R := R) err)))
       else handler ctx) w;
  idempotency_wraps manager methods info (handler : UnaryHandler DB R)
    (P : DB → DB → Prop) `{!Reflexive P} :
    (∀ ctx, changes P (handler ctx)) →
    ∀ ctx, changes P (platformidempotency_UnaryServerInterceptor manager methods info handler ctx);
  idempotency_forwards manager methods info (handler handler' : UnaryHandler DB R) ctx w :
    (∀ w', handler ctx w' = handler' ctx w') →
    platformidempotency_UnaryServerInterceptor manager methods info handler ctx w
      = platformidempotency_UnaryServerInterceptor manager methods info handler' ctx w }.

Section Interceptors.
Context `{Externals} `{TokenLibrary} `{WebLibrary} {DB R : Type}.
Implicit Types (ctx : Context) (info : CallInfo) (handler : UnaryHandler DB R).

(** The interceptor touches the tables only through the rest of its chain. *)
Definition gwraps (i : Interceptor DB R) : Prop :=
  ∀ (P : DB → DB → Prop), Reflexive P → ∀ info handler,
    (∀ ctx, changes P (handler ctx)) → ∀ ctx, changes P (i info handler ctx).
(** From contexts in [P] it hands on only contexts in [Q]. *)
Definition gonly info (P Q : Context → Prop) (i : Interceptor DB R) : Prop :=
  ∀ handler handler', (∀ ctx w, Q ctx → handler ctx w = handler' ctx w) →
  ∀ ctx w, P ctx → i info handler ctx w = i info handler' ctx w.

Lemma gwraps_chain (l : list (Interceptor DB R)) : Forall gwraps l → gwraps (ChainInterceptor l).
Proof.
  induction 1 as [|i l Hi _ IH]; intros P HP info handler Hh; [exact Hh|].
  apply Hi; [done|]. by apply IH.
Qed.
Lemma gonly_nil info (P : Context → Prop) : gonly info P P (ChainInterceptor []).
Proof. intros handler handler' Hh ctx w HP. by apply Hh. Qed.
Lemma gonly_chain info (P Q S : Context → Prop) (i : Interceptor DB R) l :
  gonly info P Q i → gonly info Q S (ChainInterceptor l) → gonly info P S (ChainInterceptor (i :: l)).
Proof. intros Hi Hl handler handler' Hh. apply Hi. by apply Hl. Qed.

Lemma environment_gwraps profile : gwraps (Grpc.environmentInterceptor profile).
Proof. intros P HP info handler Hh ctx. apply Hh. Qed.
Lemma requestID_gwraps : gwraps Grpc.requestIDInterceptor.
Proof.
  intros P HP info handler Hh ctx. unfold Grpc.requestIDInterceptor. cbv zeta.
  apply changes_after; [apply keeps_if; [apply keeps_generate|apply keeps_ret]|].
  intros id. apply changes_after; [apply keeps_emit|]. intros _. apply Hh.
Qed.
Lemma idempotency_gwraps : gwraps Grpc.idempotencyInterceptor.
Proof.
  intros P HP info handler Hh ctx. unfold Grpc.idempotencyInterceptor.
  destruct (Incoming info _) as [|value values]; [apply Hh|].
  destruct (negb _); [by apply changes_ret|apply Hh].
Qed.
Lemma recovery_gwraps : gwraps Grpc.recoveryInterceptor.
Proof.
  intros P HP info handler Hh ctx. apply changes_before; [apply Hh|]. by intros [].
Qed.
Lemma auth_gwraps service cfg : gwraps (Grpc.authInterceptor service cfg).
Proof.
  intros P HP info handler Hh ctx. unfold Grpc.authInterceptor.
  destruct (Grpc.authenticateGRPC _ _ _ _) as [authCtx [status|]]; [by apply changes_ret|apply Hh].
Qed.
Lemma metrics_gwraps enabled names : gwraps (Grpc.metricsInterceptor enabled names).
Proof.
  intros P HP info handler Hh ctx. apply changes_before; [apply Hh|]. intros []; [|done].
  by destruct enabled.
Qed.

Definition anyone (ctx : Context) : Prop := True.
Lemma environment_gonly info profile : gonly info anyone anyone (Grpc.environmentInterceptor profile).
Proof. intros handler handler' Hh ctx w _. by apply Hh. Qed.
Lemma requestID_gonly info : gonly info anyone anyone Grpc.requestIDInterceptor.
Proof.
  intros handler handler' Hh ctx w _. unfold Grpc.requestIDInterceptor. cbv zeta.
  apply bind_cong. intros id w' _. apply bind_cong. intros [] w1 _. by apply Hh.
Qed.
Lemma idempotency_gonly info : gonly info anyone anyone Grpc.idempotencyInterceptor.
Proof.
  intros handler handler' Hh ctx w _. unfold Grpc.idempotencyInterceptor.
  destruct (Incoming info _) as [|value values]; [by apply Hh|].
  destruct (negb _); [done|by apply Hh].
Qed.
Lemma recovery_gonly info (Q : Context → Prop) : gonly info Q Q Grpc.recoveryInterceptor.
Proof.
  intros handler handler' Hh ctx w HQ. unfold Grpc.recoveryInterceptor, bind. by rewrite Hh.
Qed.
Lemma metrics_gonly info (Q : Context → Prop) enabled names :
  gonly info Q Q (Grpc.metricsInterceptor enabled names).
Proof.
  intros handler handler' Hh ctx w HQ. unfold Grpc.metricsInterceptor, bind. by rewrite Hh.
Qed.

(** Who a call that got past [authInterceptor] is: on a method that takes the
    pre-shared key the one who has it, elsewhere the one whom a verified bearer
    token names.  Only for a method that the configuration exempts, by a pattern of
    [skip_grpc_methods], is no credential looked at. *)
Definition gby_psk (cfg : Auth) (method : string) : bool :=
  cfg.(Auth_PSK).(PSK_Enabled) && MatchesAny method cfg.(Auth_PSK).(PSK_GRPCMethods).
Definition gexempt (cfg : Auth) (method : string) : bool :=
  negb (gby_psk cfg method) && MatchesAny method cfg.(Auth_SkipGRPCMethods).
Definition gauthenticated (service : AuthService) (cfg : Auth) info ctx : Prop :=
  if gby_psk cfg info.(FullMethod) then
    Caller.FromContext ctx = Some Http.psk_principal ∧
    ∃ value values, info.(Incoming) "authorization" = value :: values ∧
      VerifyPSK value cfg.(Auth_PSK).(PSK_Key) = true
  else
    ∃ p value values scheme raw, Caller.FromContext ctx = Some p ∧
      info.(Incoming) "authorization" = value :: values ∧ Cut value " " = (scheme, raw, true) ∧
      EqualFold scheme "Bearer" = true ∧ AuthService.Verify service raw = (p, nil_err).
Lemma auth_gonly info service cfg :
  gonly info anyone
    (λ ctx, gexempt cfg info.(FullMethod) = true ∨ gauthenticated service cfg info ctx)
    (Grpc.authInterceptor service cfg).
Proof.
  intros handler handler' Hh ctx w _. unfold Grpc.authInterceptor.
  destruct (Grpc.authenticateGRPC ctx info service cfg) as [authCtx [status|]] eqn:E; [done|].
  apply Hh. unfold gexempt, gauthenticated, gby_psk. unfold Grpc.authenticateGRPC in E.
  cbv zeta in E. destruct (_ && _).
  { right. destruct (Incoming info _) as [|value values]; [discriminate E|].
    destruct (VerifyPSK value _) eqn:Ev; [|discriminate E]. injection E as <-.
    split; [done|]. by exists value, values. }
  destruct (MatchesAny _ (Auth_SkipGRPCMethods cfg)); [by left|]. right.
  destruct (Incoming info _) as [|value values]; [discriminate E|].
  destruct (Cut value _) as [[scheme raw] ok] eqn:Ec. destruct (_ || _) eqn:Eb; [discriminate E|].
  destruct (AuthService.Verify service raw) as [p err] eqn:Ev.
  destruct (failed err) eqn:Ef; [discriminate E|]. injection E as <-.
  apply failed_nil in Ef as ->. bools. destruct Eb as [-> Hs].
  by exists p, value, values, scheme, raw.
Qed.
End Interceptors.

Section Server.
Context `{Externals} `{UnicodeTables} `{LibraryText} `{URLLibrary} `{TemplateLibrary}
  `{JSONLibrary} `{EventLibrary} `{TokenLibrary} `{WebLibrary} `{TLSFiles} `{MethodNames}
  {DB : Type} `{!Repository DB} `{!PlatformInterceptors DB Pb.Response}
  `{!PlatformLaws DB Pb.Response}.
Implicit Types (ctx : Context) (info : CallInfo) (handler : UnaryHandler DB Pb.Response).

Lemma authz_gwraps authorizer resolver :
  gwraps (DB := DB) (R := Pb.Response) (platformauthz_UnaryServerInterceptor authorizer resolver).
Proof.
  intros P HP info handler Hh ctx w. destruct (resolver info.(FullMethod)) as [r|] eqn:Er.
  - rewrite (authz_enforced authorizer resolver info r handler ctx w Er).
    apply changes_after; [apply keeps_call|]. intros err. by destruct (failed err); [apply changes_ret|].
  - rewrite authz_free by done. apply Hh.
Qed.
Lemma authz_gonly info authorizer resolver (Q : Context → Prop) :
  gonly (DB := DB) (R := Pb.Response) info Q
    (λ ctx, Q ctx ∧ ∀ r, resolver info.(FullMethod) = Some r → ∃ n, ext_enforce n authorizer ctx r = nil_err)
    (platformauthz_UnaryServerInterceptor authorizer resolver).
Proof.
  intros handler handler' Hh ctx w HQ. destruct (resolver info.(FullMethod)) as [r|] eqn:Er.
  - rewrite !(authz_enforced authorizer resolver info r) by done.
    unfold Http.Enforce, bind, emit, tick, ret. destruct w. cbn.
    destruct (failed _) eqn:Ef; [done|]. apply failed_nil in Ef.
    apply Hh. split; [done|]. intros r' Hr. injection Hr as <-. by eexists.
  - rewrite !authz_free by done. apply Hh. by split.
Qed.
Lemma platform_idempotency_gwraps manager methods :
  gwraps (DB := DB) (R := Pb.Response) (platformidempotency_UnaryServerInterceptor manager methods).
Proof. intros P HP info handler Hh. by apply idempotency_wraps. Qed.
Lemma platform_idempotency_gonly info manager methods (Q : Context → Prop) :
  gonly (DB := DB) (R := Pb.Response) info Q Q
    (platformidempotency_UnaryServerInterceptor manager methods).
Proof. intros handler handler' Hh ctx w HQ. apply idempotency_forwards. intros w'. by apply Hh. Qed.

#[local] Hint Resolve Forall_cons_2 Forall_nil_2 environment_gwraps requestID_gwraps
  idempotency_gwraps recovery_gwraps auth_gwraps metrics_gwraps authz_gwraps
  platform_idempotency_gwraps : chain.
Lemma unary_gwraps cfg service authorizer manager metrics names :
  Forall (gwraps (DB := DB)) (GRPCServer.unary_interceptors cfg service authorizer manager metrics names).
Proof. unfold GRPCServer.unary_interceptors. auto 20 with chain. Qed.

(** The permission that a method needs. *)
Definition method_requirement (m : Method) : Requirement :=
  match m with
  | PutProvider => mkRequirement "notification.provider" "update" ScopePrincipal
  | GetProvider => mkRequirement "notification.provider" "read" ScopePrincipal
  | ListProviders => mkRequirement "notification.provider" "list" ScopePrincipal
  | PutTemplate => mkRequirement "notification.template" "update" ScopePrincipal
  | GetTemplate => mkRequirement "notification.template" "read" ScopePrincipal
  | ListTemplates => mkRequirement "notification.template" "list" ScopePrincipal
  | Send => mkRequirement "notification.delivery" "send" ScopePrincipal
  | RecordProviderReceipt => mkRequirement "notification.receipt" "record" ScopePlatform
  | GetDelivery => mkRequirement "notification.delivery" "read" ScopePrincipal
  | ListDeliveries => mkRequirement "notification.delivery" "list" ScopePrincipal
  end.
Lemma method_required m :
  Inj (=) (=) FullMethodName →
  notificationGRPCRequirement true (FullMethodName m) = Some (method_requirement m).
Proof.
  intros Hinj. unfold notificationGRPCRequirement, requirement_table.
  assert (∀ m', (FullMethodName m' == FullMethodName m) = bool_decide (m' = m)) as Hb.
  { intros m'. apply bool_decide_ext. split; [apply Hinj|congruence]. }
  cbn. rewrite !Hb. by destruct m.
Qed.

(** C14 Every gRPC method is guarded.  Unless a pattern of [skip_grpc_methods] exempts
    the method, where no credential is looked at, a handler behind the server's
    interceptors is only ever run for a caller whom the call's credentials name (the
    pre-shared key where the method takes it, else a verified bearer token); and for
    every method, exempt or not, only when authorization is off or the server's
    authorizer granted the permission of the method. *)
Theorem method_guarded cfg service authorizer manager metrics names (f g : UnaryHandler DB Pb.Response)
    m incoming ctx w :
  Inj (=) (=) FullMethodName →
  let info := mkCallInfo (FullMethodName m) incoming in
  (∀ ctx' w',
    gexempt cfg.(Config_Auth) info.(FullMethod) = true ∨
      gauthenticated service cfg.(Config_Auth) info ctx' →
    (cfg.(Config_Authorization).(Authorization_Enabled) = true →
      ∃ n, ext_enforce n authorizer ctx' (method_requirement m) = nil_err) →
    f ctx' w' = g ctx' w') →
  let chain := ChainInterceptor (GRPCServer.unary_interceptors cfg service authorizer manager metrics names) in
  chain info f ctx w = chain info g ctx w.
Proof.
  intros Hinj info Hfg chain. unfold chain, GRPCServer.unary_interceptors.
  set (Q := λ ctx', (gexempt cfg.(Config_Auth) info.(FullMethod) = true ∨
      gauthenticated service cfg.(Config_Auth) info ctx') ∧
    ∀ r, notificationGRPCRequirement cfg.(Config_Authorization).(Authorization_Enabled)
           info.(FullMethod) = Some r → ∃ n, ext_enforce n authorizer ctx' r = nil_err).
  enough (gonly info anyone Q (ChainInterceptor
    (GRPCServer.unary_interceptors cfg service authorizer manager metrics names))) as Ho.
  { apply Ho; [|done]. intros ctx' w' [Ha Hr]. apply Hfg; [done|]. intros He. apply Hr.
    rewrite He. by apply method_required. }
  unfold GRPCServer.unary_interceptors.
  eapply gonly_chain; [apply environment_gonly|]. eapply gonly_chain; [apply requestID_gonly|].
  eapply gonly_chain; [apply idempotency_gonly|]. eapply gonly_chain; [apply recovery_gonly|].
  eapply gonly_chain; [apply auth_gonly|]. eapply gonly_chain; [apply authz_gonly|].
  apply (gonly_chain _ _ Q); [apply platform_idempotency_gonly|].
  apply (gonly_chain _ _ Q); [apply metrics_gonly|]. apply gonly_nil.
Qed.
End Server.
