(* ===== verification/Failures.v ===== *)
(** * What a client is told of a failure

    The contract of the API's failures: each thing that a client can be told, with its
    code, its HTTP status and its gRPC status.  Whatever the database, the application
    verifier, the rate limiter and the encoders answer, a failed call of the service is
    one of these rows and shows nothing of its cause. *)

From S2P Require Import Prelude GoStrings Wire AppError Config Connections Reqctx Auth Effects Ratelimit Model.
From S2P Require Import Libraries Database Repository Service ServiceSpec Calls Web Health.
From S2P Require Import Middleware Handlers HttpServer ChainSpec HttpSpec Grpc GrpcSpec.
Open Scope string_scope.
Open Scope list_scope.
Open Scope Z_scope.
Open Scope go_scope.

(** ** The contract *)
Record Row := mkRow { row_code : Code; row_http : Z; row_grpc : GCode; row_message : string }.
#[export] Instance Row_eq_dec : EqDecision Row.
Proof. solve_decision. Defined.

Definition contract : list Row := [
  mkRow CodeInvalidArgument 400 InvalidArgument "tenant_id and application_id are required";
  mkRow CodeInvalidArgument 400 InvalidArgument "tenant_id, application_id and code are required";
  mkRow CodeInvalidArgument 400 InvalidArgument "invalid notification provider";
  mkRow CodeInvalidArgument 400 InvalidArgument "notification provider upstream is not configured";
  mkRow CodeInvalidArgument 400 InvalidArgument "invalid notification channel";
  mkRow CodeInvalidArgument 400 InvalidArgument "invalid notification provider status";
  mkRow CodeInvalidArgument 400 InvalidArgument "page_size must not exceed 100";
  mkRow CodeInvalidArgument 400 InvalidArgument "invalid notification template";
  mkRow CodeInvalidArgument 400 InvalidArgument "invalid template syntax";
  mkRow CodeInvalidArgument 400 InvalidArgument "invalid notification template identity";
  mkRow CodeInvalidArgument 400 InvalidArgument "invalid notification request";
  mkRow CodeInvalidArgument 400 InvalidArgument "invalid variables";
  mkRow CodeInvalidArgument 400 InvalidArgument "invalid provider receipt";
  mkRow CodeUnauthorized 401 Unauthenticated "authenticated actor is required";
  mkRow CodeForbidden 403 PermissionDenied "tenant access denied";
  mkRow CodeForbidden 403 PermissionDenied "application access denied";
  mkRow CodeForbidden 403 PermissionDenied "notification provider access denied";
  mkRow CodeForbidden 403 PermissionDenied "notification template access denied";
  mkRow CodeNotFound 404 NotFound "notification resource not found";
  mkRow CodeConflict 409 Aborted "notification provider version conflict";
  mkRow CodeConflict 409 Aborted "notification template is disabled";
  mkRow CodeConflict 409 Aborted "delivery already has a terminal status";
  mkRow CodeStaleVersion 409 Internal "resource version is stale";
  mkRow CodeTooManyRequests 429 Internal "too many requests";
  mkRow CodeDependencyUnavailable 503 Unavailable "application access verification unavailable";
  mkRow CodeDependencyUnavailable 503 Unavailable "notification frequency limiter unavailable";
  mkRow CodeInternal 500 Internal "internal server error" ].

(** [err] is told to a client as the row is. *)
Definition tells (err : error) (row : Row) : Prop :=
  ∃ cause, err = ErrApp row.(row_code) row.(row_message) row.(row_http) cause ∧
  grpc_code row.(row_code) = row.(row_grpc).
Definition listed (err : error) : Prop := err = nil_err ∨ ∃ row, row ∈ contract ∧ tells err row.

Lemma listed_app c m s cause :
  bool_decide (mkRow c s (grpc_code c) m ∈ contract) = true → listed (ErrApp c m s cause).
Proof. intros H%bool_decide_eq_true. right. eexists. split; [done|]. by exists cause. Qed.
Lemma listed_nil : listed nil_err.
Proof. by left. Qed.
Create HintDb contract.
#[export] Hint Resolve listed_nil : contract.
#[export] Hint Extern 1 (listed _) => (apply listed_app; vm_compute; reflexivity) : contract.

Lemma listed_translate err : listed (translate err).
Proof.
  unfold translate. destruct (is_nil err); [auto with contract|].
  destruct (error_is err ErrNotFound); [auto with contract|].
  destruct (error_is err ErrStaleVersion); auto with contract.
Qed.
Lemma listed_tenant `{UnicodeTables} caller tenant : listed (enforceTenant caller tenant).
Proof. unfold enforceTenant. destruct (_ && _); auto with contract. Qed.
#[export] Hint Resolve listed_translate listed_tenant : contract.

(** ** Computations that end with a listed error *)
Section Service.
Context `{Externals} `{UnicodeTables} `{LibraryText} `{URLLibrary} `{TemplateLibrary}
  `{JSONLibrary} `{EventLibrary} {DB : Type} `{!Repository DB}.
Implicit Types (s : NotificationService) (ctx : Context).

Definition ends {A} (P : A → Prop) (m : IO DB A) : Prop := ∀ w, P (m w).1.
Lemma ends_ret {A} (P : A → Prop) (x : A) : P x → ends P (ret x).
Proof. by intros ? w. Qed.
Lemma ends_bind {A B} (Q : A → Prop) (P : B → Prop) (m : IO DB A) (k : A → IO DB B) :
  ends Q m → (∀ x, Q x → ends P (k x)) → ends P (bind m k).
Proof. intros Hm Hk w. unfold bind. specialize (Hm w). destruct (m w) as [x w1]. by apply Hk. Qed.
Lemma ends_any {A} (m : IO DB A) : ends (λ _, True) m.
Proof. done. Qed.
Abbreviation results := (ends (λ r, listed r.2)).

Ltac ends_listed := apply ends_ret; cbn; auto with contract.

Lemma listed_verifyApplication s tenant application :
  ends listed (Service.verifyApplication s tenant application).
Proof.
  unfold Service.verifyApplication. destruct (_ || _); [ends_listed|].
  eapply ends_bind; [apply ends_any|]. intros err _.
  destruct (failed err); [destruct (error_is err _)|]; ends_listed.
Qed.
Lemma listed_checkFrequency s t a code channel recipient :
  ends listed (Service.checkFrequency s t a code channel recipient).
Proof.
  unfold Service.checkFrequency. destruct (Service_limiter s) as [limiter|]; [|ends_listed].
  destruct (negb _); [ends_listed|].
  generalize (Service.frequency_checks s t a code channel recipient). intros checks.
  induction checks as [|[key rule] checks IH]; cbn [Service.run_checks]; [ends_listed|].
  eapply ends_bind; [apply ends_any|]. intros [result err] _.
  destruct (failed err); [destruct (Limiter.FailOpen limiter)|destruct (negb _)];
    first [done | ends_listed].
Qed.

(** Follows a method: what a guard asks and what a library answers is arbitrary, but
    for the errors that the checks above return. *)
Ltac follow :=
  repeat match goal with
  | |- ends _ (ret _) => ends_listed
  | |- ends _ (bind (Service.verifyApplication _ _ _) _) =>
      eapply ends_bind; [apply listed_verifyApplication|intros ? ?]
  | |- ends _ (bind (Service.checkFrequency _ _ _ _ _ _) _) =>
      eapply ends_bind; [apply listed_checkFrequency|intros ? ?]
  | |- ends _ (bind _ _) => eapply ends_bind; [apply ends_any|intros ? _]
  | |- ends _ (let '(_, _) := ?x in _) => destruct x
  | |- ends _ (match ?x with _ => _ end) => destruct x
  end.

Lemma listed_call s ctx r : results (call s ctx r).
Proof.
  assert (∀ A (f : A → Value) (m : IO DB (A * error)), results m → results (value_of f m)) as Hv.
  { intros A f m Hm w. rewrite value_of_run. exact (Hm w). }
  destruct r; cbn [call]; apply Hv.
  - unfold Service.PutProvider; follow.
  - unfold Service.GetProvider; follow.
  - unfold Service.ListProviders; follow.
  - unfold Service.PutTemplate; follow.
  - unfold Service.GetTemplate; follow.
  - unfold Service.ListTemplates; follow.
  - unfold Service.Send; follow.
  - unfold Service.GetDelivery; follow.
  - unfold Service.RecordReceipt, Service.write_receipt; follow.
  - unfold Service.ListDeliveries; follow.
Qed.
End Service.

(** ** What the transports answer *)
(** The messages that are refused before the service is asked. *)
Definition unreadable : list Row := [
  mkRow CodeInvalidArgument 400 InvalidArgument "invalid request body";
  mkRow CodeInvalidArgument 400 InvalidArgument "invalid json request"].
Definition incomplete : list Row := [
  mkRow CodeInvalidArgument 400 InvalidArgument "provider is required";
  mkRow CodeInvalidArgument 400 InvalidArgument "template is required"].

Section Answers.
Context `{Externals} `{UnicodeTables} `{LibraryText} `{URLLibrary} `{TemplateLibrary}
  `{JSONLibrary} `{EventLibrary} `{CodeValues} `{FormLibrary} {DB : Type} `{!Repository DB}.
Implicit Types (h : HTTPHandler) (s : NotificationService) (c : Gin) (w : World DB Event).

(** The two renderings of a row. *)
Definition http_answer (row : Row) c : Gin :=
  AbortWithStatusJSON row.(row_http) (unified row.(row_code) row.(row_message) JNull c) c.
Definition grpc_answer {R} (row : Row) : Result R :=
  Returned None (Some (mkGStatus row.(row_grpc) row.(row_message))).

Lemma Fail_tells err row c : tells err row → Fail err c = http_answer row c.
Proof. by intros (cause & -> & _). Qed.
Lemma grpcError_tells err row {R} :
  tells err row → Returned None (Some (grpcError err)) = grpc_answer (R := R) row.
Proof. intros (cause & -> & Hg). unfold grpc_answer, grpcError. cbn. by rewrite Hg. Qed.

Lemma answered s ctx r w : ∃ v err w', call s ctx r w = ((v, err), w') ∧ listed err.
Proof.
  pose proof (listed_call s ctx r w) as Hl. destruct (call s ctx r w) as [[v err] w']. by exists v, err, w'.
Qed.
(** How a result is answered, on both transports. *)
Lemma answers_listed v err :
  listed err →
  (err = nil_err ∧ ∃ reply, rpc_result (v, err) = Returned (Some reply) None) ∨
  ∃ row, row ∈ contract ∧ failed err = true ∧ (∀ c, Fail err c = http_answer row c) ∧
  rpc_result (v, err) = grpc_answer row.
Proof.
  intros [->|(row & Hr & Ht)]; [left; by eauto|right]. exists row. split; [done|].
  assert (failed err = true) as Hf by (by destruct Ht as (cause & -> & _)). split; [done|].
  split; [intros; by apply Fail_tells|]. unfold rpc_result. cbn. rewrite Hf. by apply grpcError_tells.
Qed.

(** C17 The contract of failures.  Whatever the request and whatever the database, the
    application verifier, the rate limiter and the encoders answer, a notification
    endpoint succeeds or answers a row of the contract with its status, code and message
    and no body, and a method of the gRPC service succeeds or ends with a row's status
    and message: nothing else of an error reaches a client.  When both are asked for the
    same thing in the same world they fail with the same row. *)
Theorem failures_contract h :
  (∀ e c w, ∃ w', (∃ body, endpoint_handler h e c w = (OK body c, w')) ∨
     ∃ row, row ∈ unreadable ++ contract ∧ endpoint_handler h e c w = (http_answer row c, w')) ∧
  (∀ request ctx w, ∃ w',
     (∃ reply, NotificationServer.handle h.(Handler_notifications) request ctx w
        = (Returned (Some reply) None, w')) ∨
     ∃ row, row ∈ incomplete ++ contract ∧
       NotificationServer.handle h.(Handler_notifications) request ctx w = (grpc_answer row, w')) ∧
  (∀ e c request r w, ShouldBindJSON (endpoint_form e) c = (r, nil_err) →
     rpc_request request = Some (endpoint_request e r) → ∃ w',
     (∃ body reply, endpoint_handler h e c w = (OK body c, w') ∧
       NotificationServer.handle h.(Handler_notifications) request c.(gin_ctx) w
         = (Returned (Some reply) None, w')) ∨
     ∃ row, row ∈ contract ∧ endpoint_handler h e c w = (http_answer row c, w') ∧
       NotificationServer.handle h.(Handler_notifications) request c.(gin_ctx) w
         = (grpc_answer row, w')).
Proof.
  split; [|split].
  - intros e c w. pose proof (endpoint_spec h e c w) as He. destruct (ShouldBindJSON _ c) as [r err].
    destruct (failed err).
    + destruct He as (message & Hm & ->). exists w. right.
      exists (mkRow CodeInvalidArgument 400 InvalidArgument message). split; [|done].
      rewrite !elem_of_cons in Hm. destruct Hm as [->|[->|[]%elem_of_nil]]; by apply (bool_decide_unpack _).
    + destruct (answered h.(Handler_notifications) c.(gin_ctx) (endpoint_request e r) w)
        as (v & answer & w' & E & Hl). rewrite E in He. exists w'. rewrite He.
      destruct (answers_listed v answer Hl) as [(-> & _)|(row & Hr & -> & -> & _)]; [left; by eexists|].
      right. exists row. split; [apply elem_of_app; by right|done].
  - intros request ctx w. rewrite handle_spec. destruct (rpc_request request) as [r|] eqn:Er.
    + destruct (answered h.(Handler_notifications) ctx r w) as (v & answer & w' & -> & Hl). exists w'.
      destruct (answers_listed v answer Hl) as [(_ & reply & ->)|(row & Hr & _ & _ & ->)]; [left; by eexists|].
      right. exists row. split; [apply elem_of_app; by right|done].
    + exists w. right. destruct request; try discriminate Er;
        (eexists (mkRow CodeInvalidArgument 400 InvalidArgument _);
         split; [|reflexivity]; by apply (bool_decide_unpack _)).
  - intros e c request r w Hb Hr. pose proof (endpoint_spec h e c w) as He.
    rewrite Hb in He. cbn [failed is_nil negb] in He.
    rewrite handle_spec, Hr.
    destruct (answered h.(Handler_notifications) c.(gin_ctx) (endpoint_request e r) w)
      as (v & answer & w' & E & Hl). rewrite E in He |- *. exists w'. rewrite He.
    destruct (answers_listed v answer Hl) as [(-> & reply & ->)|(row & Hi & -> & -> & ->)].
    { left. by do 2 eexists. }
    right. by exists row.
Qed.
End Answers.
