(* ===== verification/TransportSpec.v ===== *)
(** * The whole system: executions through the transports

    Requests come in over HTTP or gRPC, through the chains of the servers, and
    interleave with the dispatchers, the cleaner and crashes.  Serving one is one
    transaction of the delivery system of System.v. *)

From S2P Require Import Prelude GoStrings Wire AppError Config Connections Reqctx Auth Effects Ratelimit Model.
From S2P Require Import Libraries Database Repository Unique Service ServiceSpec ServiceAdmin.
From S2P Require Import Outbound Dispatcher DispatcherSpec Cleanup System SystemSpec.
From S2P Require Import Calls Web Health Middleware Handlers HttpServer ChainSpec HttpSpec.
From S2P Require Import Grpc GrpcSpec.
Open Scope string_scope.
Open Scope list_scope.
Open Scope Z_scope.
Open Scope go_scope.

(** One instance of the program: its configuration and the components that its
    two servers are built from. *)
Record Process := mkProcess {
  Process_config : Config; Process_handler : HTTPHandler; Process_auth : AuthService;
  Process_authorizer : Authorizer; Process_limiter : Limiter; Process_manager : IdempotencyManager; Process_metrics : bool;
  Process_build : Build }.

Section Transports.
Context `{Externals} `{UnicodeTables} `{LibraryText} `{URLLibrary} `{TemplateLibrary}
  `{JSONLibrary} `{EventLibrary} `{GoArch} `{GoFmt} `{DialectLaws} `{TokenLibrary} `{CodeValues}
  `{WebLibrary} `{FormLibrary} `{DurationText} `{TLSFiles} `{MethodNames} {DB : Type}
  `{!Repository DB} `{!RepositoryView DB} `{!RepositoryLaws DB} `{!GinLibrary DB} `{!GinLaws DB}
  `{!PlatformInterceptors DB Pb.Response} `{!PlatformLaws DB Pb.Response}.
Implicit Types (i : Process) (c : Gin) (w : World DB Event).

Definition http_routes i : list (Route DB) :=
  Server.operations i.(Process_config) i.(Process_handler) i.(Process_auth) i.(Process_metrics)
  ++ Server.api_routes i.(Process_handler) i.(Process_build)
       (Server.api i.(Process_config) i.(Process_auth) i.(Process_authorizer) i.(Process_limiter)
         i.(Process_manager)).
(** What happens to a request that gin matched to the [n]-th route. *)
Definition http_serve i (n : nat) : Handler DB := λ c,
  match http_routes i !! n with
  | Some route =>
      chain (Server.global i.(Process_config) i.(Process_metrics) ++ route.(Route_group))
        route.(Route_handler) c
  | None => ret c
  end.
Lemma http_serve_server i server n route c :
  Server.NewServer i.(Process_config) i.(Process_handler) i.(Process_auth) i.(Process_authorizer)
    i.(Process_limiter) i.(Process_manager) i.(Process_metrics) i.(Process_build) = (Some server, nil_err) →
  server.(Server_routes) !! n = Some route → http_serve i n c = Server.serve server route c.
Proof.
  unfold Server.NewServer. destruct (failed _); [done|]. intros [= <-] Hn.
  unfold http_serve. change (http_routes i !! n = Some route) in Hn. by rewrite Hn.
Qed.
Definition grpc_serve i (names : option GCode → string) (incoming : string → list string)
    (request : Pb.Request) : UnaryHandler DB Pb.Response :=
  ChainInterceptor (GRPCServer.unary_interceptors i.(Process_config) i.(Process_auth)
      i.(Process_authorizer) i.(Process_manager) i.(Process_metrics) names)
    (mkCallInfo (FullMethodName (method_of request)) incoming)
    (NotificationServer.handle i.(Process_handler).(Handler_notifications) request).

(** ** One request is one transaction *)
Variable d : Dispatcher.
Abbreviation cfg := d.(Dispatcher_cfg).

Definition one_transaction (tasks : list Delivery.t) (db db' : DB) : Prop :=
  unique_tables (view db) → transact d (mkSys (view db) tasks []) (mkSys (view db') tasks []).
#[local] Instance one_transaction_refl tasks : Reflexive (one_transaction tasks).
Proof. intros db _. by apply transact_same. Qed.

Lemma call_transaction tasks s ctx r : changes (one_transaction tasks) (call s ctx r).
Proof.
  intros w Hu. pose proof (call_run_request s ctx r w) as E.
  eapply run_request_transact; [|exact Hu|exact E]. intros n. constructor.
Qed.
Lemma endpoint_transaction tasks h e c : changes (one_transaction tasks) (endpoint_handler h e c).
Proof.
  intros w. pose proof (endpoint_spec h e c w) as He.
  destruct (ShouldBindJSON _ c) as [r err]. destruct (failed err).
  - destruct He as (message & _ & ->). reflexivity.
  - pose proof (call_transaction tasks h.(Handler_notifications) c.(gin_ctx) (endpoint_request e r) w) as Hc.
    destruct (call _ _ _ w) as [[v answer] w']. by rewrite He.
Qed.
Lemma handle_transaction tasks s request ctx :
  changes (one_transaction tasks) (NotificationServer.handle s request ctx).
Proof.
  intros w. rewrite handle_spec. destruct (rpc_request request) as [r|]; [|reflexivity].
  pose proof (call_transaction tasks s ctx r w) as Hc. by destruct (call s ctx r w) as [res w'].
Qed.

(** The routes beside the endpoints touch no table, and the groups of all routes
    are made of the program's middlewares. *)
Definition quiet_or_endpoint h (route : Route DB) : Prop :=
  Forall wraps route.(Route_group) ∧
  ((∀ c, keeps_db (route.(Route_handler) c)) ∨ ∃ e, route.(Route_handler) = endpoint_handler h e).
Lemma get_quiet h path group name :
  Forall wraps group → quiet_or_endpoint h (Server.get path group (foreign name)).
Proof. intros Hg. split; [exact Hg|left]. apply foreign_keeps. Qed.
Lemma post_quiet h path group name :
  Forall wraps group → quiet_or_endpoint h (Server.post path group (foreign name)).
Proof. intros Hg. split; [exact Hg|left]. apply foreign_keeps. Qed.
#[local] Hint Resolve get_quiet post_quiet : chain.
Lemma operations_known i :
  Forall (quiet_or_endpoint i.(Process_handler))
    (Server.operations i.(Process_config) i.(Process_handler) i.(Process_auth)
      i.(Process_metrics)).
Proof.
  unfold Server.operations. cbv zeta. apply Forall_app_2; [|apply Forall_app_2; [|apply Forall_app_2]].
  - apply Forall_cons_2; [|apply Forall_cons_2; [|by apply Forall_nil_2]];
      (split; [by apply Forall_nil_2|left; intros c]).
    + apply keeps_ret.
    + cbn [Route_handler]. unfold Handler.Ready. apply keeps_bind; [apply Ready_keeps|].
      intros [status ready]. by destruct ready.
  - destruct (Process_metrics i); auto with chain.
  - destruct (Observability_PprofEnabled _); [|by apply Forall_nil_2].
    unfold Server.registerPprof. apply Forall_app_2; [|apply Forall_fmap, Forall_true]; auto 20 with chain.
  - destruct (Swagger_Enabled _); [|by apply Forall_nil_2].
    destruct (Swagger_RequireAuth _); auto with chain.
Qed.
Lemma http_routes_known i : Forall (quiet_or_endpoint i.(Process_handler)) (http_routes i).
Proof.
  apply Forall_app_2; [apply operations_known|].
  apply Forall_forall. intros route Hr. apply api_route_handlers in Hr as [->|[->|[e ->]]].
  - split; [apply api_wraps|left]. intros c. by apply keeps_bind; [apply keeps_bind|].
  - split; [apply api_wraps|left]. intros c. apply keeps_ret.
  - split; [apply api_wraps|right]. by exists e.
Qed.

Lemma http_transaction tasks i n c : changes (one_transaction tasks) (http_serve i n c).
Proof.
  unfold http_serve. destruct (http_routes i !! n) as [route|] eqn:Hn;
    [|exact (changes_ret (one_transaction tasks) c)].
  pose proof (Forall_lookup_1 _ _ _ _ (http_routes_known i) Hn) as [Hg Hh].
  apply wraps_chain; [|apply _|].
  - apply Forall_app. split; [apply global_wraps|exact Hg].
  - intros c'. destruct Hh as [Hk|[e ->]]; [|apply endpoint_transaction].
    apply keeps_changes; [apply _|apply Hk].
Qed.
Lemma grpc_transaction tasks i names incoming request ctx :
  changes (one_transaction tasks) (grpc_serve i names incoming request ctx).
Proof.
  apply gwraps_chain; [apply unary_gwraps|apply _|]. intros ctx'. apply handle_transaction.
Qed.

(** ** Executions *)
(** What happens in the system: a request that gin matched to the [n]-th route of
    an instance, a call of a gRPC method, or an action of the background
    processes ([Action] of SystemSpec.v). *)
Inductive Happening :=
  | HappenHTTP i (n : nat) c
  | HappenGRPC i (names : option GCode → string) (incoming : string → list string)
      (request : Pb.Request) (ctx : Context)
  | HappenBackground (a : Action).
Definition happen (e : World DB Event * list Delivery.t) (x : Happening)
    : World DB Event * list Delivery.t :=
  match x with
  | HappenHTTP i n c => ((http_serve i n c e.1).2, e.2)
  | HappenGRPC i names incoming request ctx => ((grpc_serve i names incoming request ctx e.1).2, e.2)
  | HappenBackground a => act d e a
  end.
Definition execution (xs : list Happening) (w : World DB Event)
    : World DB Event * list Delivery.t := fold_left happen xs (w, []).

Lemma happen_transact e x :
  unique_tables (view (w_db e.1)) → transact d (state_of e) (state_of (happen e x)).
Proof.
  intros Hu. destruct x as [i n c|i names incoming request ctx|a].
  - exact (http_transaction e.2 i n c e.1 Hu).
  - exact (grpc_transaction e.2 i names incoming request ctx e.1 Hu).
  - by apply act_transact.
Qed.

Context `{!StatusLaws}.
Hypothesis Max_pos : 1 ≤ cfg.(Notification_MaxAttempts).

(** C2 Refinement of the whole system.  From empty tables, whatever requests come
    in over HTTP and gRPC, with whatever headers, credentials and bodies, to
    whatever instances, and however they interleave with the dispatchers, the
    cleaner and crashes, the program only ever reaches states that the steps of
    the delivery system reach. *)
Theorem served_executions_refine xs w :
  view (w_db w) = no_rows → reachable cfg (state_of (execution xs w)).
Proof.
  intros Hw. unfold execution. induction xs as [|x xs IH] using rev_ind.
  - cbn. unfold reachable, initial, state_of. cbn. rewrite Hw. constructor.
  - rewrite fold_left_app. unfold reachable. etrans; [exact IH|].
    apply transact_steps, happen_transact. exact (inv_unique cfg _ (inv_reachable _ Max_pos _ IH)).
Qed.
End Transports.
