(* ===== verification/GrpcClient.v ===== *)
(** * internal/grpcclient and the gRPC half of internal/outbound/registry.go

    An invoker carries out a call; an interceptor wraps one.  The connection, the
    circuit breaker and the statuses of errors are the library's. *)

From S2P Require Import Prelude GoStrings PathMatch Wire AppError Config Connections Reqctx Auth Effects.
From S2P Require Import Libraries Outbound Grpc.
Open Scope string_scope.
Open Scope list_scope.
Open Scope Z_scope.
Open Scope go_scope.

(** [status.Code]: [None] is [codes.OK]; [codes.Code.String]. *)
Class StatusLibrary := {
  status_Code : error → option GCode;
  Code_String : option GCode → string;
  status_Code_nil e : status_Code e = None ↔ e = nil_err }.

(** [None] are the insecure credentials. *)
Definition transportCredentials `{TLSFiles} (cfg : TLSConfig) : option ClientCredentials * error :=
  if negb cfg.(TLS_Enabled) then (None, nil_err) else
  let '(roots, err) :=
    if cfg.(TLS_CAFile) != "" then
      let '(pem, err) := os_ReadFile cfg.(TLS_CAFile) in
      if failed err then (None, ErrWrap "read grpc CA" err) else
      if negb (AppendCertsFromPEM pem) then (None, ErrMsg "parse grpc CA") else (Some pem, nil_err)
    else (None, nil_err) in
  if failed err then (None, err) else
  let '(certificate, err) :=
    if (cfg.(TLS_CertFile) != "") || (cfg.(TLS_KeyFile) != "") then
      if (cfg.(TLS_CertFile) == "") || (cfg.(TLS_KeyFile) == "")
      then (None, ErrMsg "grpc client certificate and key must be configured together") else
      let err := LoadX509KeyPair cfg.(TLS_CertFile) cfg.(TLS_KeyFile) in
      if failed err then (None, ErrWrap "load grpc client certificate" err)
      else (Some (cfg.(TLS_CertFile), cfg.(TLS_KeyFile)), nil_err)
    else (None, nil_err) in
  if failed err then (None, err) else
  (Some {| Creds_ServerName := cfg.(TLS_ServerName); Creds_RootCAs := roots;
           Creds_Certificate := certificate |}, nil_err).

Abbreviation Invoker DB := (Context → string → IO DB error).

Module GrpcClient.
Section Client.
Context `{Externals} `{StatusLibrary} {DB : Type}.
Implicit Types (ctx : Context) (method : string) (invoker : Invoker DB).

(** ** Retries *)
Definition retryable_code (code : option GCode) : bool :=
  (code == Some Unavailable) || (code == Some ResourceExhausted).
Fixpoint matches_pattern (patterns : list string) method : bool :=
  match patterns with
  | [] => false
  | pattern :: patterns =>
      match Match pattern method with Some true => true | _ => matches_pattern patterns method end
  end.
Definition retryGRPCMethod ctx method (patterns : list string) : bool :=
  if (Idempotency.FromContext ctx).2 then true else matches_pattern patterns method.

(** The shift wraps: 64 places or more leave nothing. *)
Definition retry_delay (cfg : Retry) (attempt : Z) : Z :=
  let delay := wrap64 (Z.shiftl cfg.(Retry_InitialBackoff) (attempt - 1)) in
  if cfg.(Retry_MaxBackoff) <? delay then cfg.(Retry_MaxBackoff) else delay.
Definition waitRetry (cfg : Retry) (attempt : Z) : IO DB error := wait (retry_delay cfg attempt).

(** The loop of [retryInterceptor]; [fuel] is the number of attempts left, [err]
    the error of the last one. *)
Fixpoint retry_loop (cfg : Retry) ctx method invoker (attempt : Z) (err : error) (fuel : nat)
    : IO DB error :=
  match fuel with
  | O => ret err
  | S fuel =>
      let! err := invoker ctx method in
      when! negb (retryable_code (status_Code err)) return! err;
      if attempt <? cfg.(Retry_MaxAttempts) then
        let! waitErr := waitRetry cfg attempt in
        when! failed waitErr return! waitErr;
        retry_loop cfg ctx method invoker (attempt + 1) err fuel
      else retry_loop cfg ctx method invoker (attempt + 1) err fuel
  end.
Definition retryInterceptor (cfg : Retry) invoker : Invoker DB := λ ctx method,
  if negb (retryGRPCMethod ctx method cfg.(Retry_Methods)) then invoker ctx method
  else retry_loop cfg ctx method invoker 1 nil_err (Z.to_nat cfg.(Retry_MaxAttempts)).

(** ** The other interceptors *)
Definition breakerInterceptor invoker : Invoker DB := λ ctx method,
  let! n := tick in
  when! failed (ext_breaker n) return! ext_breaker n;
  invoker ctx method.
(** Errors that do not count against the upstream. *)
Definition breaker_IsExcluded (err : error) : bool :=
  let code := status_Code err in
  (code != Some Unavailable) && (code != Some ResourceExhausted)
  && (code != Some DeadlineExceeded).

Definition metricsInterceptor (name : string) (enabled : bool) invoker : Invoker DB := λ ctx method,
  let! err := invoker ctx method in
  (if enabled then
     emit (EvMetric "outbound_requests_total" ["grpc"; name; Code_String (status_Code err)]) ;;
     emit (EvMetric "outbound_request_duration_seconds" ["grpc"; name])
   else ret tt) ;;
  ret err.

Definition timeoutInterceptor (timeout : Z) invoker : Invoker DB := λ ctx method,
  if ctx.(ctx_has_deadline) then invoker ctx method
  else invoker { ctx with ctx_has_deadline := true } method.

Definition RequestIDFromContext ctx : string * bool := Requestid.FromContext ctx.
Definition WithRequestID ctx (id : string) : Context := Requestid.WithContext ctx id.
Definition WithIdempotencyKey ctx (key : string) : Context := Idempotency.WithContext ctx key.

Definition metadata_pairs (token psk : string) ctx : list (string * string) :=
  (if token != "" then [("authorization", "Bearer " +:+ token)]
   else if psk != "" then [("authorization", "PSK " +:+ psk)] else [])
  ++ (let '(id, ok) := RequestIDFromContext ctx in if ok then [("x-request-id", id)] else [])
  ++ (let '(key, ok) := Idempotency.FromContext ctx in if ok then [("idempotency-key", key)] else []).
Definition metadataInterceptor (token psk : string) invoker : Invoker DB := λ ctx method,
  let pairs := metadata_pairs token psk ctx in
  let ctx := if (0 <? length pairs)%nat then { ctx with ctx_outgoing ::= (λ out, out ++ pairs) }
             else ctx in
  invoker ctx method.

(** ** Connections *)
Definition interceptors (cfg : ClientConfig) : list (Invoker DB → Invoker DB) :=
  [timeoutInterceptor cfg.(Client_Timeout); metadataInterceptor cfg.(Client_Token) cfg.(Client_PSK)]
  ++ (match cfg.(Client_Metrics) with
      | Some enabled => [metricsInterceptor cfg.(Client_Name) enabled] | None => [] end)
  ++ (if cfg.(Client_Breaker).(Breaker_Enabled) then [breakerInterceptor] else [])
  ++ (if 1 <? cfg.(Client_Retry).(Retry_MaxAttempts)
      then [retryInterceptor cfg.(Client_Retry)] else []).
(** The library's invoker at the end of the chain. *)
Definition transport : Invoker DB := λ ctx method,
  emit (EvInvoke method ctx) ;; let! n := tick in ret (ext_invoke n method ctx).
(** A unary call over a connection. *)
Definition Invoke (cfg : ClientConfig) : Invoker DB :=
  foldr (λ i next, i next) transport (interceptors cfg).
End Client.

(** [newClient] is the error of [grpc.NewClient]. *)
Definition Dial `{TLSFiles} (newClient : string → error) (cfg : ClientConfig)
    : option ClientConn * error :=
  if cfg.(Client_Target) == "" then (None, ErrMsg "grpc client target is required") else
  if cfg.(Client_Timeout) <=? 0 then (None, ErrMsg "grpc client timeout must be positive") else
  let '(credentials, err) := transportCredentials cfg.(Client_TLS) in
  if failed err then (None, err) else
  let plain := negb cfg.(Client_TLS).(TLS_Enabled)
               && negb cfg.(Client_TLS).(TLS_AllowInsecureToken) in
  if (cfg.(Client_Token) != "") && plain
  then (None, ErrMsg "refusing to send grpc bearer token without TLS") else
  if (cfg.(Client_PSK) != "") && (cfg.(Client_Token) != "")
  then (None, ErrMsg "grpc client bearer token and PSK are mutually exclusive") else
  if (cfg.(Client_PSK) != "") && plain
  then (None, ErrMsg "refusing to send grpc PSK without TLS") else
  let err := newClient cfg.(Client_Target) in
  if failed err then (None, err) else (Some (mkClientConn cfg credentials), nil_err).

(** ** registry.go *)
Definition upstream_config (metrics : option bool) (name : string) (upstream : GRPCUpstream)
    : ClientConfig :=
  let tls := upstream.(GRPCUpstream_TLS) in
  let auth := upstream.(GRPCUpstream_Auth) in {|
  Client_Name := name; Client_Target := upstream.(GRPCUpstream_Target);
  Client_Timeout := upstream.(GRPCUpstream_Timeout); Client_Retry := upstream.(GRPCUpstream_Retry);
  Client_Breaker := upstream.(GRPCUpstream_Breaker); Client_Metrics := metrics;
  Client_TLS := {| TLS_Enabled := tls.(ClientTLS_Enabled);
    TLS_ServerName := tls.(ClientTLS_ServerName); TLS_CAFile := tls.(ClientTLS_CAFile);
    TLS_CertFile := tls.(ClientTLS_CertFile); TLS_KeyFile := tls.(ClientTLS_KeyFile);
    TLS_AllowInsecureToken := false |};
  Client_Token :=
    if auth.(ClientAuth_Type) == "bearer" then auth.(ClientAuth_Token) else "";
  Client_PSK := if auth.(ClientAuth_Type) == "psk" then auth.(ClientAuth_Token) else "" |}.

(** Both halves of the registry. *)
Record FullRegistry := mkFullRegistry {
  Registry_HTTP : Registry; Registry_grpc : gmap string ClientConn }.
Section Registry.
Context `{TLSFiles} `{URLLibrary} `{GoFmt} `{GoRange} (newClient : string → error).

Fixpoint add_connections (metrics : option bool) (upstreams : list (string * GRPCUpstream))
    (registry : FullRegistry) : option FullRegistry * error :=
  match upstreams with
  | [] => (Some registry, nil_err)
  | (name, upstream) :: upstreams =>
      match Dial newClient (upstream_config metrics name upstream) with
      | (Some connection, nil_err) =>
          add_connections metrics upstreams
            { registry with Registry_grpc ::= <[name := connection]> }
      | (_, err) => (None, ErrWrap ("create outbound gRPC client " +:+ quote name) err)
      end
  end.
Definition NewRegistry (cfg : Config) (metrics : option bool) : option FullRegistry * error :=
  match NewHTTPRegistry cfg metrics with
  | (Some http, nil_err) =>
      add_connections metrics (range cfg.(Config_Outbound).(Outbound_GRPC)) (mkFullRegistry http ∅)
  | (_, err) => (None, err)
  end.
Definition GRPC (r : FullRegistry) (name : string) : option ClientConn := r.(Registry_grpc) !! name.

(** [close]: every connection is closed, the first error is reported;
    [close_error] are the answers of [connection.Close]. *)
Fixpoint close_all (close_error : string → error) (connections : list (string * ClientConn))
    (closeErr : error) : error :=
  match connections with
  | [] => closeErr
  | (name, _) :: connections =>
      let err := close_error name in
      close_all close_error connections
        (if failed err && is_nil closeErr
         then ErrWrap ("close outbound gRPC client " +:+ quote name) err else closeErr)
  end.
Definition close (close_error : string → error) (r : FullRegistry) : error :=
  close_all close_error (range r.(Registry_grpc)) nil_err.
End Registry.
End GrpcClient.

(** ** What a call does *)
Section CallBounds.
Context `{Externals} `{StatusLibrary} {DB : Type}.
Implicit Types (ctx : Context) (method : string) (invoker : Invoker DB).

Definition is_invoke (e : Event) : bool := match e with EvInvoke _ _ => true | _ => false end.
Definition invoke_count (l : list Event) : nat := length (base.filter (λ e, Is_true (is_invoke e)) l).
(** [m] changes no table, and logs at most [n] calls of [method], all in the
    context [sent], waits of at most [max], and metrics. *)
Definition outgoing (method : string) (sent : Context) (max : Z) (e : Event) : Prop :=
  e = EvInvoke method sent ∨ (∃ delay, e = EvWait delay ∧ delay ≤ max) ∨
  ∃ name labels, e = EvMetric name labels.
Definition calls (method : string) (sent : Context) (n : nat) (max : Z) {A} (m : IO DB A) : Prop :=
  ∀ w, w_db (m w).2 = w_db w ∧ ∃ l, w_log (m w).2 = w_log w ++ l ∧
    (invoke_count l ≤ n)%nat ∧ Forall (outgoing method sent max) l.

Lemma invoke_count_app l1 l2 : invoke_count (l1 ++ l2) = (invoke_count l1 + invoke_count l2)%nat.
Proof. unfold invoke_count. by rewrite filter_app, length_app. Qed.

Lemma calls_none method sent n max {A} (m : IO DB A) :
  (∀ w, w_db (m w).2 = w_db w ∧ w_log (m w).2 = w_log w) → calls method sent n max m.
Proof.
  intros Hm w. destruct (Hm w) as [Hd Hl]. split; [exact Hd|]. exists []. rewrite Hl, app_nil_r.
  split_and!; [done|cbn; lia|done].
Qed.
Lemma calls_ret method sent n max {A} (a : A) : calls method sent n max (ret a).
Proof. by apply calls_none. Qed.
Lemma calls_bind method sent n1 n2 max {A B} (m : IO DB A) (f : A → IO DB B) :
  calls method sent n1 max m → (∀ a, calls method sent n2 max (f a)) →
  calls method sent (n1 + n2) max (bind m f).
Proof.
  intros Hm Hf w. unfold bind. destruct (Hm w) as (Hd & l & Hl & Hn & Ha).
  destruct (m w) as [a w1]. destruct (Hf a w1) as (Hd' & l' & Hl' & Hn' & Ha'). cbn in Hd, Hl.
  split; [congruence|]. exists (l ++ l'). rewrite Hl', Hl, app_assoc. split; [done|].
  rewrite invoke_count_app. split; [lia|]. by apply Forall_app.
Qed.
Lemma calls_if method sent n max {A} (b : bool) (m1 m2 : IO DB A) :
  calls method sent n max m1 → calls method sent n max m2 →
  calls method sent n max (if b then m1 else m2).
Proof. by destruct b. Qed.
(** One event, and an answer of the outside world. *)
Lemma calls_event method sent n max {A} (e : Event) (f : nat → A) :
  outgoing method sent max e → (invoke_count [e] ≤ n)%nat →
  calls method sent n max (emit (DB := DB) e ;; let! k := tick in ret (f k)).
Proof. intros He Hn w. split; [done|]. exists [e]. split_and!; [done|done|]. by apply Forall_singleton. Qed.

Lemma transport_calls method sent max : calls method sent 1 max (GrpcClient.transport (DB := DB) sent method).
Proof. apply calls_event; [by left|done]. Qed.

Lemma waitRetry_calls method sent cfg attempt :
  calls method sent 0 cfg.(Retry_MaxBackoff) (GrpcClient.waitRetry (DB := DB) cfg attempt).
Proof.
  apply calls_event; [|done]. right. left. eexists. split; [done|].
  unfold GrpcClient.retry_delay. destruct (_ <? _) eqn:E; [done|]. by apply Z.ltb_ge in E.
Qed.

Lemma retry_loop_calls cfg method sent invoker : ∀ fuel attempt err,
  calls method sent 1 cfg.(Retry_MaxBackoff) (invoker sent method) →
  calls method sent fuel cfg.(Retry_MaxBackoff)
    (GrpcClient.retry_loop cfg sent method invoker attempt err fuel).
Proof.
  induction fuel as [|fuel IH]; intros attempt err Hi; cbn; [apply calls_ret|].
  apply (calls_bind _ _ 1 fuel); [exact Hi|]. intros err'.
  apply calls_if; [apply calls_ret|]. apply calls_if; [|by apply IH].
  apply (calls_bind _ _ 0 fuel); [apply waitRetry_calls|]. intros waitErr.
  apply calls_if; [apply calls_ret|by apply IH].
Qed.

(** The context in which a call leaves: with a deadline, and the metadata. *)
Definition sent_context (cfg : ClientConfig) ctx : Context :=
  { ctx with ctx_has_deadline := true;
    ctx_outgoing ::= (λ out, out ++
      GrpcClient.metadata_pairs cfg.(Client_Token) cfg.(Client_PSK) ctx) }.
Definition allowed_attempts (cfg : ClientConfig) ctx method : nat :=
  let retry := cfg.(Client_Retry) in
  if (1 <? retry.(Retry_MaxAttempts)) && GrpcClient.retryGRPCMethod ctx method retry.(Retry_Methods)
  then Z.to_nat retry.(Retry_MaxAttempts) else 1.

Lemma metadata_context cfg ctx :
  let ctx1 := if ctx.(ctx_has_deadline) then ctx else { ctx with ctx_has_deadline := true } in
  let pairs := GrpcClient.metadata_pairs cfg.(Client_Token) cfg.(Client_PSK) ctx1 in
  (if (0 <? length pairs)%nat then { ctx1 with ctx_outgoing ::= (λ out, out ++ pairs) } else ctx1)
  = sent_context cfg ctx.
Proof.
  destruct ctx as [p i e k cr out dl]. unfold sent_context.
  assert (∀ b out, GrpcClient.metadata_pairs (Client_Token cfg) (Client_PSK cfg)
    (mkContext p i e k cr out b) = GrpcClient.metadata_pairs (Client_Token cfg) (Client_PSK cfg)
    (mkContext p i e k cr out true)) as Hm by done.
  destruct dl; cbn; [|rewrite (Hm false)];
    destruct (GrpcClient.metadata_pairs _ _ _) as [|x l]; cbn; by rewrite ?app_nil_r.
Qed.

Lemma retry_calls cfg method sent n invoker :
  calls method sent 1 cfg.(Retry_MaxBackoff) (invoker sent method) →
  n = (if GrpcClient.retryGRPCMethod sent method cfg.(Retry_Methods)
       then Z.to_nat cfg.(Retry_MaxAttempts) else 1%nat) →
  calls method sent n cfg.(Retry_MaxBackoff)
    (GrpcClient.retryInterceptor (DB := DB) cfg invoker sent method).
Proof.
  intros Hi ->. unfold GrpcClient.retryInterceptor.
  destruct (GrpcClient.retryGRPCMethod _ _ _); [by apply retry_loop_calls|exact Hi].
Qed.
Lemma breaker_calls method sent n max invoker :
  calls method sent n max (invoker sent method) →
  calls method sent n max (GrpcClient.breakerInterceptor (DB := DB) invoker sent method).
Proof.
  intros Hi. apply (calls_bind _ _ 0 n); [by apply calls_none|]. intros k.
  by apply calls_if; [apply calls_ret|].
Qed.
Lemma metrics_calls method sent n max name enabled invoker :
  calls method sent n max (invoker sent method) →
  calls method sent n max (GrpcClient.metricsInterceptor (DB := DB) name enabled invoker sent method).
Proof.
  intros Hi. rewrite <- (Nat.add_0_r n). apply calls_bind; [exact Hi|]. intros err.
  apply (calls_bind _ _ 0 0); [|intros []; apply calls_ret].
  destruct enabled; [|apply calls_ret].
  apply (calls_bind _ _ 0 0); [|intros []]; intros w; (split; [done|]); eexists [_];
    (split_and!; [reflexivity|done|]); apply Forall_singleton; right; right; eauto.
Qed.

(** C29 A gRPC call over a client makes at most the configured attempts, and only one
    when the method is not configured as retryable and the call carries no
    idempotency key; every attempt carries the same metadata (the client's
    credential, the request id and the idempotency key, once each) and a deadline;
    the waits between them are bounded, and no table is touched. *)
Theorem Invoke_bounded cfg ctx method w err w' :
  GrpcClient.Invoke (DB := DB) cfg ctx method w = (err, w') →
  w_db w' = w_db w ∧ ∃ l, w_log w' = w_log w ++ l ∧
    (invoke_count l ≤ allowed_attempts cfg ctx method)%nat ∧
    Forall (outgoing method (sent_context cfg ctx) cfg.(Client_Retry).(Retry_MaxBackoff)) l.
Proof.
  intros E.
  enough (calls method (sent_context cfg ctx) (allowed_attempts cfg ctx method)
    cfg.(Client_Retry).(Retry_MaxBackoff) (GrpcClient.Invoke (DB := DB) cfg ctx method)) as Hc.
  { destruct (Hc w) as (Hd & l & Hl & Hn & Ha). rewrite E in *. eauto. }
  clear. unfold GrpcClient.Invoke, GrpcClient.interceptors. rewrite !foldr_app. cbn [foldr].
  set (sent := sent_context cfg ctx). set (retried := foldr _ GrpcClient.transport _).
  set (broken := foldr _ retried _). set (measured := foldr _ broken _).
  assert (GrpcClient.timeoutInterceptor (Client_Timeout cfg)
    (GrpcClient.metadataInterceptor (Client_Token cfg) (Client_PSK cfg) measured) ctx method
    = measured sent method) as ->.
  { unfold GrpcClient.timeoutInterceptor, GrpcClient.metadataInterceptor, sent.
    rewrite <- metadata_context. by destruct (ctx_has_deadline ctx). }
  unfold measured. destruct (Client_Metrics cfg) as [enabled|]; [apply metrics_calls|];
    unfold broken; (destruct (Breaker_Enabled _); [apply breaker_calls|]);
    unfold retried, allowed_attempts; cbv zeta;
    (destruct (1 <? _); [|apply transport_calls]);
    (apply retry_calls; [apply transport_calls|done]).
Qed.
End CallBounds.

(** ** The connections of the registry *)
Section Connections.
Context `{TLSFiles} `{URLLibrary} `{GoFmt} `{GoRange}.

Lemma Dial_spec newClient cfg conn err :
  GrpcClient.Dial newClient cfg = (Some conn, err) →
  err = nil_err ∧ conn.(Conn_config) = cfg ∧ 0 < cfg.(Client_Timeout) ∧
  (cfg.(Client_TLS).(TLS_Enabled) = true ↔ is_Some conn.(Conn_credentials)) ∧
  ((cfg.(Client_Token) ≠ "" ∨ cfg.(Client_PSK) ≠ "") →
    cfg.(Client_TLS).(TLS_Enabled) = true ∨ cfg.(Client_TLS).(TLS_AllowInsecureToken) = true).
Proof.
  unfold GrpcClient.Dial. destruct (_ == _); [done|].
  destruct (_ <=? 0) eqn:Et; [done|]. apply Z.leb_gt in Et.
  destruct (transportCredentials _) as [creds cerr] eqn:Ec.
  destruct (failed cerr) eqn:Ef; [done|]. apply failed_nil in Ef as ->. cbv zeta.
  do 4 (match goal with |- (if ?b then _ else _) = _ → _ => destruct b eqn:?; [done|] end).
  intros [= <- <-]. split_and!; [done..| |].
  - cbn. unfold transportCredentials in Ec. destruct (TLS_Enabled _); cbn in Ec.
    + split; [intros _|done]. repeat (case_match; simplify_eq; try done).
    + injection Ec as <-. split; [done|]. by intros [? ?].
  - destruct (TLS_Enabled _), (TLS_AllowInsecureToken _); [by left..|by right|]. cbn in *.
    rewrite !andb_true_r in *. bools. naive_solver.
Qed.

Lemma add_connections_spec newClient metrics upstreams : ∀ registry r err,
  NoDup upstreams.*1 →
  GrpcClient.add_connections newClient metrics upstreams registry = (Some r, err) →
  (∀ name, name ∉ upstreams.*1 → GrpcClient.GRPC r name = GrpcClient.GRPC registry name) ∧
  ∀ name upstream, (name, upstream) ∈ upstreams → ∃ conn, GrpcClient.GRPC r name = Some conn ∧
    GrpcClient.Dial newClient (GrpcClient.upstream_config metrics name upstream) = (Some conn, nil_err).
Proof.
  induction upstreams as [|[name upstream] upstreams IH]; intros registry r err Hn E; cbn in E.
  { injection E as <- <-. split; [done|]. by intros name upstream ?%not_elem_of_nil. }
  apply NoDup_cons in Hn as [Hnot Hn].
  destruct (GrpcClient.Dial _ _) as [[connection|] derr] eqn:Ed; [|by destruct derr].
  destruct (Dial_spec _ _ _ _ Ed) as [-> _].
  apply IH in E as [Hother Hin]; [|done]. unfold GrpcClient.GRPC in *. split.
  - intros name' [Hne Hname]%not_elem_of_cons. rewrite Hother by done. cbn.
    by rewrite lookup_insert_ne.
  - intros name' upstream' [[= -> ->]|Hu]%elem_of_cons; [|by apply Hin].
    exists connection. split; [|done]. rewrite Hother by done. cbn. by rewrite lookup_insert_eq.
Qed.

(** The registry comes back exactly when there is no error. *)
Lemma NewRegistry_error newClient cfg metrics :
  match GrpcClient.NewRegistry newClient cfg metrics with
  | (Some _, err) => err = nil_err
  | (None, err) => err ≠ nil_err
  end.
Proof.
  unfold GrpcClient.NewRegistry, NewHTTPRegistry.
  pose proof (add_clients_error metrics (range cfg.(Config_Outbound).(Outbound_HTTP)) (mkRegistry ∅)) as Hh.
  destruct (add_clients _ _ _) as [[http|] err]; [subst err|by destruct err].
  generalize (GrpcClient.mkFullRegistry http ∅).
  induction (range _) as [|[name upstream] upstreams IH]; intros r; cbn; [done|].
  destruct (GrpcClient.Dial _ _) as [[c|] []]; try done. apply IH.
Qed.

(** The registry.  When it is built, every configured gRPC upstream has exactly
    its connection, made with its target, timeout, retry policy and credential;
    and a connection that sends a credential is encrypted. *)
Theorem registry_connections newClient cfg metrics r name :
  GrpcClient.NewRegistry newClient cfg metrics = (Some r, nil_err) →
  match cfg.(Config_Outbound).(Outbound_GRPC) !! name with
  | None => GrpcClient.GRPC r name = None
  | Some upstream => ∃ conn, GrpcClient.GRPC r name = Some conn ∧
      conn.(Conn_config) = GrpcClient.upstream_config metrics name upstream ∧
      ((conn.(Conn_config)).(Client_Token) ≠ "" ∨
       (conn.(Conn_config)).(Client_PSK) ≠ "" → is_Some conn.(Conn_credentials))
  end.
Proof.
  unfold GrpcClient.NewRegistry. destruct (NewHTTPRegistry cfg metrics) as [[http|] err]; [|by destruct err].
  destruct err; try done. intros E.
  set (m := Outbound_GRPC _) in *.
  assert (∀ name upstream, (name, upstream) ∈ range m ↔ m !! name = Some upstream) as Hm.
  { intros n u. by rewrite (range_perm m), elem_of_map_to_list. }
  apply add_connections_spec in E as [Hother Hin].
  2: { rewrite (range_perm m). apply NoDup_fst_map_to_list. }
  destruct (m !! name) as [upstream|] eqn:Em.
  - destruct (Hin name upstream) as (conn & Hg & Hd); [by apply Hm|].
    apply Dial_spec in Hd as (_ & Hc & _ & Hi & Hs). exists conn. split_and!; [done..|].
    rewrite Hc. intros Ht. apply Hi. by destruct (Hs Ht).
  - rewrite Hother; [done|]. intros ([? upstream] & -> & Hu)%list_elem_of_fmap. cbn in *.
    apply Hm in Hu. congruence.
Qed.
End Connections.
