(* ===== verification/Locking.v ===== *)
(** * internal/cache/redis.go and internal/scheduler: locks and the cron job

    A lock is taken, extended and released by the redsync library, whose answers
    come from outside ([ext_mutex], [ext_owned]). *)

From S2P Require Import Prelude Config Effects.
Open Scope string_scope.
Open Scope list_scope.
Open Scope Z_scope.
Open Scope go_scope.

Record Lock := mkLock { Lock_name : string; Lock_expiry : Z }.
Definition lockKeyPrefix : string := "lock:".

(** [redsync.ErrFailed] in the chain, or a [*redsync.ErrTaken]. *)
Definition isContention (err : error) : bool :=
  if error_is err ErrLockFailed then true else error_is err ErrLockTaken.

Module Cache.
Section Locks.
Context `{Externals} `{GoFmt} {DB : Type}.

Definition Open (cfg : Redis) : IO DB (bool * error) :=
  emit (EvOpen "redis") ;; emit (EvPing cfg.(Redis_Address)) ;;
  let! n := tick in
  let err := ext_ping n cfg.(Redis_Address) in
  if failed err then emit (EvClose "redis") ;; ret (false, ErrWrap "ping redis" err)
  else ret (true, nil_err).

Definition newMutex (key : string) (ttl : Z) : option Lock * error :=
  if key == "" then (None, ErrMsg "lock key must not be empty") else
  if ttl <=? 0 then (None, ErrMsg "lock ttl must be positive") else
  (Some (mkLock (lockKeyPrefix +:+ key) ttl), nil_err).

(** [mutex.TryLockContext] and [mutex.LockContext]. *)
Definition acquire (mutex : Lock) : IO DB error :=
  emit (EvLock mutex.(Lock_name)) ;;
  let! n := tick in ret (ext_mutex n mutex.(Lock_name)).

Definition TryLock (key : string) (ttl : Z) : IO DB (option Lock * bool * error) :=
  match newMutex key ttl with
  | (Some mutex, nil_err) =>
      let! err := acquire mutex in
      if failed err then
        if isContention err then ret (None, false, nil_err)
        else ret (None, false, ErrWrap ("try redis lock " +:+ quote key) err)
      else ret (Some mutex, true, nil_err)
  | (_, err) => ret (None, false, err)
  end.

(** [ctx_err] is [ctx.Err()] after the library gave up. *)
Definition Lock_ (key : string) (ttl retryDelay : Z) (ctx_err : error) : IO DB (option Lock * error) :=
  when! retryDelay <=? 0 return! (None, ErrMsg "lock retry delay must be positive");
  match newMutex key ttl with
  | (Some mutex, nil_err) =>
      let! err := acquire mutex in
      if failed err then
        if failed ctx_err then ret (None, ErrWrap ("wait for redis lock " +:+ quote key) ctx_err)
        else ret (None, ErrWrap ("acquire redis lock " +:+ quote key) err)
      else ret (Some mutex, nil_err)
  | (_, err) => ret (None, err)
  end.

(** What [ExtendContext] and [UnlockContext] answer, as an error. *)
Definition still_owned (verb : string) (l : Lock) (answer : bool * error) : error :=
  let '(ok, err) := answer in
  let what := verb +:+ " redis lock " +:+ quote l.(Lock_name) in
  if failed err then ErrWrap what err else
  if negb ok then ErrMsg (what +:+ ": lock is no longer owned") else nil_err.
(** [mutex_Until] is the library's expiry of the mutex with the name. *)
Definition Until (mutex_Until : string → Z) (l : Lock) : Z := mutex_Until l.(Lock_name).
Definition Extend (l : Lock) : IO DB error :=
  let! n := tick in ret (still_owned "extend" l (ext_owned n l.(Lock_name))).
Definition Unlock (l : Lock) : IO DB error :=
  emit (EvUnlock l.(Lock_name)) ;;
  let! n := tick in ret (still_owned "release" l (ext_owned n l.(Lock_name))).
End Locks.
End Cache.

Module Scheduler.
(** The cron runner: whether the sample job was registered. *)
Record Runner := mkRunner { Runner_timezone : string; Runner_sample : option string }.
(** [LoadLocation] is [time.LoadLocation], [AddFunc] the error of [runner.AddFunc]. *)
Definition New (LoadLocation AddFunc : string → error) (cfg : Config) : option Runner * error :=
  let cron := cfg.(Config_Cron) in
  let err := LoadLocation cron.(Cron_Timezone) in
  if failed err then (None, err) else
  if cron.(Cron_SampleSpec) != "" then
    let err := AddFunc cron.(Cron_SampleSpec) in
    if failed err then (None, err)
    else (Some (mkRunner cron.(Cron_Timezone) (Some cron.(Cron_SampleSpec))), nil_err)
  else (Some (mkRunner cron.(Cron_Timezone) None), nil_err).
(** The start hook: whether the runner is started. *)
Definition OnStart (cfg : Config) : bool := cfg.(Config_Cron).(Cron_Enabled).
(** The stop hook: the running jobs end first, or the context does. *)
Definition OnStop (jobs_first : bool) (ctx_err : error) : error :=
  if jobs_first then nil_err else ctx_err.

Section Job.
Context `{Externals} `{GoFmt} {DB : Type}.
Definition runSample (locker : bool) : IO DB error :=
  if negb locker then emit (EvJob "sample") ;; ret nil_err else
  let! (lock, acquired, err) := Cache.TryLock "cron:sample" (60 * second) in
  when! failed err return! err;
  match lock with
  | Some l =>
      when! negb acquired return! nil_err;
      emit (EvJob "sample") ;;
      let! _ := Cache.Unlock l in
      ret nil_err
  | None => ret nil_err
  end.
(** The function of the cron entry: the job and its metric. *)
Definition sample_entry (locker metrics : bool) : IO DB unit :=
  let! err := runSample locker in
  if metrics then
    emit (EvMetric "cron_runs_total" ["sample"; if failed err then "error" else "success"]) ;;
    emit (EvMetric "cron_run_duration_seconds" ["sample"])
  else ret tt.
End Job.
End Scheduler.

(** ** The job runs under the lock *)
Section Properties.
Context `{Externals} `{GoFmt} {DB : Type}.

Lemma TryLock_spec key ttl (w : World DB Event) :
  key ≠ "" → 0 < ttl →
  ∃ w', w_db w' = w_db w ∧ w_log w' = w_log w ++ [EvLock (lockKeyPrefix +:+ key)] ∧
  let err := ext_mutex (w_tick w) (lockKeyPrefix +:+ key) in
  Cache.TryLock key ttl w =
    ((if failed err then None else Some (mkLock (lockKeyPrefix +:+ key) ttl), is_nil err,
      if failed err then if isContention err then nil_err
                         else ErrWrap ("try redis lock " +:+ quote key) err else nil_err), w').
Proof.
  intros Hk Ht. unfold Cache.TryLock, Cache.newMutex.
  rewrite (bool_decide_eq_false_2 (key = "")) by done.
  destruct (ttl <=? 0) eqn:E; [apply Z.leb_le in E; lia|].
  unfold Cache.acquire, bind, emit, tick, ret. destruct w as [db t log].
  exists (mkWorld db (S t) (log ++ [EvLock (lockKeyPrefix +:+ key)])). split_and!; [done..|].
  cbn. destruct (failed _) eqn:Ef; [|apply failed_nil in Ef; by rewrite Ef].
  unfold is_nil. destruct (ext_mutex _ _) eqn:Ee; try done; by destruct (isContention _).
Qed.

(** The scheduled job runs at most once per tick, and with a locker only between
    taking the lock and releasing it: when the lock is held elsewhere or Redis
    fails the job does not run, and only a failure of Redis is an error. *)
Theorem runSample_locked locker (w : World DB Event) err w' :
  Scheduler.runSample locker w = (err, w') →
  let key := "lock:cron:sample" in
  w_db w' = w_db w ∧
  if locker then
    let answer := ext_mutex (w_tick w) key in
    if failed answer
    then w_log w' = w_log w ++ [EvLock key] ∧ (err = nil_err ↔ isContention answer = true)
    else w_log w' = w_log w ++ [EvLock key; EvJob "sample"; EvUnlock key] ∧ err = nil_err
  else w_log w' = w_log w ++ [EvJob "sample"] ∧ err = nil_err.
Proof.
  unfold Scheduler.runSample. destruct locker; cbn [negb]; [|by intros [= <- <-]].
  unfold bind at 1.
  destruct (TryLock_spec "cron:sample" (60 * second) w) as (w1 & Hdb & Hlog & E); [done..|].
  cbv zeta in E. rewrite E. clear E. cbn.
  destruct (failed (ext_mutex _ _)) eqn:Ef.
  - destruct (isContention _); intros [= <- <-]; (split; [done|]); (split; [exact Hlog|done]).
  - apply failed_nil in Ef. rewrite Ef. unfold Cache.Unlock, bind, emit, tick, ret. cbn.
    intros [= <- <-]. split; [done|]. split; [|done]. cbn. rewrite Hlog. by rewrite <- !app_assoc.
Qed.
End Properties.
