(* ===== verification/Metrics.v ===== *)
(** * internal/observability/metrics.go: the collectors and what may be observed

    The Prometheus registry is the library's; a collector is what the program asks
    the library for.  [MustRegister] and [WithLabelValues] panic: [None] is a panic.
    The theorems: building the metrics never panics, and the places that observe
    something name a registered vector and give each of its labels a value. *)

From S2P Require Import Prelude GoStrings Wire AppError Config Reqctx Auth Effects Ratelimit Model.
From S2P Require Import Libraries Database Repository Service Web Middleware Grpc GrpcClient.
From S2P Require Import Outbound Locking.
Open Scope string_scope.
Open Scope list_scope.
Open Scope Z_scope.
Open Scope go_scope.

(** The statistics of the Redis client's pool. *)
Inductive PoolStat := Hits | Misses | Timeouts | TotalConns | IdleConns.

(** The histograms have the library's default buckets. *)
Inductive Collector :=
  | CounterVec (name help : string) (labels : list string)
  | HistogramVec (name help : string) (labels : list string)
  | GaugeFunc (name help : string) (value : PoolStat)
  | GoCollector
  | ProcessCollector
  | DBStatsCollector (db_name : string).

Class PrometheusLibrary := {
  PromRegistry : Type;
  prom_NewRegistry : PromRegistry;
  prom_Register : PromRegistry → Collector → PromRegistry * error;
  go_names : list string;                    (* the names of the library's own collectors *)
  process_names : list string;
  dbstats_names : string → list string }.

Record Metrics `{PrometheusLibrary} := mkMetrics {
  Metrics_enabled : bool; Metrics_registry : PromRegistry;
  HTTPRequests : Collector; HTTPDuration : Collector;
  CronRuns : Collector; CronDuration : Collector;
  GRPCRequests : Collector; GRPCDuration : Collector;
  OutboundRequests : Collector; OutboundDuration : Collector }.

Module Observability.
Section Metrics.
Context `{PrometheusLibrary}.

Fixpoint MustRegister (r : PromRegistry) (cs : list Collector) : option PromRegistry :=
  match cs with
  | [] => Some r
  | c :: cs => let '(r, err) := prom_Register r c in if failed err then None else MustRegister r cs
  end.

Definition redis_metrics : list Collector := [
  GaugeFunc "redis_pool_hits_total" "Redis pool hits." Hits;
  GaugeFunc "redis_pool_misses_total" "Redis pool misses." Misses;
  GaugeFunc "redis_pool_timeouts_total" "Redis pool timeouts." Timeouts;
  GaugeFunc "redis_pool_connections" "Current Redis connections." TotalConns;
  GaugeFunc "redis_pool_idle_connections" "Current idle Redis connections." IdleConns].
Fixpoint registerRedisMetrics (r : PromRegistry) (metrics : list Collector) : option PromRegistry :=
  match metrics with
  | [] => Some r
  | metric :: metrics => r ← MustRegister r [metric]; registerRedisMetrics r metrics
  end.

Definition vectors (enabled : bool) (registry : PromRegistry) : Metrics := {|
  Metrics_enabled := enabled; Metrics_registry := registry;
  HTTPRequests := CounterVec "http_requests_total" "Total HTTP requests."
    ["method"; "route"; "status"];
  HTTPDuration := HistogramVec "http_request_duration_seconds" "HTTP request latency."
    ["method"; "route"];
  CronRuns := CounterVec "cron_runs_total" "Total cron executions." ["job"; "status"];
  CronDuration := HistogramVec "cron_run_duration_seconds" "Cron execution latency." ["job"];
  GRPCRequests := CounterVec "grpc_server_requests_total" "Total gRPC requests."
    ["method"; "code"];
  GRPCDuration := HistogramVec "grpc_server_duration_seconds" "gRPC request latency." ["method"];
  OutboundRequests := CounterVec "outbound_requests_total" "Total outbound requests."
    ["protocol"; "client"; "status"];
  OutboundDuration := HistogramVec "outbound_request_duration_seconds"
    "Outbound request latency." ["protocol"; "client"] |}.
Definition program_collectors (m : Metrics) : list Collector :=
  [GoCollector; ProcessCollector; HTTPRequests m; HTTPDuration m; CronRuns m; CronDuration m;
   GRPCRequests m; GRPCDuration m; OutboundRequests m; OutboundDuration m].

(** [db] and [client] tell whether the pool and the client exist. *)
Definition NewMetrics (cfg : Config) (db client : bool) : option Metrics :=
  let metrics := vectors cfg.(Config_Observability).(Observability_MetricsEnabled) in
  r ← MustRegister prom_NewRegistry (program_collectors (metrics prom_NewRegistry));
  r ← (if db then MustRegister r [DBStatsCollector "primary"] else Some r);
  r ← (if client then registerRedisMetrics r redis_metrics else Some r);
  Some (metrics r).

Definition Enabled (m : Metrics) : bool := m.(Metrics_enabled).

(** The counter's vector and the histogram's, with the values of their labels. *)
Definition ObserveCron (m : Metrics) (job status : string) : list (Collector * list string) :=
  if negb m.(Metrics_enabled) then []
  else [(CronRuns m, [job; status]); (CronDuration m, [job])].

(** [WithLabelValues] panics unless there is a value for each label. *)
Definition WithLabelValues (c : Collector) (values : list string) : option Event :=
  match c with
  | CounterVec name _ labels | HistogramVec name _ labels =>
      if (length values =? length labels)%nat then Some (EvMetric name values) else None
  | _ => None
  end.
End Metrics.
End Observability.

(** ** Building the metrics never panics *)

(** The names under which a collector reports. *)
Definition collector_names `{PrometheusLibrary} (c : Collector) : list string :=
  match c with
  | CounterVec name _ _ | HistogramVec name _ _ | GaugeFunc name _ _ => [name]
  | GoCollector => go_names
  | ProcessCollector => process_names
  | DBStatsCollector db_name => dbstats_names db_name
  end.

(** A registry takes a collector none of whose names is taken.  The library's own
    names are distinct and begin with [go_] or [process_]. *)
Class PrometheusLaws `{PrometheusLibrary} (registered : PromRegistry → list Collector) : Prop := {
  registered_new : registered prom_NewRegistry = [];
  register_free r c :
    (∀ c' name, c' ∈ registered r → name ∈ collector_names c' → name ∉ collector_names c) →
    (prom_Register r c).2 = nil_err ∧ registered (prom_Register r c).1 = registered r ++ [c];
  library_prefixes name :
    name ∈ go_names ++ process_names ++ dbstats_names "primary" →
    String.prefix "go_" name = true ∨ String.prefix "process_" name = true;
  library_distinct : NoDup (go_names ++ process_names ++ dbstats_names "primary") }.

Section Registration.
Context `{PrometheusLaws}.

Definition disjoint_names (c c' : Collector) : Prop :=
  ∀ name, name ∈ collector_names c → name ∉ collector_names c'.
Definition all_disjoint (cs : list Collector) : Prop := ForallOrdPairs disjoint_names cs.

Lemma MustRegister_app r cs1 cs2 :
  Observability.MustRegister r (cs1 ++ cs2) =
  (r ← Observability.MustRegister r cs1; Observability.MustRegister r cs2).
Proof.
  revert r. induction cs1 as [|c cs1 IH]; intros r; [done|]. cbn.
  destruct (prom_Register r c) as [r' err]. by destruct (failed err).
Qed.
Lemma registerRedisMetrics_MustRegister r cs :
  Observability.registerRedisMetrics r cs = Observability.MustRegister r cs.
Proof.
  revert r. induction cs as [|c cs IH]; intros r; [done|]. cbn.
  destruct (prom_Register r c) as [r' err]. destruct (failed err); [done|]. apply IH.
Qed.

Lemma MustRegister_free cs : ∀ r,
  all_disjoint (registered r ++ cs) →
  ∃ r', Observability.MustRegister r cs = Some r' ∧ registered r' = registered r ++ cs.
Proof.
  induction cs as [|c cs IH]; intros r Hd; [exists r; by rewrite app_nil_r|]. cbn.
  destruct (register_free r c) as [He Hr].
  { clear IH. induction (registered r) as [|c0 l IH]; intros c' name Hc Hn; [by apply not_elem_of_nil in Hc|].
    cbn in Hd. inversion Hd as [|? ? Hall Hrest]; subst. apply elem_of_cons in Hc as [->|Hc].
    - rewrite Forall_forall in Hall. apply (Hall c); [|done]. set_solver.
    - by eapply IH. }
  destruct (prom_Register r c) as [r1 err]. cbn in He, Hr. subst err. cbn.
  destruct (IH r1) as (r' & E & Hr').
  { by rewrite Hr, <- app_assoc. }
  exists r'. split; [done|]. by rewrite Hr', Hr, <- app_assoc.
Qed.
End Registration.

Section Building.
Context `{PrometheusLaws}.

Lemma all_disjoint_nodup cs : NoDup (cs ≫= collector_names) → all_disjoint cs.
Proof.
  induction cs as [|c cs IH]; cbn; [constructor|]. intros (_ & Hd & Hn)%NoDup_app.
  constructor; [|by apply IH]. apply Forall_forall. intros c' Hc name Hname Hname'.
  apply (Hd name Hname). apply list_elem_of_bind. by exists c'.
Qed.

(** What is registered: the runtime's collectors, the vectors, and those of the
    dependencies that exist. *)
Definition all_collectors (db client : bool) : list Collector :=
  Observability.program_collectors (Observability.vectors true prom_NewRegistry)
  ++ (if db then [DBStatsCollector "primary"] else [])
  ++ (if client then Observability.redis_metrics else []).

Lemma distinct_parts (l1 l2 l3 l4 l5 : list string) (b b' : bool) :
  NoDup ((l1 ++ l2 ++ l3) ++ l4 ++ l5) →
  NoDup (l1 ++ l2 ++ l4 ++ (if b then l3 else []) ++ (if b' then l5 else [])).
Proof.
  intros Hn. rewrite <- !app_assoc, (app_assoc l3 l4), (Permutation_app_comm l3 l4),
    <- !app_assoc in Hn.
  apply (sublist_NoDup _ _ Hn). do 3 (apply sublist_app; [reflexivity|]).
  apply sublist_app; [destruct b|destruct b']; by try apply sublist_nil_l.
Qed.
Definition own_name (name : string) : bool :=
  negb (String.prefix "go_" name) && negb (String.prefix "process_" name).
Lemma all_collectors_disjoint db client : all_disjoint (all_collectors db client).
Proof.
  apply all_disjoint_nodup.
  assert (NoDup ((go_names ++ process_names ++ dbstats_names "primary")
    ++ ["http_requests_total"; "http_request_duration_seconds"; "cron_runs_total";
        "cron_run_duration_seconds"; "grpc_server_requests_total"; "grpc_server_duration_seconds";
        "outbound_requests_total"; "outbound_request_duration_seconds"]
    ++ ["redis_pool_hits_total"; "redis_pool_misses_total"; "redis_pool_timeouts_total";
        "redis_pool_connections"; "redis_pool_idle_connections"])) as Hn.
  { apply NoDup_app. split; [apply library_distinct|]. split;
      [|apply (bool_decide_unpack _); by vm_compute].
    intros name Hl Ho. apply library_prefixes in Hl.
    assert (own_name name = true) as Hown.
    { clear Hl. revert name Ho. apply Forall_forall. cbn [app].
      repeat (constructor; [reflexivity|]). constructor. }
    unfold own_name in Hown. destruct Hl as [Hl|Hl]; rewrite Hl, ?andb_false_r in Hown; done. }
  apply (distinct_parts _ _ _ _ _ db client) in Hn.
  by destruct db, client; cbn in Hn |- *; rewrite ?app_nil_r in *.
Qed.

(** Whatever is configured and connected, building the metrics does not panic, and
    the registry then holds the runtime's collectors, the program's vectors and the
    collectors of the dependencies that exist, each once. *)
Theorem NewMetrics_registers cfg db client :
  ∃ m, Observability.NewMetrics cfg db client = Some m ∧
  Observability.Enabled m = cfg.(Config_Observability).(Observability_MetricsEnabled) ∧
  registered m.(Metrics_registry) = all_collectors db client ∧
  Observability.program_collectors m ⊆ registered m.(Metrics_registry).
Proof.
  pose proof (all_collectors_disjoint db client) as Hd. unfold all_collectors in Hd.
  destruct (MustRegister_free (all_collectors db client) prom_NewRegistry) as (r & E & Hr).
  { by rewrite registered_new. }
  rewrite registered_new in Hr. cbn [app] in Hr. unfold all_collectors in E. rewrite !MustRegister_app in E.
  unfold Observability.NewMetrics. cbv zeta. eexists.
  assert (∀ b, Observability.program_collectors (Observability.vectors b prom_NewRegistry)
    = Observability.program_collectors (Observability.vectors true prom_NewRegistry)) as -> by done.
  destruct (Observability.MustRegister prom_NewRegistry _) as [r1|]; [|done]. cbn [mbind option_bind] in E |- *.
  rewrite MustRegister_app in E.
  assert ((if db then Observability.MustRegister r1 [DBStatsCollector "primary"] else Some r1)
    = Observability.MustRegister r1 (if db then [DBStatsCollector "primary"] else [])) as ->
    by (by destruct db).
  destruct (Observability.MustRegister r1 _) as [r2|]; [|done]. cbn [mbind option_bind] in E |- *.
  assert ((if client then Observability.registerRedisMetrics r2 Observability.redis_metrics else Some r2)
    = Some r) as ->.
  { destruct client; [by rewrite registerRedisMetrics_MustRegister|exact E]. }
  cbn. split; [reflexivity|]. split; [done|]. split; [exact Hr|].
  change (Metrics_registry _) with r. rewrite Hr. unfold all_collectors.
  intros c Hc. apply elem_of_app. left. exact Hc.
Qed.
End Building.

(** ** What the program observes is registered *)

(** An observation for which [WithLabelValues] of a registered vector does not panic. *)
Definition observable `{PrometheusLibrary} (e : Event) : Prop :=
  match e with
  | EvMetric name labels => Exists (λ c, Observability.WithLabelValues c labels = Some e)
      (Observability.program_collectors (Observability.vectors true prom_NewRegistry))
  | _ => True
  end.
Definition observes `{PrometheusLibrary} {DB A} (m : IO DB A) : Prop :=
  ∀ w, ∃ l, w_log (m w).2 = w_log w ++ l ∧ Forall observable l.

Create HintDb observed discriminated.
Section Observing.
Context `{PrometheusLibrary} {DB : Type}.

Lemma observes_ret {A} (a : A) : observes (DB := DB) (ret a).
Proof. intros w. exists []. by rewrite app_nil_r. Qed.
Lemma observes_tick : observes (DB := DB) tick.
Proof. intros w. exists []. by rewrite app_nil_r. Qed.
Lemma observes_emit e : observable e → observes (DB := DB) (emit e).
Proof. intros He w. exists [e]. by split; [|constructor]. Qed.
Lemma observes_bind {A B} (m : IO DB A) (f : A → IO DB B) :
  observes m → (∀ a, observes (f a)) → observes (bind m f).
Proof.
  intros Hm Hf w. unfold bind. destruct (Hm w) as (l1 & Hl1 & H1).
  destruct (m w) as [a w1]. destruct (Hf a w1) as (l2 & Hl2 & H2). cbn in Hl1.
  exists (l1 ++ l2). split; [by rewrite Hl2, Hl1, app_assoc|]. by apply Forall_app.
Qed.
Lemma observes_if {A} (b : bool) (m1 m2 : IO DB A) :
  observes m1 → observes m2 → observes (if b then m1 else m2).
Proof. by destruct b. Qed.
End Observing.
#[export] Hint Resolve observes_ret observes_tick : observed.

(** One event at a time; a match on what a call returned is split. *)
Ltac observed := repeat (first
  [ solve [auto with observed]
  | apply observes_emit; cbn; solve [done | repeat first [left; reflexivity | right]]
  | apply observes_bind; [|intros ?]
  | apply observes_if
  | progress cbv zeta
  | match goal with |- observes (match ?x with _ => _ end) => destruct x end ]).

Section Sites.
Context `{PrometheusLibrary} `{Externals} `{URLLibrary} `{GoArch} `{GoFmt} {DB : Type}.

(** The HTTP server's metrics, around any handler. *)
Lemma HTTPMetrics_observes enabled (next : Handler DB) c :
  (∀ c, observes (next c)) → observes (Http.HTTPMetrics enabled next c).
Proof. intros Hn. unfold Http.HTTPMetrics, after. observed. Qed.

(** The gRPC server's, for calls and for streams. *)
Lemma grpc_metrics_observes {R} enabled names info (handler : UnaryHandler DB R) ctx :
  (∀ ctx, observes (handler ctx)) →
  observes (Grpc.metricsInterceptor enabled names info handler ctx).
Proof. intros Hn. unfold Grpc.metricsInterceptor. observed. Qed.

(** The outbound clients'. *)
Lemma client_metrics_observes `{StatusLibrary} name enabled (invoker : Invoker DB) ctx method :
  (∀ ctx method, observes (invoker ctx method)) →
  observes (GrpcClient.metricsInterceptor name enabled invoker ctx method).
Proof. intros Hn. unfold GrpcClient.metricsInterceptor. observed. Qed.

Lemma attempts_observe cfg request maxAttempts fuel : ∀ attempt,
  observes (DB := DB) (attempts cfg request maxAttempts attempt fuel).
Proof.
  induction fuel as [|fuel IH]; intros attempt; cbn [attempts]; [observed|].
  unfold client_Do, waitBackoff, wait. observed.
Qed.
Lemma Do_observes ctx c method path body headers :
  observes (DB := DB) (Do ctx c method path body headers).
Proof.
  assert (observes (DB := DB) (doWithRetry ctx c method path body headers)) as Hr.
  { unfold doWithRetry. destruct (url_Parse path). observed. apply attempts_observe. }
  unfold Do, execute, breaker_Execute, call. observed.
Qed.

(** The scheduled job's. *)
Lemma sample_observes locker metrics :
  observes (DB := DB) (Scheduler.sample_entry locker metrics).
Proof.
  unfold Scheduler.sample_entry, Scheduler.runSample, Cache.TryLock, Cache.acquire, Cache.Unlock.
  observed.
Qed.

(** [sample_entry] observes what [ObserveCron] asks for. *)
Lemma ObserveCron_events m job status :
  Forall (λ o, is_Some (Observability.WithLabelValues o.1 o.2))
    (Observability.ObserveCron (Observability.vectors m prom_NewRegistry) job status).
Proof. unfold Observability.ObserveCron. destruct m; cbn; repeat constructor; by eexists. Qed.
End Sites.
