(* ===== verification/Migration.v ===== *)
(** * internal/migration: the schema migrations and their URL

    The URL library, the migration library and the database it works on are
    outside; each statement sent to them is logged. *)

From S2P Require Import Prelude GoStrings Config Effects.
From Stdlib Require Import Ascii.
Open Scope string_scope.
Open Scope list_scope.
Open Scope Z_scope.
Open Scope go_scope.

(** [net/url] and [path/filepath]: a parsed URL, its query values and its path. *)
Abbreviation Values := (gmap string (list string)).
Class URLQueries := {
  ParsedURL : Type;
  url_ParseURL : string → ParsedURL * error;
  url_Query : ParsedURL → Values;
  url_SetPath : string → ParsedURL → ParsedURL;
  url_SetQuery : Values → ParsedURL → ParsedURL;
  url_String : ParsedURL → string;
  url_QueryEscape : string → string;
  url_file : string → string;                 (* a file URL for a slash path *)
  filepath_Abs : string → string * error }.

(** [strings.IndexByte] and [strings.LastIndex] of one character. *)
Fixpoint index_byte (s : string) (c : ascii) : option nat :=
  match s with
  | EmptyString => None
  | String d s => if d == c then Some O else S <$> index_byte s c
  end.
Fixpoint last_index (s : string) (c : ascii) : option nat :=
  match s with
  | EmptyString => None
  | String d s => match last_index s c with Some n => Some (S n)
                  | None => if d == c then Some O else None end
  end.
Definition slice_to (n : nat) (s : string) : string := String.substring 0 n s.
Definition slice_from (n : nat) (s : string) : string := String.substring n (String.length s - n) s.

Definition double_quote : string := String (ascii_of_N 34) EmptyString.

Module Migration.
Section Migration.
Context `{Externals} `{GoFmt} `{URLQueries} {DB : Type}.

(** The path of a MySQL URL, which is not in the form [net/url] parses. *)
Definition with_mysql_database (databaseURL databaseName : string) : string * error :=
  if databaseName != "" then
    let pathEnd := default (String.length databaseURL) (index_byte databaseURL "?") in
    match last_index (slice_to pathEnd databaseURL) "/" with
    | None => ("", ErrMsg "mysql migration URL is missing database path")
    | Some slash =>
        (slice_to (slash + 1) databaseURL +:+ databaseName +:+ slice_from pathEnd databaseURL, nil_err)
    end
  else (databaseURL, nil_err).
Definition with_mysql_options (databaseURL databaseName table : string) : string * error :=
  let '(databaseURL, err) := with_mysql_database databaseURL databaseName in
  if failed err then ("", err) else
  if table == "" then (databaseURL, nil_err) else
  let separator := if Contains databaseURL "?" then "&" else "?" in
  (databaseURL +:+ separator +:+ "x-migrations-table=" +:+ url_QueryEscape table, nil_err).

Definition set_value (key value : string) (query : Values) : Values := <[key := [value]]> query.
Definition withMigrationOptions (databaseURL databaseName table schema : string) : string * error :=
  if (databaseName == "") && (table == "") && (schema == "") then (databaseURL, nil_err) else
  if HasPrefix databaseURL "mysql://" then with_mysql_options databaseURL databaseName table else
  let '(parsed, err) := url_ParseURL databaseURL in
  if failed err then ("", ErrWrap "parse migration database URL" err) else
  let query := url_Query parsed in
  let parsed := if databaseName != "" then url_SetPath ("/" +:+ databaseName) parsed else parsed in
  let query := if table != "" then set_value "x-migrations-table" table query else query in
  let query := if schema != "" then set_value "search_path" schema query else query in
  (url_String (url_SetQuery query parsed), nil_err).

(** A statement on the database, or a step of the migration library. *)
Definition statement (what : string) : IO DB error :=
  emit (EvMigrate what) ;; let! n := tick in ret (ext_migrate n what).

Definition advisory_lock (schema : string) : string :=
  "SELECT pg_advisory_xact_lock(hashtext($1)) notification-service:schema:" +:+ schema.
Definition create_statement (schema : string) : string :=
  "CREATE SCHEMA IF NOT EXISTS " +:+ double_quote +:+ schema +:+ double_quote.
(** An error after the start of the transaction rolls it back. *)
Definition createSchema (schema : string) : IO DB error :=
  let! err := statement "BEGIN" in
  when! failed err return! ErrWrap "begin schema creation" err;
  let! err :=
    let! err := statement (advisory_lock schema) in
    when! failed err return! ErrWrap "lock schema creation" err;
    let! err := statement (create_statement schema) in
    when! failed err return! ErrWrap "execute schema creation" err;
    let! err := statement "COMMIT" in
    when! failed err return! ErrWrap "commit schema creation" err;
    ret nil_err in
  if failed err then statement "ROLLBACK" ;; ret err else ret nil_err.

Definition ensureSchema (cfg : Migration) (databaseURL : string) : IO DB error :=
  when! negb cfg.(Migration_CreateSchema) || (cfg.(Migration_Schema) == "")
        || HasPrefix cfg.(Migration_DatabaseURL) "mysql://" return! nil_err;
  when! negb (validMigrationTable cfg.(Migration_Schema)) return! ErrMsg "invalid migration schema";
  let '(parsed, err) := url_ParseURL databaseURL in
  when! failed err return! ErrWrap "parse database URL for schema creation" err;
  let query := delete "x-migrations-table" (url_Query parsed) in
  let! err := statement ("open postgres " +:+ url_String (url_SetQuery query parsed)) in
  when! failed err return! ErrWrap "open database to create schema" err;
  let! err := createSchema cfg.(Migration_Schema) in
  when! failed err return!
    ErrWrap ("create migration schema " +:+ quote cfg.(Migration_Schema)) err;
  ret nil_err.

(** [m.Close()] in the deferred function: what failed is joined to the result. *)
Definition close_migrator (runErr : error) : IO DB error :=
  let! sourceErr := statement "close source" in
  let! databaseErr := statement "close database" in
  let runErr := if failed sourceErr
    then errors_Join runErr (ErrWrap "close migration source" sourceErr) else runErr in
  ret (if failed databaseErr
    then errors_Join runErr (ErrWrap "close migration database" databaseErr) else runErr).

Definition run_step (direction : string) (steps : Z) : string :=
  if steps != 0 then "steps " +:+ pretty steps
  else if direction == "down" then "down" else "up".
Definition Run (cfg : Migration) (direction : string) (steps : Z) : IO DB error :=
  when! cfg.(Migration_DatabaseURL) == "" return! ErrMsg "migration.database_url is required";
  let '(absPath, err) := filepath_Abs cfg.(Migration_Path) in
  when! failed err return! ErrWrap "resolve migration path" err;
  let '(databaseURL, err) := withMigrationOptions cfg.(Migration_DatabaseURL)
    cfg.(Migration_DatabaseName) cfg.(Migration_Table) cfg.(Migration_Schema) in
  when! failed err return! err;
  let! err := ensureSchema cfg databaseURL in
  when! failed err return! err;
  let! err := statement ("migrate " +:+ url_file absPath +:+ " " +:+ databaseURL) in
  when! failed err return! ErrWrap "create migrator" err;
  let! err := statement (run_step direction steps) in
  close_migrator (if failed err && negb (error_is err ErrNoChange)
                  then ErrWrap "run migration" err else nil_err).

(** [runStartupMigration] of internal/app. *)
Definition runStartupMigration (cfg : Config) : IO DB error :=
  when! negb cfg.(Config_Migration).(Migration_AutoUp) return! nil_err;
  let! err := Run cfg.(Config_Migration) "up" 0 in
  when! failed err return! ErrWrap "startup database migration" err;
  ret nil_err.
End Migration.
End Migration.

(** ** The database of a MySQL URL *)
Lemma empty_app s : "" +:+ s = s.
Proof. reflexivity. Qed.
Lemma String_app d a b : String d a +:+ b = String d (a +:+ b).
Proof. reflexivity. Qed.
Lemma string_app_assoc (a b c : string) : (a +:+ b) +:+ c = a +:+ (b +:+ c).
Proof. induction a as [|d a IH]; [done|]. by rewrite !String_app, IH. Qed.
Lemma string_app_nil (a : string) : a +:+ "" = a.
Proof. induction a as [|d a IH]; [done|]. by rewrite String_app, IH. Qed.
Lemma string_length_app (a b : string) :
  String.length (a +:+ b) = (String.length a + String.length b)%nat.
Proof. induction a as [|d a IH]; [done|]. rewrite String_app. cbn. by rewrite IH. Qed.

Lemma index_byte_app pre post c :
  c ∉ String.list_ascii_of_string pre →
  index_byte (pre +:+ post) c = (λ n, (String.length pre + n)%nat) <$> index_byte post c.
Proof.
  induction pre as [|d pre IH]; intros Hc.
  { rewrite empty_app. destruct (index_byte post c); reflexivity. }
  rewrite String_app. cbn in Hc |- *.
  apply not_elem_of_cons in Hc as [Hd Hc]. rewrite bool_decide_eq_false_2 by done.
  rewrite IH by done. destruct (index_byte post c); reflexivity.
Qed.
Lemma last_index_none s c : c ∉ String.list_ascii_of_string s → last_index s c = None.
Proof.
  induction s as [|d s IH]; cbn; [done|]. intros [Hd Hc]%not_elem_of_cons.
  rewrite IH by done. by rewrite bool_decide_eq_false_2 by done.
Qed.
Lemma last_index_app pre c post :
  c ∉ String.list_ascii_of_string post →
  last_index (pre +:+ String c post) c = Some (String.length pre).
Proof.
  intros Hc. induction pre as [|d pre IH].
  - rewrite empty_app. cbn. rewrite last_index_none by done. by rewrite bool_decide_eq_true_2.
  - rewrite String_app. cbn. by rewrite IH.
Qed.
Lemma slice_to_app pre post : slice_to (String.length pre) (pre +:+ post) = pre.
Proof.
  unfold slice_to. induction pre as [|d pre IH]; [by destruct post|].
  rewrite String_app. cbn. by rewrite IH.
Qed.
Lemma substring_all s : String.substring 0 (String.length s) s = s.
Proof. induction s as [|d s IH]; cbn; [done|]. by rewrite IH. Qed.
Lemma slice_from_app pre post : slice_from (String.length pre) (pre +:+ post) = post.
Proof.
  unfold slice_from. rewrite string_length_app, Nat.add_comm, Nat.add_sub.
  induction pre as [|d pre IH]; [apply substring_all|]. rewrite String_app. exact IH.
Qed.

(** A MySQL migration URL [server/old] followed by nothing or by a query gets
    the configured database in the place of the old one, and nothing else of it
    changes; one without a path is refused. *)
Theorem mysql_database_replaced server old query name :
  "?"%char ∉ String.list_ascii_of_string (server +:+ "/" +:+ old) →
  "/"%char ∉ String.list_ascii_of_string old →
  query = "" ∨ (∃ q, query = String "?" q) →
  Migration.with_mysql_database (server +:+ "/" +:+ old +:+ query) name =
    (server +:+ "/" +:+ (if name == "" then old else name) +:+ query, nil_err).
Proof.
  intros Hq Hs Hquery. unfold Migration.with_mysql_database. destruct (decide (name = "")) as [->|Hn].
  { by rewrite !bool_decide_eq_true_2. }
  rewrite !bool_decide_eq_false_2 by done. cbn [negb].
  set (base := server +:+ "/" +:+ old) in *.
  assert (server +:+ "/" +:+ old +:+ query = base +:+ query) as -> by
    (unfold base; by rewrite !string_app_assoc, !String_app, empty_app).
  assert (default (String.length (base +:+ query)) (index_byte (base +:+ query) "?")
    = String.length base) as ->.
  { rewrite index_byte_app by done. destruct Hquery as [->|[q ->]].
    - by rewrite string_app_nil.
    - change (index_byte (String "?" q) "?") with (Some O).
      change (default (String.length (base +:+ String "?" q)) ((λ n, (String.length base + n)%nat) <$> Some O))
        with (String.length base + 0)%nat. lia. }
  rewrite slice_to_app, slice_from_app. unfold base.
  change (server +:+ "/" +:+ old) with (server +:+ String "/" old) at 1.
  rewrite last_index_app by done.
  assert (server +:+ "/" +:+ old = (server +:+ "/") +:+ old) as -> by
    (by rewrite string_app_assoc).
  assert (String.length server + 1 = String.length (server +:+ "/"))%nat as -> by
    (by rewrite string_length_app).
  by rewrite string_app_assoc, slice_to_app, string_app_assoc.
Qed.

(** ** A migration run *)
Section Run.
Context `{Externals} `{GoFmt} `{URLQueries} {DB : Type}.

(** [m] only sends statements: no table of the service is touched. *)
Definition sends {A} (m : IO DB A) : Prop :=
  ∀ w, w_db (m w).2 = w_db w ∧ ∃ l, w_log (m w).2 = w_log w ++ map EvMigrate l.
Lemma sends_ret {A} (a : A) : sends (ret a).
Proof. intros w. split; [done|]. exists []. cbn. by rewrite app_nil_r. Qed.
Lemma sends_bind {A B} (m : IO DB A) (f : A → IO DB B) :
  sends m → (∀ a, sends (f a)) → sends (bind m f).
Proof.
  intros Hm Hf w. unfold bind. destruct (Hm w) as (Hd & l & Hl). destruct (m w) as [a w1].
  destruct (Hf a w1) as (Hd' & l' & Hl'). cbn in *. split; [congruence|].
  exists (l ++ l'). by rewrite Hl', Hl, map_app, app_assoc.
Qed.
Lemma sends_if {A} (b : bool) (m1 m2 : IO DB A) : sends m1 → sends m2 → sends (if b then m1 else m2).
Proof. by destruct b. Qed.
Lemma statement_sends what : sends (Migration.statement what).
Proof. intros w. split; [done|]. by exists [what]. Qed.
Lemma statement_run what w :
  Migration.statement (DB := DB) what w = (ext_migrate (w_tick w) what,
    mkWorld (w_db w) (S (w_tick w)) (w_log w ++ [EvMigrate what])).
Proof. done. Qed.

Ltac sending :=
  repeat first [apply statement_sends | apply sends_ret | apply sends_if
    | apply sends_bind; [|intros ?] | match goal with
      | |- sends (let '(_, _) := ?x in _) => destruct x end].
Lemma createSchema_sends schema : sends (Migration.createSchema schema).
Proof. unfold Migration.createSchema. sending. Qed.
Lemma ensureSchema_sends cfg url : sends (Migration.ensureSchema cfg url).
Proof.
  unfold Migration.ensureSchema. cbv zeta. do 2 (apply sends_if; [apply sends_ret|]).
  destruct (url_ParseURL url) as [parsed err]. apply sends_if; [apply sends_ret|].
  apply sends_bind; [apply statement_sends|intros e]. apply sends_if; [apply sends_ret|].
  apply sends_bind; [apply createSchema_sends|intros e']. sending.
Qed.

(** ** Statements that succeed *)
(** From [w] to [w'] exactly the statements [l] were sent, and each was answered
    without an error. *)
Definition statements_ok (w : World DB Event) (l : list string) (w' : World DB Event) : Prop :=
  w' = mkWorld (w_db w) (w_tick w + length l) (w_log w ++ map EvMigrate l) ∧
  ∀ i what, l !! i = Some what → ext_migrate (w_tick w + i) what = nil_err.

Lemma statements_ok_nil w : statements_ok w [] w.
Proof. split; [|done]. cbn. rewrite app_nil_r, Nat.add_0_r. by destruct w. Qed.
Lemma statements_ok_app w l1 w1 l2 w2 :
  statements_ok w l1 w1 → statements_ok w1 l2 w2 → statements_ok w (l1 ++ l2) w2.
Proof.
  intros [-> Hl1] [-> Hl2]. cbn in *. split.
  - by rewrite length_app, map_app, app_assoc, Nat.add_assoc.
  - intros i what [Hi|[Hl Hi]]%lookup_app_Some; [by apply Hl1|].
    specialize (Hl2 _ _ Hi). by replace (w_tick w + i)%nat with (w_tick w + length l1 + (i - length l1))%nat by lia.
Qed.
Lemma statement_ok what w err w' :
  Migration.statement (DB := DB) what w = (err, w') → failed err = false → statements_ok w [what] w'.
Proof.
  rewrite statement_run. intros [= <- <-] Hf%failed_nil.
  split; [by cbn; rewrite Nat.add_1_r|]. intros [|i] x [= <-]. by rewrite Nat.add_0_r.
Qed.

(** The schema is created in a transaction of its own, under an advisory lock. *)
Lemma createSchema_ok schema w err w' :
  Migration.createSchema (DB := DB) schema w = (err, w') → failed err = false →
  statements_ok w ["BEGIN"; Migration.advisory_lock schema; Migration.create_statement schema; "COMMIT"] w'.
Proof.
  unfold Migration.createSchema. intros E Hf.
  apply bind_inv in E as (e1 & w1 & E1 & E). destruct (failed e1) eqn:F1; [by returned E|].
  apply bind_inv in E as (e & wb & Eb & E).
  destruct (failed e) eqn:Fe.
  { apply bind_inv in E as (er & wr & _ & E). returned E. congruence. }
  returned E. apply bind_inv in Eb as (e2 & w2 & E2 & Eb).
  destruct (failed e2) eqn:F2; [by returned Eb|].
  apply bind_inv in Eb as (e3 & w3 & E3 & Eb). destruct (failed e3) eqn:F3; [by returned Eb|].
  apply bind_inv in Eb as (e4 & w4 & E4 & Eb). destruct (failed e4) eqn:F4; [by returned Eb|].
  returned Eb.
  apply (statements_ok_app _ [_] w1); [by eapply statement_ok|].
  apply (statements_ok_app _ [_] w2); [by eapply statement_ok|].
  apply (statements_ok_app _ [_] w3); by eapply statement_ok.
Qed.

(** What ensuring the schema sends: nothing, unless the configuration asks for a
    schema of a database that has them. *)
Definition schema_statements (cfg : Migration) (databaseURL : string) : list string :=
  let parsed := (url_ParseURL databaseURL).1 in
  if cfg.(Migration_CreateSchema) && (cfg.(Migration_Schema) != "")
     && negb (HasPrefix cfg.(Migration_DatabaseURL) "mysql://")
  then ["open postgres " +:+ url_String (url_SetQuery
          (delete "x-migrations-table" (url_Query parsed)) parsed); "BEGIN";
        Migration.advisory_lock cfg.(Migration_Schema);
        Migration.create_statement cfg.(Migration_Schema); "COMMIT"]
  else [].

Lemma ensureSchema_ok cfg url w err w' :
  Migration.ensureSchema (DB := DB) cfg url w = (err, w') → failed err = false →
  statements_ok w (schema_statements cfg url) w' ∧
  (schema_statements cfg url ≠ [] → validMigrationTable cfg.(Migration_Schema) = true).
Proof.
  unfold Migration.ensureSchema, schema_statements. intros E Hf.
  destruct (Migration_CreateSchema cfg), (Migration_Schema cfg == ""), (HasPrefix _ _);
    cbn [negb orb andb] in E |- *; try (returned E; split; [apply statements_ok_nil|done]).
  destruct (negb (validMigrationTable _)) eqn:Ev; [by returned E|]. apply negb_false_iff in Ev.
  split; [|done]. destruct (url_ParseURL url) as [parsed perr]. cbn [fst].
  destruct (failed perr) eqn:Fp; [by returned E|]. cbv zeta in E.
  apply bind_inv in E as (e1 & w1 & E1 & E). destruct (failed e1) eqn:F1; [by returned E|].
  apply bind_inv in E as (e2 & w2 & E2 & E). destruct (failed e2) eqn:F2; [by returned E|].
  returned E. apply (statements_ok_app _ [_] w1); [by eapply statement_ok|by eapply createSchema_ok].
Qed.

(** Closing the migrator, which fails if the run, the source or the database did. *)
Lemma close_migrator_ok runErr w err w' :
  Migration.close_migrator (DB := DB) runErr w = (err, w') → failed err = false →
  statements_ok w ["close source"; "close database"] w' ∧ runErr = nil_err.
Proof.
  unfold Migration.close_migrator. intros E Hf.
  apply bind_inv in E as (e1 & w1 & E1 & E). apply bind_inv in E as (e2 & w2 & E2 & E). returned E.
  destruct (failed e1) eqn:F1, (failed e2) eqn:F2; try (by destruct runErr).
  split; [|by apply failed_nil].
  apply (statements_ok_app _ [_] w1); by eapply statement_ok.
Qed.

(** C39 When a migration run succeeds, it sent exactly these statements in this
    order: those that ensure the schema (when the configuration asks for one: a
    transaction that takes the advisory lock and creates it, in the database of the
    migration and under a valid name), the making of the migrator, one step (the
    steps, the way down or the way up), and the closing of the migrator's source
    and database.  All of them were answered without an error, except that the
    step may have found nothing to change; the service's tables are not touched. *)
Theorem Run_success cfg direction steps w w' :
  Migration.Run (DB := DB) cfg direction steps w = (nil_err, w') →
  ∃ absPath url,
    filepath_Abs cfg.(Migration_Path) = (absPath, nil_err) ∧
    Migration.withMigrationOptions cfg.(Migration_DatabaseURL) cfg.(Migration_DatabaseName)
      cfg.(Migration_Table) cfg.(Migration_Schema) = (url, nil_err) ∧
    let schema := schema_statements cfg url in
    let first := schema ++ ["migrate " +:+ url_file absPath +:+ " " +:+ url] in
    let step := Migration.run_step direction steps in
    let last := ["close source"; "close database"] in
    (schema ≠ [] → validMigrationTable cfg.(Migration_Schema) = true) ∧
    ∃ w1 w2, statements_ok w first w1 ∧
      (ext_migrate (w_tick w1) step = nil_err ∨
       error_is (ext_migrate (w_tick w1) step) ErrNoChange = true) ∧
      w2 = mkWorld (w_db w1) (S (w_tick w1)) (w_log w1 ++ [EvMigrate step]) ∧
      statements_ok w2 last w' ∧
      w_db w' = w_db w ∧ w_log w' = w_log w ++ map EvMigrate (first ++ [step] ++ last).
Proof.
  unfold Migration.Run. destruct (_ == _); [done|].
  destruct (filepath_Abs _) as [absPath aerr] eqn:Ea. destruct (failed aerr) eqn:Ef; [by destruct aerr|].
  apply failed_nil in Ef as ->.
  destruct (Migration.withMigrationOptions _ _ _ _) as [url uerr] eqn:Eu.
  destruct (failed uerr) eqn:Ef; [by destruct uerr|]. apply failed_nil in Ef as ->.
  intros E. exists absPath, url. do 2 (split; [done|]). cbv zeta.
  apply bind_inv in E as (e1 & w1 & E1 & E). destruct (failed e1) eqn:F1; [by destruct e1; returned E|].
  apply ensureSchema_ok in E1 as [Hs1 Hv]; [|done]. split; [done|].
  apply bind_inv in E as (e2 & w2 & E2 & E). destruct (failed e2) eqn:F2; [by returned E|].
  apply statement_ok in E2; [|done]. pose proof (statements_ok_app _ _ _ _ _ Hs1 E2) as Hs2.
  apply bind_inv in E as (e3 & w3 & E3 & E). rewrite statement_run in E3. injection E3 as <- <-.
  apply close_migrator_ok in E as [Hs3 Hr]; [|done].
  exists w2. eexists. split; [exact Hs2|]. split_and!; [|reflexivity|exact Hs3| |].
  - destruct (failed _ && _) eqn:Eb; [discriminate Hr|].
    apply andb_false_iff in Eb as [Eb|Eb]; [left; by apply failed_nil|right; by apply negb_false_iff].
  - destruct Hs3 as [-> _], Hs2 as [-> _]. done.
  - destruct Hs3 as [-> _], Hs2 as [-> _]. cbn [w_log]. by rewrite !map_app, <- !app_assoc.
Qed.
End Run.
