(* ===== verification/Startup.v ===== *)
(** * Process start: loading the configuration, opening what it names

    internal/config (LoadWithProfile), internal/database (Open), internal/logging,
    internal/app and the goroutines' start and stop.  The configuration reader,
    the drivers, the event bus and the file system are libraries'. *)

From S2P Require Import Prelude GoStrings Config Effects Ratelimit Model Database Repository Service.
From S2P Require Import Dispatcher Cleanup Grpc GrpcClient Locking Migration Outbound.
Open Scope string_scope.
Open Scope list_scope.
Open Scope Z_scope.
Open Scope go_scope.

(** ** internal/config: LoadWithProfile *)
(** [viper] and [os.Stat]: a reader over the defaults; what it finds in a file
    and in the environment; its decoding into the configuration with the hooks
    for durations and string lists. *)
Class ViperLibrary := {
  Viper : Type;
  viper_New : Config → Viper;
  viper_BindEnv : Viper → Viper * error;
  viper_ReadInConfig : string → Viper → Viper * error;
  viper_NotFound : error → bool;                     (* viper.ConfigFileNotFoundError *)
  viper_MergeInConfig : string → Viper → Viper * error;
  viper_app_env : Viper → string;
  viper_SetEnv : string → Viper → Viper;
  viper_Unmarshal : Viper → Config * error;
  os_Stat : string → error;
  os_IsNotExist : error → bool }.

Section Load.
Context `{UnicodeTables} `{GoFmt} `{GoRange} `{ViperLibrary}.

(** The merge of the profile's file, when there is one. *)
Definition merge_profile (path profile : string) (v : Viper) : Viper * list string * error :=
  let profilePath := profileConfigPath path profile in
  if profilePath == path then (v, [path], nil_err) else
  let err := os_Stat profilePath in
  if is_nil err then
    let '(v, err) := viper_MergeInConfig profilePath v in
    if failed err then (v, [path], ErrWrap ("merge profile config " +:+ quote profilePath) err)
    else (v, [path; profilePath], nil_err)
  else if negb (os_IsNotExist err)
  then (v, [path], ErrWrap ("inspect profile config " +:+ quote profilePath) err)
  else (v, [path], nil_err).

Definition LoadWithProfile (path explicitProfile : string) : option Config * error :=
  let v := viper_New setDefaults in
  let '(v, err) := viper_BindEnv v in
  if failed err then (None, ErrWrap "bind environment profile" err) else
  let '(v, err) := viper_ReadInConfig path v in
  if failed err && ((path != "") || negb (viper_NotFound err))
  then (None, ErrWrap "read config" err) else
  let '(profile, err) := selectProfile explicitProfile (viper_app_env v) in
  if failed err then (None, err) else
  let '(v, loadedFiles, err) := merge_profile path profile v in
  if failed err then (None, err) else
  let '(cfg, err) := viper_Unmarshal (viper_SetEnv profile v) in
  if failed err then (None, ErrWrap "decode config" err) else
  let cfg := { cfg with Config_Migration ::= (λ m, { m with
    Migration_Schema := cfg.(Config_Database).(Database_Schema);
    Migration_DatabaseName := cfg.(Config_Database).(Database_Name) }) } in
  let err := Validate cfg in
  if failed err then (None, err) else
  (Some { cfg with Config_Runtime := mkRuntime profile loadedFiles }, nil_err).
Definition Load (path : string) : option Config * error := LoadWithProfile path "".

(** What holds of a configuration loaded from [path]: it passed validation, its
    profile is a proper name, which is also the one reported, its files are the
    given one and at most the profile's, and the migrations work on the schema and
    the database that the service uses. *)
Record loaded (path : string) (cfg : Config) : Prop := {
  loaded_valid : Validate cfg = nil_err;
  loaded_profile : validProfile cfg.(Config_Runtime).(Runtime_ActiveProfile) = true;
  loaded_files :
    cfg.(Config_Runtime).(Runtime_ConfigFiles) = [path] ∨
    cfg.(Config_Runtime).(Runtime_ConfigFiles) =
      [path; profileConfigPath path cfg.(Config_Runtime).(Runtime_ActiveProfile)];
  loaded_schema : cfg.(Config_Migration).(Migration_Schema) = cfg.(Config_Database).(Database_Schema);
  loaded_database :
    cfg.(Config_Migration).(Migration_DatabaseName) = cfg.(Config_Database).(Database_Name) }.

Lemma LoadWithProfile_loaded path explicitProfile cfg :
  LoadWithProfile path explicitProfile = (Some cfg, nil_err) → loaded path cfg.
Proof.
  unfold LoadWithProfile. destruct (viper_BindEnv _) as [v1 e1]. destruct (failed e1); [done|].
  destruct (viper_ReadInConfig path v1) as [v2 e2]. destruct (_ && _); [done|].
  unfold selectProfile. set (profile := if _ == "" then _ else _).
  destruct (validProfile profile) eqn:Ep; [|done]. cbn [negb failed is_nil].
  destruct (merge_profile path profile v2) as [[v3 files] e3] eqn:Em.
  destruct (failed e3) eqn:Ef; [by destruct e3|]. apply failed_nil in Ef as ->.
  destruct (viper_Unmarshal _) as [c e4]. destruct (failed e4); [done|].
  set (c' := { c with Config_Migration ::= _ }). destruct (failed (Validate c')) eqn:Ev.
  { intros [= Hv]. }
  apply failed_nil in Ev. intros [= <-]. split; [exact Ev|exact Ep| |done|done].
  change (files = [path] ∨ files = [path; profileConfigPath path profile]).
  revert Em. unfold merge_profile. destruct (_ == path); [intros [= _ <-]; by left|].
  destruct (is_nil _).
  - destruct (viper_MergeInConfig _ _) as [v4 e5]. destruct (failed e5); [done|]. intros [= _ <-]. by right.
  - destruct (negb _); [done|]. intros [= _ <-]. by left.
Qed.

(** A configuration comes back exactly when there is no error. *)
Lemma LoadWithProfile_error path explicitProfile c err :
  LoadWithProfile path explicitProfile = (c, err) →
  match c with Some _ => err = nil_err | None => err ≠ nil_err end.
Proof.
  unfold LoadWithProfile. destruct (viper_BindEnv _) as [v1 e1].
  destruct (failed e1); [by intros [= <- <-]|].
  destruct (viper_ReadInConfig path v1) as [v2 e2]. destruct (_ && _); [by intros [= <- <-]|].
  destruct (selectProfile _ _) as [profile e3]. destruct (failed e3) eqn:E3.
  { intros [= <- <-]. by apply failed_not_nil in E3. }
  destruct (merge_profile _ _ _) as [[v3 files] e4]. destruct (failed e4) eqn:E4.
  { intros [= <- <-]. by apply failed_not_nil in E4. }
  destruct (viper_Unmarshal _) as [c0 e5]. destruct (failed e5); [by intros [= <- <-]|].
  cbv zeta. destruct (failed (Validate _)) eqn:Ev; intros [= <- <-]; [|done].
  by apply failed_not_nil in Ev.
Qed.
End Load.
