(* ===== verification/Wiring.v ===== *)
(** * internal/app: what the process opens, and what it closes again

    internal/database (Open), internal/logging (New), internal/observability
    (NewTracing), internal/idempotency (New), internal/authorization (New) and the
    constructors of internal/app that the dependency container calls.  A resource
    is opened ([EvOpen]), closed ([EvClose]) or given a stop hook ([EvOnStop]); the
    container runs the hooks in the reverse order when the process stops. *)

From S2P Require Import Prelude GoStrings Config Connections Effects Model Database Service Handlers.
From S2P Require Import Outbound GrpcClient Locking Migration.
Open Scope string_scope.
Open Scope list_scope.
Open Scope Z_scope.
Open Scope go_scope.

(** ** internal/database: Open *)
(** The configuration of a connection: what the driver read from the DSN
    ([server]: host, credentials and options) and the fields the service sets. *)
Record PgxConfig := mkPgxConfig {
  Pgx_server : string; Pgx_Database : string; Pgx_RuntimeParams : gmap string string }.
Record MySQLConfig := mkMySQLConfig {
  MySQL_server : string; MySQL_DBName : string; MySQL_ParseTime : bool; MySQL_Loc : string }.
Inductive DataSource := PgxSource (config : PgxConfig) | DSNSource (driver dsn : string).
Record Pool := mkPool {
  Pool_source : DataSource; Pool_MaxOpenConns : Z; Pool_MaxIdleConns : Z;
  Pool_ConnMaxLifetime : Z; Pool_ConnMaxIdleTime : Z }.

(** The drivers' DSN parsers, the time zones of the machine, [sqlx.Open]. *)
Class Drivers := {
  pgx_ParseConfig : string → PgxConfig * error;
  mysql_ParseDSN : string → MySQLConfig * error;
  mysql_FormatDSN : MySQLConfig → string;
  time_LoadLocation : string → error;
  sqlx_Open : string → string → error }.

(** The log directory, the level's text, the trace exporter, the store of the
    outbox: what the platform's libraries answer. *)
Class Platform := {
  filepath_Dir : string → string;
  os_MkdirAll : string → error;
  slog_UnmarshalText : string → Z * error;
  otlptracehttp_New : string → error;
  redisotel_InstrumentTracing : error;
  outbox_NewSQLStore : string → error;
  eventbus_New : list string → error;
  outbox_New : error;
  outbox_NewRetentionCleaner : error;
  eventbus_Close : error }.

Definition china : string := "Asia/Shanghai".
Definition given (new old : string) : string := if new != "" then new else old.

Section Open.
Context `{Externals} `{GoFmt} `{Drivers} {DB : Type}.

Definition pgx_source (cfg : Database) : option DataSource * error :=
  let '(c, err) := pgx_ParseConfig cfg.(Database_DSN) in
  if failed err then (None, ErrWrap "parse database dsn" err) else
  let c := { c with Pgx_Database ::= given cfg.(Database_Name) } in
  let c := if cfg.(Database_Schema) != ""
    then { c with Pgx_RuntimeParams ::= <["search_path" := cfg.(Database_Schema)]> } else c in
  (Some (PgxSource { c with Pgx_RuntimeParams ::= <["timezone" := china]> }), nil_err).

Definition open_source (driver dsn : string) : option DataSource * error :=
  let err := sqlx_Open driver dsn in
  if failed err then (None, ErrWrap "open database" err) else (Some (DSNSource driver dsn), nil_err).

Definition mysql_source (driver : string) (cfg : Database) : option DataSource * error :=
  let '(c, err) := mysql_ParseDSN cfg.(Database_DSN) in
  if failed err then (None, ErrWrap "parse database dsn" err) else
  let c := { c with MySQL_DBName ::= given cfg.(Database_Name) } in
  let err := time_LoadLocation china in
  if failed err then (None, ErrWrap "load database timezone" err) else
  open_source driver (mysql_FormatDSN { c with MySQL_ParseTime := true; MySQL_Loc := china }).

Definition data_source (driver : string) (cfg : Database) : option DataSource * error :=
  if driver == "pgx" then pgx_source cfg
  else if driver == "mysql" then mysql_source driver cfg
  else open_source driver cfg.(Database_DSN).

Definition pool_of (source : DataSource) (cfg : Database) : Pool := {|
  Pool_source := source; Pool_MaxOpenConns := cfg.(Database_MaxOpenConns);
  Pool_MaxIdleConns := cfg.(Database_MaxIdleConns);
  Pool_ConnMaxLifetime := cfg.(Database_ConnMaxLifetime);
  Pool_ConnMaxIdleTime := cfg.(Database_ConnMaxIdleTime) |}.

Definition Open (cfg : Database) : IO DB (option Pool * error) :=
  let '(driver, err) := driverName cfg.(Database_Type) in
  when! failed err return! (None, err);
  match data_source driver cfg with
  | (None, err) => ret (None, err)
  | (Some source, _) =>
      emit (EvOpen "database") ;; emit (EvPing "database") ;;
      let! n := tick in
      let err := ext_ping n "database" in
      if failed err
      then emit (EvClose "database") ;; ret (None, ErrWrap "ping database" err)
      else ret (Some (pool_of source cfg), nil_err)
  end.
End Open.

(** ** internal/logging: New *)
Record Logger := mkLogger {
  Logger_rotator : Log; Logger_level : Z; Logger_text : bool;
  Logger_service : string; Logger_environment : string }.
(** internal/observability: [Tracing], with the exporter's endpoint, the
    resource's name and version and the sampled share. *)
Record Tracing := mkTracing {
  Tracing_enabled : bool; Tracing_provider : option (string * string * string * Float64) }.
(** The configuration the idempotency library is given. *)
Record ManagerConfig := mkManagerConfig {
  Manager_On : bool; Manager_Service : string; Manager_ProcessingTTL : Z;
  Manager_ResultTTL : Z; Manager_FailureTTL : Z }.
(** [appaccess.Verifier]: the disabled one, or the client of the application
    service over a connection of the registry. *)
Inductive ApplicationVerifier :=
  | disabledApplicationVerifier
  | GRPCVerifier (connection : ClientConn) (timeout : Z).

Module Wiring.
Section Constructors.
Context `{Externals} `{UnicodeTables} `{GoFmt} `{Drivers} `{Platform} {DB : Type}.

Definition logging_New (cfg : Log) : option Logger * error :=
  let err := os_MkdirAll (filepath_Dir cfg.(Log_File)) in
  if failed err then (None, ErrWrap "create log directory" err) else
  let '(level, err) := slog_UnmarshalText (ToLower cfg.(Log_Level)) in
  if failed err then (None, ErrWrap "parse log level" err) else
  (Some (mkLogger cfg level (cfg.(Log_Format) == "text") "" ""), nil_err).

Definition newLogger (cfg : Config) : IO DB (option Logger * error) :=
  match logging_New cfg.(Config_Log) with
  | (Some logger, nil_err) =>
      emit (EvOpen "log") ;; emit (EvOnStop "log") ;;
      ret (Some { logger with
        Logger_service := cfg.(Config_App).(App_Name);
        Logger_environment := cfg.(Config_Runtime).(Runtime_ActiveProfile) }, nil_err)
  | (_, err) => ret (None, err)
  end.

(** [version] is [buildinfo.Version]; with an error the pointer is nil, and nobody
    looks at it. *)
Definition NewTracing (version : string) (cfg : Config) : IO DB (Tracing * error) :=
  let o := cfg.(Config_Observability) in
  when! negb o.(Observability_TracingEnabled) return! (mkTracing false None, nil_err);
  let err := otlptracehttp_New o.(Observability_TracingEndpoint) in
  when! failed err return! (mkTracing false None, ErrWrap "create OTLP trace exporter" err);
  emit (EvOpen "tracing") ;; emit (EvOnStop "tracing") ;;
  ret (mkTracing true (Some (o.(Observability_TracingEndpoint), cfg.(Config_App).(App_Name),
         version, o.(Observability_TracingSampleRatio))), nil_err).

Definition newDatabase (cfg : Config) : IO DB (option Pool * error) :=
  when! negb cfg.(Config_Database).(Database_Enabled) return! (None, nil_err);
  let! (db, err) := Open cfg.(Config_Database) in
  when! failed err return! (None, err);
  emit (EvOnStop "database") ;; ret (db, nil_err).

Definition newRedis (cfg : Config) (tracing : Tracing) : IO DB (bool * error) :=
  when! negb cfg.(Config_Redis).(Redis_Enabled) return! (false, nil_err);
  let! (client, err) := Cache.Open cfg.(Config_Redis) in
  when! failed err return! (false, err);
  if Tracing_enabled tracing && failed redisotel_InstrumentTracing
  then emit (EvClose "redis") ;;
       ret (false, ErrWrap "instrument redis tracing" redisotel_InstrumentTracing)
  else emit (EvOnStop "redis") ;; ret (client, nil_err).

(** [cache.NewLocker] wraps the client. *)
Definition newLocker (client : bool) : option bool := if client then Some client else None.

Definition newNotificationOutboxStore (db : option Pool) : option string * error :=
  match db with
  | None => (None, nil_err)
  | Some _ =>
      let err := outbox_NewSQLStore "notification_outbox_events" in
      if failed err then (None, err) else (Some "notification_outbox_events", nil_err)
  end.

Definition newApplicationVerifier (cfg : Config) (registry : option GrpcClient.FullRegistry)
    : option ApplicationVerifier * error :=
  if negb cfg.(Config_Database).(Database_Enabled)
  then (Some disabledApplicationVerifier, nil_err) else
  match registry with
  | None => (None, ErrMsg "notification service requires outbound registry")
  | Some registry =>
      match GrpcClient.GRPC registry "application" with
      | None => (None, ErrMsg "notification service requires outbound.grpc.application")
      | Some connection => (Some (GRPCVerifier connection (2 * second)), nil_err)
      end
  end.

(** [authorization.New] *)
Definition newAuthorizer (registry : GrpcClient.FullRegistry) : Authorizer :=
  mkAuthorizer (GrpcClient.GRPC registry "authorization") (2 * second).

(** [idempotency.New] *)
Definition newManager (cfg : Config) : ManagerConfig :=
  let i := cfg.(Config_Idempotency) in
  mkManagerConfig i.(Idempotency_Enabled) cfg.(Config_App).(App_Name)
    i.(Idempotency_ProcessingTTL) i.(Idempotency_ResultTTL) i.(Idempotency_FailureTTL).

(** *** internal/app/eventbus.go *)
(** The runtime's fields that [start] sets: the cancel function, the bus, and the
    goroutines that are not yet waited for (the dispatch loop, the cleanup loop) with
    their periods.  A loop is a resource of its own in the log of the run: opened where
    it is started, closed where [wg.Wait] returns, which it does when the loop has
    ended. *)
Record EventRuntime := mkEventRuntime {
  Runtime_cancel : bool; Runtime_bus : bool; Runtime_loops : list (string * Z) }.
Definition new_runtime : EventRuntime := mkEventRuntime false false [].
Definition dispatch_loop : string := "outbox dispatch loop".
Definition cleanup_loop : string := "outbox cleanup loop".

Definition event_start (cfg : Config) (store : option string) : IO DB (EventRuntime * error) :=
  let r := new_runtime in
  let e := cfg.(Config_EventBus) in
  when! negb e.(EventBus_Enabled) return! (r, nil_err);
  match store with
  | None => ret (r, ErrMsg "enabled event bus requires database outbox")
  | Some store =>
      let err := eventbus_New e.(EventBus_URLs) in
      when! failed err return! (r, err);
      emit (EvOpen "event bus") ;;
      if failed outbox_New then emit (EvClose "event bus") ;; ret (r, outbox_New) else
      let r := { r with Runtime_bus := true; Runtime_cancel := true } in
      if failed outbox_NewRetentionCleaner
      then emit (EvClose "event bus") ;; ret (r, outbox_NewRetentionCleaner) else
      emit (EvOpen dispatch_loop) ;; emit (EvOpen cleanup_loop) ;;
      ret ({ r with Runtime_loops :=
             [(dispatch_loop, e.(EventBus_DispatchInterval));
              (cleanup_loop, e.(EventBus_CleanupInterval))] }, nil_err)
  end.

(** [cancel] and [wg.Wait]: every loop that runs ends. *)
Fixpoint wait_loops (loops : list (string * Z)) : IO DB unit :=
  match loops with
  | [] => ret tt
  | loop :: loops => emit (EvClose loop.1) ;; wait_loops loops
  end.
(** [stop] cancels and waits for the loops before it closes the bus. *)
Definition event_stop (r : EventRuntime) : IO DB (EventRuntime * error) :=
  let! r := if Runtime_cancel r
            then wait_loops (Runtime_loops r) ;; ret { r with Runtime_loops := [] }
            else ret r in
  if Runtime_bus r then emit (EvClose "event bus") ;; ret (r, eventbus_Close) else ret (r, nil_err).

End Constructors.
End Wiring.

(** ** A database connection is what the configuration asks for *)
Section Sources.
Context `{Externals} `{GoFmt} `{Drivers} {DB : Type}.

Lemma pgx_source_spec cfg source err :
  pgx_source cfg = (source, err) →
  match source with
  | Some source =>
      err = nil_err ∧ ∃ parsed c, pgx_ParseConfig cfg.(Database_DSN) = (parsed, nil_err) ∧
      source = PgxSource c ∧ Pgx_server c = Pgx_server parsed ∧
      Pgx_Database c = given cfg.(Database_Name) (Pgx_Database parsed) ∧
      Pgx_RuntimeParams c !! "timezone" = Some china ∧
      (cfg.(Database_Schema) ≠ "" →
       Pgx_RuntimeParams c !! "search_path" = Some cfg.(Database_Schema)) ∧
      (∀ key, key ≠ "timezone" → key ≠ "search_path" →
       Pgx_RuntimeParams c !! key = Pgx_RuntimeParams parsed !! key)
  | None => err ≠ nil_err
  end.
Proof.
  unfold pgx_source. destruct (pgx_ParseConfig _) as [parsed perr] eqn:Ep.
  destruct (failed perr) eqn:Ef; [by intros [= <- <-]|]. apply failed_nil in Ef as ->.
  intros [= <- <-]. split; [done|]. exists parsed. eexists. split; [done|]. split; [reflexivity|].
  destruct parsed as [server database params]. case_bool_decide as Es; cbn.
  - split_and!; [done|done|by simplify_map_eq|done|by (intros key ? ?; simplify_map_eq)].
  - split_and!; [done|done|by simplify_map_eq|by simplify_map_eq|by (intros key ? ?; simplify_map_eq)].
Qed.

Lemma data_source_error driver cfg err : data_source driver cfg = (None, err) → err ≠ nil_err.
Proof.
  unfold data_source. case_bool_decide; [by intros E%pgx_source_spec|].
  assert (∀ d dsn, open_source d dsn = (None, err) → err ≠ nil_err) as Ho.
  { intros d dsn. unfold open_source. destruct (failed _) eqn:E; [by intros [= <-]|done]. }
  case_bool_decide; [|apply Ho]. unfold mysql_source.
  destruct (mysql_ParseDSN _) as [c e]. destruct (failed e); [by intros [= <-]|].
  destruct (failed _); [by intros [= <-]|apply Ho].
Qed.

(** The opened pool is pinged, and closed when that fails. *)
Lemma Open_spec cfg (w : World DB Event) pool err w' :
  Open cfg w = ((pool, err), w') →
  w_db w' = w_db w ∧
  match pool with
  | Some pool =>
      err = nil_err ∧ w_log w' = w_log w ++ [EvOpen "database"; EvPing "database"] ∧
      ∃ driver source e, driverName cfg.(Database_Type) = (driver, nil_err) ∧
        data_source driver cfg = (Some source, e) ∧ pool = pool_of source cfg
  | None =>
      err ≠ nil_err ∧ (w_log w' = w_log w ∨
        w_log w' = w_log w ++ [EvOpen "database"; EvPing "database"; EvClose "database"])
  end.
Proof.
  unfold Open. destruct (driverName _) as [driver derr] eqn:Ed.
  destruct (failed derr) eqn:Ef.
  { intros E. returned E. apply failed_not_nil in Ef. auto. }
  apply failed_nil in Ef as ->. destruct (data_source driver cfg) as [[source|] e] eqn:Es.
  - unfold bind, emit, tick. destruct w as [db t log]. cbn.
    destruct (failed _) eqn:Ep; unfold ret; intros [= <- <- <-]; cbn; rewrite <- !app_assoc.
    + auto.
    + split; [done|]. split; [done|]. split; [done|]. eauto 10.
  - intros E. returned E. apply data_source_error in Es. auto.
Qed.

(** A PostgreSQL or KingBase pool that opens was pinged, works in the
    configured schema and database, in the zone of the service's timestamps, and
    keeps every other parameter of the DSN; the pool has the configured limits.
    A failed ping closes the pool again. *)
Theorem Open_session cfg (w : World DB Event) pool err w' :
  cfg.(Database_Type) ≠ "mysql" →
  Open cfg w = ((pool, err), w') →
  w_db w' = w_db w ∧
  match pool with
  | Some pool =>
      err = nil_err ∧ w_log w' = w_log w ++ [EvOpen "database"; EvPing "database"] ∧
      ∃ parsed c, pgx_ParseConfig cfg.(Database_DSN) = (parsed, nil_err) ∧
        pool = pool_of (PgxSource c) cfg ∧ Pgx_server c = Pgx_server parsed ∧
        Pgx_Database c = given cfg.(Database_Name) (Pgx_Database parsed) ∧
        Pgx_RuntimeParams c !! "timezone" = Some china ∧
        (cfg.(Database_Schema) ≠ "" →
         Pgx_RuntimeParams c !! "search_path" = Some cfg.(Database_Schema)) ∧
        (∀ key, key ≠ "timezone" → key ≠ "search_path" →
         Pgx_RuntimeParams c !! key = Pgx_RuntimeParams parsed !! key)
  | None =>
      err ≠ nil_err ∧ (w_log w' = w_log w ∨
        w_log w' = w_log w ++ [EvOpen "database"; EvPing "database"; EvClose "database"])
  end.
Proof.
  intros Ht E. apply Open_spec in E as (Hd & Hp). split; [done|].
  destruct pool as [pool|]; [|done]. destruct Hp as (-> & Hl & driver & source & e & Hn & Hs & ->).
  split; [done|]. split; [done|].
  assert (driver = "pgx") as ->.
  { revert Hn. unfold driverName. rewrite bool_decide_eq_false_2 by done.
    destruct (_ || _); congruence. }
  apply pgx_source_spec in Hs as (_ & parsed & c & Hpc & -> & Hr). by exists parsed, c.
Qed.
End Sources.

(** ** No resource is left open *)
Definition is_open (r : string) (e : Event) : bool :=
  match e with EvOpen r' => r == r' | _ => false end.
Definition is_close (r : string) (e : Event) : bool :=
  match e with EvClose r' => r == r' | _ => false end.
Definition is_hook (r : string) (e : Event) : bool :=
  match e with EvOnStop r' => r == r' | _ => false end.
Definition is_migrate (e : Event) : bool := match e with EvMigrate _ => true | _ => false end.
Definition count (p : Event → bool) (l : list Event) : nat := length (List.filter p l).
Lemma count_app p l1 l2 : count p (l1 ++ l2) = (count p l1 + count p l2)%nat.
Proof. unfold count. by rewrite List.filter_app, length_app. Qed.
Lemma count_cons p e l : count p (e :: l) = ((if p e then 1 else 0) + count p l)%nat.
Proof. unfold count. cbn. by destruct (p e). Qed.
Lemma count_nil p : count p [] = 0%nat.
Proof. done. Qed.

(** Whatever was opened was closed again or has its stop hook. *)
Definition balanced (l : list Event) : Prop :=
  ∀ r, count (is_open r) l = (count (is_close r) l + count (is_hook r) l)%nat.
Lemma balanced_app l1 l2 : balanced l1 → balanced l2 → balanced (l1 ++ l2).
Proof. intros H1 H2 r. rewrite !count_app, (H1 r), (H2 r). lia. Qed.

(** Events about the resource [r] alone; nothing is migrated. *)
Definition about (r : string) (e : Event) : Prop :=
  match e with
  | EvOpen r' | EvClose r' | EvOnStop r' => r' = r
  | EvMigrate _ => False
  | _ => True
  end.
(** A constructor's run: it touches neither the tables nor another resource than [r],
    what it opened is closed or hooked, and it is hooked exactly when the constructor
    succeeds with a value that needs it. *)
Definition constructs (r : string) {DB A} (hooked : A → bool) (m : IO DB (A * error)) : Prop :=
  ∀ w a err w', m w = ((a, err), w') →
  w_db w' = w_db w ∧ ∃ l, w_log w' = w_log w ++ l ∧ Forall (about r) l ∧ balanced l ∧
  count (is_hook r) l = (if is_nil err && hooked a then 1 else 0)%nat.

Ltac balance :=
  intros; try intros ?; rewrite ?count_cons, ?count_nil; cbn; repeat case_bool_decide; done.
(** A constructor that added the events [l]. *)
Ltac added l :=
  split; [done|]; exists l; split; [cbn; by rewrite ?app_nil_r, <- ?app_assoc|];
  split; [by repeat constructor|]; split; [balance|].

Section Release.
Context `{Externals} `{UnicodeTables} `{GoFmt} `{Drivers} `{Platform} {DB : Type}.

Lemma constructs_ret r {A} (hooked : A → bool) a err :
  is_nil err && hooked a = false → constructs (DB := DB) r hooked (ret (a, err)).
Proof. intros Hn w a' err' w' E. returned E. added (@nil Event). by rewrite Hn. Qed.
(** Open it and give it its hook. *)
Lemma constructs_hooked {A} r (hooked : A → bool) a :
  hooked a = true →
  constructs (DB := DB) r hooked (emit (EvOpen r) ;; emit (EvOnStop r) ;; ret (a, nil_err)).
Proof.
  intros Hh w a' err' w' [= <- <- <-]. added [EvOpen r; EvOnStop r]. rewrite Hh, !count_cons, count_nil.
  cbn. by rewrite bool_decide_eq_true_2.
Qed.

Definition present {A} (o : option A) : bool := match o with Some _ => true | None => false end.

Lemma newLogger_constructs cfg : constructs (DB := DB) "log" present (Wiring.newLogger cfg).
Proof.
  unfold Wiring.newLogger.
  destruct (Wiring.logging_New _) as [[l|] []]; solve [by apply constructs_ret|by apply constructs_hooked].
Qed.
Lemma NewTracing_constructs version cfg :
  constructs (DB := DB) "tracing" Tracing_enabled (Wiring.NewTracing version cfg).
Proof.
  unfold Wiring.NewTracing. destruct (negb _); [by apply constructs_ret|].
  destruct (failed _); [by apply constructs_ret|by apply constructs_hooked].
Qed.
Lemma newDatabase_constructs cfg : constructs (DB := DB) "database" present (Wiring.newDatabase cfg).
Proof.
  unfold Wiring.newDatabase. destruct (negb _); [by apply constructs_ret|].
  intros w a err w' E. apply bind_inv in E as ([pool e] & w1 & E1 & E).
  apply Open_spec in E1 as (Hd & Hp). destruct pool as [pool|].
  - destruct Hp as (-> & Hl & _). injection E as <- <- <-. split; [done|].
    exists [EvOpen "database"; EvPing "database"; EvOnStop "database"].
    split; [cbn; by rewrite Hl, <- app_assoc|]. split; [by repeat constructor|]. split; [balance|done].
  - destruct Hp as (Hf & Hl). apply failed_not_nil in Hf. rewrite Hf in E. returned E. split; [done|].
    apply negb_true_iff in Hf. rewrite Hf. destruct Hl as [Hl|Hl].
    + exists []. by rewrite app_nil_r.
    + eexists. split; [exact Hl|]. split; [by repeat constructor|]. split; [balance|done].
Qed.
Lemma newRedis_constructs cfg tracing :
  constructs (DB := DB) "redis" id (Wiring.newRedis cfg tracing).
Proof.
  unfold Wiring.newRedis. destruct (negb _); [by apply constructs_ret|].
  intros w a err w'. unfold Cache.Open, bind, emit, tick. cbn.
  set (redis := cfg.(Config_Redis).(Redis_Address)).
  destruct (failed (ext_ping (w_tick w) redis)) eqn:Ep; cbn.
  { intros [= <- <- <-]. by added [EvOpen "redis"; EvPing redis; EvClose "redis"]. }
  destruct (_ && _); intros [= <- <- <-].
  - by added [EvOpen "redis"; EvPing redis; EvClose "redis"].
  - by added [EvOpen "redis"; EvPing redis; EvOnStop "redis"].
Qed.

(** What a start of the event runtime leaves: nothing, a bus that was closed again
    after an error, or the bus and its two loops. *)
Lemma event_start_spec cfg store (w : World DB Event) r err w' :
  Wiring.event_start cfg store w = ((r, err), w') →
  w_db w' = w_db w ∧
  ((Wiring.Runtime_loops r = [] ∧
    ((w_log w' = w_log w ∧ Wiring.Runtime_bus r = false) ∨
     (failed err = true ∧ w_log w' = w_log w ++ [EvOpen "event bus"; EvClose "event bus"]))) ∨
   (err = nil_err ∧ Wiring.Runtime_bus r = true ∧ Wiring.Runtime_cancel r = true ∧
    map fst (Wiring.Runtime_loops r) = [Wiring.dispatch_loop; Wiring.cleanup_loop] ∧
    w_log w' = w_log w ++ [EvOpen "event bus"; EvOpen Wiring.dispatch_loop; EvOpen Wiring.cleanup_loop])).
Proof.
  unfold Wiring.event_start.
  destruct (negb (EventBus_Enabled _)); [intros E; returned E; by (split; [|left; split; [|left]])|].
  destruct store as [store|]; [|intros E; returned E; by (split; [|left; split; [|left]])].
  destruct (failed (eventbus_New _)) eqn:E1; [intros E; returned E; by (split; [|left; split; [|left]])|].
  destruct (failed outbox_New) eqn:E2; [|destruct (failed outbox_NewRetentionCleaner) eqn:E3].
  1, 2: intros [= <- <- <-]; split; [done|left; split; [done|right]]; cbn; by rewrite <- app_assoc.
  intros [= <- <- <-]. split; [done|right]. cbn. by rewrite <- !app_assoc.
Qed.

Lemma wait_loops_run loops (w : World DB Event) :
  Wiring.wait_loops loops w =
    (tt, mkWorld (w_db w) (w_tick w) (w_log w ++ map EvClose (map fst loops))).
Proof.
  revert w. induction loops as [|loop loops IH]; intros w; cbn [Wiring.wait_loops map].
  { rewrite app_nil_r. by destruct w. }
  unfold bind at 1, emit. rewrite IH. cbn. by rewrite <- app_assoc.
Qed.
(** A stop waits for every loop that runs, and then closes the bus. *)
Lemma event_stop_spec r (w : World DB Event) r' err w' :
  Wiring.event_stop r w = ((r', err), w') →
  (Wiring.Runtime_loops r ≠ [] → Wiring.Runtime_cancel r = true) →
  w_db w' = w_db w ∧ Wiring.Runtime_loops r' = [] ∧
  w_log w' = w_log w ++ map EvClose (map fst (Wiring.Runtime_loops r)) ++
    (if Wiring.Runtime_bus r then [EvClose "event bus"] else []).
Proof.
  unfold Wiring.event_stop. intros E Hc. destruct r as [cancel bus loops]. cbn in *.
  destruct cancel.
  - apply bind_inv in E as (r1 & w1 & E1 & E). unfold bind in E1.
    rewrite wait_loops_run in E1. injection E1 as <- <-. cbn in E.
    destruct bus; injection E as <- <- <-; cbn; rewrite ?app_nil_r, <- ?app_assoc; done.
  - destruct loops as [|loop loops]; [|by specialize (Hc ltac:(done))].
    destruct bus; injection E as <- <- <-; cbn; by rewrite ?app_nil_r.
Qed.

(** What a start migrates, and what comes before and after it. *)
Context `{URLQueries}.

Lemma runStartupMigration_sends cfg : sends (DB := DB) (Migration.runStartupMigration cfg).
Proof.
  unfold Migration.runStartupMigration. apply sends_if; [apply sends_ret|].
  apply sends_bind; [|intros e; apply sends_if; apply sends_ret].
  unfold Migration.Run. apply sends_if; [apply sends_ret|]. destruct (filepath_Abs _) as [p e].
  apply sends_if; [apply sends_ret|]. destruct (Migration.withMigrationOptions _ _ _ _) as [url e'].
  apply sends_if; [apply sends_ret|]. apply sends_bind; [apply ensureSchema_sends|intros e1].
  apply sends_if; [apply sends_ret|]. apply sends_bind; [apply statement_sends|intros e2].
  apply sends_if; [apply sends_ret|]. apply sends_bind; [apply statement_sends|intros e3].
  unfold Migration.close_migrator.
  apply sends_bind; [apply statement_sends|intros e4]. apply sends_bind; [apply statement_sends|intros e5].
  apply sends_ret.
Qed.
Lemma runStartupMigration_nil cfg (w : World DB Event) w' :
  Migration.runStartupMigration cfg w = (nil_err, w') →
  cfg.(Config_Migration).(Migration_AutoUp) = true →
  Migration.Run cfg.(Config_Migration) "up" 0 w = (nil_err, w').
Proof.
  unfold Migration.runStartupMigration. intros E Ha. rewrite Ha in E. cbn in E.
  apply bind_inv in E as (e & w1 & E1 & E). destruct (failed e) eqn:Ef; [by returned E|].
  apply failed_nil in Ef as ->. by returned E.
Qed.

Lemma newLogger_spec cfg (w : World DB Event) logger err w' :
  Wiring.newLogger cfg w = ((logger, err), w') →
  w_db w' = w_db w ∧
  match logger with
  | Some _ => w_log w' = w_log w ++ [EvOpen "log"; EvOnStop "log"]
  | None => err ≠ nil_err ∧ w_log w' = w_log w
  end.
Proof.
  unfold Wiring.newLogger. destruct (Wiring.logging_New _) as [l e] eqn:El.
  assert (l = None → e ≠ nil_err) as Hn.
  { revert El. unfold Wiring.logging_New. destruct (failed (os_MkdirAll _)); [by intros [= <- <-]|].
    destruct (slog_UnmarshalText _) as [lv le]. destruct (failed le); by intros [= <- <-]. }
  destruct l as [l|]; [|intros E; returned E; auto].
  assert (e = nil_err) as ->.
  { revert El. unfold Wiring.logging_New. destruct (failed (os_MkdirAll _)); [done|].
    destruct (slog_UnmarshalText _) as [lv le]. destruct (failed le); by intros [= <- <-]. }
  intros [= <- <- <-]. split; [done|]. cbn. by rewrite <- app_assoc.
Qed.

End Release.
