(* ===== verification/Container.v ===== *)
(** * internal/app: the container, from the constructors to the shutdown

    [app.New] gives [fx] the constructors and what is to be invoked.  A [Part] is a
    type that the container builds; [construct] is its constructor, run on the parts
    built so far.  In which order the container builds them is its own choice
    ([fx_schedule]): what the program relies on is documented ([FxLaws]): a constructor
    runs at most once, only when something invoked needs it, and after the constructors
    of its parameters.  A constructor may append a hook; the hooks start in the order in
    which they were appended and stop in the reverse order. *)

From S2P Require Import Prelude GoStrings Wire AppError Config Connections Reqctx Auth Effects Ratelimit Model.
From S2P Require Import Libraries Database Repository Service Outbound Dispatcher Cleanup Web Health.
From S2P Require Import Middleware Handlers HttpServer Grpc GrpcClient Locking Metrics Migration.
From S2P Require Import Wiring.
Open Scope string_scope.
Open Scope list_scope.
Open Scope Z_scope.
Open Scope go_scope.

(** ** The parts *)
Inductive Part :=
  | PLogger | PTracing | PDatabase | PTransactor | PRedis | PLocker | POutboxStore | PEventRuntime
  | PManager | PRepository | PVerifier | PService | PSenders | PDispatcher | PWorker | PCleaner
  | PMetrics | PRegistry | PAuthorizer | PScheduler | PAuth | PHealth | PLimiter | PHandler
  | PGRPC | PHTTP.
#[export] Instance Part_eq_dec : EqDecision Part.
Proof. solve_decision. Defined.

(** The parameters of each constructor that app.go provides, but for the lifecycle and the
    configuration, as the constructor's signature names them, in its order. *)
Module Params.
Definition newLogger : list Part := [].
Definition NewTracing : list Part := [].
Definition newDatabase : list Part := [].
Definition NewTransactor : list Part := [PDatabase].
Definition newRedis : list Part := [PTracing].
Definition newLocker : list Part := [PRedis].
Definition newNotificationOutboxStore : list Part := [PDatabase].
Definition newNotificationEventRuntime : list Part := [POutboxStore; PLogger].
Definition newManager : list Part := [PRedis].
Definition NewRepository : list Part := [PDatabase].
Definition newApplicationVerifier : list Part := [PRegistry].
Definition NewRuntimeService : list Part := [PRepository; PTransactor; PLimiter; PVerifier].
Definition NewSenderRegistry : list Part := [PRegistry].
Definition NewDispatcher : list Part := [PRepository; PTransactor; PSenders; PRegistry].
Definition NewWorker : list Part := [PDispatcher; PLogger].
Definition NewRetentionCleaner : list Part := [PRepository; PLogger].
Definition NewMetrics : list Part := [PDatabase; PRedis].
Definition NewRegistry : list Part := [PMetrics].
Definition newAuthorizer : list Part := [PRegistry].
Definition newScheduler : list Part := [PLocker; PMetrics; PLogger].
Definition newAuth : list Part := [].
Definition newHealth : list Part := [PDatabase; PRedis].
Definition newLimiter : list Part := [PRedis].
Definition NewHandler : list Part := [PHealth; PService; PLogger].
Definition newGRPCServer : list Part :=
  [PAuth; PAuthorizer; PHealth; PService; PManager; PMetrics; PLogger].
Definition newHTTPServer : list Part :=
  [PHandler; PAuth; PAuthorizer; PLimiter; PManager; PMetrics; PTracing; PLogger].
End Params.

(** What is provided: every part with its constructor's parameters. *)
Definition params (p : Part) : list Part :=
  match p with
  | PLogger => Params.newLogger | PTracing => Params.NewTracing
  | PDatabase => Params.newDatabase | PTransactor => Params.NewTransactor
  | PRedis => Params.newRedis | PLocker => Params.newLocker
  | POutboxStore => Params.newNotificationOutboxStore
  | PEventRuntime => Params.newNotificationEventRuntime
  | PManager => Params.newManager | PRepository => Params.NewRepository
  | PVerifier => Params.newApplicationVerifier | PService => Params.NewRuntimeService
  | PSenders => Params.NewSenderRegistry | PDispatcher => Params.NewDispatcher
  | PWorker => Params.NewWorker | PCleaner => Params.NewRetentionCleaner
  | PMetrics => Params.NewMetrics | PRegistry => Params.NewRegistry
  | PAuthorizer => Params.newAuthorizer | PScheduler => Params.newScheduler
  | PAuth => Params.newAuth | PHealth => Params.newHealth | PLimiter => Params.newLimiter
  | PHandler => Params.NewHandler | PGRPC => Params.newGRPCServer | PHTTP => Params.newHTTPServer
  end.

(** The parameters of the functions that the modules invoke, in the order of [New]:
    the migration, the database, the cache, the event bus, the worker and the cleaner,
    the outbound registry, the scheduler, the two servers. *)
Definition invoked : list (list Part) := [
  [PLogger]; [PDatabase; PLogger]; [PRedis; PLogger]; [PEventRuntime]; [PWorker; PCleaner];
  [PRegistry]; [PScheduler]; [PGRPC]; [PHTTP]].

(** What a part's resource is called in the log of the run: a connection, a file, or a
    goroutine of the process. *)
Definition resource (p : Part) : string :=
  match p with
  | PLogger => "log" | PTracing => "tracing" | PDatabase => "database" | PRedis => "redis"
  | PEventRuntime => "event bus" | PWorker => "worker" | PCleaner => "retention cleaner"
  | PRegistry => "outbound registry" | PScheduler => "scheduler" | PAuth => "token verifier"
  | PGRPC => "grpc server" | PHTTP => "http server"
  | PTransactor => "transactor" | PLocker => "locker" | POutboxStore => "outbox store"
  | PManager => "idempotency manager" | PRepository => "repository" | PVerifier => "verifier"
  | PService => "service" | PSenders => "senders" | PDispatcher => "dispatcher"
  | PMetrics => "metrics" | PAuthorizer => "authorizer" | PHealth => "health"
  | PLimiter => "limiter" | PHandler => "handler"
  end.

(** ** The container's choice *)
Class Container := fx_schedule : list (list Part).  (* the constructors run for each invocation *)
Definition requires (p q : Part) : Prop := q ∈ params p.
Class FxLaws `{Container} : Prop := {
  fx_length : length fx_schedule = length invoked;
  fx_once : NoDup (mjoin fx_schedule);
  fx_after_params l1 p l2 : mjoin fx_schedule = l1 ++ p :: l2 → ∀ q, requires p q → q ∈ l1;
  fx_needed i ps p : fx_schedule !! i = Some ps → p ∈ ps →
    ∃ roots r, invoked !! i = Some roots ∧ r ∈ roots ∧ rtc requires r p;
  fx_invoked i roots r : invoked !! i = Some roots → r ∈ roots →
    r ∈ mjoin (take (S i) fx_schedule) }.

(** What the libraries under the constructors and the hooks answer: [grpc.NewClient], the
    JWKS verifier, the cron's time zone and entry, [net.Listen], the text of a gRPC code,
    closing, and whether the stop timeout ends while a hook waits. *)
Class ProcessLibrary := {
  grpc_NewClient : string → error;
  authn_NewJWKSVerifier : error;
  cron_LoadLocation : string → error;
  cron_AddFunc : string → error;
  net_Listen : string → error;
  code_String : option GCode → string;
  stop_error : string → error;
  stop_expires : string → bool }.

Module Container.
Section New.
Context `{Externals} `{LibraryText} `{UnicodeTables} `{GoFmt} `{GoRange} `{Drivers} `{Platform}
  `{URLQueries} `{URLLibrary} `{TLSFiles} `{TemplateLibrary} `{JSONLibrary} `{EventLibrary}
  `{TokenLibrary} `{CodeValues} `{WebLibrary} `{FormLibrary} `{DurationText} `{MethodNames}
  `{PrometheusLibrary} `{ProcessLibrary} {DB : Type} `{!Repository DB} `{!GinLibrary DB}
  `{!PlatformInterceptors DB Pb.Response}.
Variable idempotency_New : ManagerConfig → bool → IdempotencyManager.

(** ** What is built *)
(** The repository and the event runtime are what they were given: whether there is
    a pool, and the outbox store; the worker is its dispatcher and configuration. *)
Definition value (p : Part) : Type :=
  match p with
  | PLogger => Logger | PTracing => Tracing | PDatabase => option Pool
  | PTransactor => Transactor | PRedis => bool | PLocker => option bool
  | POutboxStore | PEventRuntime => option string | PManager => IdempotencyManager
  | PRepository => bool | PVerifier => ApplicationVerifier | PService => NotificationService
  | PSenders => SenderRegistry | PDispatcher => Dispatcher | PWorker => Dispatcher * Config
  | PCleaner => RetentionCleaner | PMetrics => Metrics | PRegistry => GrpcClient.FullRegistry
  | PAuthorizer => Authorizer | PScheduler => Scheduler.Runner | PAuth => AuthService
  | PHealth => HealthService | PLimiter => Limiter | PHandler => HTTPHandler
  | PGRPC => GRPCServer DB | PHTTP => HTTPServer DB
  end.
Record State := mkState {
  built : ∀ p, option (value p);
  hooks : list Part  (* the hooks of the lifecycle, in the order they were appended *) }.
Definition nothing : State := mkState (λ _, None) [].
Definition put (p : Part) (v : value p) (hooked : bool) (s : State) : State := {|
  built := λ q, match decide (p = q) with
                | left e => Some (eq_rect p value v q e)
                | right _ => built s q
                end;
  hooks := if hooked then hooks s ++ [p] else hooks s |}.

(** A constructor's result: its value, whether it appended a hook, its error. *)
Definition Built (p : Part) : Type := option (value p) * bool * error.
Definition plain (p : Part) (v : value p) : IO DB (Built p) := ret (Some v, false, nil_err).
Definition hooking (p : Part) (v : value p) : IO DB (Built p) := ret (Some v, true, nil_err).
(** A constructor that can fail, and appends a hook when it does not. *)
Definition checked (p : Part) (r : option (value p) * error) (hooked : bool) : IO DB (Built p) :=
  match r with
  | (Some v, nil_err) => ret (Some v, hooked, nil_err)
  | (_, err) => ret (None, false, err)
  end.

Definition application_verifier (v : ApplicationVerifier) : Verifier :=
  match v with
  | disabledApplicationVerifier => allowAllApplications
  | GRPCVerifier _ _ => RemoteVerifier
  end.
(** [NewRegistry] and [NewRuntime] with the hooks they append. *)
Definition open_registry (cfg : Config) (m : Metrics) : IO DB (option GrpcClient.FullRegistry * error) :=
  match GrpcClient.NewRegistry grpc_NewClient cfg (Some (Observability.Enabled m)) with
  | (Some r, nil_err) =>
      emit (EvOpen "outbound registry") ;; emit (EvOnStop "outbound registry") ;; ret (Some r, nil_err)
  | (_, err) => ret (None, err)
  end.
Definition open_auth (cfg : Config) : IO DB (option AuthService * error) :=
  match AuthService.NewRuntime cfg authn_NewJWKSVerifier with
  | (Some s, nil_err) =>
      if AuthService_verifier s
      then emit (EvOpen "token verifier") ;; emit (EvOnStop "token verifier") ;; ret (Some s, nil_err)
      else ret (Some s, nil_err)
  | (_, err) => ret (None, err)
  end.

Definition missing {A} : IO DB (option A * bool * error) := ret (None, false, ErrMsg "missing type").
(** Builds a part from those it takes as parameters. *)
Definition construct (build : Build) (cfg : Config) (s : State) (p : Part)
    : IO DB (Built p) :=
  match p return IO DB (Built p) with
  | PLogger => let! (l, err) := Wiring.newLogger cfg in ret (l, present l, err)
  | PTracing =>
      let! (t, err) := Wiring.NewTracing build.(Build_Version) cfg in
      ret (if failed err then None else Some t, Tracing_enabled t, err)
  | PDatabase =>
      let! (db, err) := Wiring.newDatabase cfg in
      ret (if failed err then None else Some db, present db, err)
  | PTransactor =>
      match built s PDatabase with
      | Some db => plain PTransactor (Transactor.New (present db)) | None => missing end
  | PRedis =>
      match built s PTracing with
      | Some t =>
          let! (client, err) := Wiring.newRedis cfg t in
          ret (if failed err then None else Some client, client, err)
      | None => missing end
  | PLocker =>
      match built s PRedis with
      | Some client => plain PLocker (Wiring.newLocker client) | None => missing end
  | POutboxStore =>
      match built s PDatabase with
      | Some db =>
          let '(store, err) := Wiring.newNotificationOutboxStore db in
          ret (if failed err then None else Some store, false, err)
      | None => missing end
  | PEventRuntime =>
      match built s POutboxStore, built s PLogger with
      | Some store, Some _ => hooking PEventRuntime store | _, _ => missing end
  | PManager =>
      match built s PRedis with
      | Some client => plain PManager (idempotency_New (Wiring.newManager cfg) client)
      | None => missing end
  | PRepository =>
      match built s PDatabase with
      | Some db => plain PRepository (present db) | None => missing end
  | PVerifier =>
      match built s PRegistry with
      | Some registry =>
          checked PVerifier (Wiring.newApplicationVerifier cfg (Some registry)) false
      | None => missing end
  | PService =>
      match built s PRepository, built s PTransactor, built s PLimiter, built s PVerifier with
      | Some _, Some transactor, Some limiter, Some v =>
          checked PService (Service.NewRuntimeService transactor (Some limiter) cfg
            (Some (application_verifier v))) false
      | _, _, _, _ => missing end
  | PSenders =>
      match built s PRegistry with
      | Some r => plain PSenders (NewSenderRegistry (GrpcClient.Registry_HTTP r) cfg)
      | None => missing end
  | PDispatcher =>
      match built s PRepository, built s PTransactor, built s PSenders, built s PRegistry with
      | Some _, Some transactor, Some senders, Some r =>
          plain PDispatcher (NewDispatcher transactor senders (GrpcClient.Registry_HTTP r) cfg)
      | _, _, _, _ => missing end
  | PWorker =>
      match built s PDispatcher, built s PLogger with
      | Some d, Some _ => hooking PWorker (d, Dispatch.NewWorker d cfg) | _, _ => missing end
  | PCleaner =>
      match built s PRepository, built s PLogger with
      | Some _, Some _ => checked PCleaner (Cleaner.NewRetentionCleaner true true cfg) true
      | _, _ => missing end
  | PMetrics =>
      match built s PDatabase, built s PRedis with
      | Some db, Some client =>
          (* a panic of the registration ends the process, as an error does *)
          match Observability.NewMetrics cfg (present db) client with
          | Some m => plain PMetrics m
          | None => ret (None, false, ErrMsg "panic: duplicate metrics collector registration attempted")
          end
      | _, _ => missing end
  | PRegistry =>
      match built s PMetrics with
      | Some m => let! (r, err) := open_registry cfg m in ret (r, present r, err)
      | None => missing end
  | PAuthorizer =>
      match built s PRegistry with
      | Some r => plain PAuthorizer (Wiring.newAuthorizer r) | None => missing end
  | PScheduler =>
      match built s PLocker, built s PMetrics, built s PLogger with
      | Some _, Some _, Some _ =>
          checked PScheduler (Scheduler.New cron_LoadLocation cron_AddFunc cfg) true
      | _, _, _ => missing end
  | PAuth =>
      let! (a, err) := open_auth cfg in
      ret (a, from_option AuthService_verifier false a, err)
  | PHealth =>
      match built s PDatabase, built s PRedis with
      | Some db, Some client => plain PHealth (HealthService.New (present db) client cfg)
      | _, _ => missing end
  | PLimiter =>
      match built s PRedis with
      | Some client => plain PLimiter (Limiter.New client cfg) | None => missing end
  | PHandler =>
      match built s PHealth, built s PService, built s PLogger with
      | Some health, Some service, Some _ => plain PHandler (NewHandler health service)
      | _, _, _ => missing end
  | PGRPC =>
      match built s PAuth, built s PAuthorizer, built s PHealth, built s PService,
        built s PManager, built s PMetrics, built s PLogger with
      | Some auth, Some authorizer, Some health, Some service, Some manager, Some metrics, Some _ =>
          checked PGRPC (GRPCServer.NewServer cfg auth authorizer health service manager
            (Observability.Enabled metrics) code_String) true
      | _, _, _, _, _, _, _ => missing end
  | PHTTP =>
      match built s PHandler, built s PAuth, built s PAuthorizer, built s PLimiter,
        built s PManager, built s PMetrics, built s PTracing, built s PLogger with
      | Some handler, Some auth, Some authorizer, Some limiter, Some manager, Some metrics, Some _,
        Some _ =>
          checked PHTTP (Server.NewServer cfg handler auth authorizer limiter manager
            (Observability.Enabled metrics) build) true
      | _, _, _, _, _, _, _, _ => missing end
  end.

(** ** [app.New] *)
Fixpoint build_parts (build : Build) (cfg : Config) (ps : list Part) (s : State)
    : IO DB (State * error) :=
  match ps with
  | [] => ret (s, nil_err)
  | p :: ps =>
      let! (v, hooked, err) := construct build cfg s p in
      match v with
      | Some v =>
          when! failed err return! (s, err);
          build_parts build cfg ps (put p v hooked s)
      | None => ret (s, err)
      end
  end.
(** The functions that the modules invoke: the first migrates, the others only log
    that a dependency is disabled, or do nothing. *)
Definition invocations (cfg : Config) : list (IO DB error) :=
  Migration.runStartupMigration cfg :: repeat (ret nil_err) 8.
Fixpoint invoke_all (build : Build) (cfg : Config) (todo : list (list Part * IO DB error)) (s : State)
    : IO DB (State * error) :=
  match todo with
  | [] => ret (s, nil_err)
  | (ps, f) :: todo =>
      let! (s, err) := build_parts build cfg ps s in
      when! failed err return! (s, err);
      let! err := f in
      when! failed err return! (s, err);
      invoke_all build cfg todo s
  end.
Definition New `{Container} (build : Build) (cfg : Config) : IO DB (State * error) :=
  invoke_all build cfg (zip fx_schedule (invocations cfg)) nothing.

(** ** The hooks *)
(** What runs: the event runtime's fields and the goroutines of the other parts. *)
Record Running := mkRunning { run_events : Wiring.EventRuntime; run_parts : list Part }.
Definition idle : Running := mkRunning Wiring.new_runtime [].

Definition launch (p : Part) (r : Running) : IO DB (Running * error) :=
  emit (EvOpen (resource p)) ;; ret ({ r with run_parts ::= cons p }, nil_err).
Definition launch_if (b : bool) (p : Part) (r : Running) : IO DB (Running * error) :=
  if b then launch p r else ret (r, nil_err).

(** [OnStart] of the part's hook; a stop hook starts nothing. *)
Definition start_hook (cfg : Config) (s : State) (p : Part) (r : Running) : IO DB (Running * error) :=
  match p with
  | PEventRuntime =>
      let! (e, err) := Wiring.event_start cfg (default None (built s PEventRuntime)) in
      ret ({ r with run_events := e }, err)
  | PWorker =>
      let enabled := from_option (λ w : value PWorker, w.2.(Config_Database).(Database_Enabled)) false
                       (built s PWorker) in launch_if enabled PWorker r
  | PCleaner => launch_if (from_option Cleaner_enabled false (built s PCleaner)) PCleaner r
  | PScheduler => launch_if (Scheduler.OnStart cfg) PScheduler r
  | PGRPC =>
      match built s PGRPC with
      | Some server =>
          let enabled := cfg.(Config_GRPC).(GRPC_Enabled) in
          let err := GRPCServer.start enabled net_Listen server in
          when! failed err return! (r, err); launch_if enabled PGRPC r
      | None => ret (r, nil_err) end
  | PHTTP =>
      match built s PHTTP with
      | Some server =>
          let err := Server.OnStart net_Listen server in
          when! failed err return! (r, err); launch PHTTP r
      | None => ret (r, nil_err) end
  | _ => ret (r, nil_err)
  end.

(** [OnStop]: what the part runs or holds is ended; an error does not keep the
    others from stopping.  [EvClose] stands where the hook has waited for the part: the
    worker, the cleaner and the scheduler for their goroutine, the servers for their
    requests, the event runtime for its two loops, each closed by its own event. *)
Definition halt (p : Part) (r : Running) : IO DB (Running * error) :=
  if bool_decide (p ∈ run_parts r)
  then emit (EvClose (resource p)) ;;
       ret ({ r with run_parts ::= filter (λ q, q ≠ p) }, stop_error (resource p))
  else ret (r, nil_err).
Definition close (p : Part) (r : Running) : IO DB (Running * error) :=
  emit (EvClose (resource p)) ;; ret (r, stop_error (resource p)).
Definition stop_hook (p : Part) (r : Running) : IO DB (Running * error) :=
  match p with
  | PEventRuntime =>
      let! (e, err) := Wiring.event_stop (run_events r) in ret ({ r with run_events := e }, err)
  | PWorker | PCleaner | PScheduler | PGRPC | PHTTP => halt p r
  | PLogger | PTracing | PDatabase | PRedis | PRegistry | PAuth => close p r
  | _ => ret (r, nil_err)
  end.

(** The lifecycle: starting in order until a hook fails, stopping what was started,
    the last first, until the timeout ends, which the process does not outlive. *)
Fixpoint start_hooks (cfg : Config) (s : State) (todo started : list Part) (r : Running)
    : IO DB (Running * list Part * error) :=
  match todo with
  | [] => ret (r, started, nil_err)
  | p :: todo =>
      let! (r, err) := start_hook cfg s p r in
      when! failed err return! (r, started, err);
      start_hooks cfg s todo (p :: started) r
  end.
Fixpoint stop_hooks (started : list Part) (r : Running) : IO DB (Running * list error) :=
  match started with
  | [] => ret (r, [])
  | p :: started =>
      when! stop_expires (resource p) return! (r, [ErrSentinel ErrDeadlineExceeded]);
      let! (r, err) := stop_hook p r in
      let! (r, errs) := stop_hooks started r in
      ret (r, if failed err then err :: errs else errs)
  end.

(** [app.Run]: the exit status.  [serving] is what the process does between the
    start and the signal that stops it. *)
Definition Run `{Container} (build : Build) (cfg : Config) (serving : IO DB unit) : IO DB Z :=
  let! (s, err) := New build cfg in
  when! failed err return! 1;
  let! (r, started, err) := start_hooks cfg s (hooks s) [] idle in
  if failed err then let! _ := stop_hooks started r in ret 1 else
  serving ;;
  let! (r, errs) := stop_hooks started r in
  ret (match errs with [] => 0 | _ => 1 end).
End New.
End Container.
