(* ===== verification/ContainerSpec.v ===== *)
(** * What the container promises

    In whatever order the container builds the parts: what each constructor and hook does
    to the log of the run ([builds], [start_hook_spec], [stop_hook_spec]), an account of
    what is open ([accounted]) that every step keeps, the migration before everything else
    and the order of the shutdown. *)

From S2P Require Import Prelude GoStrings Wire AppError Config Connections Reqctx Auth Effects Ratelimit Model.
From S2P Require Import Libraries Database Repository Service Outbound Dispatcher Cleanup Web Health.
From S2P Require Import Middleware Handlers HttpServer Grpc GrpcClient Locking Metrics Migration.
From S2P Require Import Wiring Container.
Open Scope string_scope.
Open Scope list_scope.
Open Scope Z_scope.
Open Scope go_scope.

(** ** The order of the parts *)
Definition early (p : Part) : bool :=
  match p with
  | PLogger | PTracing | PDatabase | PRedis | PRegistry | PAuth => true | _ => false
  end.
(** The parts with a goroutine of their own, which their start hooks begin. *)
Definition background (p : Part) : bool :=
  match p with
  | PEventRuntime | PWorker | PCleaner | PScheduler | PGRPC | PHTTP => true | _ => false
  end.
Abbreviation uses := (tc requires).

Lemma resource_inj p q : resource p = resource q → p = q.
Proof. by destruct p, q. Qed.

Section Order.
Context `{FxLaws}.

Lemma uses_before p q l1 l2 : mjoin fx_schedule = l1 ++ p :: l2 → uses p q → q ∈ l1.
Proof.
  intros Hs Hu. revert l1 l2 Hs. induction Hu as [p q Hr|p r q Hr _ IH]; intros l1 l2 Hs.
  - by eapply fx_after_params.
  - pose proof (fx_after_params _ _ _ Hs r Hr) as (l3 & l4 & ->)%list_elem_of_split.
    apply elem_of_app. left. apply (IH l3 (l4 ++ p :: l2)). by rewrite Hs, <- app_assoc.
Qed.
(** What comes before a part does not use it. *)
Lemma unused_before p q l1 l2 : mjoin fx_schedule = l1 ++ q :: l2 → p ∈ l1 → ¬ uses p q.
Proof.
  intros Hs (l3 & l4 & ->)%list_elem_of_split Hu. pose proof fx_once as Hn.
  assert (q ∈ l3) as Hq by (eapply (uses_before p q l3 (l4 ++ q :: l2)); [by rewrite Hs, <- app_assoc|done]).
  rewrite Hs in Hn. apply NoDup_app in Hn as (_ & Hd & _). apply (Hd q); [|by left].
  apply elem_of_app. by left.
Qed.
(** A list of parts in which none uses a later one. *)
Definition in_order (ps : list Part) : Prop :=
  ∀ l1 q l2, ps = l1 ++ q :: l2 → ∀ p, p ∈ l1 → ¬ uses p q.
Lemma sublist_in_order ps : ps `sublist_of` mjoin fx_schedule → in_order ps.
Proof.
  intros Hs l1 q l2 -> p Hp. apply sublist_app_l in Hs as (k1 & k2 & Hk & Hs1 & Hs2).
  apply sublist_cons_l in Hs2 as (k3 & k4 & -> & _).
  apply (unused_before p q (k1 ++ k3) k4); [by rewrite Hk, <- app_assoc|].
  apply elem_of_app. left. by eapply elem_of_sublist.
Qed.

(** Everything is needed by something that is invoked. *)
Fixpoint reached (n : nat) : list Part :=
  match n with
  | O => mjoin invoked
  | S n => remove_dups (reached n ++ (reached n ≫= params))
  end.
Lemma scheduled p : p ∈ mjoin fx_schedule.
Proof.
  assert (∀ n q, q ∈ reached n → q ∈ mjoin fx_schedule) as Hn.
  { intros n. induction n as [|n IH]; intros q; cbn [reached].
    - intros (roots & Hq & (i & Hi)%list_elem_of_lookup)%list_elem_of_join.
      apply list_elem_of_join. pose proof (fx_invoked i roots q Hi Hq) as (ps & Hp & Hps)%list_elem_of_join.
      exists ps. split; [done|]. eapply elem_of_sublist; [done|]. apply sublist_take.
    - rewrite elem_of_remove_dups, elem_of_app, list_elem_of_bind. intros [Hq|(r & Hq & Hr)]; [by apply IH|].
      apply IH in Hr as (l1 & l2 & Hs)%list_elem_of_split. rewrite Hs. apply elem_of_app. left.
      by eapply fx_after_params. }
  apply (Hn 6%nat). apply (bool_decide_unpack _). by destruct p; vm_compute.
Qed.
End Order.

(** ** What a constructor does to the log *)
Definition opened (p : Part) (l : list Event) : nat := count (is_open (resource p)) l.
Definition closed (p : Part) (l : list Event) : nat := count (is_close (resource p)) l.
Definition hooked (p : Part) (l : list Event) : nat := count (is_hook (resource p)) l.

Lemma about_other p q l :
  Forall (about (resource p)) l → p ≠ q → opened q l = 0%nat ∧ closed q l = 0%nat ∧ hooked q l = 0%nat.
Proof.
  intros Ha Hpq. assert (resource q ≠ resource p) as Hr by (by intros ?%resource_inj).
  unfold opened, closed, hooked. induction Ha as [|e l He _ (Ho & Hc & Hh)]; [done|].
  rewrite !count_cons, Ho, Hc, Hh. destruct e; cbn in *; try done; subst; by rewrite !bool_decide_eq_false_2.
Qed.

(** The two loops of the event runtime, which are resources beside the parts'. *)
Definition loop_names : list string := [Wiring.dispatch_loop; Wiring.cleanup_loop].
Definition opens_loop (e : Event) : bool :=
  match e with EvOpen r => bool_decide (r ∈ loop_names) | _ => false end.
Definition closes_loop (e : Event) : bool :=
  match e with EvClose r => bool_decide (r ∈ loop_names) | _ => false end.
(** Every loop that was started has ended. *)
Definition loops_ended (l : list Event) : Prop := count opens_loop l = count closes_loop l.
Lemma resource_no_loop p : resource p ∉ loop_names.
Proof. apply (bool_decide_unpack _). by destruct p. Qed.
Definition loopless (l : list Event) : Prop :=
  count opens_loop l = 0%nat ∧ count closes_loop l = 0%nat.
Lemma about_loopless p l : Forall (about (resource p)) l → loopless l.
Proof.
  intros Ha. pose proof (resource_no_loop p) as Hn. unfold loopless.
  induction Ha as [|e l He _ [Ho Hc]]; [done|]. rewrite !count_cons, Ho, Hc.
  destruct e; cbn in *; try done; subst; by rewrite bool_decide_eq_false_2.
Qed.
Lemma loopless_ended l k : loopless k → loops_ended l → loops_ended (l ++ k).
Proof. intros [Ho Hc]. unfold loops_ended. rewrite !count_app. lia. Qed.

(** The run of a part's constructor: it touches no table and only the part's own
    resource, which is closed again or hooked; the parts with a goroutine open nothing
    yet; and there is a value unless there is an error. *)
Definition builds (p : Part) {DB A} (m : IO DB (option A * bool * error)) : Prop :=
  ∀ w v hook err w', m w = ((v, hook, err), w') →
  w_db w' = w_db w ∧ (v = None → err ≠ nil_err) ∧ ∃ l, w_log w' = w_log w ++ l ∧
  Forall (about (resource p)) l ∧ balanced l ∧
  if early p then hooked p l = (if is_nil err && hook then 1 else 0)%nat else l = [].

Section Process.
Context `{Externals} `{LibraryText} `{UnicodeTables} `{GoFmt} `{GoRange} `{Drivers} `{Platform}
  `{URLQueries} `{URLLibrary} `{TLSFiles} `{TemplateLibrary} `{JSONLibrary} `{EventLibrary}
  `{TokenLibrary} `{CodeValues} `{WebLibrary} `{FormLibrary} `{DurationText} `{MethodNames}
  `{PrometheusLibrary} `{ProcessLibrary} {DB : Type} `{!Repository DB} `{!GinLibrary DB}
  `{!PlatformInterceptors DB Pb.Response}.
Variable idempotency_New : ManagerConfig → bool → IdempotencyManager.
Implicit Types (s : Container.State (DB := DB)) (w : World DB Event).

Lemma builds_ret p {A} (v : option A) hook err :
  (v = None → err ≠ nil_err) → (early p = true → is_nil err && hook = false) →
  builds (DB := DB) p (ret (v, hook, err)).
Proof.
  intros Hv Hh w v' hook' err' w' E. returned E. split; [done|]. split; [done|].
  exists []. rewrite app_nil_r. split; [done|]. split; [done|]. split; [done|].
  destruct (early p); [by rewrite Hh|done].
Qed.
Lemma builds_missing p {A} : builds (DB := DB) (A := A) p Container.missing.
Proof. by apply builds_ret. Qed.
Lemma builds_checked p (r : option (Container.value p) * error) hook :
  early p = false → (r.1 = None → r.2 ≠ nil_err) →
  builds (DB := DB) p (Container.checked p r hook).
Proof.
  intros He Hr. unfold Container.checked. destruct r as [[v|] []]; cbn in Hr; apply builds_ret; try done;
    by rewrite He.
Qed.
(** A constructor of Wiring.v, and what the container keeps of its result. *)
Lemma builds_constructs p {A B} (hook : A → bool) (m : IO DB (A * error)) (keep : A → error → option B) :
  early p = true → constructs (resource p) hook m →
  (∀ w a err w', m w = ((a, err), w') → keep a err = None → err ≠ nil_err) →
  builds p (let! (a, err) := m in ret (keep a err, hook a, err)).
Proof.
  intros He Hm Hk w v h err w' E. apply bind_inv in E as ([a e] & w1 & E1 & E). returned E.
  destruct (Hm _ _ _ _ E1) as (Hd & l & Hl & Ha & Hb & Hc). split; [done|].
  split; [by apply (Hk _ _ _ _ E1)|]. exists l. by rewrite He.
Qed.
Lemma open_registry_constructs cfg m :
  constructs (DB := DB) "outbound registry" present (Container.open_registry cfg m).
Proof.
  unfold Container.open_registry.
  destruct (GrpcClient.NewRegistry _ _ _) as [[r|] []]; solve [by apply constructs_ret|by apply constructs_hooked].
Qed.
Lemma open_auth_constructs cfg :
  constructs (DB := DB) "token verifier" (from_option AuthService_verifier false) (Container.open_auth cfg).
Proof.
  unfold Container.open_auth. destruct (AuthService.NewRuntime _ _) as [[a|] []]; try by apply constructs_ret.
  destruct (AuthService_verifier a) eqn:Ea; [by apply constructs_hooked|by apply constructs_ret].
Qed.
Lemma kept_error {A B} (f : A → B) (a : A) err :
  (if failed err then None else Some (f a)) = None → err ≠ nil_err.
Proof. destruct (failed err) eqn:E; [|done]. intros _. by apply failed_not_nil. Qed.

Lemma construct_builds build cfg s p :
  builds (DB := DB) p (Container.construct idempotency_New build cfg s p).
Proof.
  destruct p; cbn [Container.construct];
    try (repeat match goal with
      |- builds _ (match ?o with Some _ => _ | None => _ end) => destruct o; [|apply builds_missing]
      end; first [by apply builds_ret | apply builds_checked; [done|]]).
  - apply (builds_constructs PLogger present (Wiring.newLogger cfg) (λ l _, l)); [done|apply newLogger_constructs|].
    intros w [l|] err w' E Hn; [done|]. by apply newLogger_spec in E as (_ & ? & _).
  - apply (builds_constructs PTracing Tracing_enabled (Wiring.NewTracing _ cfg)
      (λ t err, if failed err then None else Some t)); [done|apply NewTracing_constructs|].
    intros w a err w' _. apply (kept_error id).
  - apply (builds_constructs PDatabase present (Wiring.newDatabase cfg)
      (λ t err, if failed err then None else Some t)); [done|apply newDatabase_constructs|].
    intros w a err w' _. apply (kept_error id).
  - destruct (Container.built _ _); [|apply builds_missing].
    apply (builds_constructs PRedis id (Wiring.newRedis cfg _)
      (λ t err, if failed err then None else Some t)); [done|apply newRedis_constructs|].
    intros w a err w' _. apply (kept_error id).
  - destruct (Container.built _ _); [|apply builds_missing].
    destruct (Wiring.newNotificationOutboxStore _) as [store err]. apply builds_ret; [apply (kept_error id)|done].
  - unfold Wiring.newApplicationVerifier. destruct (negb _); [done|]. by destruct (GrpcClient.GRPC _ _).
  - do 2 (destruct (Container.built _ _); [|apply builds_missing]).
    destruct (Observability.NewMetrics _ _ _); by apply builds_ret.
  - destruct (Container.built _ _); [|apply builds_missing].
    apply (builds_constructs PRegistry present (Container.open_registry cfg _) (λ r _, r));
      [done|apply open_registry_constructs|].
    intros w r err w' E ->. revert E. unfold Container.open_registry.
    pose proof (NewRegistry_error grpc_NewClient cfg (Some (Observability.Enabled v))) as Hr.
    destruct (GrpcClient.NewRegistry _ _ _) as [[r|] err']; [by subst err'|].
    intros E. destruct err'; by returned E.
  - unfold Scheduler.New. destruct (failed _) eqn:E1; [by apply failed_not_nil in E1|].
    destruct (_ != _); [|done]. destruct (failed (cron_AddFunc _)) eqn:E2; [by apply failed_not_nil in E2|done].
  - apply (builds_constructs PAuth (from_option AuthService_verifier false) (Container.open_auth cfg) (λ a _, a));
      [done|apply open_auth_constructs|].
    intros w a err w' E ->. revert E. unfold Container.open_auth, AuthService.NewRuntime.
    destruct (_ == ""); [by destruct (AuthService_verifier _)|].
    destruct (failed _); [intros E; by returned E|]. by destruct (AuthService_verifier _).
  - unfold GRPCServer.NewServer. destruct (if GRPCTLS_Enabled _ then _ else _) as [c err].
    destruct (failed err) eqn:E; [by apply failed_not_nil in E|done].
  - unfold Server.NewServer. destruct (failed _) eqn:E; [by apply failed_not_nil in E|done].
Qed.

(** ** What building adds *)
Definition occurrences (p : Part) (ps : list Part) : nat := length (filter (eq p) ps).
Lemma occurrences_app p l1 l2 : occurrences p (l1 ++ l2) = (occurrences p l1 + occurrences p l2)%nat.
Proof. unfold occurrences. by rewrite filter_app, length_app. Qed.
Lemma counts_app p l1 l2 :
  opened p (l1 ++ l2) = (opened p l1 + opened p l2)%nat ∧
  closed p (l1 ++ l2) = (closed p l1 + closed p l2)%nat ∧
  hooked p (l1 ++ l2) = (hooked p l1 + hooked p l2)%nat.
Proof. by unfold opened, closed, hooked; rewrite !count_app. Qed.

(** [new] are the hooks appended: as many as the log has for each part that is hooked
    when it is built, and no other part's resource is touched. *)
Record grown (l : list Event) (new : list Part) : Prop := {
  grown_balanced : balanced l;
  grown_late p : early p = false → opened p l = 0%nat ∧ closed p l = 0%nat;
  grown_hooked p : early p = true → hooked p l = occurrences p new;
  grown_loopless : loopless l;
  grown_migrate : Forall (λ e, is_migrate e = false) l }.
Lemma grown_nil : grown [] [].
Proof. by split. Qed.
Lemma grown_app l1 new1 l2 new2 : grown l1 new1 → grown l2 new2 → grown (l1 ++ l2) (new1 ++ new2).
Proof.
  intros [Hb1 Hg1 Hh1 [Ho1 Hc1] Hm1] [Hb2 Hg2 Hh2 [Ho2 Hc2] Hm2]. split.
  - by apply balanced_app.
  - intros p Hp. destruct (counts_app p l1 l2) as (-> & -> & _), (Hg1 p Hp) as [-> ->]. by apply Hg2.
  - intros p Hp. destruct (counts_app p l1 l2) as (_ & _ & ->). by rewrite occurrences_app, Hh1, Hh2.
  - split; rewrite count_app; lia.
  - by apply Forall_app.
Qed.
Lemma about_grown p l (hook : bool) :
  Forall (about (resource p)) l → balanced l →
  (if early p then hooked p l = (if hook then 1 else 0)%nat else l = []) →
  grown l (if hook then [p] else []).
Proof.
  intros Ha Hb Hp. split; [done| | |by eapply about_loopless|].
  - intros q Hq. destruct (decide (p = q)) as [->|Hn].
    + rewrite Hq in Hp. by subst.
    + by destruct (about_other _ q _ Ha Hn) as (-> & -> & _).
  - intros q Hq. destruct (decide (p = q)) as [->|Hn].
    + rewrite Hq in Hp. rewrite Hp. destruct hook; [|done]. unfold occurrences.
      by rewrite filter_cons_True by done.
    + destruct (about_other _ q _ Ha Hn) as (_ & _ & ->). destruct hook; [|done].
      unfold occurrences. by rewrite filter_cons_False by done.
  - eapply Forall_impl; [exact Ha|]. by intros [].
Qed.

Lemma put_built p v hook s q :
  q = p ∨ is_Some (Container.built s q) → is_Some (Container.built (Container.put p v hook s) q).
Proof. cbn. destruct (decide (p = q)) as [<-|Hn]; [by eexists|]. by intros [->|?]. Qed.

Lemma build_parts_spec build cfg ps : ∀ s w s' err w',
  Container.build_parts idempotency_New build cfg ps s w = ((s', err), w') →
  w_db w' = w_db w ∧ ∃ l new, w_log w' = w_log w ++ l ∧
  Container.hooks s' = Container.hooks s ++ new ∧ new `sublist_of` ps ∧ grown l new ∧
  (err = nil_err → ∀ p, p ∈ ps ∨ is_Some (Container.built s p) → is_Some (Container.built s' p)).
Proof.
  induction ps as [|p ps IH]; intros s w s' err w' E; cbn [Container.build_parts] in E.
  { returned E. split; [done|]. exists [], []. rewrite !app_nil_r.
    split_and!; [done..|apply grown_nil|]. intros _ p [[]%elem_of_nil|]; done. }
  apply bind_inv in E as ([[v hook] e] & w1 & E1 & E).
  destruct (construct_builds _ _ _ _ _ _ _ _ _ E1) as (Hd & Hv & l & Hl & Ha & Hb & Hh).
  assert (is_nil e = false → grown l []) as Hstop.
  { intros He. apply (about_grown p l false Ha Hb). destruct (early p); [by rewrite He in Hh|done]. }
  assert (is_nil e = false → s' = s → err = e → w' = w1 →
    w_db w' = w_db w ∧ ∃ l new, w_log w' = w_log w ++ l ∧
    Container.hooks s' = Container.hooks s ++ new ∧ new `sublist_of` (p :: ps) ∧ grown l new ∧
    (err = nil_err → ∀ q, q ∈ p :: ps ∨ is_Some (Container.built s q) → is_Some (Container.built s' q)))
    as Hfailed.
  { intros He -> -> ->. split; [done|]. exists l, []. rewrite app_nil_r.
    split_and!; [done..|apply sublist_nil_l|by apply Hstop|]. by intros ->. }
  destruct v as [v|].
  2:{ returned E. apply Hfailed; try done. specialize (Hv eq_refl). by destruct err. }
  destruct (failed e) eqn:Ef.
  { returned E. apply Hfailed; try done. unfold failed in Ef. by apply negb_true_iff. }
  apply failed_nil in Ef as ->. cbn [is_nil andb] in Hh.
  destruct (IH _ _ _ _ _ E) as (Hd2 & l2 & new & Hl2 & Hnew & Hsub & Hg & Hbuilt).
  split; [congruence|]. exists (l ++ l2), ((if hook then [p] else []) ++ new).
  split; [by rewrite Hl2, Hl, app_assoc|].
  split; [rewrite Hnew; cbn; destruct hook; by rewrite <- ?app_assoc|].
  split; [by destruct hook; [apply sublist_skip|apply sublist_cons]|].
  split; [apply grown_app; [by apply about_grown|done]|].
  intros He q Hq. apply (Hbuilt He). rewrite elem_of_cons in Hq.
  destruct Hq as [[->|Hq]|Hq]; [right; apply put_built; by left|by left|right; apply put_built; by right].
Qed.

(** ** [New] *)
Lemma first_schedule `{FxLaws} : ∃ rest, fx_schedule = [PLogger] :: rest ∧ length rest = 8%nat.
Proof.
  pose proof fx_length as Hl. pose proof fx_once as Ho. destruct fx_schedule as [|ps rest] eqn:E; [done|].
  exists rest. injection Hl as Hl. split; [|done]. f_equal.
  assert (∀ p, p ∈ ps → p = PLogger) as Hall.
  { intros p Hp. destruct (fx_needed 0 ps p) as (roots & r & Hi & Hr & Hn); [by rewrite E|done|].
    injection Hi as <-. apply list_elem_of_singleton in Hr as ->.
    inversion Hn as [|? y ? Hy]; [done|]. by apply not_elem_of_nil in Hy. }
  assert (PLogger ∈ ps) as Hin.
  { pose proof (fx_invoked 0 [PLogger] PLogger eq_refl ltac:(by left)) as Hi. rewrite E in Hi. cbn in Hi.
    by rewrite app_nil_r in Hi. }
  cbn in Ho. apply NoDup_app in Ho as (Ho & _ & _).
  destruct ps as [|p [|q ps]]; [by apply not_elem_of_nil in Hin|by rewrite (Hall p) by left|].
  apply NoDup_cons in Ho as [Ho _]. destruct Ho. rewrite (Hall p), (Hall q); [by left|by right; left|by left].
Qed.

Context `{FxLaws}.

Lemma invoke_rest build cfg pss : ∀ s w s' err w',
  Container.invoke_all idempotency_New build cfg (zip pss (repeat (ret nil_err) (length pss))) s w
    = ((s', err), w') →
  w_db w' = w_db w ∧ ∃ l new, w_log w' = w_log w ++ l ∧
  Container.hooks s' = Container.hooks s ++ new ∧ new `sublist_of` mjoin pss ∧ grown l new ∧
  (err = nil_err → ∀ p, p ∈ mjoin pss ∨ is_Some (Container.built s p) → is_Some (Container.built s' p)).
Proof.
  induction pss as [|ps pss IH]; intros s w s' err w' E; cbn [length repeat zip_with Container.invoke_all] in E.
  { returned E. split; [done|]. exists [], []. rewrite !app_nil_r.
    split_and!; [done..|apply grown_nil|]. intros _ p [[]%elem_of_nil|]; done. }
  apply bind_inv in E as ([s1 e1] & w1 & E1 & E).
  apply build_parts_spec in E1 as (Hd & l & new & Hl & Hn & Hs & Hg & Hb).
  destruct (failed e1) eqn:Ef.
  { returned E. split; [done|]. exists l, new. split_and!; try done.
    - cbn. by apply sublist_inserts_r.
    - intros ->. done. }
  apply failed_nil in Ef as ->. cbn [bind ret failed is_nil negb] in E.
  destruct (IH _ _ _ _ _ E) as (Hd2 & l2 & new2 & Hl2 & Hn2 & Hs2 & Hg2 & Hb2).
  split; [congruence|]. exists (l ++ l2), (new ++ new2).
  split; [by rewrite Hl2, Hl, app_assoc|]. split; [by rewrite Hn2, Hn, app_assoc|].
  split; [by apply sublist_app|]. split; [by apply grown_app|].
  intros He p Hp. apply (Hb2 He). cbn in Hp. rewrite elem_of_app in Hp.
  destruct Hp as [[Hp|Hp]|Hp]; [right; apply Hb; auto|by left|right; apply Hb; auto].
Qed.

Lemma logger_events build cfg s w s' err w' :
  Container.build_parts idempotency_New build cfg [PLogger] s w = ((s', err), w') →
  ∃ l, w_log w' = w_log w ++ l ∧ Forall (λ e, e = EvOpen "log" ∨ e = EvOnStop "log") l.
Proof.
  cbn [Container.build_parts Container.construct]. intros E.
  apply bind_inv in E as ([[v hook] e] & w1 & E1 & E).
  apply bind_inv in E1 as ([logger e'] & w2 & E2 & E1). returned E1.
  apply newLogger_spec in E2 as (_ & Hl).
  assert (w' = w1) as ->.
  { destruct v as [v|]; [|by returned E]. destruct (failed e); by returned E. }
  destruct v as [v|].
  - eexists. split; [exact Hl|]. constructor; [by left|]. constructor; [by right|done].
  - exists []. rewrite app_nil_r. by destruct Hl.
Qed.

(** The logger is built first, then the migration runs, then the rest is built. *)
Lemma New_spec build cfg w s err w' :
  Container.New idempotency_New build cfg w = ((s, err), w') →
  w_db w' = w_db w ∧ ∃ first migration rest,
  w_log w' = w_log w ++ first ++ map EvMigrate migration ++ rest ∧
  Forall (λ e, e = EvOpen "log" ∨ e = EvOnStop "log") first ∧
  Container.hooks s `sublist_of` mjoin fx_schedule ∧ grown (first ++ rest) (Container.hooks s) ∧
  (err = nil_err → (∀ p, is_Some (Container.built s p)) ∧
   (cfg.(Config_Migration).(Migration_AutoUp) = true →
    ∃ w1 w2, Migration.Run cfg.(Config_Migration) "up" 0 w1 = (nil_err, w2 : World DB Event) ∧
     w_log w2 = w_log w ++ first ++ map EvMigrate migration)).
Proof.
  unfold Container.New. destruct first_schedule as (rest & Hs & Hlen). rewrite Hs. intros E.
  assert (∀ p, p ∈ PLogger :: mjoin rest) as Hall.
  { intros p. pose proof (scheduled p) as Hp. by rewrite Hs in Hp. }
  unfold Container.invocations in E. cbn [zip zip_with Container.invoke_all] in E.
  apply bind_inv in E as ([s1 e1] & w1 & E1 & E).
  destruct (logger_events _ _ _ _ _ _ _ E1) as (first & Hf & Hlog).
  apply build_parts_spec in E1 as (Hd & l & new & Hl & Hn & Hsub & Hg & Hb).
  rewrite Hl in Hf. apply app_inv_head in Hf. subst l. change (Container.hooks s1 = new) in Hn.
  destruct (failed e1) eqn:Ef.
  { returned E. split; [done|]. exists first, [], []. cbn. rewrite !app_nil_r.
    split_and!; try done; [|by intros ->]. by apply (sublist_inserts_r (mjoin rest)) in Hsub. }
  apply failed_nil in Ef as ->. cbn [bind ret failed is_nil negb] in E.
  apply bind_inv in E as (merr & w2 & E2 & E).
  pose proof (runStartupMigration_sends cfg w1) as (Hd2 & migration & Hl2).
  rewrite E2 in Hd2, Hl2. cbn in Hd2, Hl2. destruct (failed merr) eqn:Em.
  { returned E. split; [congruence|]. exists first, migration, []. cbn. rewrite !app_nil_r.
    split_and!; try done; [by rewrite Hl2, Hl, app_assoc| |by intros ->].
    by apply (sublist_inserts_r (mjoin rest)) in Hsub. }
  apply failed_nil in Em as ->. cbn [bind ret failed is_nil negb] in E. rewrite <- Hlen in E.
  apply invoke_rest in E as (Hd3 & l3 & new3 & Hl3 & Hn3 & Hs3 & Hg3 & Hb3).
  split; [congruence|]. exists first, migration, l3. rewrite Hn3, Hn. split_and!.
  - by rewrite Hl3, Hl2, Hl, <- !app_assoc.
  - done.
  - change (mjoin ([PLogger] :: rest)) with ([PLogger] ++ mjoin rest). by apply sublist_app.
  - by apply grown_app.
  - intros He. split.
    + intros p. apply (Hb3 He). destruct (proj1 (elem_of_cons _ _ _) (Hall p)) as [->|Hp]; [right|by left].
      apply (Hb eq_refl). left. by left.
    + intros Hu. exists w1, w2. split; [by apply runStartupMigration_nil|]. by rewrite Hl2, Hl, app_assoc.
Qed.

(** C38 A process that starts has migrated first: in whatever order the container builds
    the parts, only the log is opened before the migration, which succeeds when it is
    enabled, and nothing is migrated afterwards; a start without an error has built
    every part.  At every end each opened resource is closed or has its stop hook, and
    the service's tables are as they were. *)
Theorem New_migrates_first build cfg w s err w' :
  Container.New idempotency_New build cfg w = ((s, err), w') →
  w_db w' = w_db w ∧ ∃ first migration rest,
  w_log w' = w_log w ++ first ++ map EvMigrate migration ++ rest ∧
  balanced (first ++ rest) ∧ (∀ e, e ∈ first → e = EvOpen "log" ∨ e = EvOnStop "log") ∧
  (∀ e, e ∈ rest → is_migrate e = false) ∧
  (err = nil_err → (∀ p, is_Some (Container.built s p)) ∧
   (cfg.(Config_Migration).(Migration_AutoUp) = true →
    ∃ w1 w2, Migration.Run cfg.(Config_Migration) "up" 0 w1 = (nil_err, w2 : World DB Event) ∧
     w_log w2 = w_log w ++ first ++ map EvMigrate migration)).
Proof.
  intros (Hd & first & migration & rest & Hl & Hf & _ & Hg & Hok)%New_spec. split; [done|].
  exists first, migration, rest. destruct Hg as [Hb _ _ _ Hm]. apply Forall_app in Hm as [_ Hm].
  rewrite Forall_forall in Hf. rewrite Forall_forall in Hm. by split_and!.
Qed.

(** ** Starting and stopping *)
Definition running (p : Part) (r : Container.Running) : bool :=
  match p with
  | PEventRuntime => Wiring.Runtime_bus (Container.run_events r)
  | _ => bool_decide (p ∈ Container.run_parts r)
  end.
(** What a part's stop hook closes. *)
Definition holds (p : Part) (r : Container.Running) : bool :=
  if early p then true else if background p then running p r else false.

Implicit Types (r : Container.Running).
(** No event of [l] opens or closes the resource of another part than [p]. *)
Definition only_part (p : Part) (l : list Event) : Prop :=
  ∀ q, p ≠ q → opened q l = 0%nat ∧ closed q l = 0%nat.
Lemma about_only p l : Forall (about (resource p)) l → only_part p l.
Proof. intros Ha q Hq. by destruct (about_other p q l Ha Hq) as (? & ? & _). Qed.

(** A start hook opens the part's own resource alone, and leaves it open exactly when
    the part runs then; after an error nothing of it is open. *)
Definition starts (p : Part) r w r' err w' : Prop :=
  w_db w' = w_db w ∧ (∀ q, q ≠ p → running q r' = running q r) ∧
  ∃ l, w_log w' = w_log w ++ l ∧ only_part p l ∧ (background p = false → l = []) ∧
  opened p l = (closed p l +
    if failed err then 0 else if background p && running p r' then 1 else 0)%nat.
(** The hooks of the other parts know nothing of the event runtime. *)
Definition no_events r w r' w' : Prop :=
  Container.run_events r' = Container.run_events r ∧
  ∃ l, w_log w' = w_log w ++ l ∧ loopless l.

Lemma starts_nothing p r w err : running p r = false → starts p r w r err w ∧ no_events r w r w.
Proof.
  intros Hr. split.
  - split; [done|]. split; [done|]. exists []. rewrite app_nil_r, Hr, andb_false_r.
    split_and!; [done..|]. by destruct (failed err).
  - split; [done|]. exists []. by rewrite app_nil_r.
Qed.
Lemma launch_starts b p r w r' err w' :
  background p = true → p ≠ PEventRuntime → running p r = false →
  Container.launch_if b p r w = ((r', err), w') → starts p r w r' err w' ∧ no_events r w r' w'.
Proof.
  intros Hb Hne Hr E. destruct b; [|cbn [Container.launch_if] in E; returned E; by apply starts_nothing].
  injection E as <- <- <-.
  assert (Forall (about (resource p)) [EvOpen (resource p)]) as Ha by (by repeat constructor).
  split; [|split; [done|]; exists [EvOpen (resource p)]; split; [done|by eapply about_loopless]].
  split; [done|]. split.
  - intros q Hq. destruct q; cbn; try done; apply bool_decide_ext; rewrite elem_of_cons; naive_solver.
  - exists [EvOpen (resource p)]. split; [done|]. split; [by apply about_only|].
    split; [by rewrite Hb|]. rewrite Hb.
    match goal with |- context [running p ?r1] => assert (running p r1 = true) as -> end.
    + destruct p; try done; cbn; apply bool_decide_eq_true_2; by left.
    + unfold opened, closed. rewrite !count_cons, !count_nil. cbn. by rewrite bool_decide_eq_true_2.
Qed.
(** The event runtime opens the bus, and closes it again when its dispatcher or its
    cleaner cannot be made. *)
Lemma events_start cfg store r w e err w' :
  running PEventRuntime r = false → Wiring.event_start cfg store w = ((e, err), w') →
  starts PEventRuntime r w (Container.mkRunning e (Container.run_parts r)) err w'.
Proof.
  intros Hr (Hd & Hs)%event_start_spec. split; [done|]. split; [by intros []|].
  destruct Hs as [[_ [[Hl Hb]|[Hf Hl]]]|(-> & Hb & _ & _ & Hl)].
  - exists []. rewrite app_nil_r. cbn. rewrite Hb. split_and!; [done..|]. by destruct (failed err).
  - eexists. split; [exact Hl|]. rewrite Hf. split; [|done]. by intros [].
  - eexists. split; [exact Hl|]. cbn. rewrite Hb. split; [|done]. by intros [].
Qed.
Lemma start_hook_spec cfg s p r w r' err w' :
  Container.start_hook cfg s p r w = ((r', err), w') → running p r = false →
  starts p r w r' err w' ∧ (p ≠ PEventRuntime → no_events r w r' w').
Proof.
  intros E Hr.
  assert (p ≠ PEventRuntime → starts p r w r' err w' ∧ no_events r w r' w') as Hother.
  { intros Hne. destruct p; cbn [Container.start_hook] in E; try (returned E; by apply starts_nothing).
    - by eapply launch_starts.
    - by eapply launch_starts.
    - by eapply launch_starts.
    - destruct (Container.built s PGRPC) as [server|]; [|returned E; by apply starts_nothing].
      destruct (failed (GRPCServer.start _ _ _)); [returned E; by apply starts_nothing|].
      by eapply launch_starts.
    - destruct (Container.built s PHTTP) as [server|]; [|returned E; by apply starts_nothing].
      destruct (failed (Server.OnStart _ _)); [returned E; by apply starts_nothing|].
      by eapply (launch_starts true). }
  destruct (decide (p = PEventRuntime)) as [->|Hne].
  - split; [|done]. cbn [Container.start_hook] in E.
    apply bind_inv in E as ([e eerr] & w1 & E1 & E). returned E. by eapply events_start.
  - by destruct (Hother Hne).
Qed.

(** The event runtime can stop its loops. *)
Definition stoppable r : Prop :=
  Wiring.Runtime_loops (Container.run_events r) ≠ [] →
  Wiring.Runtime_cancel (Container.run_events r) = true.
(** What a stop hook of the part closes: before its own resource the loops it runs. *)
Definition closings p r : list Event :=
  (if bool_decide (p = PEventRuntime)
   then map EvClose (map fst (Wiring.Runtime_loops (Container.run_events r))) else []) ++
  (if holds p r then [EvClose (resource p)] else []).

Lemma stop_hook_spec p r w r' err w' :
  Container.stop_hook p r w = ((r', err), w') → stoppable r →
  w_db w' = w_db w ∧ (∀ q, q ≠ p → running q r' = running q r) ∧
  w_log w' = w_log w ++ closings p r ∧
  if bool_decide (p = PEventRuntime) then Wiring.Runtime_loops (Container.run_events r') = []
  else Container.run_events r' = Container.run_events r.
Proof.
  intros E Hs. unfold closings.
  assert (early p = false → background p = true → p ≠ PEventRuntime →
    Container.halt p r w = ((r', err), w') →
    w_db w' = w_db w ∧ (∀ q, q ≠ p → running q r' = running q r) ∧
    w_log w' = w_log w ++ (if holds p r then [EvClose (resource p)] else []) ∧
    Container.run_events r' = Container.run_events r) as Hhalt.
  { intros He Hb Hne. unfold Container.halt, holds. rewrite He, Hb.
    assert (running p r = bool_decide (p ∈ Container.run_parts r)) as -> by (by destruct p).
    destruct (bool_decide _); intros Eh; [injection Eh as <- <- <-|returned Eh].
    - split; [done|]. split; [|done]. intros q Hq. destruct q; cbn; try done; apply bool_decide_ext;
        rewrite list_elem_of_filter; naive_solver.
    - split; [done|]. split; [by intros|]. by rewrite app_nil_r. }
  destruct (decide (p = PEventRuntime)) as [->|Hne].
  - rewrite bool_decide_eq_true_2 by done. cbn [Container.stop_hook] in E.
    apply bind_inv in E as ([e eerr] & w1 & E1 & E). returned E.
    apply event_stop_spec in E1 as (Hd & Hl & Hlog); [|exact Hs].
    split; [done|]. split; [by intros []|]. by split.
  - rewrite bool_decide_eq_false_2 by done. cbn [app].
    destruct p; cbn [Container.stop_hook] in E; unfold holds in *; cbn in *; try done;
      try (by apply Hhalt);
      try (returned E; split; [done|]; split; [by intros|]; by rewrite app_nil_r);
      (injection E as <- <- <-; split; [done|]; split; [by intros|done]).
Qed.

(** ** The order of the shutdown *)
(** Whenever a resource is closed, no part with a goroutine that uses it is open. *)
Definition users_first (l : list Event) : Prop :=
  ∀ p q l1 l2, background p = true → uses p q →
  l = l1 ++ EvClose (resource q) :: l2 → opened p l1 = closed p l1.

Lemma background_unused p q : background q = true → ¬ uses p q.
Proof.
  intros Hq Hu. assert (∃ u, requires u q) as (u & Hr).
  { induction Hu as [p q Hr|p u q _ _ IH]; [by exists p|by apply IH]. }
  revert Hr. unfold requires. apply (bool_decide_eq_false (q ∈ params u)).
  by destruct q, u.
Qed.

Lemma users_first_app l l' :
  users_first l →
  (∀ p q l1 l2, background p = true → uses p q → l' = l1 ++ EvClose (resource q) :: l2 →
    opened p (l ++ l1) = closed p (l ++ l1)) →
  users_first (l ++ l').
Proof.
  intros Hl Hl' p q l1 l2 Hp Hu E.
  apply app_eq_app in E as (k & [[-> Ek]|[-> ->]]).
  - destruct k as [|e k]; cbn in Ek.
    + pose proof (Hl' p q [] l2 Hp Hu (eq_sym Ek)) as Hc0. by rewrite !app_nil_r in Hc0.
    + injection Ek as <- ->. by apply (Hl p q l1 k).
  - by eapply Hl'.
Qed.
(** Nothing is closed that something uses. *)
Lemma users_first_quiet l l' :
  users_first l → (∀ p q, uses p q → closed q l' = 0%nat) → users_first (l ++ l').
Proof.
  intros Hl Hq. apply users_first_app; [done|]. intros p q l1 l2 Hp Hu ->. exfalso.
  specialize (Hq p q Hu). destruct (counts_app q l1 (EvClose (resource q) :: l2)) as (_ & Hc & _).
  rewrite Hc in Hq. unfold closed in Hq. rewrite count_cons in Hq. cbn in Hq.
  rewrite bool_decide_eq_true_2 in Hq by done. lia.
Qed.
Lemma users_first_none l :
  (∀ p, background p = true → opened p l = 0%nat ∧ closed p l = 0%nat) → users_first l.
Proof.
  intros Hn p q l1 l2 Hp _ ->. destruct (Hn p Hp) as [Ho Hc].
  destruct (counts_app p l1 (EvClose (resource q) :: l2)) as (Eo & Ec & _). lia.
Qed.

(** Whenever the bus is closed, or what the event runtime uses, its loops have ended. *)
Definition loops_first (l : list Event) : Prop :=
  ∀ q l1 l2, q = PEventRuntime ∨ uses PEventRuntime q →
  l = l1 ++ EvClose (resource q) :: l2 → loops_ended l1.
Lemma loops_first_app l l' :
  loops_first l →
  (∀ q l1 l2, q = PEventRuntime ∨ uses PEventRuntime q → l' = l1 ++ EvClose (resource q) :: l2 →
    loops_ended (l ++ l1)) →
  loops_first (l ++ l').
Proof.
  intros Hl Hl' q l1 l2 Hq E. apply app_eq_app in E as (k & [[-> Ek]|[-> ->]]).
  - destruct k as [|e k]; cbn in Ek.
    + pose proof (Hl' q [] l2 Hq (eq_sym Ek)) as Hc0. by rewrite !app_nil_r in Hc0.
    + injection Ek as <- ->. by apply (Hl q l1 k).
  - by eapply Hl'.
Qed.
Lemma closed_in q l1 l2 : closed q (l1 ++ EvClose (resource q) :: l2) ≠ 0%nat.
Proof.
  destruct (counts_app q l1 (EvClose (resource q) :: l2)) as (_ & -> & _).
  unfold closed. rewrite count_cons. cbn. rewrite bool_decide_eq_true_2 by done. lia.
Qed.
(** Nothing of the event runtime's is closed. *)
Lemma loops_first_quiet l l' :
  loops_first l → (∀ q, q = PEventRuntime ∨ uses PEventRuntime q → closed q l' = 0%nat) →
  loops_first (l ++ l').
Proof.
  intros Hl Hq. apply loops_first_app; [done|]. intros q l1 l2 Hu ->. exfalso.
  by apply (closed_in q l1 l2), Hq.
Qed.

(** The log and the loops that run agree; they only run while the part is started, and
    can then be stopped. *)
Record tidy (l : list Event) (started : list Part) (r : Container.Running) : Prop := {
  tidy_first : loops_first l;
  tidy_count : count opens_loop l =
    (count closes_loop l + length (Wiring.Runtime_loops (Container.run_events r)))%nat;
  tidy_names : Forall (λ x, x.1 ∈ loop_names) (Wiring.Runtime_loops (Container.run_events r));
  tidy_started : Wiring.Runtime_loops (Container.run_events r) ≠ [] → PEventRuntime ∈ started;
  tidy_stoppable : stoppable r }.
Lemma tidy_ended l started r : tidy l started r → PEventRuntime ∉ started → loops_ended l.
Proof.
  intros [_ Hc _ Hs _] Hn. unfold loops_ended.
  destruct (Wiring.Runtime_loops _); [cbn in Hc; lia|by destruct Hn; apply Hs].
Qed.

Lemma start_tidy cfg s started p r w l r1 e w1 l1 :
  Container.start_hook cfg s p r w = ((r1, e), w1) → p ∉ started → running p r = false →
  w_log w1 = w_log w ++ l1 → tidy l started r →
  tidy (l ++ l1) (if failed e then started else p :: started) r1.
Proof.
  intros E Hp Hr Hl1 Ht. pose proof (tidy_ended _ _ _ Ht) as Hend. destruct Ht as [Hf Hc Hn Hs Hst].
  destruct (start_hook_spec _ _ _ _ _ _ _ _ E Hr) as [(_ & _ & k & Hk & Ho & Hb & _) Hne].
  rewrite Hl1 in Hk. apply app_inv_head in Hk as <-.
  destruct (decide (p = PEventRuntime)) as [->|Hpe].
  - cbn [Container.start_hook] in E. apply bind_inv in E as ([ev eerr] & w2 & E1 & E). returned E.
    apply event_start_spec in E1 as (_ & Hev). specialize (Hend Hp).
    assert (∀ k, loopless k → loops_ended (l ++ k)) as Hk by (intros; by apply loopless_ended).
    destruct Hev as [[Hl Hlog]|(-> & Hbus & Hcan & Hl & Hlog)].
    + assert (loopless l1 ∧ loops_first (l ++ l1)) as [Hll Hfirst].
      { destruct Hlog as [[Hlog _]|[_ Hlog]]; rewrite Hl1 in Hlog.
        - rewrite <- (app_nil_r (w_log w)) in Hlog at 2. apply app_inv_head in Hlog as ->.
          split; [done|]. by rewrite app_nil_r.
        - apply app_inv_head in Hlog as ->. split; [done|]. apply loops_first_app; [done|].
          intros q k1 k2 _ Ek. apply Hk. destruct k1 as [|? [|? k1]]; [done|by injection Ek as <- _|].
          injection Ek as _ _ Ek. by destruct k1. }
      destruct Hll as [Ho1 Hc1]. unfold loops_ended in Hend.
      split; unfold stoppable; cbn [Container.run_events]; unfold constant; rewrite ?Hl; try done.
      rewrite !count_app, Ho1, Hc1. cbn [length]. lia.
    + rewrite Hl1 in Hlog. apply app_inv_head in Hlog as ->.
      assert (length (Wiring.Runtime_loops ev) = 2%nat) as Hlen.
      { apply (f_equal length) in Hl. by rewrite length_map in Hl. }
      split; unfold stoppable; cbn [Container.run_events]; unfold constant; try done.
      * apply loops_first_quiet; [done|]. intros q _. by destruct q.
      * rewrite !count_app, Hlen. unfold loops_ended in Hend. rewrite Hend.
        change (count opens_loop [_; _; _]) with 2%nat. change (count closes_loop [_; _; _]) with 0%nat. lia.
      * apply (proj1 (List.Forall_map fst (λ x, x ∈ loop_names) _)). rewrite Hl.
        by apply Forall_forall.
      * intros _. by left.
  - destruct (Hne Hpe) as [Hev (k & Hk & Hll)]. rewrite Hl1 in Hk. apply app_inv_head in Hk as <-.
    split; unfold stoppable in *; rewrite ?Hev; [| |done| |done].
    + apply loops_first_quiet; [done|]. intros q Hq. destruct (decide (p = q)) as [<-|Hpq].
      * destruct Hq as [->|Hq]; [done|]. destruct (background p) eqn:Eb; [by apply background_unused in Hq|].
        by rewrite Hb.
      * by apply Ho.
    + rewrite !count_app. destruct Hll as [-> ->]. lia.
    + intros Hx. destruct (failed e); [|right]; by apply Hs.
Qed.

(** What is open: a resource of [pending] hooks that was opened when its part was built,
    and a goroutine of a [started] part. *)
Definition owed (pending started : list Part) (r : Container.Running) (p : Part) : nat :=
  if early p then if bool_decide (p ∈ pending) then 1 else 0
  else if background p && bool_decide (p ∈ started) && running p r then 1 else 0.
Definition accounted (l : list Event) (pending started : list Part) (r : Container.Running) : Prop :=
  ∀ p, opened p l = (closed p l + owed pending started r p)%nat.

Lemma start_step cfg s pending started p r w l r1 e w1 :
  Container.start_hook cfg s p r w = ((r1, e), w1) → p ∉ started → running p r = false →
  users_first l → accounted l pending started r →
  w_db w1 = w_db w ∧ (∀ q, q ≠ p → running q r1 = running q r) ∧
  ∃ l1, w_log w1 = w_log w ++ l1 ∧ users_first (l ++ l1) ∧
  accounted (l ++ l1) pending (if failed e then started else p :: started) r1.
Proof.
  intros E Hp Hr Hu Ha.
  destruct (start_hook_spec _ _ _ _ _ _ _ _ E Hr) as [(Hd & Hq & l1 & Hl1 & Ho & Hbg & Hres) _].
  split; [done|]. split; [done|]. exists l1. split; [done|]. split.
  - apply users_first_quiet; [done|]. intros u q Huq. destruct (decide (p = q)) as [<-|Hpq].
    + destruct (background p) eqn:Eb; [by apply background_unused in Huq|]. by rewrite Hbg.
    + by apply Ho.
  - intros q. destruct (counts_app q l l1) as (-> & -> & _). rewrite (Ha q). unfold owed.
    destruct (decide (p = q)) as [<-|Hpq].
    + rewrite Hres, (bool_decide_eq_false_2 (p ∈ started)) by done. destruct (failed e).
      * rewrite (bool_decide_eq_false_2 (p ∈ started)) by done. rewrite !andb_false_r. cbn [andb]. lia.
      * rewrite bool_decide_eq_true_2 with (P := p ∈ p :: started) by (by left).
        rewrite andb_true_r, andb_false_r.
        destruct (background p) eqn:Eb; cbn [andb]; [|lia].
        assert (early p = false) as -> by (by destruct p). lia.
    + destruct (Ho q Hpq) as [-> ->]. rewrite (Hq q) by done.
      destruct (failed e); [lia|]. rewrite (bool_decide_ext (q ∈ p :: started) (q ∈ started)); [lia|].
      rewrite elem_of_cons. naive_solver.
Qed.

Lemma start_hooks_spec cfg s before pending todo : ∀ started r w l r' started' err w',
  Container.start_hooks cfg s todo started r w = ((r', started', err), w') →
  w_log w = before ++ l → NoDup (started ++ todo) → (∀ p, p ∉ started → running p r = false) →
  users_first l → accounted l pending started r → tidy l started r →
  w_db w' = w_db w ∧ ∃ l' rest, w_log w' = before ++ l' ∧
  users_first l' ∧ accounted l' pending started' r' ∧ tidy l' started' r' ∧
  reverse started' ++ rest = reverse started ++ todo ∧ (err = nil_err → rest = []).
Proof.
  induction todo as [|p todo IH]; intros started r w l r' started' err w' E Hl Hn Hidle Hu Ha Ht;
    cbn [Container.start_hooks] in E.
  { returned E. split; [done|]. by exists l, []. }
  apply bind_inv in E as ([r1 e] & w1 & E1 & E).
  assert (p ∉ started) as Hp by (apply NoDup_app in Hn as (_ & Hd & _); intros Hi; apply (Hd p Hi); by left).
  destruct (start_step _ _ _ _ _ _ _ _ _ _ _ E1 Hp (Hidle p Hp) Hu Ha) as (Hd & Hq & l1 & Hl1 & Hu1 & Ha1).
  pose proof (start_tidy _ _ _ _ _ _ _ _ _ _ _ E1 Hp (Hidle p Hp) Hl1 Ht) as Ht1.
  rewrite Hl in Hl1. rewrite <- app_assoc in Hl1.
  destruct (failed e) eqn:Ef.
  { returned E. split; [done|]. exists (l ++ l1), (p :: todo). split_and!; try done. by intros ->. }
  apply failed_nil in Ef as ->. cbn [failed is_nil negb] in E.
  destruct (IH (p :: started) r1 w1 (l ++ l1) r' started' err w' E Hl1)
    as (Hd2 & l' & rest & K1 & K2 & K3 & K4 & K5 & K6); [|..|done|done|done|].
  - by rewrite <- Permutation_middle in Hn.
  - intros q [Hqp Hqs]%not_elem_of_cons. rewrite (Hq q Hqp). by apply Hidle.
  - split; [congruence|]. exists l', rest. split_and!; try done.
    by rewrite K5, reverse_cons, <- app_assoc.
Qed.

(** What is closed is the part's own resource or a loop. *)
Lemma closings_in p r q k1 k2 :
  Forall (λ x, x.1 ∈ loop_names) (Wiring.Runtime_loops (Container.run_events r)) →
  closings p r = k1 ++ EvClose (resource q) :: k2 →
  q = p ∧ holds p r = true ∧ k2 = [] ∧
  k1 = if bool_decide (p = PEventRuntime)
       then map EvClose (map fst (Wiring.Runtime_loops (Container.run_events r))) else [].
Proof.
  intros Hn E. unfold closings in E.
  set (waits := if bool_decide _ then _ else _) in *.
  assert (∀ k k', waits ≠ k ++ EvClose (resource q) :: k') as Hw.
  { intros k k' Hk. assert (EvClose (resource q) ∈ waits) as Hin by (rewrite Hk; apply elem_of_app; right; by left).
    unfold waits in Hin. destruct (bool_decide _); [|by apply not_elem_of_nil in Hin].
    rewrite map_map in Hin. apply list_elem_of_fmap in Hin as (x & [= Hx] & Hin).
    rewrite Forall_forall in Hn. apply (resource_no_loop q). rewrite Hx. by apply Hn. }
  apply app_eq_app in E as (k & [[Ew Ek]|[Ew Ek]]).
  - destruct k as [|e k]; [|cbn in Ek; injection Ek as <- _; by edestruct Hw].
    cbn in Ek. destruct (holds p r); [|done]. injection Ek as Er ->. apply resource_inj in Er as ->.
    by rewrite Ew, app_nil_r.
  - destruct (holds p r); [|by destruct k]. destruct k as [|e [|? ?]]; [|done..].
    cbn in Ek. injection Ek as Er <-. apply resource_inj in Er as ->. by rewrite Ew, app_nil_r.
Qed.
Lemma closings_counts p r q :
  Forall (λ x, x.1 ∈ loop_names) (Wiring.Runtime_loops (Container.run_events r)) →
  opened q (closings p r) = 0%nat ∧
  closed q (closings p r) = (if bool_decide (p = q) && holds p r then 1 else 0)%nat.
Proof.
  intros Hn. unfold closings. set (waits := if bool_decide _ then _ else _).
  assert (opened q waits = 0%nat ∧ closed q waits = 0%nat) as [Hwo Hwc].
  { unfold waits. destruct (bool_decide _); [|done]. pose proof (resource_no_loop q) as Hq.
    induction Hn as [|x xs Hx _ [IHo IHc]]; [done|]. unfold opened, closed in *. cbn [map].
    rewrite !count_cons, IHo, IHc. cbn. rewrite bool_decide_eq_false_2; [done|]. by intros Hqx; rewrite Hqx in Hq. }
  match goal with |- context [waits ++ ?k] => destruct (counts_app q waits k) as (-> & -> & _) end.
  rewrite Hwo, Hwc. destruct (holds p r); rewrite ?andb_true_r, ?andb_false_r; [|done].
  unfold opened, closed. rewrite !count_cons, !count_nil. cbn. destruct (decide (p = q)) as [<-|Hpq].
  - by rewrite !bool_decide_eq_true_2.
  - rewrite !bool_decide_eq_false_2; [done|done|]. by intros ?%resource_inj.
Qed.

Lemma stop_step pending started p r w l r1 e w1 :
  Container.stop_hook (DB := DB) p r w = ((r1, e), w1) → p ∉ started → p ∈ pending →
  (∀ u, u ∈ started → ¬ uses u p) → users_first l → accounted l pending (p :: started) r →
  tidy l (p :: started) r →
  w_db w1 = w_db w ∧ ∃ l1, w_log w1 = w_log w ++ l1 ∧ users_first (l ++ l1) ∧
  accounted (l ++ l1) (filter (λ q, q ≠ p) pending) started r1.
Proof.
  intros E Hp Hin Ho Hu Ha Ht.
  destruct (stop_hook_spec _ _ _ _ _ _ E (tidy_stoppable _ _ _ Ht)) as (Hd & Hq & Hl1 & _).
  pose proof (tidy_names _ _ _ Ht) as Hn.
  split; [done|]. exists (closings p r). split; [done|]. split.
  - apply users_first_app; [done|]. intros u q k1 k2 Hbu Huq Ek.
    apply closings_in in Ek as (-> & _ & _ & ->); [|done].
    rewrite bool_decide_eq_false_2, app_nil_r by (intros ->; by apply background_unused in Huq).
    rewrite (Ha u). unfold owed. assert (early u = false) as -> by (by destruct u).
    rewrite (bool_decide_eq_false_2 (u ∈ p :: started)), andb_false_r; [cbn; lia|].
    intros [->|Hus]%elem_of_cons; [by apply background_unused in Huq|by apply (Ho u)].
  - intros q. destruct (counts_app q l (closings p r)) as (-> & -> & _).
    destruct (closings_counts p r q Hn) as [-> ->].
    rewrite (Ha q). unfold owed. destruct (decide (p = q)) as [<-|Hpq].
    + rewrite (bool_decide_eq_true_2 (p = p)) by done.
      rewrite (bool_decide_eq_true_2 (p ∈ pending)) by done.
      rewrite (bool_decide_eq_true_2 (p ∈ p :: started)) by (by left).
      rewrite (bool_decide_eq_false_2 (p ∈ started)) by done.
      rewrite (bool_decide_eq_false_2 (p ∈ filter _ pending)) by (by rewrite list_elem_of_filter; intros []).
      rewrite andb_true_r, andb_false_r. unfold holds.
      destruct (early p), (background p), (running p r); cbn; lia.
    + rewrite (bool_decide_eq_false_2 (p = q)) by done. cbn [andb]. rewrite (Hq q) by done.
      rewrite (bool_decide_ext (q ∈ p :: started) (q ∈ started)) by (rewrite elem_of_cons; naive_solver).
      rewrite (bool_decide_ext (q ∈ filter (λ q, q ≠ p) pending) (q ∈ pending))
        by (rewrite list_elem_of_filter; naive_solver).
      lia.
Qed.
Lemma stop_tidy started p r w l r1 e w1 l1 :
  Container.stop_hook (DB := DB) p r w = ((r1, e), w1) → p ∉ started →
  (∀ u, u ∈ started → ¬ uses u p) → w_log w1 = w_log w ++ l1 → tidy l (p :: started) r →
  tidy (l ++ l1) started r1.
Proof.
  intros E Hp Ho Hl Ht. pose proof (tidy_ended _ _ _ Ht) as Hend. destruct Ht as [Hf Hc Hn Hs Hst].
  destruct (stop_hook_spec _ _ _ _ _ _ E Hst) as (_ & _ & Hl1 & Hev).
  rewrite Hl in Hl1. apply app_inv_head in Hl1 as ->.
  destruct (decide (p = PEventRuntime)) as [->|Hne].
  - rewrite bool_decide_eq_true_2 in Hev by done.
    set (loops := Wiring.Runtime_loops (Container.run_events r)) in *.
    assert (count opens_loop (map EvClose (map fst loops)) = 0%nat ∧
      count closes_loop (map EvClose (map fst loops)) = length loops) as [Hwo Hwc].
    { clearbody loops. clear -Hn. induction Hn as [|x xs Hx _ [IHo IHc]]; [done|]. cbn [map length].
      rewrite !count_cons, IHo, IHc. cbn. by rewrite bool_decide_eq_true_2. }
    assert (loopless (if holds PEventRuntime r then [EvClose (resource PEventRuntime)] else [])) as [Hbo Hbc]
      by (by destruct (holds _ _)).
    split; unfold stoppable; rewrite ?Hev; try done.
    + apply loops_first_app; [done|]. intros q k1 k2 _ Ek.
      apply closings_in in Ek as (_ & _ & _ & ->); [|done]. rewrite bool_decide_eq_true_2 by done.
      unfold loops_ended. rewrite !count_app. fold loops. rewrite Hwo, Hwc. lia.
    + unfold closings. rewrite bool_decide_eq_true_2 by done. fold loops.
      rewrite !count_app, Hwo, Hwc, Hbo, Hbc. cbn [length]. lia.
  - rewrite bool_decide_eq_false_2 in Hev by done.
    assert (loopless (closings p r)) as [Hco Hcc].
    { unfold closings. rewrite bool_decide_eq_false_2 by done. cbn [app].
      apply (about_loopless p). destruct (holds p r); by repeat constructor. }
    split; unfold stoppable in *; rewrite ?Hev; [| |done| |done].
    + apply loops_first_app; [done|]. intros q k1 k2 Hq Ek.
      apply closings_in in Ek as (-> & _ & _ & ->); [|done]. rewrite bool_decide_eq_false_2, app_nil_r by done.
      destruct Hq as [->|Hq]; [done|]. apply Hend.
      intros [?|Hin]%elem_of_cons; [by subst|]. by apply (Ho PEventRuntime).
    + rewrite !count_app, Hco, Hcc. lia.
    + intros Hx. specialize (Hs Hx). apply elem_of_cons in Hs as [?|?]; [by subst|done].
Qed.

(** The timeout ended while a hook was waiting. *)
Definition expired (errs : list error) : Prop := errs ≠ [] ∧ ∃ p, stop_expires (resource p) = true.
Lemma stop_hooks_spec before started : ∀ pending r w l r' errs w',
  Container.stop_hooks (DB := DB) started r w = ((r', errs), w') →
  w_log w = before ++ l → NoDup started →
  (∀ l1 q l2, started = l1 ++ q :: l2 → ∀ p, p ∈ l2 → ¬ uses p q) →
  (∀ p, p ∈ started → p ∈ pending) →
  users_first l → accounted l pending started r → tidy l started r →
  w_db w' = w_db w ∧ ∃ l', w_log w' = before ++ l' ∧ users_first l' ∧ loops_first l' ∧
  (expired errs ∨ (accounted l' (filter (λ p, p ∉ started) pending) [] r' ∧ loops_ended l')).
Proof.
  induction started as [|p started IH]; intros pending r w l r' errs w' E Hl Hn Ho Hsub Hu Ha Ht;
    cbn [Container.stop_hooks] in E.
  { returned E. split; [done|]. exists l. split_and!; [done..|by apply Ht|]. right. split.
    - intros q. rewrite (Ha q). unfold owed.
      rewrite (bool_decide_ext (q ∈ filter _ pending) (q ∈ pending)); [done|].
      rewrite list_elem_of_filter. split; [by intros [_ ?]|]. intros ?. split; [apply not_elem_of_nil|done].
    - eapply tidy_ended; [done|apply not_elem_of_nil]. }
  destruct (stop_expires (resource p)) eqn:Ex.
  { returned E. split; [done|]. exists l. split_and!; [done..|by apply Ht|]. left. split; [done|by exists p]. }
  apply bind_inv in E as ([r1 e] & w1 & E1 & E). apply bind_inv in E as ([r2 es] & w2 & E2 & E). returned E.
  apply NoDup_cons in Hn as [Hp Hn].
  assert (∀ u, u ∈ started → ¬ uses u p) as Hup by (by apply (Ho [] p started)).
  destruct (stop_step pending started p r w l r1 e w1 E1 Hp) as (Hd & l1 & Hl1 & Hu1 & Ha1);
    [by apply Hsub; left|done..|].
  pose proof (stop_tidy _ _ _ _ _ _ _ _ _ E1 Hp Hup Hl1 Ht) as Ht1.
  rewrite Hl in Hl1. rewrite <- app_assoc in Hl1.
  destruct (IH (filter (λ q, q ≠ p) pending) r1 w1 (l ++ l1) r' es w' E2 Hl1 Hn)
    as (Hd2 & l' & K1 & K2 & K3 & K4); [..|done|done|done|].
  - intros k1 q k2 -> u Hku. by apply (Ho (p :: k1) q k2).
  - intros q Hqs. apply list_elem_of_filter. split; [by intros ->|]. apply Hsub. by right.
  - split; [congruence|]. exists l'. split_and!; [done..|].
    destruct K4 as [[Hes Hx]|[K4 K5]]; [left; split; [by destruct (failed e)|done]|right].
    split; [|done]. intros q. rewrite (K4 q). unfold owed.
    rewrite (bool_decide_ext (q ∈ filter (λ p0, p0 ∉ started) (filter (λ q, q ≠ p) pending))
      (q ∈ filter (λ p0, p0 ∉ p :: started) pending)); [done|].
    rewrite !list_elem_of_filter, not_elem_of_cons. tauto.
Qed.

Lemma occurrences_nodup p ps : NoDup ps → occurrences p ps = if bool_decide (p ∈ ps) then 1%nat else 0%nat.
Proof.
  intros Hn. unfold occurrences. induction Hn as [|q ps Hq Hn IH]; [done|].
  destruct (decide (p = q)) as [<-|Hpq].
  - rewrite filter_cons_True, bool_decide_eq_true_2 by (done || by left). cbn. rewrite IH.
    by rewrite bool_decide_eq_false_2.
  - rewrite filter_cons_False by done. rewrite IH. apply (f_equal (λ b : bool, if b then 1%nat else 0%nat)).
    apply bool_decide_ext. rewrite elem_of_cons. naive_solver.
Qed.
Lemma migrations_uncounted p l : opened p (map EvMigrate l) = 0%nat ∧ closed p (map EvMigrate l) = 0%nat.
Proof. unfold opened, closed. by induction l. Qed.

Lemma migrations_loopless l : loopless (map EvMigrate l).
Proof. split; by induction l. Qed.

(** What [New] leaves: every hook is owed its closing, and nothing else is. *)
Lemma New_accounted build cfg w s err w' :
  Container.New idempotency_New build cfg w = ((s, err), w') →
  w_db w' = w_db w ∧ Container.hooks s `sublist_of` mjoin fx_schedule ∧
  ∃ l, w_log w' = w_log w ++ l ∧ users_first l ∧ accounted l (Container.hooks s) [] Container.idle ∧
    tidy l [] Container.idle.
Proof.
  intros (Hd & first & migration & rest & Hl & _ & Hs & [Hb Hlate Hh Hll _] & _)%New_spec.
  assert (∀ p, opened p (first ++ map EvMigrate migration ++ rest) = opened p (first ++ rest) ∧
    closed p (first ++ map EvMigrate migration ++ rest) = closed p (first ++ rest)) as Hc.
  { intros p. destruct (counts_app p first rest) as (-> & -> & _).
    destruct (counts_app p first (map EvMigrate migration ++ rest)) as (-> & -> & _).
    destruct (counts_app p (map EvMigrate migration) rest) as (-> & -> & _).
    by destruct (migrations_uncounted p migration) as [-> ->]. }
  assert (loopless (first ++ map EvMigrate migration ++ rest)) as [Ho1 Hc1].
  { destruct (migrations_loopless migration) as [Hmo Hmc], Hll as [Hlo Hlc].
    rewrite count_app in Hlo, Hlc. split; rewrite !count_app; lia. }
  split; [done|]. split; [done|]. eexists. split; [exact Hl|]. split_and!.
  - apply users_first_none. intros p Hp. destruct (Hc p) as [-> ->]. apply Hlate. by destruct p.
  - intros p. destruct (Hc p) as [-> ->]. specialize (Hb (resource p)).
    change (opened p (first ++ rest) = closed p (first ++ rest) + hooked p (first ++ rest))%nat in Hb.
    unfold owed. rewrite (bool_decide_eq_false_2 (p ∈ [])), andb_false_r by apply not_elem_of_nil.
    destruct (early p) eqn:Ee; [|by destruct (Hlate p Ee) as [-> ->]].
    rewrite Hb, (Hh p Ee), occurrences_nodup; [done|]. eapply sublist_NoDup; [apply fx_once|done].
  - split; [|cbn; lia|by constructor|by intros []|by intros []]. intros q l1 l2 _ E. rewrite E in Ho1, Hc1.
    rewrite count_app in Ho1, Hc1. unfold loops_ended. lia.
Qed.

(** Stopping what was started of the hooks. *)
Lemma stop_started started rest hooks before :
  reverse started ++ rest = hooks → hooks `sublist_of` mjoin fx_schedule → ∀ r l r2 errs w3 w4,
  users_first l → accounted l hooks started r → tidy l started r → w_log w3 = before ++ l →
  Container.stop_hooks (DB := DB) started r w3 = ((r2, errs), w4) →
  ∃ l', w_log w4 = before ++ l' ∧ users_first l' ∧ loops_first l' ∧
    (expired errs ∨ (accounted l' (filter (λ p, p ∉ started) hooks) [] r2 ∧ loops_ended l')).
Proof.
  intros Hh Hs r l r2 errs w3 w4 Hu Ha Ht Hl E.
  assert (NoDup hooks) as Hn by (eapply sublist_NoDup; [apply fx_once|done]).
  destruct (stop_hooks_spec _ _ hooks _ _ _ _ _ _ E Hl) as (_ & K); [..|done|done|done|done].
  - rewrite <- Hh in Hn. apply NoDup_app in Hn as (Hn & _).
    by rewrite reverse_Permutation in Hn.
  - intros k1 q k2 Hk p Hp. apply (sublist_in_order _ Hs (reverse k2) q (reverse k1 ++ rest)).
    + by rewrite <- Hh, Hk, reverse_app, reverse_cons, <- !app_assoc.
    + by apply elem_of_reverse.
  - intros p Hp. rewrite <- Hh. apply elem_of_app. left. by apply elem_of_reverse.
Qed.

(** What runs when the hooks have been stopped: nothing. *)
Definition all_ended (l : list Event) : Prop :=
  (∀ p, background p = true → opened p l = closed p l) ∧ loops_ended l.
Lemma accounted_ended l pending r :
  accounted l pending [] r → ∀ p, background p = true → opened p l = closed p l.
Proof.
  intros Hacc p Hp. rewrite (Hacc p). unfold owed.
  rewrite (bool_decide_eq_false_2 (p ∈ [])), andb_false_r by apply not_elem_of_nil.
  by destruct p; try done; rewrite Nat.add_0_r.
Qed.
Lemma stopped_ended errs l pending r :
  expired errs ∨ (accounted l pending [] r ∧ loops_ended l) →
  (∀ p, stop_expires (resource p) = false) → all_ended l.
Proof.
  intros [[_ [p Hp]]|[Hacc Hl]] Hno; [by rewrite Hno in Hp|]. split; [|done].
  by eapply accounted_ended.
Qed.
Lemma accounted_released l pending r :
  accounted l pending [] r → (∀ p, p ∉ pending) → ∀ p, opened p l = closed p l.
Proof.
  intros Hacc Hno p. rewrite (Hacc p). unfold owed.
  rewrite (bool_decide_eq_false_2 (p ∈ pending)) by apply Hno.
  rewrite (bool_decide_eq_false_2 (p ∈ [])), andb_false_r by apply not_elem_of_nil.
  by destruct (early p); rewrite Nat.add_0_r.
Qed.

(** While it serves, the process starts and closes none of its resources. *)
Definition steady_serving (serving : IO DB unit) : Prop :=
  ∀ w0, ∃ l, w_log (serving w0).2 = w_log w0 ++ l ∧ ∀ name, EvOpen name ∉ l ∧ EvClose name ∉ l.
Lemma steady_counts l :
  (∀ name, EvOpen name ∉ l ∧ EvClose name ∉ l) →
  loopless l ∧ ∀ p, opened p l = 0%nat ∧ closed p l = 0%nat.
Proof.
  intros Hl. unfold loopless, opened, closed.
  induction l as [|e l IH]; [done|].
  destruct IH as [[Ho Hc] Hp]; [intros name; destruct (Hl name); set_solver|].
  assert (∀ name, e ≠ EvOpen name ∧ e ≠ EvClose name) as He by (intros name; destruct (Hl name); set_solver).
  split; [|intros p; specialize (Hp p)]; rewrite !count_cons; destruct e; cbn; try done;
    edestruct He as [Hx Hy]; by first [destruct Hx|destruct Hy].
Qed.

(** C19 The shutdown.  Whatever the order in which the container builds the parts, and
    whatever fails, a connection, a file or a client is only closed when nothing that
    uses it runs any more: the servers, the scheduler, the worker, the cleaner and the
    event runtime are stopped before the database, Redis, the outbound clients, the
    token verifier, the tracing and the log that they use; and the event runtime's two
    loops have ended before its bus, the database or anything else that it uses is
    closed.  Nothing runs when it ends before the stop timeout; and a process that exits
    with status 0 has ended its loops and closed all that it opened. *)
Theorem shutdown_order build cfg serving w status w' :
  steady_serving serving →
  Container.Run idempotency_New build cfg serving w = (status, w') →
  ∃ l, w_log w' = w_log w ++ l ∧ users_first l ∧ loops_first l ∧
  ((∀ p, stop_expires (resource p) = false) → all_ended l) ∧
  (status = 0 → loops_ended l ∧ ∀ p, opened p l = closed p l).
Proof.
  intros Hserving E. unfold Container.Run in E. apply bind_inv in E as ([s err] & w1 & E1 & E).
  apply New_accounted in E1 as (_ & Hs & l & Hl & Hu & Ha & Ht).
  destruct (failed err).
  { returned E. exists l. split_and!; [done..|by apply Ht| |done]. intros _.
    split; [by eapply accounted_ended|]. eapply tidy_ended; [done|apply not_elem_of_nil]. }
  assert (NoDup (Container.hooks s)) as Hn by (eapply sublist_NoDup; [apply fx_once|done]).
  apply bind_inv in E as ([[r started] err2] & w2 & E2 & E).
  destruct (start_hooks_spec _ _ _ (Container.hooks s) _ _ _ _ _ _ _ _ _ E2 Hl)
    as (_ & l2 & rest & K1 & K2 & K3 & K4 & K5 & K6); [done|by intros []|done|done|done|]. cbn in K5.
  pose proof (stop_started started rest (Container.hooks s) (w_log w) K5 Hs) as Hstop.
  destruct (failed err2) eqn:Ef.
  - apply bind_inv in E as ([r2 errs] & w4 & E4 & E). returned E.
    destruct (Hstop _ _ _ _ _ _ K2 K3 K4 K1 E4) as (l' & Hl' & Hu' & Hf' & Ha').
    exists l'. split_and!; [done..|by eapply stopped_ended|done].
  - apply failed_nil in Ef as ->. rewrite (K6 eq_refl), app_nil_r in K5.
    apply bind_inv in E as (u & w3 & E3 & E). apply bind_inv in E as ([r2 errs] & w4 & E4 & E). returned E.
    destruct (Hserving w2) as (l3 & Hl3 & Hq3). rewrite E3 in Hl3. cbn in Hl3.
    apply steady_counts in Hq3 as [[Ho3 Hc3] Hq3].
    destruct (Hstop r (l2 ++ l3) r2 errs w3 w') as (l' & Hl' & Hu' & Hf' & Ha').
    + apply users_first_quiet; [done|]. intros p q _. by apply Hq3.
    + intros p. destruct (counts_app p l2 l3) as (-> & -> & _), (Hq3 p) as [-> ->]. rewrite (K3 p). lia.
    + destruct K4 as [Kf Kc ? ? ?]. split; [|rewrite !count_app; lia|done..].
      apply loops_first_quiet; [done|]. intros q _. by apply Hq3.
    + by rewrite Hl3, K1, app_assoc.
    + done.
    + exists l'. split_and!; [done..|by eapply stopped_ended|]. intros Hs0.
      destruct Ha' as [[Hes _]|[Ha' Hend]]; [by destruct errs|]. split; [done|].
      eapply accounted_released; [exact Ha'|]. intros p.
      rewrite list_elem_of_filter, <- K5, elem_of_reverse. tauto.
Qed.
End Process.
