(* ===== verification/Deployment.v ===== *)
(** * The process that the container starts

    The parts that a start without an error has built are made from each other: its two
    servers are those of one [Process] of TransportSpec.v, whose executions refine the
    delivery system, and its worker runs that system's dispatcher. *)

From S2P Require Import Prelude GoStrings Wire AppError Config Connections Reqctx Auth Effects Ratelimit Model.
From S2P Require Import Libraries Database Repository Service Outbound Dispatcher Cleanup Web Health.
From S2P Require Import Calls Middleware Handlers HttpServer HttpSpec Grpc TransportSpec GrpcClient Locking Metrics.
From S2P Require Import Migration Wiring Container ContainerSpec.
Open Scope string_scope.
Open Scope list_scope.
Open Scope Z_scope.
Open Scope go_scope.

Section Deployment.
Context `{Externals} `{LibraryText} `{UnicodeTables} `{GoFmt} `{GoRange} `{Drivers} `{Platform}
  `{URLQueries} `{URLLibrary} `{TLSFiles} `{TemplateLibrary} `{JSONLibrary} `{EventLibrary}
  `{TokenLibrary} `{CodeValues} `{WebLibrary} `{FormLibrary} `{DurationText} `{MethodNames}
  `{PrometheusLibrary} `{ProcessLibrary} {DB : Type} `{!Repository DB} `{!GinLibrary DB}
  `{!PlatformInterceptors DB Pb.Response}.
Variable idempotency_New : ManagerConfig → bool → IdempotencyManager.
Variable build : Build.
Variable cfg : Config.
Implicit Types (s : Container.State (DB := DB)) (w : World DB Event).

(** ** Each part is made by its constructor from the parts that are there *)
Definition below s s' : Prop := ∀ p v, Container.built s p = Some v → Container.built s' p = Some v.
#[local] Instance below_preorder : PreOrder below.
Proof. split; [by intros s p v|]. intros s1 s2 s3 Hs Hs3 p v Hp. by apply Hs3, Hs. Qed.
Definition made s (p : Part) (v : Container.value p) : Prop :=
  ∃ s0 w0 hook w1, below s0 s ∧
  Container.construct idempotency_New build cfg s0 p w0 = ((Some v, hook, nil_err), w1).
Definition all_made s : Prop := ∀ p v, Container.built s p = Some v → made s p v.
Lemma made_below s s' p v : below s s' → made s p v → made s' p v.
Proof. intros Hs (s0 & w0 & hook & w1 & Hb & E). exists s0, w0, hook, w1. split; [by etrans|done]. Qed.

Lemma put_below p v hook s : Container.built s p = None → below s (Container.put p v hook s).
Proof. intros Hp q u Hq. cbn. destruct (decide (p = q)) as [<-|Hn]; [by rewrite Hp in Hq|done]. Qed.
Lemma put_made p v hook s w0 w1 :
  Container.built s p = None → all_made s →
  Container.construct idempotency_New build cfg s p w0 = ((Some v, hook, nil_err), w1) →
  all_made (Container.put p v hook s).
Proof.
  intros Hp Hs E q u Hq. pose proof (put_below p v hook s Hp) as Hb. cbn in Hq.
  destruct (decide (p = q)) as [e|Hn]; [|by apply (made_below s), Hs].
  destruct e. injection Hq as <-. by exists s, w0, hook, w1.
Qed.

Lemma build_parts_made ps : ∀ s w s' w',
  Container.build_parts idempotency_New build cfg ps s w = ((s', nil_err), w') →
  NoDup ps → (∀ p, p ∈ ps → Container.built s p = None) → all_made s →
  all_made s' ∧ ∀ p, p ∉ ps → Container.built s' p = Container.built s p.
Proof.
  induction ps as [|p ps IH]; intros s w s' w' E Hn Hf Hs; cbn [Container.build_parts] in E.
  { returned E. done. }
  apply bind_inv in E as ([[v hook] e] & w1 & E1 & E). apply NoDup_cons in Hn as [Hp Hn].
  destruct v as [v|].
  2:{ returned E. destruct (construct_builds _ _ _ _ _ _ _ _ _ _ E1) as (_ & Hv & _). by destruct (Hv eq_refl). }
  destruct (failed e) eqn:Ef; [by returned E|].
  apply failed_nil in Ef as ->. pose proof (Hf p ltac:(by left)) as Hfp.
  destruct (IH _ _ _ _ E Hn) as [Hm Hb]; [|by eapply put_made|].
  - intros q Hq. cbn. destruct (decide (p = q)) as [<-|Hpq]; [done|]. apply Hf. by right.
  - split; [done|]. intros q [Hqp Hq]%not_elem_of_cons. rewrite (Hb q Hq). cbn.
    by destruct (decide (p = q)) as [->|].
Qed.
Lemma invoke_all_made pss : ∀ fs s w s' w',
  Container.invoke_all idempotency_New build cfg (zip pss fs) s w = ((s', nil_err), w') →
  NoDup (mjoin pss) → (∀ p, p ∈ mjoin pss → Container.built s p = None) → all_made s → all_made s'.
Proof.
  induction pss as [|ps pss IH]; intros fs s w s' w' E Hn Hf Hs; [by cbn in E; returned E|].
  destruct fs as [|f fs]; [by cbn in E; returned E|]. cbn [zip zip_with Container.invoke_all] in E. cbn in Hn, Hf.
  apply NoDup_app in Hn as (Hn1 & Hd & Hn2).
  apply bind_inv in E as ([s1 e] & w1 & E1 & E). destruct (failed e) eqn:Ef; [by returned E; subst|].
  apply failed_nil in Ef as ->. apply bind_inv in E as (e & w2 & _ & E).
  destruct (failed e) eqn:Ef; [by returned E; subst|].
  destruct (build_parts_made _ _ _ _ _ E1 Hn1) as [Hm Hb]; [|done|].
  { intros p Hp. apply Hf. apply elem_of_app. by left. }
  apply (IH _ _ _ _ _ E Hn2); [|done]. intros p Hp. rewrite Hb; [|by intros ?; apply (Hd p)].
  apply Hf. apply elem_of_app. by right.
Qed.
Lemma New_made `{FxLaws} w s w' :
  Container.New idempotency_New build cfg w = ((s, nil_err), w') → all_made s.
Proof. intros E. by eapply invoke_all_made; [exact E|apply fx_once|..]. Qed.

(** What a constructor took from the parts and what it made of it. *)
Ltac unmake :=
  intros (s0 & w0 & hook & w1 & Hb & E); unfold Container.construct in E;
  repeat match type of E with
  | context [match Container.built s0 ?q with _ => _ end] =>
      destruct (Container.built s0 q) eqn:?; [|discriminate E]
  end;
  repeat match goal with Hq : Container.built s0 _ = Some _ |- _ => apply Hb in Hq end.

Lemma checked_inv p (r : option (Container.value p) * error) hook0 w v hook w' :
  Container.checked (DB := DB) p r hook0 w = ((Some v, hook, nil_err), w') → r = (Some v, nil_err).
Proof. destruct r as [[u|] []]; unfold Container.checked; intros E; by returned E. Qed.

Lemma made_database s db : made s PDatabase db → present db = cfg.(Config_Database).(Database_Enabled).
Proof.
  unmake. apply bind_inv in E as ([v err] & w2 & E2 & E). unfold Wiring.newDatabase in E2.
  destruct (Database_Enabled _) eqn:He; cbn [negb] in E2; [|by returned E2; returned E].
  apply bind_inv in E2 as ([pool err2] & w3 & E3 & E2). apply Open_spec in E3 as [_ E3].
  destruct (failed err2) eqn:Ef; [returned E2; returned E; by destruct err2|]. apply failed_nil in Ef as ->.
  destruct pool as [pool|]; [|by destruct E3]. cbn in E2. unfold bind, emit, ret in E2. simplify_eq.
  returned E. by simplify_eq.
Qed.
Lemma made_redis s client : made s PRedis client → client = cfg.(Config_Redis).(Redis_Enabled).
Proof.
  unmake. apply bind_inv in E as ([c0 err] & w2 & E2 & E). unfold Wiring.newRedis in E2.
  destruct (Redis_Enabled _) eqn:He; cbn [negb] in E2; [|by returned E2; returned E].
  apply bind_inv in E2 as ([c err2] & w3 & E3 & E2). unfold Cache.Open, bind, emit, tick in E3.
  destruct (failed (ext_ping _ _)) in E3; returned E3; [by returned E2; returned E|].
  unfold bind, emit in E2. destruct (_ && _); returned E2; by returned E.
Qed.

(** The other parts are functions of those they take. *)
Lemma made_health s health : made s PHealth health →
  ∃ db client, Container.built s PDatabase = Some db ∧ Container.built s PRedis = Some client ∧
  health = HealthService.New (present db) client cfg.
Proof. unmake. unfold Container.plain in E. returned E. eauto. Qed.
Lemma made_authorizer s authorizer : made s PAuthorizer authorizer →
  ∃ registry, Container.built s PRegistry = Some registry ∧
  authorizer = Wiring.newAuthorizer registry.
Proof. unmake. unfold Container.plain in E. returned E. eauto. Qed.
Lemma made_transactor s t : made s PTransactor t →
  ∃ db, Container.built s PDatabase = Some db ∧ t = Transactor.New (present db).
Proof. unmake. unfold Container.plain in E. returned E. eauto. Qed.
Lemma made_limiter s l : made s PLimiter l →
  ∃ client, Container.built s PRedis = Some client ∧ l = Limiter.New client cfg.
Proof. unmake. unfold Container.plain in E. returned E. eauto. Qed.
Lemma made_manager s m : made s PManager m →
  ∃ client, Container.built s PRedis = Some client ∧ m = idempotency_New (Wiring.newManager cfg) client.
Proof. unmake. unfold Container.plain in E. returned E. eauto. Qed.
Lemma made_verifier s v : made s PVerifier v →
  ∃ registry, Container.built s PRegistry = Some registry ∧
  Wiring.newApplicationVerifier cfg (Some registry) = (Some v, nil_err).
Proof. unmake. apply (checked_inv PVerifier) in E. eauto. Qed.
Lemma made_service s service : made s PService service →
  ∃ t l v, Container.built s PTransactor = Some t ∧ Container.built s PLimiter = Some l ∧
  Container.built s PVerifier = Some v ∧
  Service.NewRuntimeService t (Some l) cfg (Some (Container.application_verifier v)) = (Some service, nil_err).
Proof. unmake. apply (checked_inv PService) in E. eauto 10. Qed.
Lemma made_handler s h : made s PHandler h →
  ∃ health service, Container.built s PHealth = Some health ∧
  Container.built s PService = Some service ∧ h = NewHandler health service.
Proof. unmake. unfold Container.plain in E. returned E. eauto. Qed.
Lemma made_worker s worker : made s PWorker worker →
  ∃ d, Container.built s PDispatcher = Some d ∧ worker = (d, Dispatch.NewWorker d cfg).
Proof. unmake. unfold Container.hooking in E. returned E. eauto. Qed.
Lemma made_dispatcher s d : made s PDispatcher d →
  ∃ t senders registry, Container.built s PTransactor = Some t ∧ Container.built s PSenders = Some senders ∧
  Container.built s PRegistry = Some registry ∧
  d = NewDispatcher t senders (GrpcClient.Registry_HTTP registry) cfg.
Proof. unmake. unfold Container.plain in E. returned E. eauto 10. Qed.
Lemma made_senders s senders : made s PSenders senders →
  ∃ registry, Container.built s PRegistry = Some registry ∧
  senders = NewSenderRegistry (GrpcClient.Registry_HTTP registry) cfg.
Proof. unmake. unfold Container.plain in E. returned E. eauto. Qed.
Lemma made_http s http : made s PHTTP http →
  ∃ h auth authorizer l m metrics, Container.built s PHandler = Some h ∧
  Container.built s PAuth = Some auth ∧ Container.built s PAuthorizer = Some authorizer ∧
  Container.built s PLimiter = Some l ∧ Container.built s PManager = Some m ∧
  Container.built s PMetrics = Some metrics ∧
  Server.NewServer cfg h auth authorizer l m (Observability.Enabled metrics) build
    = (Some http, nil_err).
Proof. unmake. apply (checked_inv PHTTP) in E. eauto 20. Qed.
Lemma made_grpc s grpc : made s PGRPC grpc →
  ∃ auth authorizer health service m metrics, Container.built s PAuth = Some auth ∧
  Container.built s PAuthorizer = Some authorizer ∧ Container.built s PHealth = Some health ∧
  Container.built s PService = Some service ∧ Container.built s PManager = Some m ∧
  Container.built s PMetrics = Some metrics ∧
  GRPCServer.NewServer cfg auth authorizer health service m (Observability.Enabled metrics) code_String
    = (Some grpc, nil_err).
Proof. unmake. apply (checked_inv PGRPC) in E. eauto 20. Qed.
(** ** The two servers and the worker of a started process *)
(** The built servers are those of the instance [i].  The HTTP server has the routes of
    [i] and no other, in their order, each endpoint of the API among them with its own
    handler, and serves a request as [i] does; the gRPC server has registered the
    service and the health checks of [i]'s handler, and answers a call as [i] does. *)
Record serves (i : Process) (http : HTTPServer DB) (grpc : GRPCServer DB) : Prop := {
  serves_routes : http.(Server_routes) = http_routes i;
  serves_endpoint e : ∃ route, route ∈ http.(Server_routes) ∧
    route.(Route_methods) = ["POST"] ∧ route.(Route_path) = endpoint_path e ∧
    route.(Route_handler) = endpoint_handler i.(Process_handler) e;
  serves_http n route :
    http.(Server_routes) !! n = Some route → Server.serve http route = http_serve i n;
  serves_grpc incoming request :
    GRPCServer.serve grpc incoming request = grpc_serve i code_String incoming request;
  serves_health : grpc.(GRPCServer_notifications) = i.(Process_handler).(Handler_notifications) ∧
    grpc.(GRPCServer_health) = i.(Process_handler).(Handler_health) }.
Lemma NewServers_serve health service auth authorizer l m metrics http grpc :
  Server.NewServer cfg (NewHandler health service) auth authorizer l m metrics build
    = (Some http, nil_err) →
  GRPCServer.NewServer cfg auth authorizer health service m metrics code_String
    = (Some grpc, nil_err) →
  serves (mkProcess cfg (NewHandler health service) auth authorizer l m metrics build) http grpc.
Proof.
  intros Hh Hg. unfold Server.NewServer in Hh. destruct (failed _); [done|]. injection Hh as <-.
  unfold GRPCServer.NewServer in Hg.
  destruct (if GRPCTLS_Enabled _ then _ else _) as [creds err]. destruct (failed err); [done|].
  injection Hg as <-. split; try done.
  - intros e. exists (Server.post (endpoint_path e) (Server.api cfg auth authorizer l m)
      (endpoint_handler (NewHandler health service) e)). split; [|done].
    apply (elem_of_app (Server.operations _ _ _ _)). right. apply endpoint_registered.
  - intros n route Hn. unfold http_serve, Server.serve, http_routes. cbn in Hn |- *. by rewrite Hn.
Qed.

(** What a started process runs for the configuration: one service over the database,
    Redis and the upstreams that it names. *)
Record deployed s (i : Process) (d : Dispatcher) : Prop := {
  deployed_service : ∃ registry v,
    Container.built s PRegistry = Some registry ∧
    Wiring.newApplicationVerifier cfg (Some registry) = (Some v, nil_err) ∧
    i.(Process_authorizer) = Wiring.newAuthorizer registry ∧
    i.(Process_handler).(Handler_notifications) = {|
      Service_transactor := Transactor.New cfg.(Config_Database).(Database_Enabled);
      Service_limiter := Some i.(Process_limiter); Service_config := cfg.(Config_Notification);
      Service_outboundHTTP := cfg.(Config_Outbound).(Outbound_HTTP);
      Service_applications := Container.application_verifier v |} ∧
    d = NewDispatcher (Transactor.New cfg.(Config_Database).(Database_Enabled))
          (NewSenderRegistry (GrpcClient.Registry_HTTP registry) cfg)
          (GrpcClient.Registry_HTTP registry) cfg;
  deployed_limiter : i.(Process_limiter) = Limiter.New cfg.(Config_Redis).(Redis_Enabled) cfg;
  deployed_health : i.(Process_handler).(Handler_health) =
    HealthService.New cfg.(Config_Database).(Database_Enabled) cfg.(Config_Redis).(Redis_Enabled) cfg;
  deployed_auth : Container.built s PAuth = Some i.(Process_auth);
  deployed_manager :
    i.(Process_manager) = idempotency_New (Wiring.newManager cfg) cfg.(Config_Redis).(Redis_Enabled);
  deployed_attempts : 1 ≤ d.(Dispatcher_cfg).(Notification_MaxAttempts) }.

Lemma default_positive_pos value default : 0 < default → 1 ≤ default_positive value default.
Proof. intros Hd. unfold default_positive. destruct (Z.leb_spec value 0); lia. Qed.

(** C18 The wiring.  A start without an error, in whatever order the container builds, makes
    one instance of the program.  Its HTTP server has exactly the routes of this
    [Process], each of the ten endpoints with its handler, and its gRPC server has
    registered the same notification service and health checks; whatever requests the
    two get, they do what the [Process] does, and its worker runs a dispatcher on the
    same upstreams, so that its executions are those of [served_executions_refine].  The
    service, the health checks, the authorizer, the limiter, the idempotency manager and
    the dispatcher are those of the configuration: on a database, Redis and an
    application verifier exactly when it enables them. *)
Theorem New_deploys `{FxLaws} w s w' :
  Container.New idempotency_New build cfg w = ((s, nil_err), w') →
  ∃ i http grpc d,
  Container.built s PHTTP = Some http ∧ Container.built s PGRPC = Some grpc ∧
  Container.built s PWorker = Some (d, Dispatch.NewWorker d cfg) ∧
  Container.built s PService = Some i.(Process_handler).(Handler_notifications) ∧
  serves i http grpc ∧ i.(Process_config) = cfg ∧ i.(Process_build) = build ∧ deployed s i d.
Proof.
  intros E. pose proof (New_made _ _ _ E) as Hm.
  assert (∀ p, is_Some (Container.built s p)) as Hall.
  { destruct (New_spec _ _ _ _ _ _ _ E) as (_ & first & migration & rest & _ & _ & _ & _ & Hok).
    exact (proj1 (Hok eq_refl)). }
  destruct (Hall PHTTP) as [http Hhttp], (Hall PGRPC) as [grpc Hgrpc], (Hall PWorker) as [worker Hworker].
  destruct (made_http _ _ (Hm _ _ Hhttp))
    as (h & auth & authorizer & l & m & metrics & Hh & Hauth & Haz & Hl & Hman & Hmet & Eh).
  destruct (made_grpc _ _ (Hm _ _ Hgrpc))
    as (auth' & authorizer' & health & service & m' & metrics' & Hauth' & Haz' & Hhealth & Hs & Hman' & Hmet' & Eg).
  destruct (made_handler _ _ (Hm _ _ Hh)) as (health' & service' & Hhealth' & Hs' & ->). simplify_eq.
  destruct (made_worker _ _ (Hm _ _ Hworker)) as (d & Hd & ->).
  exists (mkProcess cfg (NewHandler health service) auth authorizer l m (Observability.Enabled metrics) build),
    http, grpc, d.
  do 4 (split; [done|]). split; [by apply NewServers_serve|]. do 2 (split; [done|]).
  destruct (made_limiter _ _ (Hm _ _ Hl)) as (client & Hr & ->).
  destruct (made_manager _ _ (Hm _ _ Hman)) as (client' & Hr' & ->). simplify_eq.
  pose proof (made_redis _ _ (Hm _ _ Hr)) as ->.
  destruct (made_dispatcher _ _ (Hm _ _ Hd)) as (t & senders & registry & Ht & Hsend & Hreg & ->).
  destruct (made_senders _ _ (Hm _ _ Hsend)) as (registry' & Hreg' & ->). simplify_eq.
  destruct (made_authorizer _ _ (Hm _ _ Haz)) as (registry' & Hreg' & ->). simplify_eq.
  destruct (made_health _ _ (Hm _ _ Hhealth)) as (db' & client' & Hdb' & Hr' & ->). simplify_eq.
  destruct (made_service _ _ (Hm _ _ Hs)) as (t' & l' & v & Ht' & Hl' & Hv & Es). simplify_eq.
  destruct (made_transactor _ _ (Hm _ _ Ht)) as (db & Hdb & ->). simplify_eq.
  destruct (made_verifier _ _ (Hm _ _ Hv)) as (registry' & Hreg' & Ev). simplify_eq.
  rewrite (made_database _ _ (Hm _ _ Hdb')) in *.
  split; [|done|done|done|done|].
  - injection Es as <-. by exists registry, v.
  - by apply default_positive_pos.
Qed.
End Deployment.
