(* ===== verification/Commands.v ===== *)
(** * cmd/api and cmd/migrate: the two programs

    [flag.Parse] is the library's: a program starts from the values of its flags,
    which are the defaults below where none is given.  What a program prints and its
    exit status are its result. *)

From S2P Require Import Prelude GoStrings Wire AppError Config Reqctx Auth Effects Ratelimit Model.
From S2P Require Import Libraries Database Repository Service Outbound Dispatcher Cleanup Web Health.
From S2P Require Import Middleware Handlers HttpServer Grpc GrpcClient Locking Metrics Migration.
From S2P Require Import Startup Wiring Container.
From Stdlib Require Import Ascii.
Open Scope string_scope.
Open Scope list_scope.
Open Scope Z_scope.
Open Scope go_scope.

Definition newline : string := String "010" EmptyString.

Module Api.
Record Flags := mkFlags { configPath : string; profile : string; showVersion : bool }.
Definition default_flags : Flags := mkFlags "config/config.yaml" "" false.

(** [Ran]: the container ran for the configuration, and the process ended with its
    status. *)
Inductive Outcome :=
  | Printed (stdout : string)
  | Exited (status : Z) (stderr : string)
  | Ran (cfg : Config) (status : Z).

Section Api.
Context `{Externals} `{LibraryText} `{UnicodeTables} `{GoFmt} `{GoRange} `{ViperLibrary} `{Drivers}
  `{Platform} `{URLQueries} `{URLLibrary} `{TLSFiles} `{TemplateLibrary} `{JSONLibrary} `{EventLibrary}
  `{TokenLibrary} `{CodeValues} `{WebLibrary} `{FormLibrary} `{DurationText} `{MethodNames}
  `{PrometheusLibrary} `{ProcessLibrary} `{Container} {DB : Type} `{!Repository DB} `{!GinLibrary DB}
  `{!PlatformInterceptors DB Pb.Response}.
Variable idempotency_New : ManagerConfig → bool → IdempotencyManager.

Definition version_line (b : Build) : string :=
  "version=" +:+ b.(Build_Version) +:+ " commit=" +:+ b.(Build_Commit)
  +:+ " build_time=" +:+ b.(Build_BuildTime) +:+ newline.

(** [serving] is what the process does until a signal stops it. *)
Definition main (b : Build) (flags : Flags) (serving : IO DB unit) : IO DB Outcome :=
  when! flags.(showVersion) return! Printed (version_line b);
  match LoadWithProfile flags.(configPath) flags.(profile) with
  | (Some cfg, nil_err) =>
      let! status := Container.Run idempotency_New b cfg serving in ret (Ran cfg status)
  | (_, err) => ret (Exited 1 ("load configuration: " +:+ Error err +:+ newline))
  end.
End Api.
End Api.

Module Migrate.
Record Flags := mkFlags {
  configPath : string; profile : string; direction : string; steps : Z }.
Definition default_flags : Flags := mkFlags "config/config.yaml" "" "up" 0.

(** The exit status and what is written to the standard error. *)
Definition Exit : Type := Z * string.

Section Migrate.
Context `{Externals} `{LibraryText} `{UnicodeTables} `{GoFmt} `{GoRange} `{ViperLibrary} `{URLQueries} {DB : Type}.
Definition report (err : error) : Exit :=
  if failed err then (1, "migration failed: " +:+ Error err +:+ newline) else (0, "").
Definition main (flags : Flags) : IO DB Exit :=
  when! (flags.(direction) != "up") && (flags.(direction) != "down")
  return! (2, "direction must be up or down" +:+ newline);
  match LoadWithProfile flags.(configPath) flags.(profile) with
  | (Some cfg, nil_err) =>
      let! err := Migration.Run cfg.(Config_Migration) flags.(direction) flags.(steps) in
      ret (report err)
  | (_, err) => ret (report err)
  end.
End Migrate.
End Migrate.

Section Starting.
Context `{Externals} `{LibraryText} `{UnicodeTables} `{GoFmt} `{GoRange} `{ViperLibrary} `{Drivers}
  `{Platform} `{URLQueries} `{URLLibrary} `{TLSFiles} `{TemplateLibrary} `{JSONLibrary} `{EventLibrary}
  `{TokenLibrary} `{CodeValues} `{WebLibrary} `{FormLibrary} `{DurationText} `{MethodNames}
  `{PrometheusLibrary} `{ProcessLibrary} `{Container} {DB : Type} `{!Repository DB} `{!GinLibrary DB}
  `{!PlatformInterceptors DB Pb.Response}.
Variable idempotency_New : ManagerConfig → bool → IdempotencyManager.

(** C37 The server's command.  With the version flag it prints the build and does
    nothing else.  It ends with status 1, before it did anything, exactly when the
    configuration does not load.  Otherwise it runs the application, as [Container.Run]
    does, for a configuration that passed validation, with a proper profile, from the
    file it was given and the profile's, and whose migrations work on the service's own
    schema and database. *)
Theorem main_configured b flags serving (w : World DB Event) r w' :
  Api.main idempotency_New b flags serving w = (r, w') →
  match r with
  | Api.Printed out => flags.(Api.showVersion) = true ∧ out = Api.version_line b ∧ w' = w
  | Api.Exited status _ =>
      flags.(Api.showVersion) = false ∧ status = 1 ∧ w' = w ∧
      (LoadWithProfile flags.(Api.configPath) flags.(Api.profile)).2 ≠ nil_err
  | Api.Ran cfg status =>
      flags.(Api.showVersion) = false ∧
      LoadWithProfile flags.(Api.configPath) flags.(Api.profile) = (Some cfg, nil_err) ∧
      loaded flags.(Api.configPath) cfg ∧
      Container.Run idempotency_New b cfg serving w = (status, w')
  end.
Proof.
  unfold Api.main. destruct flags.(Api.showVersion); [by intros [= <- <-]|].
  destruct (LoadWithProfile _ _) as [c err] eqn:El. pose proof (LoadWithProfile_error _ _ _ _ El) as He.
  destruct c as [cfg|].
  - subst err. intros E. apply bind_inv in E as (status & w1 & E1 & E). returned E.
    split_and!; [done|done|by eapply LoadWithProfile_loaded|done].
  - intros [= <- <-]. by split_and!.
Qed.

(** The migrating command.  It succeeds only after a migration run of a loaded
    configuration in one of the two directions; with another direction it ends with
    status 2 and does nothing, and with a configuration that does not load it ends
    with status 1 and does nothing. *)
Theorem migrate_status flags (w : World DB Event) status text w' :
  Migrate.main flags w = ((status, text), w') →
  (status = 0 → ∃ cfg, loaded flags.(Migrate.configPath) cfg ∧
     (flags.(Migrate.direction) = "up" ∨ flags.(Migrate.direction) = "down") ∧
     Migration.Run cfg.(Config_Migration) flags.(Migrate.direction) flags.(Migrate.steps) w
       = (nil_err, w')) ∧
  (status = 2 ↔ flags.(Migrate.direction) ≠ "up" ∧ flags.(Migrate.direction) ≠ "down") ∧
  (status = 2 ∨ (LoadWithProfile flags.(Migrate.configPath) flags.(Migrate.profile)).2 ≠ nil_err →
   w' = w).
Proof.
  unfold Migrate.main. destruct (_ && _) eqn:Ed.
  { intros [= <- <- <-]. rewrite andb_true_iff, !negb_true_iff, !bool_decide_eq_false in Ed. by split_and!. }
  assert (flags.(Migrate.direction) = "up" ∨ flags.(Migrate.direction) = "down") as Hd.
  { rewrite andb_false_iff, !negb_false_iff, !bool_decide_eq_true in Ed. done. }
  destruct (LoadWithProfile _ _) as [c err] eqn:El. pose proof (LoadWithProfile_error _ _ _ _ El) as He.
  assert (∀ e, (Migrate.report e).1 = if failed e then 1 else 0) as Hr
    by (intros e; unfold Migrate.report; by destruct (failed e)).
  destruct c as [cfg|].
  - subst err. intros E. apply bind_inv in E as (rerr & w1 & E1 & E). unfold ret in E. injection E as E <-.
    specialize (Hr rerr). rewrite E in Hr. cbn in Hr. subst status. split_and!.
    + destruct (failed rerr) eqn:Ef; [done|]. apply failed_nil in Ef as ->. intros _.
      exists cfg. split; [by eapply LoadWithProfile_loaded|done].
    + destruct (failed rerr); (split; [done|]); intros [? ?]; by destruct Hd.
    + by intros [?|?]; [destruct (failed rerr)|].
  - intros E. unfold ret in E. injection E as E <-. specialize (Hr err). rewrite E in Hr. cbn in Hr.
    apply failed_not_nil in He. rewrite He in Hr.
    subst status. split_and!; [done| |done]. split; [done|]. intros [? ?]. by destruct Hd.
Qed.
End Starting.
