(* ===== verification/Loops.v ===== *)
(** * The goroutines of the worker and of the retention cleaner

    [Worker.start] and [stop] of internal/notification/dispatcher.go, [start] and
    [stop] of cleanup.go and the two loops of internal/app/eventbus.go share one
    shape: a first round at once, then a [select] between the cancelled context
    and the ticker, which chooses at random when both are ready; [stop] cancels
    and waits. *)

From S2P Require Import Prelude.
Open Scope nat_scope.

Inductive Phase := Idle | InRound | InSelect | Exited.
(** [lp_phase] is where the goroutine is, [lp_cancelled] whether its context is
    done, [lp_rounds] how many rounds began, [lp_stopped] whether [stop] returned. *)
Record Loop := mkLoop {
  lp_phase : Phase; lp_cancelled : bool; lp_rounds : nat; lp_stopped : bool }.
Definition loop_initial : Loop := mkLoop Idle false 0 false.

Inductive LoopEvent := Start (enabled : bool) | RoundEnds | Done | Tick | CancelCall | StopReturns.

(** The events that can happen next: [w.cancel] is nil until [start] set it, and
    [stop] then neither cancels nor waits.  [RoundEnds] is possible whenever a round
    runs: that a round returns is assumed here.  The rounds are functions of Dispatcher.v
    and Cleanup.v, which return ([clean_terminates] for the one with a loop) when every
    call they make does; a driver or a provider that never answers, whatever becomes
    of its context, holds [stop] up for as long. *)
Inductive loop_step : Loop → LoopEvent → Loop → Prop :=
  | step_start_disabled rounds stopped :
      loop_step (mkLoop Idle false rounds stopped) (Start false) (mkLoop Idle false rounds stopped)
  | step_start rounds :
      loop_step (mkLoop Idle false rounds false) (Start true) (mkLoop InRound false (S rounds) false)
  | step_round cancelled rounds stopped :
      loop_step (mkLoop InRound cancelled rounds stopped) RoundEnds
                (mkLoop InSelect cancelled rounds stopped)
  | step_tick cancelled rounds stopped :
      loop_step (mkLoop InSelect cancelled rounds stopped) Tick
                (mkLoop InRound cancelled (S rounds) stopped)
  | step_done rounds stopped :
      loop_step (mkLoop InSelect true rounds stopped) Done (mkLoop Exited true rounds stopped)
  | step_cancel phase cancelled rounds stopped :
      phase ≠ Idle →
      loop_step (mkLoop phase cancelled rounds stopped) CancelCall (mkLoop phase true rounds stopped)
  | step_stop_idle rounds stopped :
      loop_step (mkLoop Idle false rounds stopped) StopReturns (mkLoop Idle false rounds true)
  | step_stop rounds stopped :
      loop_step (mkLoop Exited true rounds stopped) StopReturns (mkLoop Exited true rounds true).

Inductive loop_run : Loop → list LoopEvent → Loop → Prop :=
  | run_nil l : loop_run l [] l
  | run_cons l1 e l2 es l3 : loop_step l1 e l2 → loop_run l2 es l3 → loop_run l1 (e :: es) l3.

(** The goroutine has not begun a round, or it is cancelled before it returns, and
    [stop] returns only when the goroutine is not running. *)
Record loop_ok (l : Loop) : Prop := {
  ok_idle : lp_phase l = Idle → lp_rounds l = 0 ∧ lp_cancelled l = false;
  ok_returned : lp_phase l = Exited → lp_cancelled l = true;
  ok_stopped : lp_stopped l = true → lp_phase l = Idle ∨ lp_phase l = Exited }.

Lemma loop_step_ok l e l' : loop_step l e l' → loop_ok l → loop_ok l'.
Proof. intros [] [Hi Hr Hs]; split; cbn in *; intuition congruence. Qed.
Lemma loop_run_ok l es l' : loop_run l es l' → loop_ok l → loop_ok l'.
Proof. induction 1; eauto using loop_step_ok. Qed.
Lemma loop_initial_ok : loop_ok loop_initial.
Proof. by split. Qed.
Lemma loop_run_app l1 es1 l2 es2 l3 :
  loop_run l1 es1 l2 → loop_run l2 es2 l3 → loop_run l1 (es1 ++ es2) l3.
Proof. induction 1; cbn; eauto using loop_run. Qed.

(** After [stop] nothing is left that could begin a round. *)
Lemma stopped_step l e l' :
  loop_ok l → loop_step l e l' → lp_stopped l = true →
  lp_rounds l' = lp_rounds l ∧ lp_stopped l' = true.
Proof. intros [_ _ Hs] Hst; destruct Hst; cbn in *; intuition congruence. Qed.
Lemma stopped_run l es l' :
  loop_run l es l' → loop_ok l → lp_stopped l = true → lp_rounds l' = lp_rounds l.
Proof.
  induction 1 as [|l1 e l2 es l3 Hst _ IH]; [done|]. intros Hok Hs.
  destruct (stopped_step _ _ _ Hok Hst Hs) as [<- Hs2]. eauto using loop_step_ok.
Qed.

(** Cancelling works from every state: the round in progress ends, the [select]
    takes the cancelled context, [stop] returns, and at most no round is added. *)
Lemma stop_possible l :
  loop_ok l → lp_stopped l = false →
  ∃ es l', loop_run l es l' ∧ lp_stopped l' = true ∧ lp_rounds l' = lp_rounds l ∧ length es ≤ 4.
Proof.
  destruct l as [[| | |] c r s]; cbn; intros [Hi Hr _] ->; cbn in *.
  - destruct (Hi eq_refl) as [-> ->].
    exists [StopReturns]. eexists. split_and!; [econstructor; constructor|done|done|cbn; lia].
  - exists [CancelCall; RoundEnds; Done; StopReturns]. eexists.
    split_and!; [repeat (econstructor; [by constructor|]); constructor|done|done|cbn; lia].
  - exists [CancelCall; Done; StopReturns]. eexists.
    split_and!; [repeat (econstructor; [by constructor|]); constructor|done|done|cbn; lia].
  - rewrite (Hr eq_refl). exists [StopReturns]. eexists.
    split_and!; [econstructor; constructor|done|done|cbn; lia].
Qed.

(** What cancelling does not give: as long as the ticker is ready too, the
    [select] may choose it, and any number of rounds can follow. *)
Lemma cancelled_may_continue rounds n :
  ∃ es, ¬ In Done es ∧
    loop_run (mkLoop InSelect true rounds false) es (mkLoop InSelect true (n + rounds) false).
Proof.
  revert rounds. induction n as [|n IH]; intros rounds; [exists []; split; [by intros []|constructor]|].
  destruct (IH (S rounds)) as (es & Hd & Hr). exists (Tick :: RoundEnds :: es). split.
  - by intros [|[|]].
  - econstructor; [constructor|]. econstructor; [constructor|].
    by replace (S n + rounds) with (n + S rounds) by lia.
Qed.

(** C40 In every execution of a background loop, no round begins once [stop] has
    returned, and [stop] is never stuck: from every state before it, at most four
    steps without a new round lead to its return. *)
Theorem stop_ends_rounds es l :
  loop_run loop_initial es l →
  (lp_stopped l = true → ∀ es' l', loop_run l es' l' → lp_rounds l' = lp_rounds l) ∧
  (lp_stopped l = false → ∃ es' l', loop_run l es' l' ∧
     lp_stopped l' = true ∧ lp_rounds l' = lp_rounds l ∧ length es' ≤ 4).
Proof.
  intros Hr. pose proof (loop_run_ok _ _ _ Hr loop_initial_ok) as Hok.
  split; [eauto using stopped_run|by apply stop_possible].
Qed.
