(* ===== verification/Concrete.v ===== *)
(** * A concrete deployment

    Instances of everything the theorems are parametric in, on which the model
    runs: a world that answers every call, a database without faults whose
    collation is binary, small total libraries, the default configuration with
    one outbound client and one provider, and an execution from empty tables. *)

From S2P Require Import Prelude GoStrings Wire AppError Config Connections Reqctx Effects Ratelimit Model.
From S2P Require Import Libraries Database Repository Unique Sql Service ServiceSpec Outbound.
From S2P Require Import Dispatcher DispatcherSpec Cleanup System SystemSpec.
From Stdlib Require Import Ascii.
Open Scope string_scope.
Open Scope list_scope.
Open Scope Z_scope.
Open Scope go_scope.

Module Concrete.
Definition acquired : Decision := mkDecision StateAcquired "" (mkFailure 0 "" 0) "owner".
(** A world with the given answers of the application service, of the network and
    of the idempotency manager, in which everything else succeeds. *)
Definition answering (verify : nat → string → string → error)
    (http : nat → HTTPRequest → HTTPResponse + error) (begin : nat → Decision) : Externals := {|
  ext_now n := Z.of_nat n * second; ext_uuid n := "id-" +:+ pretty n;
  ext_driver _ := NoFault; ext_row _ := O; ext_locked _ _ := false;
  ext_limit _ _ _ := (mkLimitReply 1 0 0, nil_err);
  ext_verify := verify; ext_http := http; ext_wait _ _ := nil_err;
  ext_breaker _ := nil_err; ext_invoke _ _ _ := nil_err;
  ext_random _ := Some (replicate 16 "a"%char); ext_deadline _ := false;
  ext_begin n _ _ := (begin n, nil_err);
  ext_complete _ _ _ := nil_err; ext_fail _ _ _ := nil_err; ext_enforce _ _ _ _ := nil_err;
  ext_set_header _ := nil_err; ext_ping _ _ := nil_err; ext_first _ := true;
  ext_mutex _ _ := nil_err; ext_owned _ _ := (true, nil_err); ext_migrate _ _ := nil_err |}.
#[export] Instance externals : Externals :=
  answering (λ _ _ _, nil_err) (λ _ _, inl (mkHTTPResponse 202 "m-1")) (λ _, acquired).

#[export] Instance dialect : Dialect := {
  sql_eq a b := bool_decide (a = b);
  sql_le _ _ := true;
  sql_id_le _ _ := true;
  sql_like _ _ := true;
  stored_time t := t;
  stored_json s := s;
  constraint_error := "constraint"; page_error := "page"; range_error := "range" }.

#[export] Instance unicode : UnicodeTables := { map_unicode_ToLower s := s }.
#[export] Instance text : LibraryText := λ _, "library error".
#[export] Instance url : URLLibrary := {
  url_Parse s :=
    if HasPrefix s "https://" then (mkURL "https" "host" false "/" "", nil_err)
    else (mkURL "" "" false s "", nil_err);
  url_Resolve base reference := base +:+ reference;
  http_NewRequest _ _ := nil_err }.
#[export] Instance template : TemplateLibrary := {
  ParsedTemplate := string;
  template_Parse _ source := (source, nil_err);
  template_Execute _ parsed _ := (parsed, nil_err) }.
#[export] Instance json : JSONLibrary := {
  json_Marshal _ := ("{}", nil_err);
  json_Unmarshal _ variables := (variables, nil_err);
  json_DecodeMessageID body := (body, nil_err) }.
#[export] Instance event : EventLibrary := {
  Envelope := string;
  eventbus_NewEnvelope metadata _ := (Metadata_EventID metadata, nil_err);
  Envelope_EventId id := id;
  proto_Marshal id := (id, nil_err) }.
#[export] Instance arch : GoArch := { float_overflow := - 2 ^ 63 }.
#[export] Instance fmt : GoFmt := { quote s := s }.
#[export] Instance go_range : GoRange := {
  range A m := map_to_list m; range_perm A m := reflexivity _ }.

(** ** The laws hold *)
#[export] Instance driver_laws : DriverLaws.
Proof. split. by intros n e [|]. Qed.
#[export] Instance dialect_laws : DialectLaws.
Proof.
  split; cbn; intros *; rewrite ?bool_decide_eq_true; try done; try (by left); by intros -> ->.
Qed.
#[export] Instance status_laws : StatusLaws.
Proof. split; cbn; intros *; rewrite bool_decide_eq_true; done. Qed.

(** ** The configuration *)
Definition upstream : HTTPUpstream := {|
  HTTPUpstream_BaseURL := "https://mail.example"; HTTPUpstream_Timeout := second;
  HTTPUpstream_Auth := mkClientAuth "bearer" "token";
  HTTPUpstream_Retry := mkRetry 3 (100 * 1000000) second [];
  HTTPUpstream_Breaker := mkBreaker true 5 second;
  HTTPUpstream_TLS := mkClientTLS true "" "" "" "" |}.
Definition client : HTTPClient :=
  mkHTTPClient "mail" "https://mail.example" upstream true (Some true).
Definition config : Config :=
  { setDefaults with
    Config_Outbound ::= (λ o, { o with Outbound_HTTP := {[ "mail" := upstream ]} });
    Config_Notification ::= (λ n, { n with
      Notification_Providers := {[ "email" := mkNotificationProvider "mail" "/send" ]};
      Notification_ProviderUpstreams := ["mail"] }) }.

Definition authorization : GRPCUpstream := {|
  GRPCUpstream_Target := "dns:///authorization:9090"; GRPCUpstream_Timeout := second;
  GRPCUpstream_Auth := mkClientAuth "" "";
  GRPCUpstream_Retry := mkRetry 3 (100 * 1000000) second [];
  GRPCUpstream_Breaker := mkBreaker true 5 second;
  GRPCUpstream_TLS := mkClientTLS false "" "" "" "" |}.
(** The same for the production profile. *)
Definition production : Config :=
  { config with
    Config_App ::= (λ a, { a with App_Env := "production" });
    Config_GRPC ::= (λ g, { g with GRPC_ReflectionEnabled := false;
      GRPC_TLS := mkGRPCTLS true "server.crt" "server.key" "" });
    Config_Swagger := mkSwagger true true;
    Config_Auth ::= (λ a, { a with Auth_JWKSURL := "https://identity.example/jwks" });
    Config_Authorization := mkAuthorization true;
    Config_Outbound ::= (λ o, { o with
      Outbound_GRPC := {[ "authorization" := authorization ]} }) }.

Definition service : NotificationService := {|
  Service_transactor := mkTransactor true; Service_limiter := Some (mkLimiter true false true);
  Service_config := config.(Config_Notification);
  Service_outboundHTTP := config.(Config_Outbound).(Outbound_HTTP);
  Service_applications := RemoteVerifier |}.
Definition registry : Registry := mkRegistry {[ "mail" := client ]}.
Definition dispatcher : Dispatcher :=
  NewDispatcher (mkTransactor true) (NewSenderRegistry registry config) registry config.
Definition cleaner : RetentionCleaner := mkRetentionCleaner 0 second 10 true.

(** ** An execution *)
Definition user : Principal := mkPrincipal "u-1" TypeUser "acme".
Definition ctx : Context := Caller.WithContext Background user.
Definition welcome : Template.t :=
  { Template.zero with
    Template.TenantID := "acme"; Template.ApplicationID := "shop"; Template.Code := "Welcome";
    Template.Channel := "email"; Template.Locale := "en"; Template.Subject := "Hello";
    Template.Content := "Welcome" }.
Definition mail : Provider.t :=
  { Provider.zero with
    Provider.TenantID := "acme"; Provider.ApplicationID := "shop"; Provider.Code := "mailer";
    Provider.Channel := "email"; Provider.Upstream := "mail"; Provider.Path := "/send" }.
Definition request (key : string) : Request :=
  RSend "acme" "shop" "welcome" "email" "en" "ada@example.org" key None.
Definition receipt : Request :=
  RRecordReceipt "acme" "shop" "mailer" "m-1" "delivered" "".

Abbreviation world := (World Tables Event).
Definition empty : world := mkWorld no_rows O [].
Definition ready : list Action := [
  ActRequest service ctx (RPutTemplate welcome 0);
  ActRequest service ctx (RPutProvider mail 0)].
Definition requested : list Action := ready ++ [ActRequest service ctx (request "k-1")].
Definition claimed : list Action := requested ++ [ActClaim].
Definition crashed : list Action := claimed ++ [ActStop 0].
Definition sent : list Action := claimed ++ [ActDeliver 0].
Definition delivered : list Action := sent ++ [ActRequest service ctx receipt].
Abbreviation after acts := (run_actions dispatcher acts empty).
End Concrete.
