(* ===== verification/ConcreteServer.v ===== *)
(** * A concrete deployment of the servers

    Instances of what the transports, the clients, the migrations and the start of
    the process are parametric in, over the deployment of Concrete.v: small total
    libraries that keep the laws the theorems ask of them. *)

From S2P Require Import Prelude GoStrings Wire AppError Config Connections Reqctx Auth Effects Ratelimit Model.
From S2P Require Import Libraries Database Repository Unique Sql Service ServiceSpec Outbound.
From S2P Require Import Dispatcher Cleanup System SystemSpec Calls Web Health Middleware Handlers.
From S2P Require Import HttpServer ChainSpec HttpSpec Grpc GrpcSpec TransportSpec GrpcClient.
From S2P Require Import Locking Metrics Migration Startup Wiring Container Concrete.
From Stdlib Require Import Ascii.
From stdpp Require Import countable.
Open Scope string_scope.
Open Scope list_scope.
Open Scope Z_scope.
Open Scope go_scope.

Module ConcreteServer.
Export Concrete.Concrete.

(** ** A stored response is the bits of its fields' code; bodies are not kept. *)
Fixpoint bits (p : positive) : string :=
  match p with
  | xH => ""
  | xO p => String "0" (bits p)
  | xI p => String "1" (bits p)
  end.
Fixpoint of_bits (s : string) : positive :=
  match s with
  | EmptyString => xH
  | String c s => if c == "0"%char then xO (of_bits s) else xI (of_bits s)
  end.
Lemma of_bits_bits p : of_bits (bits p) = p.
Proof. induction p as [p IH|p IH|]; cbn; by rewrite ?IH. Qed.

#[export] Instance codes : CodeValues := λ code,
  match code with CodeOK => 0 | _ => 1 end.
#[export] Instance web : WebLibrary := {
  mime_ParseMediaType s := (s, nil_err);
  idempotency_Valid s := s != "";
  sha256_hex s := s;
  json_MarshalResponse r :=
    bits (encode (r.(Response.Code), r.(Response.Message), r.(Response.RequestID)));
  json_UnmarshalResponse s :=
    match decode (of_bits s) with
    | Some (code, message, id) => (Response.mk code message JNull id, nil_err)
    | None => (Response.mk 0 "" JNull "", ErrMsg "not a response")
    end }.
#[export] Instance roundtrip : JSONRoundTrip.
Proof.
  refine {| json_any := λ _, JNull |}; [done|]. intros [code message body id].
  cbn -[encode decode]. by rewrite of_bits_bits, decode_encode.
Defined.

(** ** HTTP *)
Definition form_value (name : string) : string :=
  if name == "tenant_id" then "acme" else if name == "application_id" then "shop" else "mailer".
#[export] Instance form : FormLibrary := {
  json_Decode _ body := (mkFields form_value (λ _, 0) (λ _, None), body.2);
  json_UnmarshalAny _ := (JNull, nil_err);
  validation_error _ _ := "a required field is missing" }.
#[export] Instance duration : DurationText := λ _, "0s".
#[export] Instance tokens : TokenLibrary := {
  jwt_ParseWithClaims _ _ _ := (mkClaims "" "" "" 0 0 0, false, ErrMsg "no local tokens");
  jwks_VerifyBearer raw :=
    if raw == "good" then (user, nil_err) else (AuthService.NoPrincipal, ErrMsg "unknown token");
  jwt_Sign _ _ := ("good", nil_err) }.
#[export] Instance gin {DB} : GinLibrary DB := {
  otelgin _ next c := let! c' := next c in ret (Http.with_context (λ _, c.(gin_ctx)) c');
  foreign _ c := ret c;
  gin_SetTrustedProxies _ := nil_err }.
#[export] Instance gin_laws {DB} : GinLaws DB.
Proof. split; [done|]. intros name c w. done. Qed.

(** ** gRPC *)
#[export] Instance names : MethodNames := λ m,
  "/platform.notification.v1.NotificationService/" +:+
  match m with
  | PutProvider => "PutProvider" | GetProvider => "GetProvider"
  | ListProviders => "ListProviders" | PutTemplate => "PutTemplate"
  | GetTemplate => "GetTemplate" | ListTemplates => "ListTemplates" | Send => "Send"
  | RecordProviderReceipt => "RecordProviderReceipt" | GetDelivery => "GetDelivery"
  | ListDeliveries => "ListDeliveries"
  end.
#[export] Instance names_inj : Inj (=) (=) (FullMethodName : Method → string).
Proof. by intros [] []. Qed.
#[export] Instance interceptors {DB R} : PlatformInterceptors DB R := {
  platformauthz_UnaryServerInterceptor authorizer resolver info handler ctx :=
    match resolver info.(FullMethod) with
    | None => handler ctx
    | Some requirement =>
        let! err := Http.Enforce authorizer ctx requirement in
        if failed err then ret (Returned None (Some (grpcError err))) else handler ctx
    end;
  platformauthz_refusal := grpcError;
  platformidempotency_UnaryServerInterceptor _ _ _ handler := handler }.
#[export] Instance interceptor_laws {DB R} : PlatformLaws DB R.
Proof.
  split; cbn; intros *; first [by intros -> | intros; done | auto].
Qed.
#[export] Instance tls_files : TLSFiles := {
  os_ReadFile name := ("pem of " +:+ name, nil_err);
  AppendCertsFromPEM _ := true;
  LoadX509KeyPair _ _ := nil_err }.
#[export] Instance status : StatusLibrary.
Proof.
  refine {| status_Code e := if is_nil e then None else Some Unavailable;
            Code_String _ := "code" |}.
  intros e. by destruct e.
Defined.

(** ** Migrations and the start *)
#[export] Instance urls : URLQueries := {
  ParsedURL := string * Values;
  url_ParseURL s := ((s, ∅), nil_err);
  url_Query := snd;
  url_SetPath path u := (path, u.2);
  url_SetQuery query u := (u.1, query);
  url_String := fst;
  url_QueryEscape s := s;
  url_file s := "file://" +:+ s;
  filepath_Abs s := ("/srv/" +:+ s, nil_err) }.
#[export] Instance viper : ViperLibrary := {
  Viper := Config;
  viper_New c := c;
  viper_BindEnv v := (v, nil_err);
  viper_ReadInConfig _ v := (v, nil_err);
  viper_NotFound _ := false;
  viper_MergeInConfig _ v := (v, nil_err);
  viper_app_env v := v.(Config_App).(App_Env);
  viper_SetEnv profile v := { v with Config_App ::= (λ a, { a with App_Env := profile }) };
  viper_Unmarshal v := (v, nil_err);
  os_Stat _ := nil_err;
  os_IsNotExist _ := false }.
#[export] Instance drivers : Drivers := {
  pgx_ParseConfig dsn := (mkPgxConfig dsn "postgres" {[ "sslmode" := "require" ]}, nil_err);
  mysql_ParseDSN dsn := (mkMySQLConfig dsn "mysql" false "UTC", nil_err);
  mysql_FormatDSN c := c.(MySQL_server) +:+ "/" +:+ c.(MySQL_DBName);
  time_LoadLocation _ := nil_err;
  sqlx_Open _ _ := nil_err }.
#[export] Instance platform : Platform := {
  filepath_Dir s := s;
  os_MkdirAll _ := nil_err;
  slog_UnmarshalText _ := (0, nil_err);
  otlptracehttp_New _ := nil_err;
  redisotel_InstrumentTracing := nil_err;
  outbox_NewSQLStore _ := nil_err;
  eventbus_New _ := nil_err;
  outbox_New := nil_err;
  outbox_NewRetentionCleaner := nil_err;
  eventbus_Close := nil_err }.

(** ** One instance of the program *)
Definition authorizer : Authorizer := mkAuthorizer None (2 * second).
Definition auth_service : AuthService :=
  mkAuthService "issuer" "" second "client" "secret" true.
Definition handler : HTTPHandler := mkHTTPHandler (mkHealthService true true (mkHealth second second)) service.
Definition build : Build := mkBuild "v1" "abc" "today" 0.
Definition process : Process := {|
  Process_config := production; Process_handler := handler; Process_auth := auth_service;
  Process_authorizer := authorizer;
  Process_limiter := mkLimiter true false true; Process_manager := mkIdempotencyManager true;
  Process_metrics := true; Process_build := build |}.
Definition http_request (path : string) (headers : gmap string string) : Gin := {|
  gin_Method := "POST"; gin_FullPath := path; gin_Header := headers; gin_ContentLength := 2;
  gin_TLS := true; gin_ClientIP := "10.0.0.1"; gin_Body := ("{}", nil_err);
  gin_ctx := Background; gin_request_id := None; gin_subject := None; gin_environment := None;
  gin_headers := ∅; gin_Status := 200; gin_Written := false; gin_Output := [];
  gin_panic := false |}.

(** A registry that is the list of its collectors. *)
Definition go_collected : list string := ["go_goroutines"; "go_threads"].
Definition process_collected : list string := ["process_cpu_seconds_total"].
Definition dbstats_collected (_ : string) : list string := ["go_sql_open_connections"].
Definition collected (c : Collector) : list string :=
  match c with
  | CounterVec name _ _ | HistogramVec name _ _ | GaugeFunc name _ _ => [name]
  | GoCollector => go_collected
  | ProcessCollector => process_collected
  | DBStatsCollector db => dbstats_collected db
  end.
Definition register (r : list Collector) (c : Collector) : list Collector * error :=
  if existsb (λ c', existsb (λ name, bool_decide (name ∈ collected c)) (collected c')) r
  then (r, ErrMsg "duplicate metrics collector registration attempted") else (r ++ [c], nil_err).
#[export] Instance prometheus : PrometheusLibrary := {|
  PromRegistry := list Collector; prom_NewRegistry := []; prom_Register := register;
  go_names := go_collected; process_names := process_collected;
  dbstats_names := dbstats_collected |}.
#[export] Instance prometheus_laws : PrometheusLaws (H := prometheus) (λ r, r).
Proof.
  split; [done| | |by apply (bool_decide_unpack _); vm_compute].
  - intros r c Hfree. cbn. unfold register. destruct (existsb _ r) eqn:E; [|done]. exfalso.
    apply existsb_exists in E as (c' & Hc & (name & Hn & Hd%bool_decide_eq_true)%existsb_exists).
    apply list_elem_of_In in Hc, Hn. apply (Hfree c' name Hc); by destruct c', c.
  - intros name Hn.
    change (name ∈ ["go_goroutines"; "go_threads"; "process_cpu_seconds_total";
                    "go_sql_open_connections"]) in Hn. rewrite !elem_of_cons in Hn.
    destruct Hn as [->|[->|[->|[->|[]%elem_of_nil]]]]; cbn; auto.
Qed.

(** ** The container *)
#[export] Instance process_library : ProcessLibrary := {
  grpc_NewClient _ := nil_err;
  authn_NewJWKSVerifier := nil_err;
  cron_LoadLocation _ := nil_err;
  cron_AddFunc _ := nil_err;
  net_Listen _ := nil_err;
  code_String _ := "code";
  stop_error _ := nil_err;
  stop_expires _ := false }.
(** For each invocation, what it needs and was not built yet. *)
#[export] Instance container : Container := [
  [PLogger]; [PDatabase]; [PTracing; PRedis]; [POutboxStore; PEventRuntime];
  [PRepository; PTransactor; PMetrics; PRegistry; PSenders; PDispatcher; PWorker; PCleaner];
  []; [PLocker; PScheduler];
  [PAuth; PAuthorizer; PHealth; PLimiter; PVerifier; PService; PManager; PGRPC];
  [PHandler; PHTTP]].

(** The laws of fx, as checks that evaluate. *)
Fixpoint after_params (before ps : list Part) : bool :=
  match ps with
  | [] => true
  | p :: ps => forallb (λ q, bool_decide (q ∈ before)) (params p) && after_params (p :: before) ps
  end.
Lemma after_params_spec ps before :
  after_params before ps = true →
  ∀ l1 p l2, ps = l1 ++ p :: l2 → ∀ q, requires p q → q ∈ before ∨ q ∈ l1.
Proof.
  revert before. induction ps as [|p' ps IH]; intros before H l1 p l2 E q Hq; [by destruct l1|].
  cbn in H. apply andb_true_iff in H as [Hf Hr]. destruct l1 as [|p1 l1]; injection E as -> E.
  - left. rewrite forallb_forall in Hf. apply (bool_decide_eq_true_1 _), Hf. by apply list_elem_of_In.
  - destruct (IH _ Hr l1 p l2 E q Hq) as [[->|?]%elem_of_cons|?]; [right; by left|by left|right; by right].
Qed.
Fixpoint closure (n : nat) (ps : list Part) : list Part :=
  match n with
  | O => ps
  | S n => remove_dups (ps ++ (ps ≫= λ p, closure n (params p)))
  end.
Lemma closure_spec n ps p : p ∈ closure n ps → ∃ r, r ∈ ps ∧ rtc requires r p.
Proof.
  revert ps p. induction n as [|n IH]; intros ps p; cbn [closure].
  - intros Hp. by exists p.
  - rewrite elem_of_remove_dups, elem_of_app, list_elem_of_bind. intros [Hp|(r & Hp & Hr)]; [by exists p|].
    apply IH in Hp as (r' & Hr' & Ht). exists r. split; [done|]. by eapply rtc_l.
Qed.
#[export] Instance fx_laws : FxLaws.
Proof.
  split.
  - reflexivity.
  - apply (bool_decide_unpack _). by vm_compute.
  - intros l1 p l2 E q Hq. assert (after_params [] (mjoin fx_schedule) = true) as Ha by by vm_compute.
    by destruct (after_params_spec _ _ Ha _ _ _ E q Hq) as [?%elem_of_nil|].
  - intros i ps p Hi Hp.
    assert (forallb (λ x : list Part * list Part, forallb (λ q, bool_decide (q ∈ closure 7 x.1)) x.2)
      (zip invoked fx_schedule) = true) as Hall by by vm_compute.
    assert (is_Some (invoked !! i)) as [roots Hr].
    { apply lookup_lt_is_Some. apply lookup_lt_Some in Hi. done. }
    assert ((roots, ps) ∈ zip invoked fx_schedule) as Hz.
    { apply (list_elem_of_lookup_2 _ i). by rewrite lookup_zip_with, Hr; cbn; rewrite Hi. }
    rewrite forallb_forall in Hall. apply list_elem_of_In, Hall in Hz. rewrite forallb_forall in Hz.
    apply list_elem_of_In, Hz, bool_decide_eq_true_1, closure_spec in Hp as (r & ? & ?). by exists roots, r.
  - intros i roots r Hi Hr.
    assert (forallb (λ i, forallb (λ r, bool_decide (r ∈ mjoin (take (S i) fx_schedule)))
      (default [] (invoked !! i))) (seq 0 9) = true) as Hall by by vm_compute.
    rewrite forallb_forall in Hall. specialize (Hall i). rewrite forallb_forall, Hi in Hall.
    apply (bool_decide_eq_true_1 _), Hall; apply list_elem_of_In; [|done].
    apply elem_of_seq. apply lookup_lt_Some in Hi. cbn in Hi. lia.
Qed.
End ConcreteServer.
