(* ===== verification/Witnesses.v ===== *)
(** * The theorems at work

    Each theorem with hypotheses, applied on the deployment of Concrete.v. *)

From S2P Require Import Prelude GoStrings Wire AppError Config Reqctx Auth Effects Ratelimit Model.
From S2P Require Import Libraries Database Repository Unique Sql Service ServiceSpec ServiceAdmin.
From S2P Require Import Outbound Dispatcher DispatcherSpec Clock Liveness Cleanup System SystemSpec Retries Concrete.
Open Scope string_scope.
Open Scope list_scope.
Open Scope Z_scope.
Open Scope go_scope.
Import Concrete.Concrete.

(** ** The states of the execution *)

Lemma Max_pos : 1 ≤ dispatcher.(Dispatcher_cfg).(Notification_MaxAttempts).
Proof. by vm_compute. Qed.

Lemma after_reachable acts : reachable dispatcher.(Dispatcher_cfg) (state_of (after acts)).
Proof. exact (run_actions_reachable dispatcher Max_pos acts empty eq_refl). Qed.

Lemma after_unique acts : unique_tables (view (w_db (after acts).1)).
Proof. exact (inv_unique _ _ (inv_reachable _ Max_pos _ (after_reachable acts))). Qed.

Lemma after_snoc acts a : after (acts ++ [a]) = act dispatcher (after acts) a.
Proof. unfold run_actions. by rewrite fold_left_app. Qed.


(** The delivery of the execution, and what became of it. *)
Abbreviation row_of acts := (hd Delivery.zero (tbl_deliveries (view (w_db (after acts).1)))).
Abbreviation now_at acts := ((after acts).1).

Ltac computed := vm_compute; reflexivity.


Lemma in_row acts : tbl_deliveries (view (w_db (after acts).1)) ≠ [] → row_of acts ∈ tbl_deliveries (view (w_db (after acts).1)).
Proof. destruct (tbl_deliveries _); [done|]. intros _. apply elem_of_cons. by left. Qed.

(** Unification need not run the execution; [computed] does. *)
#[local] Opaque run_actions.

(** ** Executions *)

Lemma executions_refine_witness :
  reachable dispatcher.(Dispatcher_cfg) (state_of (after delivered)).
Proof. exact (executions_refine dispatcher Max_pos delivered empty eq_refl). Defined.

Lemma delivery_lifecycle_witness :
  (row_of delivered).(Delivery.Status) = "delivered" ∧
  lifecycle dispatcher.(Dispatcher_cfg) (row_of delivered).
Proof.
  split; [computed|].
  apply (delivery_lifecycle dispatcher Max_pos delivered empty); [reflexivity|].
  apply in_row. by vm_compute.
Defined.

Lemma claims_exclusive_witness :
  ∃ v, (after claimed).2 = [v] ∧ NoDup (map Delivery.ID (after claimed).2) ∧
  ∃ r, r ∈ tbl_deliveries (view (w_db (after claimed).1)) ∧
    r.(Delivery.Status) = "processing" ∧ r.(Delivery.ID) = v.(Delivery.ID).
Proof.
  pose proof (claims_exclusive dispatcher Max_pos claimed empty eq_refl) as Hc.
  remember (after claimed) as e eqn:E. destruct e as [w' tasks]. destruct Hc as [Hn Hc].
  assert (tasks = (after claimed).2) as Et by (by rewrite <- E). vm_compute in Et.
  eexists. split; [exact Et|]. split; [exact Hn|].
  destruct (Hc (hd Delivery.zero tasks)) as (r & Hr & Hs & Hid & _).
  { rewrite Et. apply elem_of_cons. by left. }
  exists r. rewrite Et in Hid. split_and!; [exact Hr|exact Hs|exact Hid].
Defined.

Lemma status_machine_witness :
  (row_of claimed).(Delivery.Status) = "processing" ∧ (row_of sent).(Delivery.Status) = "sent" ∧
  (row_of sent = row_of claimed ∨ moved (row_of claimed) (row_of sent)).
Proof.
  do 2 (split; [computed|]).
  assert (row_of sent ∈ tbl_deliveries (view (w_db (act dispatcher (after claimed) (ActDeliver 0)).1)))
    as Hs by (rewrite <- after_snoc; apply (in_row sent); by vm_compute).
  exact (status_machine dispatcher Max_pos claimed (ActDeliver 0) empty (row_of claimed)
    (row_of sent) eq_refl (in_row claimed ltac:(by vm_compute)) Hs ltac:(computed)).
Defined.

Lemma orphan_stuck_witness :
  (row_of crashed).(Delivery.Status) = "processing" ∧
  row_of crashed ∈ tbl_deliveries (view (w_db (after (crashed ++
    [ActClaim; ActRequest service ctx (request "k-1"); ActClean cleaner 10])).1)).
Proof.
  assert ((row_of crashed).(Delivery.Status) = "processing") as Hs by computed.
  assert ((after crashed).2 = []) as Et by computed.
  pose proof (in_row crashed ltac:(by vm_compute)) as Hr.
  split; [exact Hs|].
  pose proof (orphan_stuck dispatcher Max_pos crashed
    [ActClaim; ActRequest service ctx (request "k-1"); ActClean cleaner 10] empty (row_of crashed)
    eq_refl) as Ho.
  destruct (after crashed) as [w1 tasks]. cbn [fst snd] in *. subst tasks.
  apply Ho; [exact Hr|exact Hs|]. intros v Hv _. exact (not_elem_of_nil v Hv).
Defined.

Lemma receipted_forever_witness :
  (row_of delivered).(Delivery.Status) = "delivered" ∧
  row_of delivered ∈ tbl_deliveries (view (w_db (after (delivered ++ [ActClean cleaner 10])).1)).
Proof.
  split; [computed|].
  exact (receipted_forever dispatcher Max_pos delivered [ActClean cleaner 10] empty _
    eq_refl (in_row delivered ltac:(by vm_compute)) ltac:(computed)).
Defined.

(** ** The service *)

(** The answer of a call that succeeds. *)
Lemma answer_of {A W} (r : A * error * W) :
  r.1.2 = nil_err → ∃ v w', r = ((v, nil_err), w').
Proof. destruct r as [[v err] w']. cbn. intros ->. by exists v, w'. Qed.

Lemma Send_outcome_witness :
  ∃ v w', Service.Send service ctx "acme" "shop" "welcome" "email" "en" "ada@example.org" "k-1"
    None (now_at ready) = ((v, nil_err), w') ∧
  ((view (w_db w') = view (w_db (now_at ready)) ∧ v ∈ tbl_deliveries (view (w_db (now_at ready))) ∧
    delivery_key (TrimSpace "acme") (TrimSpace "shop") (TrimSpace "k-1") v = true) ∨
   send_adds ctx "acme" "shop" "welcome" "email" "en" "ada@example.org" "k-1" None v
     (view (w_db (now_at ready))) (view (w_db w'))).
Proof.
  assert ((Service.Send service ctx "acme" "shop" "welcome" "email" "en"
    "ada@example.org" "k-1" None (now_at ready)).1.2 = nil_err) as Ha by computed.
  destruct (answer_of _ Ha) as (v & w' & E).
  exists v, w'. split; [exact E|].
  exact (Send_outcome service ctx _ _ _ _ _ _ _ _ _ v nil_err w' E).
Defined.

Lemma Send_idempotent_witness :
  ∃ v w', Service.Send service ctx "acme" "shop" "other" "sms" "fr" "bob" " k-1 " None
    (now_at requested) = ((v, nil_err), w') ∧
  w_db w' = w_db (now_at requested) ∧ v ∈ tbl_deliveries (view (w_db (now_at requested))).
Proof.
  assert ((Service.Send service ctx "acme" "shop" "other" "sms" "fr" "bob" " k-1 "
    None (now_at requested)).1.2 = nil_err) as Ha by computed.
  destruct (answer_of _ Ha) as (v & w' & E).
  exists v, w'. split; [exact E|].
  assert (existsb (delivery_key (TrimSpace "acme") (TrimSpace "shop") (TrimSpace " k-1 "))
    (tbl_deliveries (view (w_db (now_at requested)))) = true) as Hk by computed.
  destruct (Send_idempotent service ctx _ _ _ _ _ _ _ _ _ v nil_err w' Hk E) as (Hdb & _ & Hv).
  split; [exact Hdb|]. exact (proj1 (Hv eq_refl)).
Defined.

Lemma request_isolated_witness :
  allowed ctx "other" = false ∧
  refused (DB := Tables) (run_request service ctx (RListDeliveries "other" "shop" "" 1 20)).
Proof.
  assert (allowed ctx "other" = false) as Ha by computed. split; [exact Ha|].
  exact (request_isolated service ctx (RListDeliveries "other" "shop" "" 1 20) Ha).
Defined.

Lemma RecordReceipt_outcome_witness :
  ∃ v w', Service.RecordReceipt service ctx "acme" "shop" "mailer" "m-1" "delivered" ""
    (now_at sent) = ((v, nil_err), w') ∧
  ((view (w_db w') = view (w_db (now_at sent)) ∧ v.(Delivery.Status) = ToLower (TrimSpace "delivered")) ∨
   ∃ d now caller, d ∈ tbl_deliveries (view (w_db (now_at sent))) ∧
    settled (Service.received d (ToLower (TrimSpace "delivered")) (TrimSpace "") now caller)
      (view (w_db (now_at sent))) (view (w_db w'))).
Proof.
  assert ((Service.RecordReceipt service ctx "acme" "shop" "mailer" "m-1" "delivered" ""
    (now_at sent)).1.2 = nil_err) as Ha by computed.
  destruct (answer_of _ Ha) as (v & w' & E).
  exists v, w'. split; [exact E|].
  destruct (RecordReceipt_outcome service ctx _ _ _ _ _ _ _ v nil_err w' (after_unique sent) E)
    as [(Hs & _ & Hv)|(d & now & caller & [Hd _] & _ & _ & _ & _ & Hs)].
  - left. split; [exact Hs|exact Hv].
  - right. exists d, now, caller.(Principal_ID). split; [exact Hd|exact Hs].
Defined.

Lemma terminal_status_final_witness :
  ∃ err w', Service.RecordReceipt service ctx "acme" "shop" "mailer" "m-1" "failed" ""
    (now_at delivered) = (err, w') ∧
  row_of delivered ∈ tbl_deliveries (view (w_db w')).
Proof.
  destruct (Service.RecordReceipt service ctx "acme" "shop" "mailer" "m-1" "failed" ""
    (now_at delivered)) as [res w'] eqn:E.
  exists res, w'. split; [exact eq_refl|].
  exact (terminal_status_final service ctx _ _ _ _ _ _ _ res w' _ (after_unique delivered) E
    (in_row delivered ltac:(by vm_compute)) ltac:(computed)).
Defined.

Lemma PutProvider_outcome_witness :
  ∃ v w', Service.PutProvider service ctx mail 1 (now_at ready) = ((v, nil_err), w') ∧
  provider_changed service (normal_provider mail) v 1 (view (w_db (now_at ready))) (view (w_db w')).
Proof.
  assert ((Service.PutProvider service ctx mail 1 (now_at ready)).1.2 = nil_err) as Ha by computed.
  destruct (answer_of _ Ha) as (v & w' & E). exists v, w'. split; [exact E|].
  exact (PutProvider_outcome service ctx mail 1 _ v nil_err w' (after_unique ready) E).
Defined.

Lemma PutTemplate_outcome_witness :
  ∃ v w', Service.PutTemplate service ctx welcome 1 (now_at ready) = ((v, nil_err), w') ∧
  v.(Template.Status) = "" ∧
  template_changed (normal_template welcome) v 1 (view (w_db (now_at ready))) (view (w_db w')).
Proof.
  assert ((Service.PutTemplate service ctx welcome 1 (now_at ready)).1.2 = nil_err) as Ha by computed.
  assert ((Service.PutTemplate service ctx welcome 1 (now_at ready)).1.1.(Template.Status) = "")
    as Hs by computed.
  destruct (answer_of _ Ha) as (v & w' & E). rewrite E in Hs.
  exists v, w'. split; [exact E|]. split; [exact Hs|].
  exact (PutTemplate_outcome service ctx welcome 1 _ v nil_err w' (after_unique ready) E).
Defined.

Lemma lookups_exact_scope_witness :
  ∃ v w', Service.GetProvider service ctx " acme " "shop" "MAILER" (now_at ready)
    = ((v, nil_err), w') ∧
  v ∈ tbl_providers (view (w_db (now_at ready))) ∧ v.(Provider.TenantID) = TrimSpace " acme ".
Proof.
  assert ((Service.GetProvider service ctx " acme " "shop" "MAILER" (now_at ready)).1.2 = nil_err)
    as Ha by computed.
  destruct (answer_of _ Ha) as (v & w' & E). exists v, w'. split; [exact E|].
  destruct (proj1 (lookups_exact_scope service ctx " acme " "shop" "MAILER" "" "" (now_at ready))
    v w' E) as (Hv & Ht & _).
  split; [exact Hv|exact Ht].
Defined.

Lemma ListDeliveries_page_witness :
  ∃ p w', Service.ListDeliveries service ctx "acme" "shop" "pending" 0 0 (now_at requested)
    = ((p, nil_err), w') ∧
  length p.(Page_Deliveries) = 1%nat ∧ p.(Page_PageSize) = 20 ∧ w_db w' = w_db (now_at requested).
Proof.
  assert ((Service.ListDeliveries service ctx "acme" "shop" "pending" 0 0 (now_at requested)).1.2
    = nil_err) as Ha by computed.
  assert (length (Page_Deliveries (Service.ListDeliveries service ctx "acme" "shop" "pending" 0 0
    (now_at requested)).1.1) = 1%nat) as Hl by computed.
  destruct (answer_of _ Ha) as (p & w' & E). rewrite E in Hl.
  exists p, w'. split; [exact E|]. split; [exact Hl|].
  destruct (ListDeliveries_page service ctx "acme" "shop" "pending" 0 0 _ p w' E)
    as (_ & _ & Hs & _ & _ & Hdb).
  split; [exact Hs|exact Hdb].
Defined.

Lemma frequency_gate_witness :
  ∃ err w', Service.checkFrequency service "acme" "shop" "welcome" "email" "ada" (now_at ready)
    = (err, w') ∧ err = nil_err ∧
  w_log w' = w_log (now_at ready) ++
    asked (Service.frequency_checks service "acme" "shop" "welcome" "email" "ada").
Proof.
  assert ((Service.checkFrequency service "acme" "shop" "welcome" "email" "ada" (now_at ready)).1
    = nil_err) as Ha by computed.
  destruct (Service.checkFrequency service "acme" "shop" "welcome" "email" "ada" (now_at ready))
    as [err w'] eqn:E. cbn in Ha. subst err.
  exists nil_err, w'. split; [exact eq_refl|]. split; [exact eq_refl|].
  exact (proj2 (frequency_gate service (mkLimiter true false true) "acme" "shop" "welcome" "email"
    "ada" _ nil_err w' eq_refl eq_refl eq_refl E)).
Defined.

(** ** The repository and the database *)

Lemma SQLRepository_implements_witness : RepositoryLaws Tables.
Proof. exact SQLRepository_implements. Defined.

Lemma writes_keep_unique_witness :
  let op := WClaimDue (100 * second) 10 in
  (run_write op (now_at requested)).1 = nil_err ∧
  unique_tables (view (w_db (run_write op (now_at requested)).2)).
Proof.
  cbv zeta.
  assert ((run_write (WClaimDue (100 * second) 10) (now_at requested)).1 = nil_err) as Ha by computed.
  split; [exact Ha|].
  exact (writes_keep_unique (WClaimDue (100 * second) 10) _ (after_unique requested) Ha).
Defined.

(** A transaction whose second statement fails. *)
Definition half_done : IO Tables (nat * error) :=
  let! err := Repository_InsertTemplate welcome in
  ret (1%nat, ErrMsg "second statement").
Lemma Within_atomic_witness :
  ∃ value err w', Transactor.WithinVar (mkTransactor true) 0%nat half_done empty
    = ((value, err), w') ∧ failed err = true ∧
  (w_db w' = w_db empty ∨
   (committed half_done empty value (w_db w') ∧ commit_lost err w')).
Proof.
  assert (failed (Transactor.WithinVar (mkTransactor true) 0%nat half_done empty).1.2 = true)
    as Ha by computed.
  destruct (Transactor.WithinVar (mkTransactor true) 0%nat half_done empty)
    as [[value err] w'] eqn:E. cbn in Ha.
  exists value, err, w'. split; [exact eq_refl|]. split; [exact Ha|].
  pose proof (Within_atomic (mkTransactor true) 0%nat half_done empty w' value err E) as Hw.
  rewrite Ha in Hw. exact Hw.
Defined.

(** ** The dispatcher and the cleaner *)

Lemma deliver_outcome_witness :
  ∃ v w', (after claimed).2 = [v] ∧
  Dispatch.deliver dispatcher Background v (now_at claimed) = (tt, w') ∧
  ∃ outcome w1 s err, Dispatch.attempt dispatcher Background v (now_at claimed) = (outcome, w1) ∧
  Dispatch.finish_attempt dispatcher s (next w1) = (err, w') ∧
  s.(Delivery.ID) = v.(Delivery.ID) ∧ s.(Delivery.UpdatedAt) = ext_now (w_tick w1).
Proof.
  assert (∃ v, (after claimed).2 = [v]) as [v Hv] by (eexists; computed).
  destruct (Dispatch.deliver dispatcher Background v (now_at claimed)) as [[] w'] eqn:E.
  exists v, w'. split; [exact Hv|]. split; [exact E|].
  destruct (deliver_outcome dispatcher Background v _ w' eq_refl (after_unique claimed) E)
    as (outcome & w1 & s & err & E1 & _ & Ef & _ & Hid & _ & _ & Hat & _).
  exists outcome, w1, s, err. split; [exact E1|]. split; [exact Ef|]. split; [exact Hid|exact Hat].
Defined.

Lemma RunOnce_at_most_once_witness :
  ∃ w', Dispatch.RunOnce dispatcher Background (now_at requested) = ((1, nil_err), w') ∧
  ∃ r l, r ∈ tbl_deliveries (view (w_db (now_at requested))) ∧
  w_log w' = w_log (now_at requested) ++ l ∧ http_count l ≤ 1 ∧
  ∀ request, EvHTTP request ∈ l → carries r request.
Proof.
  assert ((Dispatch.RunOnce dispatcher Background (now_at requested)).1 = (1, nil_err)) as Ha
    by computed.
  destruct (Dispatch.RunOnce dispatcher Background (now_at requested)) as [r w'] eqn:E.
  cbn in Ha. subst r. exists w'. split; [exact eq_refl|].
  destruct (RunOnce_at_most_once dispatcher Background _ 1 nil_err w' eq_refl
    (after_unique requested) E) as (time & rows & logs & Hr & _ & Hn & _ & Hl & Hf).
  destruct rows as [|r [|? ?]]; [discriminate Hn| |cbn in Hn; lia].
  apply Forall2_cons_inv_l in Hf as (l & logs' & [Hc Hq] & Hf & ->). apply Forall2_nil_inv_l in Hf as ->.
  cbn [concat] in Hl. rewrite app_nil_r in Hl.
  exists r, l. split; [exact (proj1 (Hr r ltac:(by left)))|]. split; [exact Hl|]. split; [exact Hc|exact Hq].
Defined.

Lemma clean_terminates_witness :
  ∃ err w', Cleaner.clean_loop cleaner 2 (now_at sent) = (Some err, w') ∧ err = nil_err ∧
  retained (cutoff_of cleaner (now_at sent) w') (view (w_db (now_at sent))) (view (w_db w')) ∧ tbl_deliveries (view (w_db w')) = [].
Proof.
  assert ((Cleaner.clean_loop cleaner 2 (now_at sent)).1 = Some nil_err) as Ha by computed.
  assert (tbl_deliveries (view (w_db (Cleaner.clean_loop cleaner 2 (now_at sent)).2)) = [])
    as Hd by computed.
  assert (length (tbl_deliveries (view (w_db (now_at sent)))) = 1%nat) as Hl by computed.
  destruct (clean_terminates cleaner (now_at sent) eq_refl (after_unique sent))
    as (err & w' & E & Hr & _).
  rewrite Hl in E. rewrite E in Ha, Hd. injection Ha as He.
  exists err, w'. split; [exact E|]. split; [exact He|]. split; [exact Hr|exact Hd].
Defined.

Lemma retryBackoff_schedule_witness :
  retryBackoff (5 * second) 3 = 5 * second * 2 ^ Z.min (3 - 1) 10.
Proof. apply (retryBackoff_schedule (5 * second) 3); [split; reflexivity|split; [discriminate|reflexivity]]. Defined.

(** ** Outbound calls *)

Lemma Do_bounded_witness :
  ∃ r err w', Do Background client "POST" "/send" "{}" None empty = ((r, err), w') ∧
  exchanged (call_request client "POST" "/send" "{}" None) (attempt_bound Background client "POST")
    second empty r err w'.
Proof.
  destruct (Do Background client "POST" "/send" "{}" None empty) as [[r err] w'] eqn:E.
  exists r, err, w'. split; [exact eq_refl|].
  exact (Do_bounded Background client "POST" "/send" "{}" None empty r err w' E).
Defined.

Lemma breaker_transparent_witness :
  execute Background client "POST" "/send" "{}" None empty =
  doWithRetry Background client "POST" "/send" "{}" None (mkWorld no_rows 1 []).
Proof. exact (breaker_transparent Background client "POST" "/send" "{}" None empty eq_refl). Defined.

Lemma backoff_doubles_witness :
  backoff_delay (100 * 1000000) 3 = 100 * 1000000 * 2 ^ (3 - 1).
Proof.
  apply (backoff_doubles upstream.(HTTPUpstream_Retry) 3);
    [split; [reflexivity|discriminate]|reflexivity|split; discriminate].
Defined.

(** ** Configuration and authentication *)

Lemma production_hardened_witness :
  Validate production = nil_err ∧ production.(Config_Auth).(Auth_JWKSURL) ≠ "".
Proof.
  assert (Validate production = nil_err) as Hv by computed. split; [exact Hv|].
  destruct (production_hardened production Hv eq_refl) as (_ & _ & _ & Hj & _). exact Hj.
Defined.

Lemma validated_patterns_witness :
  Validate config = nil_err ∧ well_formed "/api/v1/version".
Proof.
  assert (Validate config = nil_err) as Hv by computed. split; [exact Hv|].
  destruct (validated_patterns config Hv) as [Hp _]. apply Forall_inv in Hp. exact (proj2 Hp).
Defined.

Lemma validated_outbound_witness :
  Validate config = nil_err ∧ 0 < upstream.(HTTPUpstream_Timeout).
Proof.
  assert (Validate config = nil_err) as Hv by computed. split; [exact Hv|].
  assert (config.(Config_Outbound).(Outbound_HTTP) !! "mail" = Some upstream) as Hu by computed.
  destruct (proj1 (validated_outbound config Hv) "mail" upstream Hu) as (_ & Ht & _). exact Ht.
Defined.

Lemma Generate_valid_witness :
  Requestid.Valid (Requestid.Generate None 5) = true.
Proof. apply (Generate_valid None 5); [intros l Hl; discriminate Hl|split; [discriminate|reflexivity]]. Defined.

(** A token library that accepts one token. *)
#[local] Instance tokens : TokenLibrary := {
  jwt_ParseWithClaims raw keyfunc issuer :=
    if (raw == "good") && is_nil (keyfunc "HS256").2
    then (mkClaims issuer "u-1" "jti" 0 0 10, true, nil_err)
    else (mkClaims "" "" "" 0 0 0, false, ErrMsg "signature is invalid");
  jwks_VerifyBearer _ := (AuthService.NoPrincipal, ErrMsg "no keys");
  jwt_Sign _ _ := ("good", nil_err) }.
Definition local_auth : AuthService :=
  mkAuthService "issuer" "0123456789abcdef0123456789abcdef" second "client" "secret" false.
Lemma Verify_local_witness :
  AuthService.Verify local_auth "good" = (mkPrincipal "u-1" TypeUser "", nil_err) ∧
  AuthService.Enabled local_auth = true.
Proof.
  assert (AuthService.Verify local_auth "good" = (mkPrincipal "u-1" TypeUser "", nil_err)) as Hv
    by computed.
  split; [exact Hv|]. exact (proj1 (Verify_local local_auth "good" _ eq_refl Hv)).
Defined.

(** ** A round without faults settles what is due *)
#[local] Instance event_laws : EventLaws.
Proof.
  split; [done..|]. intros n m Hn. cbn. apply bool_decide_eq_false. intros E. apply Hn.
  injection E as E. by apply pretty_nat_inj.
Qed.
Abbreviation waiting := (after requested).1.
Lemma ids_unused (w : world) k :
  map OutboxEvent.ID (tbl_outbox (view (w_db w))) = [ext_uuid k] → (k < w_tick w)%nat → unused_ids w.
Proof.
  intros Ho Ht e n He Hn.
  assert (e.(OutboxEvent.ID) ∈ [ext_uuid k]) as Hi
    by (rewrite <- Ho; apply list_elem_of_fmap; by exists e).
  apply elem_of_cons in Hi as [->|Hi]; [|by apply elem_of_nil in Hi]. apply uuid_distinct. lia.
Qed.
Lemma waiting_fresh : unused_ids waiting.
Proof. apply (ids_unused waiting 28); [computed|]. apply Nat.ltb_lt. computed. Qed.
Lemma RunOnce_settles_witness :
  ∃ rows w', Dispatch.RunOnce dispatcher Background waiting
    = ((Z.of_nat (length rows), nil_err), w') ∧ length rows = 1%nat ∧
  ∀ r, r ∈ rows → due (ext_now (S (w_tick waiting))) r = true ∧
    ∃ r', r' ∈ tbl_deliveries (view (w_db w')) ∧ r'.(Delivery.ID) = r.(Delivery.ID) ∧
      r'.(Delivery.Version) = r.(Delivery.Version) + 2 ∧
      r'.(Delivery.Status) ∈ ["sent"; "retrying"; "dead_letter"].
Proof.
  assert (∀ n, ext_driver n = NoFault) as Hnf by (intros n; reflexivity).
  assert (0 ≤ dispatcher.(Dispatcher_cfg).(Notification_BatchSize)) as Hb
    by (vm_compute; intros Hc; discriminate Hc).
  assert (forallb (λ r, claim_fits r && can_incr 64 (r.(Delivery.Version) + 1))
    (tbl_deliveries (view (w_db waiting))) = true) as Hfit by computed.
  assert ((Dispatch.RunOnce dispatcher Background waiting).1.1 = 1) as H1 by computed.
  pose proof (after_unique requested) as Hu. pose proof waiting_fresh as Hf.
  generalize dependent waiting. intros w Hfit H1 Hu Hf.
  destruct (RunOnce_settles Hnf dispatcher Background w eq_refl eq_refl Hb Hu Hf) as (rows & w' & E & Hr & _).
  - intros r Hin. rewrite forallb_forall in Hfit. apply andb_true_iff, Hfit. by apply list_elem_of_In.
  - exists rows, w'. rewrite E in H1. cbn [fst] in H1.
    split; [exact E|]. split; [lia|]. intros r Hin. exact (proj2 (Hr r Hin)).
Defined.

(** ** A provider that is never reached: the eight attempts are used up *)
Definition offline : Externals :=
  answering (λ _ _ _, nil_err) (λ _ _, inr (ErrMsg "no network")) (λ _, acquired).
#[local] Instance offline_laws : DriverLaws (H := offline).
Proof. split. by intros n e [|]. Qed.
#[local] Instance offline_events : EventLaws (H := offline).
Proof. destruct event_laws. split; done. Qed.
Abbreviation waiting_row := (row_of requested).
(** Decided by computation. *)
Definition ample (n : Z) (r : Delivery.t) : bool :=
  (0 <=? r.(Delivery.Attempts)) && (r.(Delivery.Attempts) + n <? 2 ^ 31)
  && (0 <=? r.(Delivery.Version)) && (r.(Delivery.Version) + 2 * n <? 2 ^ 63).
Lemma ample_room n r : ample (Z.of_nat n) r = true → room n r.
Proof. unfold ample, room. rewrite !andb_true_iff, !Z.leb_le, !Z.ltb_lt. tauto. Qed.
Lemma waiting_room n : (n ≤ 128)%nat → ∀ r, r ∈ tbl_deliveries (view (w_db waiting)) → room n r.
Proof.
  intros Hn r Hr.
  assert (forallb (ample 128) (tbl_deliveries (view (w_db waiting))) = true) as Ha by computed.
  rewrite forallb_forall in Ha. apply list_elem_of_In, Ha, (ample_room 128) in Hr.
  unfold room in *. lia.
Qed.
Lemma waiting_steady : steady (H := offline) dispatcher 128 waiting.
Proof. split; [apply after_unique|exact waiting_fresh|computed|by apply waiting_room]. Qed.
Lemma waiting_steady3 : steady dispatcher 3 waiting.
Proof. split; [apply after_unique|exact waiting_fresh|computed|apply waiting_room; lia]. Qed.
Lemma retries_terminate_witness :
  ∃ r', r' ∈ tbl_deliveries (view (w_db (rounds (H := offline) dispatcher Background 128 waiting))) ∧
    r'.(Delivery.ID) = waiting_row.(Delivery.ID) ∧
    (r'.(Delivery.Status) = "sent" ∨ (r'.(Delivery.Status) = "dead_letter" ∧ 8 ≤ r'.(Delivery.Attempts))).
Proof.
  assert (waiting_row ∈ tbl_deliveries (view (w_db waiting))) as Hin
    by (apply in_row; intros E; apply (f_equal length) in E; vm_compute in E; discriminate E).
  assert (waits waiting_row = true) as Hw by computed.
  assert (dispatcher.(Dispatcher_cfg).(Notification_MaxAttempts) = 8) as Hmax by computed.
  assert (Z.max 1 (8 - waiting_row.(Delivery.Attempts))
    + count_rounds (H := offline) (is_early (H := offline) waiting_row.(Delivery.ID)) dispatcher
        Background 128 waiting = Z.of_nat 128) as Hn by computed.
  destruct (retries_terminate (H := offline) (λ n, eq_refl) (λ n id, eq_refl) dispatcher Background
    128 waiting waiting_row eq_refl eq_refl waiting_steady Hin Hw) as (r' & Hr & Hi & _ & _ & _ & Hs).
  exists r'. split; [exact Hr|]. split; [exact Hi|].
  rewrite Hmax in Hs. exact (Hs (Z.eq_le_incl _ _ Hn)).
Defined.

(** ** An accepted notification, and a provider that accepts it *)
Definition accepted_row : Delivery.t := Eval vm_compute in waiting_row.
Definition accepted_tables : Tables := Eval vm_compute in view (w_db waiting).
Lemma provider_accepts : accepts dispatcher Background accepted_tables accepted_row.
Proof.
  intros v w Hq [Ht Hp]. unfold same_request in Hq.
  destruct v, w as [[ps ts ds es] tk lg]. cbn in Hq, Ht, Hp.
  destruct Hq as (-> & -> & -> & -> & -> & -> & -> & -> & _). subst ts ps. computed.
Qed.
Definition worker_config : Config :=
  { config with Config_Database ::= (λ db, { db with Database_Enabled := true }) }.
Lemma Send_delivers_witness :
  ∃ v, Service.Send service ctx "acme" "shop" "welcome" "email" "en" "ada@example.org" "k-1" None
    (now_at ready) = ((v, nil_err), waiting) ∧
  ∃ r', r' ∈ tbl_deliveries (view (w_db (Dispatch.worker_start dispatcher worker_config 2 waiting).2)) ∧
    same_request (stored_delivery v) r' ∧ r'.(Delivery.Status) = "sent" ∧ r'.(Delivery.Attempts) = 1.
Proof.
  exists waiting_row.
  assert (Service.Send service ctx "acme" "shop" "welcome" "email" "en" "ada@example.org" "k-1" None
    (now_at ready) = ((waiting_row, nil_err), waiting)) as E by computed.
  split; [exact E|].
  assert (existsb (delivery_key (TrimSpace "acme") (TrimSpace "shop") (TrimSpace "k-1"))
    (tbl_deliveries (view (w_db (now_at ready)))) = false) as Hk by computed.
  assert (1 + count_rounds (is_early (stored_delivery waiting_row).(Delivery.ID)) dispatcher Background 3 waiting
    ≤ Z.of_nat 3) as Hn by (vm_compute; intros Hc; discriminate Hc).
  assert (∀ n, ext_driver n = NoFault) as Hnf by (intros n; reflexivity).
  assert (∀ n id, ext_locked n id = false) as Hnl by (intros n id; reflexivity).
  destruct (Send_delivers Hnf Hnl service ctx _ _ _ _ _ _ _ _ dispatcher
    worker_config 2 _ waiting_row waiting E Hk eq_refl eq_refl waiting_steady3)
    as (r' & Hr & Hq & _ & _ & _ & Hs).
  exists r'. split; [exact Hr|]. split; [exact Hq|]. apply Hs; [|exact Hn].
  assert (stored_delivery waiting_row = accepted_row) as -> by computed.
  assert (view (w_db waiting) = accepted_tables) as -> by computed.
  exact provider_accepts.
Defined.

(** ** A world in which the application is not granted *)
#[local] Instance denying : Externals :=
  answering (λ _ _ _, ErrSentinel ErrNotGranted) (λ _ _, inr (ErrMsg "no network")) (λ _, acquired).
#[local] Instance denying_laws : DriverLaws (H := denying).
Proof. split. by intros n e [|]. Qed.
Lemma application_gate_witness :
  ∃ err w', run_request (H := denying) service ctx (RPutProvider mail 0) empty = (err, w') ∧
    failed err = true ∧ w_db w' = no_rows.
Proof.
  exact (application_gate (H := denying) service ctx (RPutProvider mail 0) empty eq_refl
    (λ n, eq_refl)).
Defined.

