(* ===== verification/ServerWitnesses.v ===== *)
(** * The theorems about the servers, the clients and the start, at work

    Each theorem with hypotheses, applied on the deployment of ConcreteServer.v. *)

From S2P Require Import Prelude GoStrings Wire AppError Config Connections Reqctx Auth Effects Ratelimit Model.
From S2P Require Import Libraries Database Repository Unique Sql Service ServiceSpec Outbound.
From S2P Require Import Dispatcher Cleanup System SystemSpec Calls Web Health Middleware Handlers.
From S2P Require Import HttpServer ChainSpec HttpSpec Grpc GrpcSpec Failures TransportSpec GrpcClient.
From S2P Require Import Locking Metrics Migration Startup Wiring Container ContainerSpec Deployment.
From S2P Require Import Commands Loops Concrete ConcreteServer.
From Stdlib Require Import Ascii.
Open Scope string_scope.
Open Scope list_scope.
Open Scope Z_scope.
Open Scope go_scope.
Import ConcreteServer.ConcreteServer.

Definition get_provider : Gin :=
  http_request "/api/v1/notifications/providers/get" {[ "Authorization" := "Bearer good" ]}.
Definition limiter : Limiter := mkLimiter true false true.
Definition manager : IdempotencyManager := mkIdempotencyManager true.

(** A computation is seen to succeed without its value being computed. *)
Definition succeeded {A} (x : option A * error) : bool :=
  match x with (Some _, nil_err) => true | _ => false end.
Lemma succeeded_some {A} (x : option A * error) : succeeded x = true → ∃ a, x = (Some a, nil_err).
Proof. destruct x as [[a|] []]; try discriminate. by exists a. Qed.
Lemma nil_run (x : error * world) : is_nil x.1 = true → ∃ w', x = (nil_err, w').
Proof. destruct x as [[] w']; try discriminate. by exists w'. Qed.

(** ** The transports *)
(** A handler that only answers a request without a caller with a panic. *)
Definition trusting (f : Handler Tables) : Handler Tables := λ c,
  match Caller.FromContext c.(gin_ctx) with Some _ => f c | None => ret { c with gin_panic := true } end.
Lemma endpoint_guarded_witness :
  get_provider.(gin_FullPath) = endpoint_path EGetProvider ∧
  let ms := Server.global production true ++ Server.api production auth_service authorizer limiter manager in
  chain ms (Handler.GetNotificationProvider handler) get_provider empty
  = chain ms (trusting (Handler.GetNotificationProvider handler)) get_provider empty.
Proof.
  split; [reflexivity|].
  apply (endpoint_guarded production auth_service authorizer limiter manager true EGetProvider
    (Handler.GetNotificationProvider handler) (trusting (Handler.GetNotificationProvider handler))
    get_provider empty); [reflexivity|].
  intros c' w' [Hp _] [Hs|Ha] _; [discriminate Hs|]. unfold authenticated in Ha. rewrite Hp in Ha.
  change (by_psk (Config_Auth production) (endpoint_path EGetProvider)) with false in Ha.
  destruct Ha as (p & _ & Hc & _). unfold trusting. by rewrite Hc.
Defined.

Definition call_metadata (name : string) : list string :=
  if name == "authorization" then ["Bearer good"] else [].
Definition gtrusting (f : UnaryHandler Tables Pb.Response) : UnaryHandler Tables Pb.Response := λ ctx,
  match Caller.FromContext ctx with Some _ => f ctx | None => ret Panicked end.
Definition get_provider_method : UnaryHandler Tables Pb.Response :=
  NotificationServer.handle service (Pb.GetProviderRequest "acme" "shop" "mailer").
Lemma method_guarded_witness :
  Inj (=) (=) (FullMethodName : Method → string) ∧
  let chain := ChainInterceptor
    (GRPCServer.unary_interceptors production auth_service authorizer manager true (λ _, "code")) in
  let info := mkCallInfo (FullMethodName GetProvider) call_metadata in
  chain info get_provider_method Background empty
  = chain info (gtrusting get_provider_method) Background empty.
Proof.
  split; [exact names_inj|].
  apply (method_guarded production auth_service authorizer manager true (λ _, "code") get_provider_method
    (gtrusting get_provider_method) GetProvider call_metadata Background empty names_inj).
  intros ctx' w' [Hs|Ha] _; [discriminate Hs|]. unfold gauthenticated in Ha.
  match type of Ha with if ?b then _ else _ => change b with false in Ha end.
  destruct Ha as (p & value & values & scheme & raw & Hc & _).
  unfold gtrusting. by rewrite Hc.
Defined.

Lemma transports_agree_witness :
  ∃ r, ShouldBindJSON (endpoint_form EGetProvider) get_provider = (r, nil_err) ∧
  ∃ v err w',
    endpoint_handler handler EGetProvider get_provider empty
      = (if failed err then Fail err get_provider else OK (value_json v) get_provider, w') ∧
    NotificationServer.handle service (Pb.GetProviderRequest "acme" "shop" "mailer") Background empty
      = (if failed err then Returned None (Some (grpcError err))
         else Returned (Some (value_proto v)) None, w').
Proof.
  eexists. split; [reflexivity|].
  exact (transports_agree handler EGetProvider get_provider
    (Pb.GetProviderRequest "acme" "shop" "mailer") _ empty eq_refl eq_refl).
Defined.

(** A provider that is not there, asked for over both transports. *)
Lemma failures_contract_witness :
  ∃ row w', row ∈ contract ∧
  endpoint_handler handler EGetProvider get_provider empty = (http_answer row get_provider, w') ∧
  NotificationServer.handle service (Pb.GetProviderRequest "acme" "shop" "mailer") Background empty
    = (grpc_answer row, w').
Proof.
  assert (∃ r, ShouldBindJSON (endpoint_form EGetProvider) get_provider = (r, nil_err) ∧
    rpc_request (Pb.GetProviderRequest "acme" "shop" "mailer") = Some (endpoint_request EGetProvider r))
    as (r & Hb & Hq) by (eexists; split; reflexivity).
  destruct (proj2 (proj2 (failures_contract (DB := Tables) handler)) EGetProvider get_provider
    (Pb.GetProviderRequest "acme" "shop" "mailer") r empty Hb Hq)
    as (w' & [(body & reply & _ & Hr)|(row & Hr & Hh & Hg)]).
  - exfalso. apply (f_equal fst) in Hr. vm_compute in Hr. discriminate Hr.
  - exists row, w'. split; [exact Hr|]. split; [exact Hh|exact Hg].
Defined.

Definition one_route : Route Tables :=
  Server.post "/api/v1/notifications/providers/get"
    (Server.api production auth_service authorizer limiter manager)
    (Handler.GetNotificationProvider handler).
Lemma api_answers_once_witness :
  ∃ server, Server.NewServer (DB := Tables) production handler auth_service authorizer limiter
    manager true build = (Some server, nil_err) ∧
  one_route ∈ server.(Server_routes) ∧
  ∃ status r c' w', Server.serve server one_route get_provider empty = (c', w') ∧
    answers status r c' ∧ r.(Response.RequestID) = requestID c'.
Proof.
  eexists. split; [reflexivity|].
  eapply (api_answers_once production handler auth_service authorizer limiter manager true build _ one_route
    get_provider empty); [reflexivity| | | |].
  - do 6 (apply elem_of_cons; right). apply elem_of_cons. by left.
  - split; [apply elem_of_cons; by left|reflexivity].
  - by split.
  - reflexivity.
Defined.

(** A request over HTTP, one over gRPC, a claim and a round of the cleaner. *)
Definition happenings : list Happening := [
  HappenHTTP process 12 get_provider;
  HappenGRPC process (λ _, "code") call_metadata
    (Pb.SendRequest "acme" "shop" "welcome" "email" "en" "ada@example.org" "k-1" None) Background;
  HappenBackground ActClaim; HappenBackground (ActClean cleaner 3)].
Lemma served_executions_refine_witness :
  view (w_db empty) = no_rows ∧
  reachable dispatcher.(Dispatcher_cfg) (state_of (execution dispatcher happenings empty)).
Proof.
  split; [reflexivity|].
  exact (served_executions_refine dispatcher ltac:(by vm_compute) happenings empty eq_refl).
Defined.

(** ** A request, and its repetition after it was executed *)
Definition first_answer : Response.t := Response.mk 0 "success" (JObj []) "r-1".
#[local] Instance remembering : Externals :=
  answering (λ _ _ _, nil_err) (λ _ _, inr nil_err) (λ n,
    if (n =? 0)%nat then acquired
    else mkDecision StateCompleted (json_MarshalResponse (kept_response first_answer))
           (mkFailure 0 "" 0) "").
Definition keyed_request (id : string) : Gin :=
  { get_provider with
    gin_ctx := Idempotency.WithContext Background "k-1"; gin_request_id := Some id }.
Definition paths : list string := ["/api/v1/notifications/**"; "/api/v1/notifications/providers/*"].
Lemma idempotent_replay_witness :
  ∃ c2 w2, Http.IdempotencyExecution (H := remembering) (Some manager) paths (finish (OK (JObj [])))
    (keyed_request "r-1") empty = (c2, w2) ∧ w_db w2 = w_db empty ∧
  ∃ c3, Http.IdempotencyExecution (H := remembering) (Some manager) paths (λ c, ret { c with gin_panic := true })
    (keyed_request "r-2") w2 = (c3, begun "k-1" (keyed_request "r-2") w2) ∧
  answers 200 (Response.mk 0 "success" JNull "r-2") c3.
Proof.
  assert (keyed (Some manager) paths "k-1" (keyed_request "r-1")) as Hk by (split_and!; by vm_compute).
  assert (keyed (Some manager) paths "k-1" (keyed_request "r-2")) as Hk' by (split_and!; by vm_compute).
  assert (answers 200 first_answer (OK (JObj []) (reread (keyed_request "r-1")))) as Ha
    by (split_and!; by vm_compute).
  destruct (idempotent_replay (H := remembering) (Some manager) paths "k-1" (finish (OK (JObj [])))
    (keyed_request "r-1") empty acquired _ _ 200 first_answer
    Hk (conj eq_refl eq_refl) eq_refl eq_refl eq_refl eq_refl Ha) as [(w2 & E & Hd & _) Hr].
  eexists _, w2. split; [exact E|]. split; [exact Hd|].
  assert (w_tick w2 = 2%nat) as Ht.
  { apply (f_equal (λ x, w_tick x.2)) in E. cbn -[Http.IdempotencyExecution] in E. rewrite <- E. by vm_compute. }
  refine (Hr _ (keyed_request "r-2") w2
    (mkDecision StateCompleted (json_MarshalResponse (kept_response first_answer)) (mkFailure 0 "" 0) "")
    Hk' (conj eq_refl eq_refl) _ _); [by cbn; rewrite Ht|by vm_compute].
Defined.

(** ** The clients *)
Definition grpc_client : ClientConn := mkClientConn
  (GrpcClient.upstream_config (Some true) "authorization" authorization) None.
Lemma Invoke_bounded_witness :
  ∃ w', let cfg := Conn_config grpc_client in
  GrpcClient.Invoke (H := externals) cfg Background "/authz/Check" empty = (nil_err, w') ∧
  w_db w' = w_db empty ∧ ∃ l, w_log w' = w_log empty ++ l ∧
    (invoke_count l ≤ allowed_attempts cfg Background "/authz/Check")%nat ∧
    Forall (outgoing "/authz/Check" (sent_context cfg Background)
      cfg.(Client_Retry).(Retry_MaxBackoff)) l.
Proof.
  eexists. cbv zeta.
  assert (GrpcClient.Invoke (H := externals) (Conn_config grpc_client) Background
    "/authz/Check" empty = (nil_err, _)) as E by reflexivity.
  split; [exact E|].
  exact (Invoke_bounded (H := externals) (Conn_config grpc_client) Background "/authz/Check" empty _ _ E).
Defined.

Lemma registry_connections_witness :
  ∃ r, GrpcClient.NewRegistry (λ _, nil_err) production (Some true) = (Some r, nil_err) ∧
  ∃ conn, GrpcClient.GRPC r "authorization" = Some conn ∧
    Conn_config conn = GrpcClient.upstream_config (Some true) "authorization" authorization.
Proof.
  assert (∃ r, GrpcClient.NewRegistry (λ _, nil_err) production (Some true) = (Some r, nil_err)) as [r Hr]
    by (apply succeeded_some; vm_compute; reflexivity).
  exists r. split; [exact Hr|].
  pose proof (registry_connections (λ _, nil_err) production (Some true) r "authorization" Hr) as Hc.
  assert (production.(Config_Outbound).(Outbound_GRPC) !! "authorization" = Some authorization) as Ha
    by (vm_compute; reflexivity).
  rewrite Ha in Hc. destruct Hc as (conn & Hg & Hcfg & _).
  exact (ex_intro _ conn (conj Hg Hcfg)).
Defined.

(** ** The job, the migrations, the start *)
Lemma runSample_locked_witness :
  ∃ w', Scheduler.runSample (H := externals) true empty = (nil_err, w') ∧
  w_log w' = [EvLock "lock:cron:sample"; EvJob "sample"; EvUnlock "lock:cron:sample"].
Proof.
  eexists. split; [reflexivity|].
  exact (proj1 (proj2 (runSample_locked (H := externals) true empty nil_err _ eq_refl))).
Defined.

Definition migration : Migration :=
  mkMigration true true "migrations" "postgres://db/app" "schema_migrations" "notification" "app".
Lemma Run_success_witness :
  ∃ w' url, Migration.Run (H := externals) migration "up" 0 empty = (nil_err, w') ∧
  (schema_statements migration url ≠ [] →
   validMigrationTable migration.(Migration_Schema) = true).
Proof.
  assert (∃ w', Migration.Run (H := externals) migration "up" 0 empty = (nil_err, w')) as [w' Hr]
    by (apply nil_run; vm_compute; reflexivity).
  destruct (Run_success (H := externals) migration "up" 0 empty w' Hr)
    as (absPath & url & _ & _ & Hv & _).
  exists w', url. split; [exact Hr|exact Hv].
Defined.

Definition postgres : Database := {|
  Database_Enabled := true; Database_Name := "app"; Database_Schema := "notification";
  Database_Type := "postgres"; Database_DSN := "postgres://db"; Database_MaxOpenConns := 10;
  Database_MaxIdleConns := 5; Database_ConnMaxLifetime := hour; Database_ConnMaxIdleTime := minute;
  Database_PingTimeout := second |}.
Lemma Open_session_witness :
  ∃ pool w', Open (H := externals) postgres empty = ((Some pool, nil_err), w') ∧
  w_log w' = [EvOpen "database"; EvPing "database"].
Proof.
  do 2 eexists. split; [reflexivity|].
  exact (proj1 (proj2 (proj2 (Open_session (H := externals) postgres empty (Some _) nil_err _
    ltac:(discriminate) eq_refl)))).
Defined.

Definition started : Config :=
  { production with
    Config_Database := postgres; Config_Migration := migration;
    Config_Outbound ::= (λ o, { o with
      Outbound_GRPC := {[ "authorization" := authorization; "application" := authorization ]} }) }.
Definition idempotency_New (_ : ManagerConfig) (client : bool) : IdempotencyManager :=
  mkIdempotencyManager client.
Definition serving : IO Tables unit := emit (EvJob "requests").
Lemma New_migrates_first_witness :
  ∃ s w', Container.New (H := externals) idempotency_New build started empty = ((s, nil_err), w') ∧
  w_db w' = w_db empty ∧ is_Some (Container.built s PHTTP).
Proof.
  destruct (Container.New (H := externals) idempotency_New build started empty) as [[s err] w'] eqn:Hn.
  assert (err = nil_err) as He.
  { apply (f_equal (λ x, x.1.2)) in Hn. cbn [fst snd] in Hn. rewrite <- Hn. vm_compute. reflexivity. }
  subst err. exists s, w'. split; [exact eq_refl|].
  destruct (New_migrates_first (H := externals) idempotency_New build started empty s nil_err w' Hn)
    as (Hd & first & migration & rest & _ & _ & _ & _ & Hok).
  split; [exact Hd|]. exact (proj1 (Hok eq_refl) PHTTP).
Defined.

Lemma New_deploys_witness :
  ∃ s w' i, Container.New (H := externals) idempotency_New build started empty = ((s, nil_err), w') ∧
  Container.built s PService = Some i.(Process_handler).(Handler_notifications) ∧
  i.(Process_handler).(Handler_notifications).(Service_transactor) = Transactor.New true.
Proof.
  destruct (Container.New (H := externals) idempotency_New build started empty) as [[s err] w'] eqn:Hn.
  assert (err = nil_err) as He.
  { apply (f_equal (λ x, x.1.2)) in Hn. cbn [fst snd] in Hn. rewrite <- Hn. vm_compute. reflexivity. }
  subst err.
  destruct (New_deploys (H := externals) idempotency_New build started empty s w' Hn)
    as (i & http & grpc & d & _ & _ & _ & Hs & _ & _ & _ & [(registry & v & _ & _ & _ & Ht & _) _ _ _ _ _]).
  exists s, w', i. split; [exact eq_refl|]. split; [exact Hs|].
  exact (f_equal Service_transactor Ht).
Defined.

Lemma shutdown_order_witness :
  ∃ w', Container.Run (H := externals) idempotency_New build started serving empty = (0, w') ∧
  loops_ended (w_log w') ∧ ∀ p, opened p (w_log w') = closed p (w_log w').
Proof.
  destruct (Container.Run (H := externals) idempotency_New build started serving empty) as [status w'] eqn:Hr.
  assert (status = 0) as Hs.
  { apply (f_equal fst) in Hr. cbn [fst] in Hr. rewrite <- Hr. vm_compute. reflexivity. }
  subst status. exists w'. split; [exact eq_refl|].
  assert (steady_serving serving) as Hq.
  { intros w0. exists [EvJob "requests"]. split; [reflexivity|].
    intros name. split; by intros [[=]|[]%not_elem_of_nil]%elem_of_cons. }
  destruct (shutdown_order (H := externals) idempotency_New build started serving empty 0 w' Hq Hr)
    as (l & Hl & _ & _ & _ & Hall).
  rewrite Hl. exact (Hall eq_refl).
Defined.

Definition staging : Api.Flags := Api.mkFlags "configs/config.yaml" " Staging " false.
Definition ran (r : Api.Outcome) : bool := match r with Api.Ran _ _ => true | _ => false end.
Lemma main_configured_witness :
  ∃ cfg status w', Api.main (H := externals) idempotency_New build staging serving empty
    = (Api.Ran cfg status, w') ∧ loaded "configs/config.yaml" cfg.
Proof.
  destruct (Api.main (H := externals) idempotency_New build staging serving empty) as [r w'] eqn:E.
  assert (ran r = true) as Hr.
  { change r with (r, w').1. rewrite <- E. vm_compute. reflexivity. }
  pose proof (main_configured (H := externals) idempotency_New build staging serving empty r w' E) as Hc.
  destruct r as [| |cfg status]; try discriminate Hr.
  exists cfg, status, w'. split; [exact eq_refl|]. exact (proj1 (proj2 (proj2 Hc))).
Defined.

(** Two rounds, the second after the cancellation. *)
Lemma stop_ends_rounds_witness :
  ∃ l, loop_run loop_initial [Start true; RoundEnds; CancelCall; Tick; RoundEnds; Done; StopReturns] l ∧
  lp_rounds l = 2%nat ∧ ∀ es' l', loop_run l es' l' → lp_rounds l' = lp_rounds l.
Proof.
  assert (loop_run loop_initial [Start true; RoundEnds; CancelCall; Tick; RoundEnds; Done; StopReturns]
    (mkLoop Exited true 2 true)) as Hr by (repeat (econstructor; [by constructor|]); constructor).
  exists (mkLoop Exited true 2 true). split; [exact Hr|]. split; [reflexivity|].
  exact (proj1 (stop_ends_rounds _ _ Hr) eq_refl).
Defined.

Lemma NewMetrics_registers_witness :
  ∃ m : Metrics, Observability.NewMetrics production true true = Some m ∧
  Observability.program_collectors m ⊆ m.(Metrics_registry).
Proof.
  destruct (NewMetrics_registers (H := ConcreteServer.prometheus) (registered := λ r, r) production true true) as (m & Hm & _ & _ & Hs).
  exists m. by split.
Defined.
